(** * Gradient boosted trees: losses, ranking index and inference

    A shallow embedding of the numerical core of
    [learner/gradient_boosted_trees/gradient_boosted_trees_loss.cc] and of
    [model/gradient_boosted_trees/gradient_boosted_trees.cc], and of
    [PredictionToExample] of [utils/evaluation.cc], followed by the
    properties of that code.

    The C++ computes on [float] and [double].  The embedding is written once
    over an interface [Arith] that names every operation together with the
    format it is carried out in, and every conversion the C++ does silently.
    Two instances interpret it:
    - [IEEE]: binary32 / binary64 with round to nearest even, infinities,
      signed zeros and NaN, over the Standard Library's [spec_float];
    - [Exact]: the real numbers, where a conversion is the identity.

    Conventions of the embedding.
    - An output parameter ([std::vector<float>* predictions], [float*
      loss_value], a proto being filled) is an argument and a component of the
      result.
    - [absl::Status] is [Status]; [utils::StatusOr<T>] is [StatusOr T].
    - [LOG(FATAL)] and a failed [CHECK] end the process: a function that can
      reach one returns an [outcome].
    - [v[i]] on a [std::vector] is [v !!! i], and [v[i] = x] is
      [<[i:=x]> v]; an access outside the vector is undefined behaviour in
      C++: here such a read gives the default value and such a write does
      nothing.
    - [DCHECK] and [DCheckIsFinite] are compiled out of release builds and
      [LOG(INFO)], [LOG(WARNING)] and the usage sink only report: none of them
      appears below. *)

From Stdlib Require Import ZArith Reals Lra Lia List String Permutation.
From Stdlib Require Import Sorting.Sorted Floats.SpecFloat.
From stdpp Require Import base list gmap.

Local Open Scope nat_scope.

(** ** Arithmetic *)

(** [float] and [double]. *)
Inductive format := binary32 | binary64.

Class Arith (F : Type) : Type := {
  (** an integer, or a [bool], converted to the format *)
  of_int : format -> Z -> F;
  (** [static_cast], and the implicit widening of a [float] operand *)
  cast : format -> F -> F;
  fadd : format -> F -> F -> F;
  fsub : format -> F -> F -> F;
  fmul : format -> F -> F -> F;
  fdiv : format -> F -> F -> F;
  fneg : F -> F;
  fabs : F -> F;
  (** [std::exp], [std::log], [std::sqrt] *)
  f_exp : format -> F -> F;
  f_log : format -> F -> F;
  f_sqrt : format -> F -> F;
  (** [==], [<], [<=] on two operands of one format *)
  feq : F -> F -> bool;
  flt : F -> F -> bool;
  fle : F -> F -> bool;
  (** [std::numeric_limits<float>::max()] *)
  FLT_MAX : F
}.

Definition fgt `{Arith F} (x y : F) : bool := flt y x.
Definition fge `{Arith F} (x y : F) : bool := fle y x.

Definition of_bool `{Arith F} (f : format) (b : bool) : F :=
  of_int f (if b then 1 else 0)%Z.

(** The decimal literal [n/d] of the given format: both integers are
    representable in the uses below, so the correctly rounded quotient is the
    value the compiler gives the literal. *)
Definition literal `{Arith F} (f : format) (n d : Z) : F :=
  fdiv f (of_int f n) (of_int f d).

(** *** IEEE 754 instance *)

Module IEEE.

Definition prec (f : format) : Z :=
  match f with binary32 => 24 | binary64 => 53 end.
Definition emax (f : format) : Z :=
  match f with binary32 => 128 | binary64 => 1024 end.

Definition quiet_NaN : spec_float := S754_nan.
Definition pos_zero : spec_float := S754_zero false.
Definition pos_inf : spec_float := S754_infinity false.
Definition neg_inf : spec_float := S754_infinity true.

Definition isnan (x : spec_float) : bool :=
  match x with S754_nan => true | _ => false end.

Definition sf_of_int (f : format) (z : Z) : spec_float :=
  binary_normalize (prec f) (emax f) z 0 false.

(** Every operation of [SpecFloat] returns the canonical mantissa and
    exponent of its format, and [SFcompare] compares them field by field:
    a value enters an operation of another format through [sf_cast].
    Widening is exact, narrowing rounds. *)
Definition sf_cast (f : format) (x : spec_float) : spec_float :=
  match x with
  | S754_finite s m e => binary_round (prec f) (emax f) s m e
  | _ => x
  end.

(** What the C library computes strictly inside the range of a format is
    left to the library in use. *)
Class Libm := {
  libm_exp : format -> spec_float -> spec_float;
  libm_log : format -> spec_float -> spec_float
}.

(** Arguments from which [exp] certainly overflows the format, and from
    which it certainly rounds to zero: [e^89 > 2^128] and [e^(-104) <
    2^(-150)]; [e^710 > 2^1024] and [e^(-746) < 2^(-1075)]. *)
Definition exp_overflows (f : format) : Z :=
  match f with binary32 => 89 | binary64 => 710 end.
Definition exp_underflows (f : format) : Z :=
  match f with binary32 => -104 | binary64 => -746 end.

(** [exp] as Annex F of the C standard fixes it at the special values and
    outside the range of the format. *)
Definition sf_exp `{Libm} (f : format) (x : spec_float) : spec_float :=
  match x with
  | S754_nan => S754_nan
  | S754_infinity false => pos_inf
  | S754_infinity true => pos_zero
  | S754_zero _ => sf_of_int f 1
  | S754_finite _ _ _ =>
      if SFleb (sf_of_int f (exp_overflows f)) x then pos_inf
      else if SFleb x (sf_of_int f (exp_underflows f)) then pos_zero
      else libm_exp f x
  end.

(** [log] as Annex F fixes it at the special values. *)
Definition sf_log `{Libm} (f : format) (x : spec_float) : spec_float :=
  match x with
  | S754_nan => S754_nan
  | S754_infinity false => pos_inf
  | S754_infinity true => S754_nan
  | S754_zero _ => neg_inf
  | S754_finite true _ _ => S754_nan
  | S754_finite false _ _ =>
      if SFeqb x (sf_of_int f 1) then pos_zero else libm_log f x
  end.

#[global] Instance arith `{Libm} : Arith spec_float := {
  of_int := sf_of_int;
  cast := sf_cast;
  fadd f := SFadd (prec f) (emax f);
  fsub f := SFsub (prec f) (emax f);
  fmul f := SFmul (prec f) (emax f);
  fdiv f := SFdiv (prec f) (emax f);
  fneg := SFopp;
  fabs := SFabs;
  f_exp := sf_exp;
  f_log := sf_log;
  f_sqrt f := SFsqrt (prec f) (emax f);
  feq := SFeqb;
  flt := SFltb;
  fle := SFleb;
  FLT_MAX := SFmax_float 24 128
}.

End IEEE.

(** *** Exact instance *)

Module Exact.

#[global] Instance arith : Arith R := {
  of_int _ z := IZR z;
  cast _ x := x;
  fadd _ := Rplus;
  fsub _ := Rminus;
  fmul _ := Rmult;
  fdiv _ := Rdiv;
  fneg := Ropp;
  fabs := Rabs;
  f_exp _ := exp;
  f_log _ := ln;
  f_sqrt _ := sqrt;
  feq x y := if Req_dec_T x y then true else false;
  flt x y := if Rlt_dec x y then true else false;
  fle x y := if Rle_dec x y then true else false;
  FLT_MAX := IZR (16777215 * 2 ^ 104)
}.

End Exact.

(** ** Results *)

Inductive StatusCode := kInvalidArgument | kInternal | kUnimplemented.

Inductive Status :=
| OkStatus
| ErrorStatus (code : StatusCode) (message : string).

Definition InvalidArgumentError : string -> Status := ErrorStatus kInvalidArgument.
Definition InternalError : string -> Status := ErrorStatus kInternal.

Inductive StatusOr (A : Type) :=
| Value (a : A)
| Failed (status : Status).
Arguments Value {A} a.
Arguments Failed {A} status.

(** A call either returns, or the process is ended by [LOG(FATAL)]. *)
Inductive outcome (A : Type) :=
| Returns (a : A)
| Fatal (message : string).
Arguments Returns {A} a.
Arguments Fatal {A} message.

#[export] Instance outcome_ret : MRet outcome := @Returns.
#[export] Instance outcome_bind : MBind outcome := fun A B k c =>
  match c with
  | Returns a => k a
  | Fatal message => Fatal message
  end.

(** ** Data model *)

#[export] Instance arith_inhabited `{Arith F} : Inhabited F :=
  populate (of_int binary32 0).

(** [dataset::VerticalDataset]: typed columns of [nrow] values each. *)
Inductive Column (F : Type) :=
| NumericalColumn (values : list F)
| CategoricalColumn (values : list Z)
| HashColumn (values : list Z).
Arguments NumericalColumn {F} values.
Arguments CategoricalColumn {F} values.
Arguments HashColumn {F} values.

Record VerticalDataset (F : Type) := {
  nrow : nat;
  columns : list (Column F)
}.
Arguments Build_VerticalDataset {F}.
Arguments nrow {F}.
Arguments columns {F}.

(** [ColumnWithCast<T>] ends the process when the column is not a [T];
    [ColumnWithCastOrNull<T>] gives a null pointer instead. *)
Definition ColumnWithCast_NumericalColumn {F} (dataset : VerticalDataset F)
    (col_idx : nat) : outcome (list F) :=
  match columns dataset !! col_idx with
  | Some (NumericalColumn values) => Returns values
  | _ => Fatal "Column is not a NumericalColumn"
  end.

Definition ColumnWithCast_CategoricalColumn {F} (dataset : VerticalDataset F)
    (col_idx : nat) : outcome (list Z) :=
  match columns dataset !! col_idx with
  | Some (CategoricalColumn values) => Returns values
  | _ => Fatal "Column is not a CategoricalColumn"
  end.

Definition ColumnWithCastOrNull_CategoricalColumn {F}
    (dataset : VerticalDataset F) (col_idx : nat) : option (list Z) :=
  match columns dataset !! col_idx with
  | Some (CategoricalColumn values) => Some values
  | _ => None
  end.

Definition ColumnWithCastOrNull_HashColumn {F}
    (dataset : VerticalDataset F) (col_idx : nat) : option (list Z) :=
  match columns dataset !! col_idx with
  | Some (HashColumn values) => Some values
  | _ => None
  end.

(** [dataset::proto::Example]. *)
Inductive Attribute (F : Type) :=
| Numerical (value : F)
| Categorical (value : Z)
| Missing.
Arguments Numerical {F} value.
Arguments Categorical {F} value.
Arguments Missing {F}.

Definition Example (F : Type) := list (Attribute F).

(** The regressor of a leaf, [decision_tree::proto::NodeRegressorOutput]. *)
Record Regressor (F : Type) := {
  top_value : F;
  sum_gradients : option F;
  sum_hessians : option F;
  sum_weights : option F
}.
Arguments Build_Regressor {F}.
Arguments top_value {F}.
Arguments sum_gradients {F}.
Arguments sum_hessians {F}.
Arguments sum_weights {F}.

Record Node (F : Type) := { regressor : Regressor F }.
Arguments Build_Node {F}.
Arguments regressor {F}.

Definition set_top_value {F} (v : F) (node : Node F) : Node F :=
  {| regressor :=
       {| top_value := v;
          sum_gradients := sum_gradients (regressor node);
          sum_hessians := sum_hessians (regressor node);
          sum_weights := sum_weights (regressor node) |} |}.

Definition set_sums {F} (g h w : F) (node : Node F) : Node F :=
  {| regressor :=
       {| top_value := top_value (regressor node);
          sum_gradients := Some g;
          sum_hessians := Some h;
          sum_weights := Some w |} |}.

(** A [decision_tree::DecisionTree] is used through the leaf it routes a row
    of a dataset, or an example, to. *)
Record DecisionTree (F : Type) := {
  GetLeaf : VerticalDataset F -> nat -> Node F;
  GetLeaf_Example : Example F -> Node F
}.
Arguments Build_DecisionTree {F}.
Arguments GetLeaf {F}.
Arguments GetLeaf_Example {F}.

Inductive Task := UNDEFINED | CLASSIFICATION | REGRESSION | RANKING.

Inductive Loss :=
| DEFAULT
| BINOMIAL_LOG_LIKELIHOOD
| SQUARED_ERROR
| MULTINOMIAL_LOG_LIKELIHOOD
| LAMBDA_MART_NDCG5
| XE_NDCG_MART.

#[export] Instance Task_eq_dec : EqDecision Task.
Proof. solve_decision. Defined.
#[export] Instance Loss_eq_dec : EqDecision Loss.
Proof. solve_decision. Defined.

(** ** Inference: [GradientBoostedTreesModel::Predict] *)

(** [utils::proto::IntegerDistributionFloat] and [model::proto::Prediction];
    the kinds of prediction form a [oneof]. *)
Record Distribution (F : Type) := {
  counts : list F;
  sum : F
}.
Arguments Build_Distribution {F}.
Arguments counts {F}.
Arguments sum {F}.

Record Classification (F : Type) := {
  value : Z;
  distribution : Distribution F
}.
Arguments Build_Classification {F}.
Arguments value {F}.
Arguments distribution {F}.

Inductive Prediction (F : Type) :=
| type_not_set
| classification (c : Classification F)
| regression (value : F)
| ranking (relevance : F).
Arguments type_not_set {F}.
Arguments classification {F} c.
Arguments regression {F} value.
Arguments ranking {F} relevance.

Record GradientBoostedTreesModel (F : Type) := {
  task : Task;
  loss_ : Loss;
  initial_predictions_ : list F;
  num_trees_per_iter_ : nat;
  decision_trees_ : list (DecisionTree F)
}.
Arguments Build_GradientBoostedTreesModel {F}.
Arguments task {F}.
Arguments loss_ {F}.
Arguments initial_predictions_ {F}.
Arguments num_trees_per_iter_ {F}.
Arguments decision_trees_ {F}.

(** [RepeatedField::Resize(new_size, value)]. *)
Definition Resize {A} (new_size : nat) (v : A) (l : list A) : list A :=
  take new_size l ++ replicate (new_size - length l) v.

Section Inference.
Context {F : Type} `{Arith F}.

Definition mutable_classification (prediction : Prediction F) : Classification F :=
  match prediction with
  | classification c => c
  | _ => {| value := 0; distribution := {| counts := []; sum := of_int binary32 0 |} |}
  end.

(** The callback of [CallOnAllLeafs] updates variables it captured by
    reference: it is a function on their values [S]. *)
Definition CallOnAllLeafs {S} (model : GradientBoostedTreesModel F)
    (dataset : VerticalDataset F) (row_idx : nat)
    (callback : Node F -> S -> S) (captured : S) : S :=
  foldl (fun st tree => callback (GetLeaf tree dataset row_idx) st)
        captured (decision_trees_ model).

Definition CallOnAllLeafs_Example {S} (model : GradientBoostedTreesModel F)
    (example : Example F)
    (callback : Node F -> S -> S) (captured : S) : S :=
  foldl (fun st tree => callback (GetLeaf_Example tree example) st)
        captured (decision_trees_ model).

(** [accumulator += node.regressor().top_value()] on a [double]. *)
Definition add_top_value (node : Node F) (accumulator : F) : F :=
  fadd binary64 accumulator (cast binary64 (top_value (regressor node))).

(** The callback of the multinomial case, on [(accumulator,
    accumulator_cell_idx)]. *)
Definition add_top_value_to_cell (num_trees_per_iter : nat) (node : Node F)
    (st : list F * nat) : list F * nat :=
  let '(accumulator, accumulator_cell_idx) := st in
  let accumulator :=
    <[accumulator_cell_idx :=
        fadd binary32 (accumulator !!! accumulator_cell_idx)
                      (top_value (regressor node))]> accumulator in
  let accumulator_cell_idx := accumulator_cell_idx + 1 in
  (accumulator,
   if decide (accumulator_cell_idx = num_trees_per_iter) then 0
   else accumulator_cell_idx).

(** First loop of the multinomial case, on [(sum_exp, counts)]. *)
Definition exp_loop (accumulator : list F) (num_trees_per_iter : nat)
    (st : F * list F) : F * list F :=
  foldl (fun '(sum_exp, counts) accumulator_idx =>
           let exp_val := f_exp binary32 (accumulator !!! accumulator_idx) in
           (fadd binary32 sum_exp exp_val,
            <[accumulator_idx + 1 := exp_val]> counts))
        st (seq 0 num_trees_per_iter).

(** Second loop, on [(highest_cell_value, highest_cell_idx, counts)]. *)
Definition normalize_loop (normalization : F) (num_trees_per_iter : nat)
    (st : F * nat * list F) : F * nat * list F :=
  foldl (fun '(highest_cell_value, highest_cell_idx, counts) accumulator_idx =>
           let value := counts !!! (accumulator_idx + 1) in
           let '(highest_cell_value, highest_cell_idx) :=
             if fgt value highest_cell_value then (value, accumulator_idx)
             else (highest_cell_value, highest_cell_idx) in
           (highest_cell_value, highest_cell_idx,
            <[accumulator_idx + 1 := fmul binary32 value normalization]> counts))
        st (seq 0 num_trees_per_iter).

Definition binomial_prediction (accumulator : F) (prediction : Prediction F)
    : Prediction F :=
  let proba_true :=
    cast binary32
      (fdiv binary64 (of_int binary64 1)
         (fadd binary64 (of_int binary64 1) (f_exp binary64 (fneg accumulator)))) in
  let value := if fgt proba_true (literal binary32 1 2) then 2%Z else 1%Z in
  let dist := distribution (mutable_classification prediction) in
  let counts := Resize 3 (of_int binary32 0) (counts dist) in
  let counts := <[1 := fsub binary32 (of_int binary32 1) proba_true]> counts in
  let counts := <[2 := proba_true]> counts in
  classification
    {| value := value;
       distribution := {| counts := counts; sum := of_int binary32 1 |} |}.

Definition sum_of_leaves (model : GradientBoostedTreesModel F)
    (dataset : VerticalDataset F) (row_idx : nat) : F :=
  CallOnAllLeafs model dataset row_idx add_top_value
    (cast binary64 (initial_predictions_ model !!! 0)).

Definition sum_of_leaves_Example (model : GradientBoostedTreesModel F)
    (example : Example F) : F :=
  CallOnAllLeafs_Example model example add_top_value
    (cast binary64 (initial_predictions_ model !!! 0)).

Definition multinomial_accumulator (model : GradientBoostedTreesModel F)
    (dataset : VerticalDataset F) (row_idx : nat) : list F * nat :=
  CallOnAllLeafs model dataset row_idx
    (add_top_value_to_cell (num_trees_per_iter_ model))
    (replicate (num_trees_per_iter_ model) (of_int binary32 0), 0).

Definition multinomial_accumulator_Example (model : GradientBoostedTreesModel F)
    (example : Example F) : list F * nat :=
  CallOnAllLeafs_Example model example
    (add_top_value_to_cell (num_trees_per_iter_ model))
    (replicate (num_trees_per_iter_ model) (of_int binary32 0), 0).

(** [Predict(dataset, row_idx, prediction)]. *)
Definition Predict (model : GradientBoostedTreesModel F)
    (dataset : VerticalDataset F) (row_idx : nat)
    (prediction : Prediction F) : outcome (Prediction F) :=
  match loss_ model with
  | BINOMIAL_LOG_LIKELIHOOD =>
      Returns (binomial_prediction (sum_of_leaves model dataset row_idx) prediction)
  | MULTINOMIAL_LOG_LIKELIHOOD =>
      let num_trees_per_iter := num_trees_per_iter_ model in
      let '(accumulator, _) := multinomial_accumulator model dataset row_idx in
      let c := mutable_classification prediction in
      let counts :=
        Resize (num_trees_per_iter + 1) (of_int binary32 0) (counts (distribution c)) in
      let '(sum_exp, counts) :=
        exp_loop accumulator num_trees_per_iter (of_int binary32 0, counts) in
      let normalization :=
        if fgt sum_exp (of_int binary32 0)
        then fdiv binary32 (of_int binary32 1) sum_exp
        else of_int binary32 0 in
      let '(_, highest_cell_idx, counts) :=
        normalize_loop normalization num_trees_per_iter
          (of_int binary32 0, 0, counts) in
      Returns (classification
                 {| value := Z.of_nat highest_cell_idx + 1;
                    distribution :=
                      {| counts := counts; sum := of_int binary32 1 |} |})
  | SQUARED_ERROR =>
      let accumulator := sum_of_leaves model dataset row_idx in
      if decide (task model = RANKING)
      then Returns (ranking (cast binary32 accumulator))
      else if decide (task model = REGRESSION)
      then Returns (regression (cast binary32 accumulator))
      else Fatal "Non supported task"
  | LAMBDA_MART_NDCG5 | XE_NDCG_MART =>
      Returns (ranking (cast binary32 (sum_of_leaves model dataset row_idx)))
  | DEFAULT => Fatal "Not implemented"
  end.

(** [Predict(example, prediction)]. *)
Definition Predict_Example (model : GradientBoostedTreesModel F)
    (example : Example F) (prediction : Prediction F)
    : outcome (Prediction F) :=
  match loss_ model with
  | BINOMIAL_LOG_LIKELIHOOD =>
      Returns (binomial_prediction (sum_of_leaves_Example model example) prediction)
  | MULTINOMIAL_LOG_LIKELIHOOD =>
      let num_trees_per_iter := num_trees_per_iter_ model in
      let '(accumulator, accumulator_cell_idx) :=
        multinomial_accumulator_Example model example in
      if decide (accumulator_cell_idx = 0) then
        let c := mutable_classification prediction in
        let counts :=
          Resize (num_trees_per_iter + 1) (of_int binary32 0)
                 (counts (distribution c)) in
        let '(sum_exp, counts) :=
          exp_loop accumulator num_trees_per_iter (of_int binary32 0, counts) in
        let normalization := fdiv binary32 (of_int binary32 1) sum_exp in
        let '(_, highest_cell_idx, counts) :=
          normalize_loop normalization num_trees_per_iter
            (of_int binary32 0, 0, counts) in
        Returns (classification
                   {| value := Z.of_nat highest_cell_idx + 1;
                      distribution :=
                        {| counts := counts; sum := of_int binary32 1 |} |})
      else Fatal "Check failed: accumulator_cell_idx == 0"
  | SQUARED_ERROR =>
      Returns (regression (cast binary32 (sum_of_leaves_Example model example)))
  | LAMBDA_MART_NDCG5 | XE_NDCG_MART =>
      Returns (ranking (cast binary32 (sum_of_leaves_Example model example)))
  | DEFAULT => Fatal "Not implemented"
  end.

End Inference.

(** ** Training: configuration, gradients and the code outside this file *)

(** The fields of [proto::GradientBoostedTreesTrainingConfig] the losses
    read; the numeric ones are [float]. *)
Record GradientBoostedTreesTrainingConfig (F : Type) := {
  shrinkage : F;
  l1_regularization : F;
  l2_regularization : F;
  clamp_leaf_logit : F;
  use_hessian_gain : bool;
  lambda_loss : F;
  gradient_use_non_normalized_dcg : bool
}.
Arguments Build_GradientBoostedTreesTrainingConfig {F}.
Arguments shrinkage {F}.
Arguments l1_regularization {F}.
Arguments l2_regularization {F}.
Arguments clamp_leaf_logit {F}.
Arguments use_hessian_gain {F}.
Arguments lambda_loss {F}.
Arguments gradient_use_non_normalized_dcg {F}.

(** [GradientData]: [gradient] is a vector, [hessian] points to one. *)
Record GradientData (F : Type) := {
  gradient : list F;
  hessian : list F
}.
Arguments Build_GradientData {F}.
Arguments gradient {F}.
Arguments hessian {F}.

#[export] Instance GradientData_inhabited {F} : Inhabited (GradientData F) :=
  populate {| gradient := []; hessian := [] |}.

(** [RankingGroupsIndices::Item], [::Group]. *)
Record Item (F : Type) := {
  relevance : F;
  example_idx : nat
}.
Arguments Build_Item {F}.
Arguments relevance {F}.
Arguments example_idx {F}.

Record Group (F : Type) := {
  group_idx : Z;
  items : list (Item F)
}.
Arguments Build_Group {F}.
Arguments group_idx {F}.
Arguments items {F}.

Record RankingGroupsIndices (F : Type) := {
  groups_ : list (Group F);
  num_items_ : nat
}.
Arguments Build_RankingGroupsIndices {F}.
Arguments groups_ {F}.
Arguments num_items_ {F}.

#[export] Instance Item_inhabited `{Arith F} : Inhabited (Item F) :=
  populate {| relevance := of_int binary32 0; example_idx := 0 |}.

(** Functions the losses call whose code is in other files of the
    repository or in the C++ library.  [NDCGCalculator] is constructed with a
    truncation and returns [double]s; [shuffle] is [std::shuffle] on the
    caller's [utils::RandomEngine], which permutes its argument. *)
Class Externals (F : Type) : Type := {
  SetRegressionLabelDistribution :
    VerticalDataset F -> list nat -> list F -> Node F -> Node F;
  NDCGCalculator_Term : nat -> F -> nat -> F;
  NDCGCalculator_NDCG : nat -> list (F * F) -> F;
  RandomEngine : Type;
  shuffle : forall A : Type, list A -> RandomEngine -> list A * RandomEngine;
  shuffle_Permutation :
    forall (A : Type) (l : list A) (random : RandomEngine),
      Permutation (shuffle A l random).1 l
}.
Arguments shuffle {F _ A} l random.

(** Formats with a NaN. *)
Class HasNaN (F : Type) : Type := {
  quiet_NaN : F;
  isnan : F -> bool
}.

#[export] Instance IEEE_HasNaN : HasNaN spec_float := {
  quiet_NaN := IEEE.quiet_NaN;
  isnan := IEEE.isnan
}.

Definition kMaximumItemsInRankingGroup : nat := 2000.
Definition kNDCG5Truncation : nat := 5.
Definition kBinomialLossSecondaryMetricClassificationIdx : nat := 0.

(** [std::sort(first, last, comp)], as insertion from the right.  Where
    [comp] orders the elements strictly and totally the sorted sequence is
    unique, and is the one [std::sort] leaves. *)
Fixpoint sort_insert {A} (comp : A -> A -> bool) (x : A) (l : list A) : list A :=
  match l with
  | [] => [x]
  | y :: l' => if comp y x then y :: sort_insert comp x l' else x :: y :: l'
  end.

Definition std_sort {A} (comp : A -> A -> bool) (l : list A) : list A :=
  foldr (sort_insert comp) [] l.

(** A loop whose body can end the process. *)
Fixpoint foldlM {A B} (body : B -> A -> outcome B) (st : B) (l : list A)
    : outcome B :=
  match l with
  | [] => Returns st
  | x :: l' => st' ← body st x; foldlM body st' l'
  end.

Section Training.
Context {F : Type} `{Arith F} `{Externals F}.

Definition kMinHessianForNewtonStep : F := literal binary32 1 1000.

(** Modelled from the spec: [decision_tree::l1_threshold] is declared in
    [learner/decision_tree/training.h]; the specification gives it as
    [soft_threshold(x, t) = sign(x) * max(|x| - t, 0)], here on [double]s. *)
Definition l1_threshold (value threshold : F) : F :=
  let sign :=
    if fgt value (of_int binary64 0) then of_int binary64 1
    else if flt value (of_int binary64 0) then of_int binary64 (-1)
    else of_int binary64 0 in
  let excess := fsub binary64 (fabs value) threshold in
  fmul binary64 sign
    (if flt excess (of_int binary64 0) then of_int binary64 0 else excess).

(** Modelled from the spec: [utils::clamp] is declared in
    [utils/compatibility.h]; it clamps a value to an interval, as
    [std::clamp] does. *)
Definition clamp (v lo hi : F) : F :=
  if flt v lo then lo else if flt hi v then hi else v.

(** Modelled from the spec: [metric::RMSE] is declared in [metric/metric.h];
    the specification gives the loss of the squared error as the RMSE and
    computes it, on its scenario S2, as the square root of the weighted mean
    of the squared errors, [sqrt (sum w_i (y_i - f_i)^2 / sum w_i)], with no
    case of its own for a total weight of zero.  The two sums are [double]s,
    as the sums of the [Loss] methods are; the result is a [float]. *)
Definition RMSE (labels predictions weights : list F) : F :=
  let '(sum_loss, sum_weights) :=
    foldl (fun '(sum_loss, sum_weights) example_idx =>
             let label := labels !!! example_idx in
             let prediction := predictions !!! example_idx in
             let weight := weights !!! example_idx in
             let error := fsub binary32 label prediction in
             (fadd binary64 sum_loss
                (cast binary64
                   (fmul binary32 weight (fmul binary32 error error))),
              fadd binary64 sum_weights (cast binary64 weight)))
          (of_int binary64 0, of_int binary64 0) (seq 0 (length labels)) in
  cast binary32 (f_sqrt binary64 (fdiv binary64 sum_loss sum_weights)).

(** *** [RankingGroupsIndices] *)

(** [tmp_groups[group_value].push_back(item)]. *)
Definition push_back_item (group_value : Z) (item : Item F)
    (tmp_groups : gmap Z (list (Item F))) : gmap Z (list (Item F)) :=
  <[group_value := default [] (tmp_groups !! group_value) ++ [item]]> tmp_groups.

(** The comparison that orders the items of a group. *)
Definition item_comp (a b : Item F) : bool :=
  if feq (relevance a) (relevance b)
  then bool_decide (example_idx b < example_idx a)
  else fgt (relevance a) (relevance b).

(** The comparison that orders the groups. *)
Definition group_comp (a b : Group F) : bool :=
  if decide (example_idx (items a !!! 0) = example_idx (items b !!! 0))
  then bool_decide (group_idx a < group_idx b)%Z
  else bool_decide (example_idx (items a !!! 0) < example_idx (items b !!! 0)).

(** The group of a row; a categorical value is an [int] converted to
    [uint64_t]. *)
Definition group_value_of (group_categorical_values group_hash_values : option (list Z))
    (example_idx : nat) : outcome Z :=
  match group_categorical_values, group_hash_values with
  | Some values, _ => Returns ((values !!! example_idx) `mod` 2 ^ 64)%Z
  | None, Some values => Returns (values !!! example_idx)
  | None, None => Fatal "Invalid group type"
  end.

Definition fill_index (label_values : list F)
    (group_categorical_values group_hash_values : option (list Z))
    (nrow : nat) : outcome (gmap Z (list (Item F))) :=
  foldlM (fun tmp_groups example_idx =>
            group_value ←
              group_value_of group_categorical_values group_hash_values example_idx;
            Returns (push_back_item group_value
                       {| relevance := label_values !!! example_idx;
                          example_idx := example_idx |}
                       tmp_groups))
         ∅ (seq 0 nrow).

(** The loop over [tmp_groups], whose order of iteration is the hash
    table's. *)
Definition sort_groups_items (tmp_groups : list (Z * list (Item F)))
    : outcome (list (Group F)) :=
  foldlM (fun groups '(group_first, group_second) =>
            let group_second := std_sort item_comp group_second in
            if decide (kMaximumItemsInRankingGroup < length group_second)
            then Fatal "The number of items in the group is greater than kMaximumItemsInRankingGroup"
            else Returns (groups ++ [{| group_idx := group_first;
                                        items := group_second |}]))
         [] tmp_groups.

(** [Initialize] on a newly constructed index. *)
Definition RankingGroupsIndices_Initialize (dataset : VerticalDataset F)
    (label_col_idx group_col_idx : nat) : outcome (RankingGroupsIndices F) :=
  label_values ← ColumnWithCast_NumericalColumn dataset label_col_idx;
  let group_categorical_values :=
    ColumnWithCastOrNull_CategoricalColumn dataset group_col_idx in
  let group_hash_values :=
    ColumnWithCastOrNull_HashColumn dataset group_col_idx in
  tmp_groups ←
    fill_index label_values group_categorical_values group_hash_values
               (nrow dataset);
  groups ← sort_groups_items (map_to_list tmp_groups);
  Returns {| groups_ := std_sort group_comp groups;
             num_items_ := nrow dataset |}.

Definition ExtractPredAndLabelRelevance (group : list (Item F))
    (predictions : list F) : list (F * F) :=
  (fun item => (predictions !!! example_idx item, relevance item)) <$> group.

(** [RankingGroupsIndices::NDCG]; the result is a [double]. *)
Definition RankingGroupsIndices_NDCG (index : RankingGroupsIndices F)
    (predictions weights : list F) (truncation : nat) : F :=
  let '(sum_weighted_ndcg, sum_weights) :=
    foldl (fun '(sum_weighted_ndcg, sum_weights) group =>
             let weight := weights !!! example_idx (items group !!! 0) in
             let pred_and_label_relevance :=
               ExtractPredAndLabelRelevance (items group) predictions in
             (fadd binary64 sum_weighted_ndcg
                (fmul binary64 (cast binary64 weight)
                   (NDCGCalculator_NDCG truncation pred_and_label_relevance)),
              fadd binary64 sum_weights (cast binary64 weight)))
          (of_int binary64 0, of_int binary64 0) (groups_ index) in
  fdiv binary64 sum_weighted_ndcg sum_weights.

(** *** Updating the predictions *)

Definition UpdatePredictionWithSingleUnivariateTree
    (dataset : VerticalDataset F) (tree : DecisionTree F)
    (predictions : list F) (mean_abs_prediction : option F)
    : list F * option F :=
  let '(predictions, sum_abs_predictions) :=
    foldl (fun '(predictions, sum_abs_predictions) example_idx =>
             let leaf := GetLeaf tree dataset example_idx in
             (<[example_idx :=
                  fadd binary32 (predictions !!! example_idx)
                                (top_value (regressor leaf))]> predictions,
              fadd binary64 sum_abs_predictions
                (cast binary64 (fabs (top_value (regressor leaf))))))
          (predictions, of_int binary64 0) (seq 0 (nrow dataset)) in
  (predictions,
   match mean_abs_prediction with
   | Some _ =>
       Some (fdiv binary64 sum_abs_predictions
               (of_int binary64 (Z.of_nat (nrow dataset))))
   | None => None
   end).

Definition UpdatePredictionWithMultipleUnivariateTrees
    (dataset : VerticalDataset F) (trees : list (DecisionTree F))
    (predictions : list F) (mean_abs_prediction : option F)
    : list F * option F :=
  let num_trees := length trees in
  let '(predictions, sum_abs_predictions) :=
    foldl (fun st example_idx =>
             foldl (fun '(predictions, sum_abs_predictions) grad_idx =>
                      match trees !! grad_idx with
                      | Some tree =>
                          let leaf := GetLeaf tree dataset example_idx in
                          let cell := grad_idx + example_idx * num_trees in
                          (<[cell :=
                               fadd binary32 (predictions !!! cell)
                                             (top_value (regressor leaf))]> predictions,
                           fadd binary64 sum_abs_predictions
                             (cast binary64 (fabs (top_value (regressor leaf)))))
                      | None => (predictions, sum_abs_predictions)
                      end)
                   st (seq 0 num_trees))
          (predictions, of_int binary64 0) (seq 0 (nrow dataset)) in
  (predictions,
   match mean_abs_prediction with
   | Some _ =>
       Some (fdiv binary64 sum_abs_predictions
               (of_int binary64 (Z.of_nat (nrow dataset))))
   | None => None
   end).

(** The four losses with one tree per iteration share this body. *)
Definition univariate_UpdatePredictions
    (new_trees : list (DecisionTree F)) (dataset : VerticalDataset F)
    (predictions : list F) (mean_abs_prediction : option F)
    : Status * list F * option F :=
  match new_trees with
  | [front] =>
      let '(predictions, mean_abs_prediction) :=
        UpdatePredictionWithSingleUnivariateTree
          dataset front predictions mean_abs_prediction in
      (OkStatus, predictions, mean_abs_prediction)
  | _ => (InternalError "Wrong number of trees", predictions, mean_abs_prediction)
  end.

Definition BinomialLogLikelihoodLoss_UpdatePredictions :=
  univariate_UpdatePredictions.
Definition MeanSquaredErrorLoss_UpdatePredictions :=
  univariate_UpdatePredictions.
Definition NDCGLoss_UpdatePredictions :=
  univariate_UpdatePredictions.
Definition CrossEntropyNDCGLoss_UpdatePredictions :=
  univariate_UpdatePredictions.

(** [dimension_] is the [int] [number_of_unique_values() - 1], at least
    [-1]; against the size of a vector the converted comparison agrees with
    the comparison of the integers. *)
Definition MultinomialLogLikelihoodLoss_UpdatePredictions (dimension_ : Z)
    (new_trees : list (DecisionTree F)) (dataset : VerticalDataset F)
    (predictions : list F) (mean_abs_prediction : option F)
    : Status * list F * option F :=
  if decide (Z.of_nat (length new_trees) ≠ dimension_)
  then (InternalError "Wrong number of trees", predictions, mean_abs_prediction)
  else
    let '(predictions, mean_abs_prediction) :=
      UpdatePredictionWithMultipleUnivariateTrees
        dataset new_trees predictions mean_abs_prediction in
    (OkStatus, predictions, mean_abs_prediction).

(** *** Initial predictions *)

Definition BinomialLogLikelihoodLoss_InitialPredictions
    (dataset : VerticalDataset F) (label_col_idx : nat) (weights : list F)
    : outcome (StatusOr (list F)) :=
  labels ← ColumnWithCast_CategoricalColumn dataset label_col_idx;
  let '(weighted_sum_positive, sum_weights) :=
    foldl (fun '(weighted_sum_positive, sum_weights) example_idx =>
             let sum_weights :=
               fadd binary64 sum_weights (cast binary64 (weights !!! example_idx)) in
             let weighted_sum_positive :=
               fadd binary64 weighted_sum_positive
                 (cast binary64
                    (fmul binary32 (weights !!! example_idx)
                       (of_bool binary32
                          (bool_decide (labels !!! example_idx = 2%Z))))) in
             (weighted_sum_positive, sum_weights))
          (of_int binary64 0, of_int binary64 0) (seq 0 (nrow dataset)) in
  let ratio_positive := fdiv binary64 weighted_sum_positive sum_weights in
  if feq ratio_positive (of_int binary64 0)
  then Returns (Value [fneg FLT_MAX])
  else if feq ratio_positive (of_int binary64 1)
  then Returns (Value [FLT_MAX])
  else Returns (Value [cast binary32
                         (f_log binary64
                            (fdiv binary64 ratio_positive
                               (fsub binary64 (of_int binary64 1) ratio_positive)))]).

Definition MeanSquaredErrorLoss_InitialPredictions
    (dataset : VerticalDataset F) (label_col_idx : nat) (weights : list F)
    : outcome (StatusOr (list F)) :=
  labels ← ColumnWithCast_NumericalColumn dataset label_col_idx;
  let '(weighted_sum_values, sum_weights) :=
    foldl (fun '(weighted_sum_values, sum_weights) example_idx =>
             let sum_weights :=
               fadd binary64 sum_weights (cast binary64 (weights !!! example_idx)) in
             let weighted_sum_values :=
               fadd binary64 weighted_sum_values
                 (cast binary64
                    (fmul binary32 (weights !!! example_idx)
                                   (labels !!! example_idx))) in
             (weighted_sum_values, sum_weights))
          (of_int binary64 0, of_int binary64 0) (seq 0 (nrow dataset)) in
  if fle sum_weights (of_int binary64 0)
  then Returns (Failed (InvalidArgumentError
         "The sum of weights are null. The dataset is either empty or contains null weights."))
  else Returns (Value [cast binary32 (fdiv binary64 weighted_sum_values sum_weights)]).

(** *** [BinomialLogLikelihoodLoss::SetLeaf] *)

Definition BinomialLogLikelihoodLoss_SetLeaf
    (gbt_config_ : GradientBoostedTreesTrainingConfig F)
    (train_dataset : VerticalDataset F) (selected_examples : list nat)
    (weights : list F) (predictions : list F) (label_col_idx : nat)
    (node : Node F) : outcome (Node F) :=
  let node :=
    if negb (use_hessian_gain gbt_config_)
    then SetRegressionLabelDistribution train_dataset selected_examples weights node
    else node in
  labels ← ColumnWithCast_CategoricalColumn train_dataset label_col_idx;
  let '(numerator, denominator, sum_weights) :=
    foldl (fun '(numerator, denominator, sum_weights) example_idx =>
             let weight := weights !!! example_idx in
             let label :=
               of_bool binary32 (bool_decide (labels !!! example_idx = 2%Z)) in
             let prediction := predictions !!! example_idx in
             let p :=
               fdiv binary32 (of_int binary32 1)
                 (fadd binary32 (of_int binary32 1)
                    (f_exp binary32 (fneg prediction))) in
             (fadd binary64 numerator
                (cast binary64 (fmul binary32 weight (fsub binary32 label p))),
              fadd binary64 denominator
                (cast binary64
                   (fmul binary32 (fmul binary32 weight p)
                      (fsub binary32 (of_int binary32 1) p))),
              fadd binary64 sum_weights (cast binary64 weight)))
          (of_int binary64 0, of_int binary64 0, of_int binary64 0)
          selected_examples in
  let denominator :=
    if fle denominator (cast binary64 kMinHessianForNewtonStep)
    then cast binary64 kMinHessianForNewtonStep
    else denominator in
  let node :=
    if use_hessian_gain gbt_config_
    then set_sums numerator denominator sum_weights node
    else node in
  let leaf_value :=
    fmul binary32 (shrinkage gbt_config_)
      (cast binary32
         (fdiv binary64
            (l1_threshold numerator (cast binary64 (l1_regularization gbt_config_)))
            (fadd binary64 denominator
               (cast binary64 (l2_regularization gbt_config_))))) in
  Returns (set_top_value
             (clamp leaf_value (fneg (clamp_leaf_logit gbt_config_))
                    (clamp_leaf_logit gbt_config_))
             node).

(** *** [NDCGLoss::UpdateGradients] *)

(** The body of the loop on [item_2_idx], on [(gradient_data,
    second_order_derivative_data)]; [grad_1] and [second_order_1] are
    references to the cells of [example_1_idx]. *)
Definition pair_force (lambda_loss lambda_loss_squared utility_norm_factor : F)
    (group : Group F) (pred_and_in_ground_idx : list (F * nat))
    (item_1_idx item_2_idx : nat) (st : list F * list F) : list F * list F :=
  let '(gradient_data, second_order_derivative_data) := st in
  let pred_1 := (pred_and_in_ground_idx !!! item_1_idx).1 in
  let in_ground_idx_1 := (pred_and_in_ground_idx !!! item_1_idx).2 in
  let relevance_1 := relevance (items group !!! in_ground_idx_1) in
  let example_1_idx := example_idx (items group !!! in_ground_idx_1) in
  let pred_2 := (pred_and_in_ground_idx !!! item_2_idx).1 in
  let in_ground_idx_2 := (pred_and_in_ground_idx !!! item_2_idx).2 in
  let relevance_2 := relevance (items group !!! in_ground_idx_2) in
  let example_2_idx := example_idx (items group !!! in_ground_idx_2) in
  if feq relevance_1 relevance_2 then st
  else
    let delta_utility := of_int binary32 0 in
    let delta_utility :=
      if decide (item_1_idx < kNDCG5Truncation)
      then cast binary32
             (fadd binary64 (cast binary64 delta_utility)
                (fsub binary64
                   (NDCGCalculator_Term kNDCG5Truncation relevance_2 item_1_idx)
                   (NDCGCalculator_Term kNDCG5Truncation relevance_1 item_1_idx)))
      else delta_utility in
    let delta_utility :=
      if decide (item_2_idx < kNDCG5Truncation)
      then cast binary32
             (fadd binary64 (cast binary64 delta_utility)
                (fsub binary64
                   (NDCGCalculator_Term kNDCG5Truncation relevance_1 item_2_idx)
                   (NDCGCalculator_Term kNDCG5Truncation relevance_2 item_2_idx)))
      else delta_utility in
    let delta_utility :=
      fmul binary32 (fabs delta_utility) utility_norm_factor in
    let signed_lambda_loss :=
      fsub binary32 lambda_loss
        (fmul binary32 (fmul binary32 (of_int binary32 2) lambda_loss)
           (of_bool binary32 (bool_decide (in_ground_idx_2 <= in_ground_idx_1)))) in
    let sigmoid :=
      fdiv binary32 (of_int binary32 1)
        (fadd binary32 (of_int binary32 1)
           (f_exp binary32
              (fmul binary32 signed_lambda_loss (fsub binary32 pred_1 pred_2)))) in
    let unit_grad :=
      fmul binary32 (fmul binary32 signed_lambda_loss sigmoid) delta_utility in
    let unit_second_order :=
      fmul binary32
        (fmul binary32 (fmul binary32 delta_utility sigmoid)
           (fsub binary32 (of_int binary32 1) sigmoid))
        lambda_loss_squared in
    let gradient_data :=
      <[example_1_idx :=
          fadd binary32 (gradient_data !!! example_1_idx) unit_grad]> gradient_data in
    let second_order_derivative_data :=
      <[example_1_idx :=
          fadd binary32 (second_order_derivative_data !!! example_1_idx)
                        unit_second_order]> second_order_derivative_data in
    let gradient_data :=
      <[example_2_idx :=
          fsub binary32 (gradient_data !!! example_2_idx) unit_grad]> gradient_data in
    let second_order_derivative_data :=
      <[example_2_idx :=
          fadd binary32 (second_order_derivative_data !!! example_2_idx)
                        unit_second_order]> second_order_derivative_data in
    (gradient_data, second_order_derivative_data).

(** The body of the loop on the groups, on [(gradient_data,
    second_order_derivative_data, random)]. *)
Definition group_forces (gbt_config_ : GradientBoostedTreesTrainingConfig F)
    (predictions : list F) (st : list F * list F * RandomEngine)
    (group : Group F) : list F * list F * RandomEngine :=
  let '(gradient_data, second_order_derivative_data, random) := st in
  let lambda_loss := lambda_loss gbt_config_ in
  let lambda_loss_squared := fmul binary32 lambda_loss lambda_loss in
  let group_size := length (items group) in
  let pred_and_in_ground_idx :=
    imap (fun item_idx item => (predictions !!! example_idx item, item_idx))
         (items group) in
  let utility_norm_factor :=
    if negb (gradient_use_non_normalized_dcg gbt_config_) then
      let max_rank := kNDCG5Truncation `min` group_size in
      let max_ndcg :=
        foldl (fun max_ndcg rank =>
                 cast binary32
                   (fadd binary64 (cast binary64 max_ndcg)
                      (NDCGCalculator_Term kNDCG5Truncation
                         (relevance (items group !!! rank)) rank)))
              (of_int binary32 0) (seq 0 max_rank) in
      fdiv binary32 (of_int binary32 1) max_ndcg
    else of_int binary32 1 in
  let '(pred_and_in_ground_idx, random) := shuffle pred_and_in_ground_idx random in
  let pred_and_in_ground_idx :=
    std_sort (fun a b => fgt a.1 b.1) pred_and_in_ground_idx in
  let num_pred_and_in_ground := length pred_and_in_ground_idx in
  let '(gradient_data, second_order_derivative_data) :=
    foldl (fun st item_1_idx =>
             foldl (fun st item_2_idx =>
                      pair_force lambda_loss lambda_loss_squared
                        utility_norm_factor group pred_and_in_ground_idx
                        item_1_idx item_2_idx st)
                   st
                   (seq (item_1_idx + 1)
                        (num_pred_and_in_ground - (item_1_idx + 1))))
          (gradient_data, second_order_derivative_data)
          (seq 0 num_pred_and_in_ground) in
  (gradient_data, second_order_derivative_data, random).

Definition NDCGLoss_UpdateGradients
    (gbt_config_ : GradientBoostedTreesTrainingConfig F)
    (predictions : list F) (ranking_index : RankingGroupsIndices F)
    (gradients : list (GradientData F)) (random : RandomEngine)
    : Status * list (GradientData F) * RandomEngine :=
  let gradient_data := gradient (gradients !!! 0) in
  let second_order_derivative_data := hessian (gradients !!! 0) in
  let gradient_data := replicate (length gradient_data) (of_int binary32 0) in
  let second_order_derivative_data :=
    replicate (length second_order_derivative_data) (of_int binary32 0) in
  let '(gradient_data, second_order_derivative_data, random) :=
    foldl (group_forces gbt_config_ predictions)
          (gradient_data, second_order_derivative_data, random)
          (groups_ ranking_index) in
  (OkStatus,
   <[0 := {| gradient := gradient_data;
             hessian := second_order_derivative_data |}]> gradients,
   random).

(** *** Evaluation: the [Loss] methods *)

Section Loss.
Context `{HasNaN F}.

Definition BinomialLogLikelihoodLoss_Loss
    (dataset : VerticalDataset F) (label_col_idx : nat)
    (predictions weights : list F)
    (ranking_index : option (RankingGroupsIndices F))
    (loss_value : F) (secondary_metric : list F)
    : outcome (Status * F * list F) :=
  labels ← ColumnWithCast_CategoricalColumn dataset label_col_idx;
  let '(sum_loss, count_correct_predictions, sum_weights) :=
    foldl (fun '(sum_loss, count_correct_predictions, sum_weights) example_idx =>
             let pos_label := bool_decide (labels !!! example_idx = 2%Z) in
             let label := of_bool binary32 pos_label in
             let prediction := predictions !!! example_idx in
             let weight := weights !!! example_idx in
             let pos_prediction := fge prediction (of_int binary32 0) in
             let sum_weights := fadd binary64 sum_weights (cast binary64 weight) in
             let count_correct_predictions :=
               if decide (pos_label = pos_prediction)
               then fadd binary64 count_correct_predictions (cast binary64 weight)
               else count_correct_predictions in
             let sum_loss :=
               fsub binary64 sum_loss
                 (cast binary64
                    (fmul binary32 (fmul binary32 (of_int binary32 2) weight)
                       (fsub binary32 (fmul binary32 label prediction)
                          (f_log binary32
                             (fadd binary32 (of_int binary32 1)
                                (f_exp binary32 prediction)))))) in
             (sum_loss, count_correct_predictions, sum_weights))
          (of_int binary64 0, of_int binary64 0, of_int binary64 0)
          (seq 0 (nrow dataset)) in
  let secondary_metric := Resize 1 (of_int binary32 0) secondary_metric in
  if fgt sum_weights (of_int binary64 0) then
    Returns (OkStatus,
             cast binary32 (fdiv binary64 sum_loss sum_weights),
             <[kBinomialLossSecondaryMetricClassificationIdx :=
                 cast binary32 (fdiv binary64 count_correct_predictions sum_weights)]>
               secondary_metric)
  else
    Returns (OkStatus, quiet_NaN,
             <[kBinomialLossSecondaryMetricClassificationIdx := quiet_NaN]>
               secondary_metric).

Definition MeanSquaredErrorLoss_Loss (task_ : Task)
    (dataset : VerticalDataset F) (label_col_idx : nat)
    (predictions weights : list F)
    (ranking_index : option (RankingGroupsIndices F))
    (loss_value : F) (secondary_metric : list F)
    : outcome (Status * F * list F) :=
  labels ← ColumnWithCast_NumericalColumn dataset label_col_idx;
  let rmse := RMSE labels predictions weights in
  if decide (task_ = RANKING) then
    let secondary_metric := Resize 2 (of_int binary32 0) secondary_metric in
    let secondary_metric := <[0 := rmse]> secondary_metric in
    match ranking_index with
    | Some index =>
        Returns (OkStatus, rmse,
                 <[1 := cast binary32
                          (RankingGroupsIndices_NDCG index predictions weights
                             kNDCG5Truncation)]> secondary_metric)
    | None => Fatal "null ranking_index dereferenced"
    end
  else
    let secondary_metric := Resize 1 (of_int binary32 0) secondary_metric in
    Returns (OkStatus, rmse, <[0 := rmse]> secondary_metric).

Definition MultinomialLogLikelihoodLoss_Loss (dimension_ : Z)
    (dataset : VerticalDataset F) (label_col_idx : nat)
    (predictions weights : list F)
    (ranking_index : option (RankingGroupsIndices F))
    (loss_value : F) (secondary_metric : list F)
    : outcome (Status * F * list F) :=
  labels ← ColumnWithCast_CategoricalColumn dataset label_col_idx;
  let '(sum_loss, count_correct_predictions, sum_weights) :=
    foldl (fun '(sum_loss, count_correct_predictions, sum_weights) example_idx =>
             let label := labels !!! example_idx in
             let weight := weights !!! example_idx in
             let sum_weights := fadd binary64 sum_weights (cast binary64 weight) in
             let '(predicted_class, predicted_class_exp_value, sum_exp) :=
               foldl (fun '(predicted_class, predicted_class_exp_value, sum_exp)
                          grad_idx =>
                        let exp_val :=
                          f_exp binary32
                            (predictions !!!
                               (grad_idx + example_idx * Z.to_nat dimension_)) in
                        let sum_exp := fadd binary32 sum_exp exp_val in
                        if fgt exp_val predicted_class_exp_value
                        then (Z.of_nat grad_idx + 1, exp_val, sum_exp)%Z
                        else (predicted_class, predicted_class_exp_value, sum_exp))
                     ((-1)%Z, of_int binary32 0, of_int binary32 0)
                     (seq 0 (Z.to_nat dimension_)) in
             let count_correct_predictions :=
               if decide (label = predicted_class)
               then fadd binary64 count_correct_predictions (cast binary64 weight)
               else count_correct_predictions in
             let tree_label_exp_value :=
               f_exp binary32
                 (predictions !!!
                    Z.to_nat ((label - 1) + Z.of_nat example_idx * dimension_)) in
             let sum_loss :=
               fsub binary64 sum_loss
                 (cast binary64
                    (fmul binary32 weight
                       (f_log binary32
                          (fdiv binary32 tree_label_exp_value sum_exp)))) in
             (sum_loss, count_correct_predictions, sum_weights))
          (of_int binary64 0, of_int binary64 0, of_int binary64 0)
          (seq 0 (nrow dataset)) in
  let secondary_metric := Resize 1 (of_int binary32 0) secondary_metric in
  if fgt sum_weights (of_int binary64 0) then
    Returns (OkStatus,
             cast binary32 (fdiv binary64 sum_loss sum_weights),
             <[kBinomialLossSecondaryMetricClassificationIdx :=
                 cast binary32 (fdiv binary64 count_correct_predictions sum_weights)]>
               secondary_metric)
  else
    Returns (OkStatus, quiet_NaN,
             <[kBinomialLossSecondaryMetricClassificationIdx := quiet_NaN]>
               secondary_metric).

Definition NDCGLoss_Loss
    (dataset : VerticalDataset F) (label_col_idx : nat)
    (predictions weights : list F)
    (ranking_index : option (RankingGroupsIndices F))
    (loss_value : F) (secondary_metric : list F)
    : outcome (Status * F * list F) :=
  match ranking_index with
  | None =>
      Returns (InternalError "Missing ranking index", loss_value, secondary_metric)
  | Some index =>
      let ndcg :=
        RankingGroupsIndices_NDCG index predictions weights kNDCG5Truncation in
      let secondary_metric := Resize 1 (of_int binary32 0) secondary_metric in
      Returns (OkStatus, cast binary32 (fneg ndcg),
               <[0 := cast binary32 ndcg]> secondary_metric)
  end.

Definition CrossEntropyNDCGLoss_Loss
    (dataset : VerticalDataset F) (label_col_idx : nat)
    (predictions weights : list F)
    (ranking_index : option (RankingGroupsIndices F))
    (loss_value : F) (secondary_metric : list F)
    : outcome (Status * F * list F) :=
  match ranking_index with
  | None =>
      Returns (InternalError "Missing ranking index", loss_value, secondary_metric)
  | Some index =>
      Returns (OkStatus,
               cast binary32
                 (fneg (RankingGroupsIndices_NDCG index predictions weights
                          kNDCG5Truncation)),
               secondary_metric)
  end.

(** [SecondaryMetricNames]. *)
Definition BinomialLogLikelihoodLoss_SecondaryMetricNames : list string :=
  ["accuracy"%string].
Definition MeanSquaredErrorLoss_SecondaryMetricNames (task_ : Task) : list string :=
  if decide (task_ = RANKING) then ["rmse"%string; "NDCG@5"%string] else ["rmse"%string].
Definition MultinomialLogLikelihoodLoss_SecondaryMetricNames : list string :=
  ["accuracy"%string].
Definition NDCGLoss_SecondaryMetricNames : list string := ["NDCG@5"%string].
Definition CrossEntropyNDCGLoss_SecondaryMetricNames : list string := [].

End Loss.

End Training.

(** *** The [AbstractLoss] interface *)

(** The five implementations of [AbstractLoss], with the members their
    methods read. *)
Inductive LossImp :=
| BinomialLogLikelihoodLoss
| MeanSquaredErrorLoss (task_ : Task)
| MultinomialLogLikelihoodLoss (dimension_ : Z)
| NDCGLoss
| CrossEntropyNDCGLoss.

Section AbstractLoss.
Context {F : Type} `{Arith F} `{Externals F} `{HasNaN F}.

Definition AbstractLoss_UpdatePredictions (loss : LossImp)
    : list (DecisionTree F) -> VerticalDataset F -> list F -> option F ->
      Status * list F * option F :=
  match loss with
  | BinomialLogLikelihoodLoss => BinomialLogLikelihoodLoss_UpdatePredictions
  | MeanSquaredErrorLoss _ => MeanSquaredErrorLoss_UpdatePredictions
  | MultinomialLogLikelihoodLoss dimension_ =>
      MultinomialLogLikelihoodLoss_UpdatePredictions dimension_
  | NDCGLoss => NDCGLoss_UpdatePredictions
  | CrossEntropyNDCGLoss => CrossEntropyNDCGLoss_UpdatePredictions
  end.

Definition AbstractLoss_Loss (loss : LossImp)
    : VerticalDataset F -> nat -> list F -> list F ->
      option (RankingGroupsIndices F) -> F -> list F ->
      outcome (Status * F * list F) :=
  match loss with
  | BinomialLogLikelihoodLoss => BinomialLogLikelihoodLoss_Loss
  | MeanSquaredErrorLoss task_ => MeanSquaredErrorLoss_Loss task_
  | MultinomialLogLikelihoodLoss dimension_ =>
      MultinomialLogLikelihoodLoss_Loss dimension_
  | NDCGLoss => NDCGLoss_Loss
  | CrossEntropyNDCGLoss => CrossEntropyNDCGLoss_Loss
  end.

Definition AbstractLoss_SecondaryMetricNames (loss : LossImp) : list string :=
  match loss with
  | BinomialLogLikelihoodLoss => BinomialLogLikelihoodLoss_SecondaryMetricNames
  | MeanSquaredErrorLoss task_ => MeanSquaredErrorLoss_SecondaryMetricNames task_
  | MultinomialLogLikelihoodLoss _ => MultinomialLogLikelihoodLoss_SecondaryMetricNames
  | NDCGLoss => NDCGLoss_SecondaryMetricNames
  | CrossEntropyNDCGLoss => CrossEntropyNDCGLoss_SecondaryMetricNames
  end.

End AbstractLoss.

(** The number of trees [UpdatePredictions] of a loss expects. *)
Definition expected_number_of_trees (loss : LossImp) : Z :=
  match loss with
  | MultinomialLogLikelihoodLoss dimension_ => dimension_
  | _ => 1
  end.

Definition is_InternalError (status : Status) : Prop :=
  match status with
  | ErrorStatus kInternal _ => True
  | _ => False
  end.

(** ** The quantities the specification names *)

Section Specification.
Context {F : Type} `{Arith F}.

(** The two sums of the binomial [InitialPredictions], each on its own. *)
Definition sum_of_weights (weights : list F) (nrow : nat) : F :=
  foldl (fun s i => fadd binary64 s (cast binary64 (weights !!! i)))
        (of_int binary64 0) (seq 0 nrow).

Definition weighted_sum_of_positives (labels : list Z) (weights : list F)
    (nrow : nat) : F :=
  foldl (fun s i =>
           fadd binary64 s
             (cast binary64
                (fmul binary32 (weights !!! i)
                   (of_bool binary32 (bool_decide (labels !!! i = 2%Z))))))
        (of_int binary64 0) (seq 0 nrow).

(** The claim on the multinomial distribution: prediction on a row returns a
    classification whose counts of the classes [1..K] are all [1.f / K]. *)
Definition multinomial_distribution_is_uniform
    (model : GradientBoostedTreesModel F) (dataset : VerticalDataset F)
    (row_idx : nat) (prediction : Prediction F) : Prop :=
  exists classes,
    Predict model dataset row_idx prediction = Returns (classification classes) /\
    forall k, k < num_trees_per_iter_ model ->
      counts (distribution classes) !! (k + 1) =
      Some (fdiv binary32 (of_int binary32 1)
              (of_int binary32 (Z.of_nat (num_trees_per_iter_ model)))).

(** The orders of the ranking index: an item precedes another one when its
    relevance is larger, or equal with a larger example index; a group
    precedes another one when its first item has a smaller example index, or
    the same with a smaller group identifier. *)
Definition item_precedes (a b : Item F) : Prop :=
  fgt (relevance a) (relevance b) = true \/
  (feq (relevance a) (relevance b) = true /\ example_idx b < example_idx a).

Definition group_precedes (a b : Group F) : Prop :=
  example_idx (items a !!! 0) < example_idx (items b !!! 0) \/
  (example_idx (items a !!! 0) = example_idx (items b !!! 0) /\
   (group_idx a < group_idx b)%Z).

(** The group of a row, when the group column is categorical or hashed. *)
Definition row_group (dataset : VerticalDataset F)
    (group_col_idx example_idx : nat) : option Z :=
  match group_value_of
          (ColumnWithCastOrNull_CategoricalColumn dataset group_col_idx)
          (ColumnWithCastOrNull_HashColumn dataset group_col_idx)
          example_idx with
  | Returns group_value => Some group_value
  | Fatal _ => None
  end.

(** The number of rows of a group. *)
Definition ranking_group_size (dataset : VerticalDataset F)
    (group_col_idx : nat) (group_value : Z) : nat :=
  length (filter (fun i => row_group dataset group_col_idx i = Some group_value)
                 (seq 0 (nrow dataset))).

(** The number of items of all the groups. *)
Definition total_items (groups : list (Group F)) : nat :=
  sum_list_with (fun group => length (items group)) groups.

(** The examples of a group, and of all the groups of an index. *)
Definition example_indices (group : Group F) : list nat :=
  example_idx <$> items group.

Definition all_example_indices (index : RankingGroupsIndices F) : list nat :=
  mjoin (example_indices <$> groups_ index).

(** What [Loss] of a loss needs from its caller: a label column of the
    type it reads, and the ranking index when it ranks. *)
Definition label_column_readable (loss : LossImp)
    (dataset : VerticalDataset F) (label_col_idx : nat) : Prop :=
  match loss with
  | BinomialLogLikelihoodLoss | MultinomialLogLikelihoodLoss _ =>
      exists labels,
        ColumnWithCast_CategoricalColumn dataset label_col_idx = Returns labels
  | MeanSquaredErrorLoss _ =>
      exists labels,
        ColumnWithCast_NumericalColumn dataset label_col_idx = Returns labels
  | NDCGLoss | CrossEntropyNDCGLoss => True
  end.

End Specification.

Definition uses_ranking_index (loss : LossImp) : Prop :=
  match loss with
  | NDCGLoss | CrossEntropyNDCGLoss | MeanSquaredErrorLoss RANKING => True
  | _ => False
  end.

(** Binary floating-point numbers: a zero of either sign, a zero or a NaN,
    a number that is neither infinite nor a NaN. *)
Definition is_zero (x : spec_float) : Prop :=
  match x with S754_zero _ => True | _ => False end.

Definition zero_or_nan (x : spec_float) : Prop :=
  match x with S754_zero _ | S754_nan => True | _ => False end.

Definition is_finite (x : spec_float) : Prop :=
  match x with S754_zero _ | S754_finite _ _ _ => True | _ => False end.

(** The real number a binary floating-point number stands for,
    [(-1)^s * m * 2^e]; an infinity and a NaN stand for none and are given
    [0]. *)
Definition SF2R (x : spec_float) : R :=
  match x with
  | S754_finite s m e => IZR (cond_Zopp s (Zpos m)) * powerRZ 2 e
  | _ => 0
  end.

(** A positive normal number of binary32: a mantissa of 24 binary digits
    and an exponent between -149 and 104. *)
Definition normal32 (x : spec_float) : Prop :=
  exists (m : positive) (e : Z),
    x = S754_finite false m e /\
    Z.pos (digits2_pos m) = 24%Z /\ (-149 <= e <= 104)%Z.

(** The leaf value of the binomial loss as the specification writes it, on
    real numbers. *)
Section BinomialLeaf.
Local Open Scope R_scope.

Definition Rsum (f : nat -> R) (selected_examples : list nat) : R :=
  foldr (fun i s => f i + s) 0 selected_examples.

Definition Rsign (x : R) : R :=
  if Rlt_dec 0 x then 1 else if Rlt_dec x 0 then -1 else 0.

Definition soft_threshold (x t : R) : R := Rsign x * Rmax (Rabs x - t) 0.

Definition binomial_leaf_value (gbt_config_ : GradientBoostedTreesTrainingConfig R)
    (labels : list Z) (weights predictions : list R)
    (selected_examples : list nat) : R :=
  let y i := if decide (labels !!! i = 2%Z) then 1 else 0 in
  let p i := 1 / (1 + exp (- (predictions !!! i))) in
  let w i := weights !!! i in
  let N := Rsum (fun i => w i * (y i - p i)) selected_examples in
  let D := Rmax (Rsum (fun i => w i * p i * (1 - p i)) selected_examples)
                (1 / 1000) in
  let leaf :=
    shrinkage gbt_config_ * (soft_threshold N (l1_regularization gbt_config_) /
                             (D + l2_regularization gbt_config_)) in
  Rmax (- clamp_leaf_logit gbt_config_) (Rmin leaf (clamp_leaf_logit gbt_config_)).

(** The sum of the entries of a vector of gradients over some examples. *)
Definition gradient_sum (gradient_data : list R) (examples : list nat) : R :=
  Rsum (fun i => gradient_data !!! i) examples.

End BinomialLeaf.

(** ** Functions of the proofs *)

(** A loop that rewrites the cells [start+1 .. start+n] of a vector, each
    from its index and its own content: the shape of the two loops on the
    counts of the multinomial distribution. *)
Definition map_cells {A} `{Inhabited A} (g : nat -> A -> A) (start n : nat)
    (cells : list A) : list A :=
  foldl (fun cells i => <[i + 1 := g i (cells !!! (i + 1))]> cells)
        cells (seq start n).

Section InitializeSteps.
Context {F : Type} `{Arith F}.

(** The first loop of [Initialize] when every row has a group. *)
Definition fill_groups (group_of : nat -> Z) (label_values : list F) (n : nat)
    : gmap Z (list (Item F)) :=
  foldl (fun tmp_groups i =>
           push_back_item (group_of i)
             {| relevance := label_values !!! i; example_idx := i |} tmp_groups)
        ∅ (seq 0 n).

(** The body of its second loop, on a group of at most 2000 items. *)
Definition make_group (entry : Z * list (Item F)) : Group F :=
  {| group_idx := entry.1; items := std_sort item_comp entry.2 |}.

(** The rows held by the groups of the first loop. *)
Definition rows_of (tmp_groups : gmap Z (list (Item F))) : list nat :=
  mjoin ((fun entry => example_idx <$> entry.2) <$> map_to_list tmp_groups).

End InitializeSteps.

(** ** Inputs of the examples *)

Module Fixture.

(** A C library that answers [1 + x] and [x - 1] inside the range. *)
Definition libm : IEEE.Libm := {|
  IEEE.libm_exp f x := SFadd (IEEE.prec f) (IEEE.emax f) (IEEE.sf_of_int f 1) x;
  IEEE.libm_log f x := SFsub (IEEE.prec f) (IEEE.emax f) x (IEEE.sf_of_int f 1)
|}.

(** Collaborators that do as little as their interface allows: the leaf is
    left as it is, every gain is the relevance, every group is perfectly
    ranked, and the random engine never moves anything. *)
Definition externals `{Arith F} : Externals F := {|
  SetRegressionLabelDistribution _ _ _ node := node;
  NDCGCalculator_Term _ relevance _ := cast binary64 relevance;
  NDCGCalculator_NDCG _ _ := of_int binary64 1;
  RandomEngine := unit;
  shuffle _ l random := (l, random);
  shuffle_Permutation _ l _ := Permutation_refl l
|}.

(** A tree with a single leaf. *)
Definition stump {F} (v : F) : DecisionTree F :=
  let leaf :=
    {| regressor := {| top_value := v; sum_gradients := None;
                       sum_hessians := None; sum_weights := None |} |} in
  {| GetLeaf _ _ := leaf; GetLeaf_Example _ := leaf |}.

End Fixture.

Module Examples.

Definition one : spec_float := IEEE.sf_of_int binary32 1.
Definition zero : spec_float := S754_zero false.

(** Four rows in two groups: relevances [1, 2, 2, 0], groups [9, 5, 5, 9]. *)
Definition ranking_dataset : VerticalDataset spec_float :=
  {| nrow := 4;
     columns := [NumericalColumn [IEEE.sf_of_int binary32 1;
                                  IEEE.sf_of_int binary32 2;
                                  IEEE.sf_of_int binary32 2;
                                  IEEE.sf_of_int binary32 0];
                 HashColumn [9; 5; 5; 9]%Z] |}.

(** The index [Initialize] builds of it. *)
Definition ranking_index : RankingGroupsIndices spec_float :=
  {| groups_ :=
       [{| group_idx := 9;
           items := [{| relevance := IEEE.sf_of_int binary32 1; example_idx := 0 |};
                     {| relevance := IEEE.sf_of_int binary32 0; example_idx := 3 |}] |};
        {| group_idx := 5;
           items := [{| relevance := IEEE.sf_of_int binary32 2; example_idx := 2 |};
                     {| relevance := IEEE.sf_of_int binary32 2; example_idx := 1 |}] |}];
     num_items_ := 4 |}.

Definition zero_weights : list spec_float := replicate 4 (S754_zero false).

(** A dataset of 2001 rows, all of the group 7. *)
Definition dataset_of_2001_rows : VerticalDataset spec_float :=
  {| nrow := 2001;
     columns := [NumericalColumn (replicate 2001 (S754_zero false));
                 HashColumn (replicate 2001 7%Z)] |}.

(** The same index on real numbers. *)
Definition exact_ranking_index : RankingGroupsIndices R :=
  {| groups_ :=
       [{| group_idx := 9;
           items := [{| relevance := 1%R; example_idx := 0 |};
                     {| relevance := 0%R; example_idx := 3 |}] |};
        {| group_idx := 5;
           items := [{| relevance := 2%R; example_idx := 2 |};
                     {| relevance := 2%R; example_idx := 1 |}] |}];
     num_items_ := 4 |}.

Definition exact_gradients : list (GradientData R) :=
  [{| gradient := [1; 1; 1; 1]%R; hessian := [1; 1; 1; 1]%R |}].

Definition exact_config : GradientBoostedTreesTrainingConfig R :=
  {| shrinkage := (1 / 10)%R; l1_regularization := 0%R;
     l2_regularization := 0%R; clamp_leaf_logit := 5%R;
     use_hessian_gain := false; lambda_loss := 1%R;
     gradient_use_non_normalized_dcg := false |}.

(** Two rows of a binary classification dataset. *)
Definition exact_binary_dataset : VerticalDataset R :=
  {| nrow := 2; columns := [CategoricalColumn [1; 2]%Z] |}.

(** Two classes, one iteration, every leaf [3]. *)
Definition exact_multinomial_model : GradientBoostedTreesModel R :=
  {| task := CLASSIFICATION; loss_ := MULTINOMIAL_LOG_LIKELIHOOD;
     initial_predictions_ := [0; 0]%R; num_trees_per_iter_ := 2;
     decision_trees_ := [Fixture.stump 3%R; Fixture.stump 3%R] |}.

End Examples.

(** ** Construction of the losses: [CreateLoss] *)

Definition UnimplementedError : string -> Status := ErrorStatus kUnimplemented.

(** [RETURN_IF_ERROR(status); rest]. *)
Definition RETURN_IF_ERROR (status rest : Status) : Status :=
  match status with
  | OkStatus => rest
  | ErrorStatus _ _ => status
  end.

(** The conversion of an [int64_t] to [int]. *)
Definition static_cast_int (z : Z) : Z :=
  ((z + 2 ^ 31) `mod` 2 ^ 32 - 2 ^ 31)%Z.

(** What is read of a [dataset::proto::Column]: its name and
    [categorical().number_of_unique_values()], an [int64_t] that is [0] when
    the column has no categorical part. *)
Record proto_Column := {
  column_name : string;
  number_of_unique_values : Z
}.

(** The [Status] methods; [task_] and [label_column_] are the members the
    constructor stored. *)
Definition BinomialLogLikelihoodLoss_Status (task_ : Task)
    (label_column_ : proto_Column) : Status :=
  if decide (task_ <> CLASSIFICATION)
  then InvalidArgumentError
         "Binomial log likelihood loss is only compatible with a classification task"
  else if decide (number_of_unique_values label_column_ <> 3%Z)
  then InvalidArgumentError
         "Binomial log likelihood loss is only compatible with a BINARY classification task"
  else OkStatus.

Definition MeanSquaredErrorLoss_Status (task_ : Task) : Status :=
  if decide (task_ <> REGRESSION /\ task_ <> RANKING)
  then InvalidArgumentError
         "Mean squared error loss is only compatible with a regression or ranking task"
  else OkStatus.

Definition MultinomialLogLikelihoodLoss_Status (task_ : Task) : Status :=
  if decide (task_ <> CLASSIFICATION)
  then InvalidArgumentError
         "Multinomial log-likelihood loss is only compatible with a classification task"
  else OkStatus.

Definition NDCGLoss_Status (task_ : Task) : Status :=
  if decide (task_ <> RANKING)
  then InvalidArgumentError "NDCG loss is only compatible with a ranking task."
  else OkStatus.

Definition CrossEntropyNDCGLoss_Status (task_ : Task) : Status :=
  if decide (task_ <> RANKING)
  then InvalidArgumentError
         "Cross Entropy NDCG loss is only compatible with a ranking task."
  else OkStatus.

(** The two constructors that do more than store their arguments: the one
    of [MeanSquaredErrorLoss] ends the process on a task it does not support,
    the one of [MultinomialLogLikelihoodLoss] sets the [int] [dimension_]. *)
Definition MeanSquaredErrorLoss_new (task : Task) : outcome LossImp :=
  if decide (task <> REGRESSION /\ task <> RANKING)
  then Fatal "Mean squared error loss is only compatible with a regression or ranking task"
  else Returns (MeanSquaredErrorLoss task).

Definition MultinomialLogLikelihoodLoss_new (label_column : proto_Column) : LossImp :=
  MultinomialLogLikelihoodLoss
    (static_cast_int (number_of_unique_values label_column - 1)).

(** [CreateLoss]: construct, then [RETURN_IF_ERROR(loss_imp->Status())]. *)
Definition CreateLoss (loss : Loss) (task : Task) (label_column : proto_Column)
    : outcome (StatusOr LossImp) :=
  let checked (loss_imp : LossImp) (status : Status) : StatusOr LossImp :=
    match status with
    | OkStatus => Value loss_imp
    | ErrorStatus _ _ => Failed status
    end in
  match loss with
  | BINOMIAL_LOG_LIKELIHOOD =>
      Returns (checked BinomialLogLikelihoodLoss
                 (BinomialLogLikelihoodLoss_Status task label_column))
  | SQUARED_ERROR =>
      loss_imp ← MeanSquaredErrorLoss_new task;
      Returns (checked loss_imp (MeanSquaredErrorLoss_Status task))
  | MULTINOMIAL_LOG_LIKELIHOOD =>
      Returns (checked (MultinomialLogLikelihoodLoss_new label_column)
                 (MultinomialLogLikelihoodLoss_Status task))
  | LAMBDA_MART_NDCG5 =>
      Returns (checked NDCGLoss (NDCGLoss_Status task))
  | XE_NDCG_MART =>
      Returns (checked CrossEntropyNDCGLoss (CrossEntropyNDCGLoss_Status task))
  | DEFAULT => Returns (Failed (UnimplementedError "Non implemented loss"))
  end.

(** ** The initial predictions of the three other losses *)

Section InitialPredictionsOthers.
Context {F : Type} `{Arith F}.

(** [std::vector<float>(dimension_, 0)]: a negative [dimension_] converts to
    a size no vector can have, and the constructor throws
    [std::length_error], which nothing catches. *)
Definition MultinomialLogLikelihoodLoss_InitialPredictions (dimension_ : Z)
    (dataset : VerticalDataset F) (label_col_idx : nat) (weights : list F)
    : outcome (StatusOr (list F)) :=
  if decide (dimension_ < 0)%Z
  then Fatal "std::length_error"
  else Returns (Value (replicate (Z.to_nat dimension_) (of_int binary32 0))).

Definition NDCGLoss_InitialPredictions
    (dataset : VerticalDataset F) (label_col_idx : nat) (weights : list F)
    : outcome (StatusOr (list F)) :=
  Returns (Value [of_int binary32 0]).

Definition CrossEntropyNDCGLoss_InitialPredictions
    (dataset : VerticalDataset F) (label_col_idx : nat) (weights : list F)
    : outcome (StatusOr (list F)) :=
  Returns (Value [of_int binary32 0]).

Definition AbstractLoss_InitialPredictions (loss : LossImp)
    : VerticalDataset F -> nat -> list F -> outcome (StatusOr (list F)) :=
  match loss with
  | BinomialLogLikelihoodLoss => BinomialLogLikelihoodLoss_InitialPredictions
  | MeanSquaredErrorLoss _ => MeanSquaredErrorLoss_InitialPredictions
  | MultinomialLogLikelihoodLoss dimension_ =>
      MultinomialLogLikelihoodLoss_InitialPredictions dimension_
  | NDCGLoss => NDCGLoss_InitialPredictions
  | CrossEntropyNDCGLoss => CrossEntropyNDCGLoss_InitialPredictions
  end.

End InitialPredictionsOthers.

(** ** [GradientBoostedTreesModel::Validate] and [AddTree] *)

(** The members of [AbstractModel] that [Validate] reads besides the task:
    the column of the label in the dataspec, and the index of the column of
    the ranking groups, [-1] when there is none. *)
Record AbstractModelData := {
  label_col_spec : proto_Column;
  ranking_group_col_idx : Z
}.

Section Validate.
Context {F : Type}.

(** [Validate].  [AbstractModel::Validate] and [DecisionTree::Validate]
    (which is given the check that every leaf has a regressor) are in other
    files: their answers are arguments.  [size % num_trees_per_iter_] with
    [num_trees_per_iter_ == 0] is a division by zero, which ends the
    process. *)
Definition GradientBoostedTreesModel_Validate
    (AbstractModel_Validate : Status)
    (DecisionTree_Validate : DecisionTree F -> Status)
    (abstract_model : AbstractModelData)
    (model : GradientBoostedTreesModel F) : outcome Status :=
  let trees_status :=
    foldr (fun tree rest => RETURN_IF_ERROR (DecisionTree_Validate tree) rest)
          OkStatus (decision_trees_ model) in
  match RETURN_IF_ERROR AbstractModel_Validate trees_status with
  | ErrorStatus code message => Returns (ErrorStatus code message)
  | OkStatus =>
      if decide (num_trees_per_iter_ model = 0)
      then Fatal "integer division by zero"
      else if decide (length (decision_trees_ model) `mod` num_trees_per_iter_ model <> 0)
      then Returns (InvalidArgumentError "Invalid number of trees in GBDT")
      else
        let expected_initial_predictions_size : StatusOr Z :=
          match task model with
          | CLASSIFICATION =>
              if decide (loss_ model = MULTINOMIAL_LOG_LIKELIHOOD)
              then Value (static_cast_int
                            (number_of_unique_values (label_col_spec abstract_model) - 1))
              else if decide (loss_ model = BINOMIAL_LOG_LIKELIHOOD)
              then Value 1%Z
              else Failed (InvalidArgumentError "Invalid loss in GBDT")
          | REGRESSION => Value 1%Z
          | RANKING =>
              if decide (ranking_group_col_idx abstract_model = (-1)%Z)
              then Failed (InvalidArgumentError "Invalid ranking_group_col in GBDT")
              else Value 1%Z
          | UNDEFINED => Failed (InvalidArgumentError "Unknown task in GBDT")
          end in
        match expected_initial_predictions_size with
        | Failed status => Returns status
        | Value expected_initial_predictions_size =>
            if decide (Z.of_nat (length (initial_predictions_ model)) <>
                       expected_initial_predictions_size)
            then Returns (InvalidArgumentError "Invalid initial_predictions in GBDT")
            else if decide (expected_initial_predictions_size <>
                            Z.of_nat (num_trees_per_iter_ model))
            then Returns (InvalidArgumentError "Invalid num_trees_per_iter_ in GBDT")
            else Returns OkStatus
        end
  end.

(** [AddTree]. *)
Definition AddTree (decision_tree : DecisionTree F)
    (model : GradientBoostedTreesModel F) : GradientBoostedTreesModel F :=
  {| task := task model;
     loss_ := loss_ model;
     initial_predictions_ := initial_predictions_ model;
     num_trees_per_iter_ := num_trees_per_iter_ model;
     decision_trees_ := decision_trees_ model ++ [decision_tree] |}.

End Validate.

(** ** [utils::PredictionToExample] *)

Section EvaluationUtils.
Context {F : Type} `{Arith F}.

(** The accessors of the [oneof] of a [Prediction]: a kind that is not the
    one set reads as its default message. *)
Definition Prediction_regression_value (prediction : Prediction F) : F :=
  match prediction with
  | regression value => value
  | _ => of_int binary32 0
  end.

Definition Prediction_ranking_relevance (prediction : Prediction F) : F :=
  match prediction with
  | ranking relevance => relevance
  | _ => of_int binary32 0
  end.

(** [PredictionToExample], on the example it is given to fill; the sizes it
    compares are [int]s. *)
Definition PredictionToExample (task : Task) (label_col : proto_Column)
    (prediction : Prediction F) (prediction_as_example : Example F)
    : Status * Example F :=
  let prediction_as_example : Example F := [] in
  match task with
  | CLASSIFICATION =>
      let num_label_values :=
        static_cast_int (number_of_unique_values label_col) in
      let dist := distribution (mutable_classification prediction) in
      if decide (num_label_values <> Z.of_nat (length (counts dist)))
      then (InvalidArgumentError "Wrong number of classes.", prediction_as_example)
      else
        (OkStatus,
         foldl (fun prediction_as_example label_value =>
                  let prediction_proba :=
                    fdiv binary32 (counts dist !!! label_value) (sum dist) in
                  prediction_as_example ++ [Numerical prediction_proba])
               prediction_as_example
               (seq 1 (Z.to_nat num_label_values - 1)))
  | REGRESSION =>
      (OkStatus,
       prediction_as_example ++ [Numerical (Prediction_regression_value prediction)])
  | RANKING =>
      (OkStatus,
       prediction_as_example ++ [Numerical (Prediction_ranking_relevance prediction)])
  | UNDEFINED =>
      (InvalidArgumentError "Non supported class", prediction_as_example)
  end.

End EvaluationUtils.

(** ** The gradients of the binomial, squared error and multinomial losses *)

Section UpdateGradients.
Context {F : Type} `{Arith F} `{Externals F}.

(** [BinomialLogLikelihoodLoss::UpdateGradients].  The pointer [hessian] of
    a [GradientData] is taken to point to a vector, as in
    [NDCGLoss_UpdateGradients]; [hessian_data] stays null without
    [use_hessian_gain]. *)
Definition BinomialLogLikelihoodLoss_UpdateGradients
    (gbt_config_ : GradientBoostedTreesTrainingConfig F)
    (dataset : VerticalDataset F) (label_col_idx : nat)
    (predictions : list F) (gradients : list (GradientData F))
    : outcome (Status * list (GradientData F)) :=
  if decide (length gradients <> 1)
  then Returns (InternalError "Wrong gradient shape", gradients)
  else
    labels ← ColumnWithCast_CategoricalColumn dataset label_col_idx;
    let gradient_data := gradient (gradients !!! 0) in
    let hessian_data : option (list F) :=
      if use_hessian_gain gbt_config_
      then Some (hessian (gradients !!! 0)) else None in
    let '(gradient_data, hessian_data) :=
      foldl (fun '(gradient_data, hessian_data) example_idx =>
               let label :=
                 if bool_decide (labels !!! example_idx = 2%Z)
                 then of_int binary32 1 else of_int binary32 0 in
               let prediction := predictions !!! example_idx in
               let prediction_proba :=
                 fdiv binary32 (of_int binary32 1)
                   (fadd binary32 (of_int binary32 1)
                      (f_exp binary32 (fneg prediction))) in
               (<[example_idx := fsub binary32 label prediction_proba]> gradient_data,
                match hessian_data with
                | Some hessian_data =>
                    Some (<[example_idx :=
                              fmul binary32 prediction_proba
                                (fsub binary32 (of_int binary32 1) prediction_proba)]>
                            hessian_data)
                | None => None
                end))
            (gradient_data, hessian_data) (seq 0 (nrow dataset)) in
    Returns (OkStatus,
             <[0 := {| gradient := gradient_data;
                       hessian := default (hessian (gradients !!! 0)) hessian_data |}]>
               gradients).

(** [MeanSquaredErrorLoss::UpdateGradients]. *)
Definition MeanSquaredErrorLoss_UpdateGradients
    (dataset : VerticalDataset F) (label_col_idx : nat)
    (predictions : list F) (gradients : list (GradientData F))
    : outcome (Status * list (GradientData F)) :=
  if decide (length gradients <> 1)
  then Returns (InternalError "Wrong gradient shape", gradients)
  else
    labels ← ColumnWithCast_NumericalColumn dataset label_col_idx;
    let gradient_data := gradient (gradients !!! 0) in
    let gradient_data :=
      foldl (fun gradient_data example_idx =>
               let label := labels !!! example_idx in
               let prediction := predictions !!! example_idx in
               <[example_idx := fsub binary32 label prediction]> gradient_data)
            gradient_data (seq 0 (nrow dataset)) in
    Returns (OkStatus,
             <[0 := {| gradient := gradient_data;
                       hessian := hessian (gradients !!! 0) |}]> gradients).

(** The two loops on [grad_idx] of the multinomial [UpdateGradients], for
    one example: the first fills [accumulator] and sums it, the second
    writes the cell of the example in every gradient vector. *)
Definition multinomial_exp_accumulator (predictions : list F)
    (num_gradients example_idx : nat) (accumulator : list F) : list F * F :=
  foldl (fun '(accumulator, sum_exp) grad_idx =>
           let exp_val :=
             f_exp binary32
               (predictions !!! (grad_idx + example_idx * num_gradients)) in
           (<[grad_idx := exp_val]> accumulator, fadd binary32 sum_exp exp_val))
        (accumulator, of_int binary32 0) (seq 0 num_gradients).

Definition multinomial_write_gradients (use_hessian_gain : bool)
    (accumulator : list F) (normalization : F) (label_cat : Z)
    (example_idx : nat) (gradients : list (GradientData F))
    : list (GradientData F) :=
  foldl (fun gradients grad_idx =>
           let label :=
             if decide (label_cat = Z.of_nat grad_idx + 1)%Z
             then of_int binary32 1 else of_int binary32 0 in
           let prediction :=
             fmul binary32 (accumulator !!! grad_idx) normalization in
           let grad := fsub binary32 label prediction in
           let abs_grad := fabs grad in
           let cell := gradients !!! grad_idx in
           <[grad_idx :=
               {| gradient := <[example_idx := grad]> (gradient cell);
                  hessian :=
                    if use_hessian_gain
                    then <[example_idx :=
                             fmul binary32 abs_grad
                               (fsub binary32 (of_int binary32 1) abs_grad)]>
                           (hessian cell)
                    else hessian cell |}]> gradients)
        gradients (seq 0 (length gradients)).

(** [MultinomialLogLikelihoodLoss::UpdateGradients]; [accumulator] is
    allocated once, with the size of [gradients]. *)
Definition MultinomialLogLikelihoodLoss_UpdateGradients
    (gbt_config_ : GradientBoostedTreesTrainingConfig F)
    (dataset : VerticalDataset F) (label_col_idx : nat)
    (predictions : list F) (gradients : list (GradientData F))
    : outcome (Status * list (GradientData F)) :=
  labels ← ColumnWithCast_CategoricalColumn dataset label_col_idx;
  let num_gradients := length gradients in
  let accumulator := replicate num_gradients (of_int binary32 0) in
  let '(gradients, _) :=
    foldl (fun '(gradients, accumulator) example_idx =>
             let '(accumulator, sum_exp) :=
               multinomial_exp_accumulator predictions num_gradients
                 example_idx accumulator in
             let normalization := fdiv binary32 (of_int binary32 1) sum_exp in
             let label_cat := labels !!! example_idx in
             (multinomial_write_gradients (use_hessian_gain gbt_config_)
                accumulator normalization label_cat example_idx gradients,
              accumulator))
          (gradients, accumulator) (seq 0 (nrow dataset)) in
  Returns (OkStatus, gradients).

(** ** The leaves of the squared error, multinomial and NDCG losses *)

(** [MeanSquaredErrorLoss::SetLeaf]. *)
Definition MeanSquaredErrorLoss_SetLeaf
    (gbt_config_ : GradientBoostedTreesTrainingConfig F)
    (train_dataset : VerticalDataset F) (selected_examples : list nat)
    (weights : list F) (predictions : list F) (label_col_idx : nat)
    (node : Node F) : outcome (Node F) :=
  let node :=
    SetRegressionLabelDistribution train_dataset selected_examples weights node in
  labels ← ColumnWithCast_NumericalColumn train_dataset label_col_idx;
  let '(sum_weighted_values, sum_weights) :=
    foldl (fun '(sum_weighted_values, sum_weights) example_idx =>
             let label := labels !!! example_idx in
             let prediction := predictions !!! example_idx in
             (fadd binary64 sum_weighted_values
                (cast binary64
                   (fmul binary32 (weights !!! example_idx)
                      (fsub binary32 label prediction))),
              fadd binary64 sum_weights (cast binary64 (weights !!! example_idx))))
          (of_int binary64 0, of_int binary64 0) selected_examples in
  Returns (set_top_value
             (cast binary32
                (fdiv binary64
                   (fmul binary64 (cast binary64 (shrinkage gbt_config_))
                      sum_weighted_values)
                   (fadd binary64 sum_weights
                      (cast binary64
                         (fdiv binary32 (l2_regularization gbt_config_)
                            (of_int binary32 2))))))
             node).

(** [MultinomialLogLikelihoodLoss::SetLeaf]; the gradient of the tree being
    grown is the numerical column [config_link.label()] of the training
    dataset. *)
Definition MultinomialLogLikelihoodLoss_SetLeaf (dimension_ : Z)
    (gbt_config_ : GradientBoostedTreesTrainingConfig F)
    (train_dataset : VerticalDataset F) (selected_examples : list nat)
    (weights : list F) (config_link_label : nat)
    (node : Node F) : outcome (Node F) :=
  let node :=
    if negb (use_hessian_gain gbt_config_)
    then SetRegressionLabelDistribution train_dataset selected_examples weights node
    else node in
  grad ← ColumnWithCast_NumericalColumn train_dataset config_link_label;
  let '(numerator, denominator, sum_weights) :=
    foldl (fun '(numerator, denominator, sum_weights) example_idx =>
             let weight := weights !!! example_idx in
             let abs_grad := fabs (grad !!! example_idx) in
             (fadd binary64 numerator
                (cast binary64 (fmul binary32 weight (grad !!! example_idx))),
              fadd binary64 denominator
                (cast binary64
                   (fmul binary32 (fmul binary32 weight abs_grad)
                      (fsub binary32 (of_int binary32 1) abs_grad))),
              fadd binary64 sum_weights (cast binary64 weight)))
          (of_int binary64 0, of_int binary64 0, of_int binary64 0)
          selected_examples in
  let denominator :=
    if fle denominator (cast binary64 kMinHessianForNewtonStep)
    then cast binary64 kMinHessianForNewtonStep
    else denominator in
  let node :=
    if use_hessian_gain gbt_config_
    then set_sums numerator denominator sum_weights node
    else node in
  let numerator := fmul binary64 numerator (of_int binary64 (dimension_ - 1)) in
  let denominator := fmul binary64 denominator (of_int binary64 dimension_) in
  let leaf_value :=
    fmul binary32 (shrinkage gbt_config_)
      (cast binary32
         (fdiv binary64
            (l1_threshold numerator (cast binary64 (l1_regularization gbt_config_)))
            (fadd binary64 denominator
               (cast binary64 (l2_regularization gbt_config_))))) in
  Returns (set_top_value
             (clamp leaf_value (fneg (clamp_leaf_logit gbt_config_))
                    (clamp_leaf_logit gbt_config_))
             node).

(** [NDCGLoss::SetLeafStatic], which [CrossEntropyNDCGLoss::SetLeafFunctor]
    calls too. *)
Definition NDCGLoss_SetLeafStatic
    (train_dataset : VerticalDataset F) (selected_examples : list nat)
    (weights : list F)
    (gbt_config : GradientBoostedTreesTrainingConfig F)
    (gradients : list (GradientData F)) (node : Node F) : Node F :=
  let node :=
    if negb (use_hessian_gain gbt_config)
    then SetRegressionLabelDistribution train_dataset selected_examples weights node
    else node in
  let gradient_data := gradient (gradients !!! 0) in
  let second_order_derivative_data := hessian (gradients !!! 0) in
  let '(sum_weighted_gradient, sum_weighted_second_order_derivative, sum_weights) :=
    foldl (fun '(sum_weighted_gradient, sum_weighted_second_order_derivative,
                 sum_weights) example_idx =>
             let weight := weights !!! example_idx in
             (fadd binary64 sum_weighted_gradient
                (cast binary64
                   (fmul binary32 weight (gradient_data !!! example_idx))),
              fadd binary64 sum_weighted_second_order_derivative
                (cast binary64
                   (fmul binary32 weight
                      (second_order_derivative_data !!! example_idx))),
              fadd binary64 sum_weights (cast binary64 weight)))
          (of_int binary64 0, of_int binary64 0, of_int binary64 0)
          selected_examples in
  let sum_weighted_second_order_derivative :=
    if fle sum_weighted_second_order_derivative
           (cast binary64 kMinHessianForNewtonStep)
    then cast binary64 kMinHessianForNewtonStep
    else sum_weighted_second_order_derivative in
  let node :=
    if use_hessian_gain gbt_config
    then set_sums sum_weighted_gradient sum_weighted_second_order_derivative
           sum_weights node
    else node in
  set_top_value
    (cast binary32
       (fdiv binary64
          (fmul binary64 (cast binary64 (shrinkage gbt_config))
             (l1_threshold sum_weighted_gradient
                (cast binary64 (l1_regularization gbt_config))))
          (fadd binary64 sum_weighted_second_order_derivative
             (cast binary64 (l2_regularization gbt_config)))))
    node.

End UpdateGradients.

(** ** The calls of a training *)

Section Successive.
Context {F : Type} `{Arith F} `{Externals F} `{HasNaN F}.

(** [UpdatePredictions] of a loss called once per iteration, on the trees
    of the iteration, each call on the predictions the call before left. *)
Definition successive_UpdatePredictions (loss : LossImp)
    (iterations : list (list (DecisionTree F))) (dataset : VerticalDataset F)
    (predictions : list F) : list F :=
  foldl (fun predictions new_trees =>
           (AbstractLoss_UpdatePredictions loss new_trees dataset predictions
              None).1.2)
        predictions iterations.

End Successive.

(** ** [CrossEntropyNDCGLoss::UpdateGradients] *)

(** [proto::GradientBoostedTreesTrainingConfig::XeNdcg::Gamma]. *)
Inductive XeNdcg_Gamma := XeNdcg_AUTO | XeNdcg_ONE | XeNdcg_UNIFORM.

(** The two functions of the C++ library that the loss calls besides
    [std::exp] and [std::log]: [std::exp2f], and a draw of
    [std::uniform_real_distribution<float>(0.0, 1.0)] from the caller's
    random engine. *)
Class XeNdcgExternals (F : Type) `{Externals F} : Type := {
  exp2f : F -> F;
  uniform_real_distribution : RandomEngine -> F * RandomEngine
}.

Section CrossEntropyNDCG.
Context {F : Type} `{Arith F} `{Externals F} `{!XeNdcgExternals F}.

(** [1e-20f]: the [float] nearest to the [double] [1 / 10^20], which is the
    [float] nearest to the decimal; [1e-5f] and [.99999f]. *)
Definition xe_ndcg_epsilon : F := cast binary32 (literal binary64 1 (10 ^ 20)).
Definition xe_ndcg_min_probability : F := literal binary32 1 100000.
Definition xe_ndcg_max_probability : F := literal binary32 99999 100000.

(** [*std::max_element(first, last)] on a vector that is not empty: the
    first of the greatest elements. *)
Definition max_element (values : list F) : F :=
  foldl (fun largest value => if flt largest value then value else largest)
        (values !!! 0) (drop 1 values).

(** The [switch] on [gamma], which fills [params] after its resize to the
    size of the group. *)
Definition xe_ndcg_params (gamma : XeNdcg_Gamma) (group_size : nat)
    (random : RandomEngine) : list F * RandomEngine :=
  let params : list F := replicate group_size (of_int binary32 0) in
  match gamma with
  | XeNdcg_ONE => (replicate group_size (of_int binary32 1), random)
  | XeNdcg_AUTO | XeNdcg_UNIFORM =>
      foldl (fun '(params, random) item_idx =>
               let '(value, random) :=
                 uniform_real_distribution (F := F) random in
               (<[item_idx := value]> params, random))
            (params, random) (seq 0 group_size)
  end.

(** The body of the loop on the groups, on [(gradient_data,
    second_order_derivative_data, random)].  The vectors [preds] and [params]
    are resized to the group and written in full before they are read: they
    are local to the body here. *)
Definition xe_ndcg_group (gamma : XeNdcg_Gamma) (predictions : list F)
    (st : list F * list F * RandomEngine) (group : Group F)
    : list F * list F * RandomEngine :=
  let '(gradient_data, second_order_derivative_data, random) := st in
  let group_size := length (items group) in
  if decide (group_size <= 1) then st
  else
    let '(params, random) := xe_ndcg_params gamma group_size random in
    let preds :=
      (fun item => predictions !!! example_idx item) <$> items group in
    let max_pred := max_element preds in
    let sum_exp :=
      foldl (fun sum_exp idx =>
               fadd binary32 sum_exp
                 (f_exp binary32 (fsub binary32 (preds !!! idx) max_pred)))
            (of_int binary32 0) (seq 0 group_size) in
    let log_sum_exp :=
      fadd binary32 max_pred
        (f_log binary32 (fadd binary32 sum_exp xe_ndcg_epsilon)) in
    let preds :=
      foldl (fun preds idx =>
               let probability :=
                 f_exp binary32 (fsub binary32 (preds !!! idx) log_sum_exp) in
               <[idx := clamp probability xe_ndcg_min_probability
                          xe_ndcg_max_probability]> preds)
            preds (seq 0 group_size) in
    let '(params, inv_denominator) :=
      foldl (fun '(params, inv_denominator) idx =>
               let numerator :=
                 fsub binary32 (exp2f (relevance (items group !!! idx)))
                               (params !!! idx) in
               (<[idx := numerator]> params,
                fadd binary32 inv_denominator numerator))
            (params, of_int binary32 0) (seq 0 group_size) in
    if feq inv_denominator (of_int binary32 0)
    then (gradient_data, second_order_derivative_data, random)
    else
      let inv_denominator := fdiv binary32 (of_int binary32 1) inv_denominator in
      let '(gradient_data, params, sum_l1) :=
        foldl (fun '(gradient_data, params, sum_l1) idx =>
                 let example_idx := example_idx (items group !!! idx) in
                 let term :=
                   fadd binary32
                     (fmul binary32 (fneg (params !!! idx)) inv_denominator)
                     (preds !!! idx) in
                 let param :=
                   fdiv binary32 term
                     (fsub binary32 (of_int binary32 1) (preds !!! idx)) in
                 (<[example_idx := fneg term]> gradient_data,
                  <[idx := param]> params,
                  fadd binary32 sum_l1 param))
              (gradient_data, params, of_int binary32 0) (seq 0 group_size) in
      let '(gradient_data, params, sum_l2) :=
        foldl (fun '(gradient_data, params, sum_l2) idx =>
                 let example_idx := example_idx (items group !!! idx) in
                 let term :=
                   fmul binary32 (preds !!! idx)
                     (fsub binary32 sum_l1 (params !!! idx)) in
                 let param :=
                   fdiv binary32 term
                     (fsub binary32 (of_int binary32 1) (preds !!! idx)) in
                 (<[example_idx :=
                      fsub binary32 (gradient_data !!! example_idx) term]>
                    gradient_data,
                  <[idx := param]> params,
                  fadd binary32 sum_l2 param))
              (gradient_data, params, of_int binary32 0) (seq 0 group_size) in
      let '(gradient_data, second_order_derivative_data) :=
        foldl (fun '(gradient_data, second_order_derivative_data) idx =>
                 let example_idx := example_idx (items group !!! idx) in
                 (<[example_idx :=
                      fsub binary32 (gradient_data !!! example_idx)
                        (fmul binary32 (preds !!! idx)
                           (fsub binary32 sum_l2 (params !!! idx)))]>
                    gradient_data,
                  <[example_idx :=
                      fmul binary32 (preds !!! idx)
                        (fsub binary32 (of_int binary32 1) (preds !!! idx))]>
                    second_order_derivative_data))
              (gradient_data, second_order_derivative_data)
              (seq 0 group_size) in
      (gradient_data, second_order_derivative_data, random).

(** [CrossEntropyNDCGLoss::UpdateGradients]; [gamma] is
    [gbt_config_.xe_ndcg().gamma()], and [hessian] points to a vector as in
    [NDCGLoss_UpdateGradients]. *)
Definition CrossEntropyNDCGLoss_UpdateGradients (gamma : XeNdcg_Gamma)
    (predictions : list F) (ranking_index : RankingGroupsIndices F)
    (gradients : list (GradientData F)) (random : RandomEngine)
    : Status * list (GradientData F) * RandomEngine :=
  let gradient_data := gradient (gradients !!! 0) in
  let second_order_derivative_data := hessian (gradients !!! 0) in
  let gradient_data := replicate (length gradient_data) (of_int binary32 0) in
  let second_order_derivative_data :=
    replicate (length second_order_derivative_data) (of_int binary32 0) in
  let '(gradient_data, second_order_derivative_data, random) :=
    foldl (xe_ndcg_group gamma predictions)
          (gradient_data, second_order_derivative_data, random)
          (groups_ ranking_index) in
  (OkStatus,
   <[0 := {| gradient := gradient_data;
             hessian := second_order_derivative_data |}]> gradients,
   random).

End CrossEntropyNDCG.

(** ** More small inputs *)

Module Samples.

(** The library functions of the cross-entropy NDCG loss, as simple as
    their types allow: [exp2f] answers its argument, every draw is [0]. *)
Definition xe_ndcg_externals `{Arith F}
    : XeNdcgExternals F (H := Fixture.externals) := {|
  exp2f x := x;
  uniform_real_distribution random := (of_int binary32 0, random)
|}.

(** A binary classifier with one tree, whose only leaf is [3]. *)
Definition exact_binomial_model : GradientBoostedTreesModel R :=
  {| task := CLASSIFICATION; loss_ := BINOMIAL_LOG_LIKELIHOOD;
     initial_predictions_ := [0%R]; num_trees_per_iter_ := 1;
     decision_trees_ := [Fixture.stump 3%R] |}.

(** A dataset of one row and no column, and one of two numerical rows. *)
Definition one_row : VerticalDataset R := {| nrow := 1; columns := [] |}.

Definition exact_regression_dataset : VerticalDataset R :=
  {| nrow := 2; columns := [NumericalColumn [1; 3]%R] |}.

(** The label column of a classification with two classes, and the model
    data of it. *)
Definition binary_label : proto_Column :=
  {| column_name := "label"; number_of_unique_values := 3 |}.

Definition classification_model_data : AbstractModelData :=
  {| label_col_spec := binary_label; ranking_group_col_idx := -1 |}.

(** One group of two items of the same relevance, and two groups of one
    item. *)
Definition tied_ranking_index : RankingGroupsIndices spec_float :=
  {| groups_ :=
       [{| group_idx := 5;
           items := [{| relevance := IEEE.sf_of_int binary32 2; example_idx := 1 |};
                     {| relevance := IEEE.sf_of_int binary32 2; example_idx := 0 |}] |}];
     num_items_ := 2 |}.

Definition singleton_ranking_index : RankingGroupsIndices spec_float :=
  {| groups_ :=
       [{| group_idx := 5;
           items := [{| relevance := IEEE.sf_of_int binary32 2; example_idx := 1 |}] |};
        {| group_idx := 9;
           items := [{| relevance := IEEE.sf_of_int binary32 1; example_idx := 0 |}] |}];
     num_items_ := 2 |}.

Definition float_gradients : list (GradientData spec_float) :=
  [{| gradient := [Examples.one; Examples.one];
      hessian := [Examples.one; Examples.one] |}].

(** A shrinkage of 1, no regularization and leaves clamped to [[-5, 5]], on
    floats and on real numbers. *)
Definition plain_config : GradientBoostedTreesTrainingConfig spec_float :=
  {| shrinkage := Examples.one; l1_regularization := Examples.zero;
     l2_regularization := Examples.zero;
     clamp_leaf_logit := IEEE.sf_of_int binary32 5;
     use_hessian_gain := false; lambda_loss := Examples.one;
     gradient_use_non_normalized_dcg := false |}.

Definition exact_plain_config : GradientBoostedTreesTrainingConfig R :=
  {| shrinkage := 1%R; l1_regularization := 0%R; l2_regularization := 0%R;
     clamp_leaf_logit := 5%R; use_hessian_gain := false; lambda_loss := 1%R;
     gradient_use_non_normalized_dcg := false |}.

(** One row of label 2. *)
Definition one_positive_row : VerticalDataset spec_float :=
  {| nrow := 1; columns := [CategoricalColumn [2%Z]] |}.

(** [K] classes, one iteration, every leaf [v]. *)
Definition equal_leaves_model (K : nat) (v : spec_float)
    : GradientBoostedTreesModel spec_float :=
  {| task := CLASSIFICATION; loss_ := MULTINOMIAL_LOG_LIKELIHOOD;
     initial_predictions_ := replicate K (S754_zero false);
     num_trees_per_iter_ := K;
     decision_trees_ := replicate K (Fixture.stump v) |}.

End Samples.

(** * Properties *)

(** ** Updating the predictions with the wrong number of trees *)

Section UpdatePredictions.
Context {F : Type} `{Arith F}.

Lemma univariate_UpdatePredictions_status
    (new_trees : list (DecisionTree F)) dataset (predictions : list F) mean :
  let '(status, after, _) :=
    univariate_UpdatePredictions new_trees dataset predictions mean in
  (length new_trees = 1 -> status = OkStatus) /\
  (length new_trees <> 1 ->
   status = InternalError "Wrong number of trees" /\ after = predictions).
Proof.
  unfold univariate_UpdatePredictions.
  destruct new_trees as [|front [|second rest]]; cbn [length].
  - split; [discriminate | auto].
  - destruct (UpdatePredictionWithSingleUnivariateTree _ _ _ _).
    split; [reflexivity | congruence].
  - split; [discriminate | auto].
Qed.

Lemma multinomial_UpdatePredictions_status dimension_
    (new_trees : list (DecisionTree F)) dataset (predictions : list F) mean :
  let '(status, after, _) :=
    MultinomialLogLikelihoodLoss_UpdatePredictions
      dimension_ new_trees dataset predictions mean in
  (Z.of_nat (length new_trees) = dimension_ -> status = OkStatus) /\
  (Z.of_nat (length new_trees) <> dimension_ ->
   status = InternalError "Wrong number of trees" /\ after = predictions).
Proof.
  unfold MultinomialLogLikelihoodLoss_UpdatePredictions.
  destruct (decide _) as [Hne | Heq].
  - split; [congruence | auto].
  - destruct (UpdatePredictionWithMultipleUnivariateTrees _ _ _ _).
    split; [reflexivity | intros Hne; contradict Heq; exact Hne].
Qed.

(** C8.  For each of the five losses, [UpdatePredictions] returns an
    [InternalError] exactly when the number of trees it is handed is not the
    one the loss expects (one tree, or [dimension_] trees for the multinomial
    loss); it returns [OkStatus] otherwise; and when it returns the error the
    predictions are the ones it was given. *)
Theorem UpdatePredictions_wrong_number_of_trees
    (loss : LossImp) (new_trees : list (DecisionTree F))
    (dataset : VerticalDataset F) (predictions : list F)
    (mean_abs_prediction : option F) :
  let '(status, predictions_after, _) :=
    AbstractLoss_UpdatePredictions loss new_trees dataset predictions
      mean_abs_prediction in
  (is_InternalError status <->
   Z.of_nat (length new_trees) <> expected_number_of_trees loss) /\
  (status = OkStatus <->
   Z.of_nat (length new_trees) = expected_number_of_trees loss) /\
  (is_InternalError status -> predictions_after = predictions).
Proof.
  assert (Hcases :
    forall (status : Status) (after : list F) (n expected : Z),
      (n = expected -> status = OkStatus) ->
      (n <> expected ->
       status = InternalError "Wrong number of trees" /\ after = predictions) ->
      (is_InternalError status <-> n <> expected) /\
      (status = OkStatus <-> n = expected) /\
      (is_InternalError status -> after = predictions)).
  { intros status after n expected Hok Hbad.
    destruct (decide (n = expected)) as [Heq | Hne].
    - rewrite (Hok Heq). cbn. repeat split; try tauto; try done.
    - destruct (Hbad Hne) as [-> ->]. cbn. repeat split; try tauto; try done. }
  destruct loss; cbn [AbstractLoss_UpdatePredictions expected_number_of_trees];
    unfold BinomialLogLikelihoodLoss_UpdatePredictions,
           MeanSquaredErrorLoss_UpdatePredictions,
           NDCGLoss_UpdatePredictions,
           CrossEntropyNDCGLoss_UpdatePredictions.
  all: try (pose proof (univariate_UpdatePredictions_status
                          new_trees dataset predictions mean_abs_prediction) as Hu;
            destruct (univariate_UpdatePredictions _ _ _ _) as [[status after] m];
            destruct Hu as [Hok Hbad];
            apply Hcases; [intros Hn; apply Hok; lia | intros Hn; apply Hbad; lia]).
  pose proof (multinomial_UpdatePredictions_status dimension_
                new_trees dataset predictions mean_abs_prediction) as Hm.
  destruct (MultinomialLogLikelihoodLoss_UpdatePredictions _ _ _ _ _)
    as [[status after] m].
  destruct Hm as [Hok Hbad]. apply Hcases; assumption.
Qed.

End UpdatePredictions.

(** ** Squared error inference *)

Section SquaredErrorInference.
Context {F : Type} `{Arith F}.

(** [sum_of_leaves] is the initial prediction plus the leaves' values,
    added in the order of the trees. *)
Lemma sum_of_leaves_unfold (model : GradientBoostedTreesModel F) dataset row_idx :
  sum_of_leaves model dataset row_idx =
  foldl (fun acc tree =>
           fadd binary64 acc
             (cast binary64 (top_value (regressor (GetLeaf tree dataset row_idx)))))
        (cast binary64 (initial_predictions_ model !!! 0))
        (decision_trees_ model).
Proof. reflexivity. Qed.

Lemma sum_of_leaves_Example_unfold (model : GradientBoostedTreesModel F) example :
  sum_of_leaves_Example model example =
  foldl (fun acc tree =>
           fadd binary64 acc
             (cast binary64 (top_value (regressor (GetLeaf_Example tree example)))))
        (cast binary64 (initial_predictions_ model !!! 0))
        (decision_trees_ model).
Proof. reflexivity. Qed.

(** C4.  With the loss [SQUARED_ERROR] and the task [RANKING], prediction on
    a row of a dataset emits the accumulated value as [ranking.relevance],
    and prediction on an [Example] emits it as [regression.value]: the
    second entry point does not look at the task. *)
Theorem Predict_Example_SquaredError_ranking
    (initial_predictions : list F) (num_trees_per_iter : nat)
    (decision_trees : list (DecisionTree F))
    (dataset : VerticalDataset F) (row_idx : nat) (example : Example F)
    (prediction : Prediction F) :
  let model :=
    {| task := RANKING; loss_ := SQUARED_ERROR;
       initial_predictions_ := initial_predictions;
       num_trees_per_iter_ := num_trees_per_iter;
       decision_trees_ := decision_trees |} in
  Predict model dataset row_idx prediction =
    Returns (ranking (cast binary32 (sum_of_leaves model dataset row_idx))) /\
  Predict_Example model example prediction =
    Returns (regression (cast binary32 (sum_of_leaves_Example model example))).
Proof. split; reflexivity. Qed.

(** On a row of a dataset the task decides, as the claim says. *)
Lemma Predict_SquaredError_regression (model : GradientBoostedTreesModel F)
    dataset row_idx prediction :
  loss_ model = SQUARED_ERROR -> task model = REGRESSION ->
  Predict model dataset row_idx prediction =
    Returns (regression (cast binary32 (sum_of_leaves model dataset row_idx))).
Proof. unfold Predict. intros -> ->. reflexivity. Qed.

End SquaredErrorInference.

(** ** The secondary metrics of [CrossEntropyNDCGLoss::Loss] *)

Section LossFrame.
Context {F : Type} `{Arith F} `{Externals F} `{HasNaN F}.

Lemma length_Resize {A} (n : nat) (v : A) (l : list A) :
  length (Resize n v l) = n.
Proof.
  unfold Resize. rewrite length_app, length_take, length_replicate. lia.
Qed.

(** Every other loss leaves as many secondary metrics as it has names for,
    whatever vector it was handed. *)
Lemma other_losses_resize (loss : LossImp) dataset label_col_idx
    (predictions weights : list F) ranking_index loss_value secondary_metric
    loss_after secondary_after :
  loss <> CrossEntropyNDCGLoss ->
  AbstractLoss_Loss loss dataset label_col_idx predictions weights
    ranking_index loss_value secondary_metric =
    Returns (OkStatus, loss_after, secondary_after) ->
  length secondary_after = length (AbstractLoss_SecondaryMetricNames loss) /\
  0 < length secondary_after.
Proof.
  intros Hloss.
  destruct loss; [| | | |congruence];
    cbn [AbstractLoss_Loss AbstractLoss_SecondaryMetricNames].
  - unfold BinomialLogLikelihoodLoss_Loss.
    destruct (ColumnWithCast_CategoricalColumn _ _); cbn; [|discriminate].
    destruct (foldl _ _ _) as [[? ?] ?].
    destruct (fgt _ _); intros [= <- <-];
      rewrite length_insert, length_Resize; cbn; lia.
  - unfold MeanSquaredErrorLoss_Loss, MeanSquaredErrorLoss_SecondaryMetricNames.
    destruct (ColumnWithCast_NumericalColumn _ _); cbn; [|discriminate].
    destruct (decide (task_ = RANKING)).
    + destruct ranking_index; [|discriminate].
      intros [= <- <-]. rewrite !length_insert, length_Resize; cbn; lia.
    + intros [= <- <-]. rewrite length_insert, length_Resize; cbn; lia.
  - unfold MultinomialLogLikelihoodLoss_Loss.
    destruct (ColumnWithCast_CategoricalColumn _ _); cbn; [|discriminate].
    destruct (foldl _ _ _) as [[? ?] ?].
    destruct (fgt _ _); intros [= <- <-];
      rewrite length_insert, length_Resize; cbn; lia.
  - unfold NDCGLoss_Loss. destruct ranking_index; [|discriminate].
    intros [= <- <-]. rewrite length_insert, length_Resize; cbn; lia.
Qed.

(** C10.  [CrossEntropyNDCGLoss::Loss] returns the caller's
    [secondary_metric] as it received it, on both of its paths; with a
    ranking index it succeeds and the loss is the negated NDCG@5.  Every
    other loss, when it succeeds, leaves a vector of the length of its list
    of secondary metrics, which is not empty. *)
Theorem CrossEntropyNDCGLoss_Loss_keeps_secondary_metric
    (dataset : VerticalDataset F) (label_col_idx : nat)
    (predictions weights : list F)
    (ranking_index : option (RankingGroupsIndices F))
    (loss_value : F) (secondary_metric : list F) :
  (exists status loss_after,
     AbstractLoss_Loss CrossEntropyNDCGLoss dataset label_col_idx predictions
       weights ranking_index loss_value secondary_metric =
       Returns (status, loss_after, secondary_metric) /\
     match ranking_index with
     | Some index =>
         status = OkStatus /\
         loss_after =
           cast binary32
             (fneg (RankingGroupsIndices_NDCG index predictions weights 5))
     | None => is_InternalError status /\ loss_after = loss_value
     end) /\
  (forall loss loss_after secondary_after,
     loss <> CrossEntropyNDCGLoss ->
     AbstractLoss_Loss loss dataset label_col_idx predictions weights
       ranking_index loss_value secondary_metric =
       Returns (OkStatus, loss_after, secondary_after) ->
     length secondary_after = length (AbstractLoss_SecondaryMetricNames loss) /\
     0 < length secondary_after).
Proof.
  split.
  - cbn [AbstractLoss_Loss]. unfold CrossEntropyNDCGLoss_Loss.
    destruct ranking_index as [index|]; eexists _, _; split;
      try reflexivity; split; reflexivity || exact I.
  - intros loss loss_after secondary_after Hloss Hcall.
    exact (other_losses_resize _ _ _ _ _ _ _ _ _ _ Hloss Hcall).
Qed.

End LossFrame.

(** ** The initial prediction of the binomial loss *)

Section InitialPredictions.
Context {F : Type} `{Arith F}.

Lemma foldl_pair {A B C} (f : A -> C -> A) (g : B -> C -> B) (l : list C) a b :
  foldl (fun '(x, y) i => (f x i, g y i)) (a, b) l = (foldl f a l, foldl g b l).
Proof. revert a b. induction l as [|i l IH]; intros a b; cbn; [reflexivity | apply IH]. Qed.

(** The values [InitialPredictions] returns are the ones of the
    specification, with [p] the weighted share of the label 2; it has no
    failing path of its own. *)
Lemma BinomialLogLikelihoodLoss_InitialPredictions_value
    (dataset : VerticalDataset F) label_col_idx (labels : list Z) (weights : list F) :
  ColumnWithCast_CategoricalColumn dataset label_col_idx = Returns labels ->
  let p :=
    fdiv binary64 (weighted_sum_of_positives labels weights (nrow dataset))
                  (sum_of_weights weights (nrow dataset)) in
  BinomialLogLikelihoodLoss_InitialPredictions dataset label_col_idx weights =
  Returns (Value
    [if feq p (of_int binary64 0) then fneg FLT_MAX
     else if feq p (of_int binary64 1) then FLT_MAX
     else cast binary32
            (f_log binary64 (fdiv binary64 p (fsub binary64 (of_int binary64 1) p)))]).
Proof.
  intros Hlabels p. unfold BinomialLogLikelihoodLoss_InitialPredictions.
  rewrite Hlabels. cbn [mbind outcome_bind].
  rewrite (foldl_pair
             (fun s i =>
                fadd binary64 s
                  (cast binary64
                     (fmul binary32 (weights !!! i)
                        (of_bool binary32 (bool_decide (labels !!! i = 2%Z))))))
             (fun s i => fadd binary64 s (cast binary64 (weights !!! i)))).
  fold (weighted_sum_of_positives labels weights (nrow dataset)).
  fold (sum_of_weights weights (nrow dataset)). fold p.
  destruct (feq p (of_int binary64 0)); [reflexivity|].
  destruct (feq p (of_int binary64 1)); reflexivity.
Qed.

End InitialPredictions.

Section InitialPredictionsIEEE.
Context `{IEEE.Libm}.

(** C1.  On two examples of weight zero the binomial
    [InitialPredictions] returns the one-element vector [NaN] as a value: the
    sum of the weights is [0], the claim's failure is not raised. *)
Theorem BinomialLogLikelihoodLoss_InitialPredictions_zero_weights :
  let dataset :=
    {| nrow := 2; columns := [CategoricalColumn [1; 2]%Z] |} in
  let weights := [S754_zero false; S754_zero false] in
  sum_of_weights weights (nrow dataset) = S754_zero false /\
  BinomialLogLikelihoodLoss_InitialPredictions dataset 0 weights =
    Returns (Value [S754_nan]).
Proof. split; reflexivity. Qed.

(** The same on no example at all. *)
Lemma BinomialLogLikelihoodLoss_InitialPredictions_empty :
  BinomialLogLikelihoodLoss_InitialPredictions
    {| nrow := 0; columns := [CategoricalColumn []] |} 0 [] =
    Returns (Value [S754_nan]).
Proof. reflexivity. Qed.

(** [MeanSquaredErrorLoss::InitialPredictions] fails on such weights. *)
Lemma MeanSquaredErrorLoss_InitialPredictions_zero_weights :
  MeanSquaredErrorLoss_InitialPredictions
    {| nrow := 2;
       columns := [NumericalColumn [IEEE.sf_of_int binary32 1;
                                    IEEE.sf_of_int binary32 2]] |}
    0 [S754_zero false; S754_zero false] =
    Returns (Failed (InvalidArgumentError
      "The sum of weights are null. The dataset is either empty or contains null weights.")).
Proof. reflexivity. Qed.

End InitialPredictionsIEEE.

(** ** Evaluation on a total weight of zero *)

Lemma foldl_invariant {A B} (P : A -> Prop) (f : A -> B -> A) (l : list B) (a : A) :
  P a -> (forall a x, P a -> P (f a x)) -> P (foldl f a l).
Proof.
  intros Ha Hstep. revert a Ha.
  induction l as [|x l IH]; intros a Ha; cbn; [assumption|].
  apply IH, Hstep, Ha.
Qed.

Lemma foldl_ext {A B} (f g : A -> B -> A) (l : list B) (a : A) :
  (forall a x, f a x = g a x) -> foldl f a l = foldl g a l.
Proof.
  intros Hfg. revert a.
  induction l as [|x l IH]; intros a; cbn; [reflexivity|].
  rewrite Hfg. apply IH.
Qed.

Section ZeroWeightIEEE.
Context `{IEEE.Libm} `{Externals spec_float}.

Lemma lookup_total_is_zero (weights : list spec_float) (i : nat) :
  Forall is_zero weights -> is_zero (weights !!! i).
Proof.
  intros Hall. rewrite list_lookup_total_alt.
  destruct (weights !! i) as [w|] eqn:Hw; cbn.
  - exact (proj1 (Forall_lookup _ _) Hall i w Hw).
  - exact I.
Qed.

Lemma add_cast_zero (f : format) (s w : spec_float) :
  is_zero s -> is_zero w -> is_zero (fadd f s (cast f w)).
Proof. destruct s as [[]| | |], w as [[]| | |]; cbn; tauto. Qed.

Lemma zero_not_positive (s : spec_float) (f : format) :
  is_zero s -> fgt s (of_int f 0) = false.
Proof. destruct s as [[]| | |], f; cbn; tauto. Qed.

Lemma add_mul_zero_or_nan (f : format) (s w x : spec_float) :
  zero_or_nan s -> is_zero w ->
  zero_or_nan (fadd f s (fmul f (cast f w) x)).
Proof.
  destruct s as [[]| | |], w as [[]| | |], x as [[]|[]| |[]]; cbn; tauto.
Qed.

Lemma div_by_zero_is_nan (f : format) (a b : spec_float) :
  zero_or_nan a -> is_zero b -> fdiv f a b = S754_nan.
Proof. destruct a as [[]| | |], b as [[]| | |]; cbn; tauto. Qed.

(** [RankingGroupsIndices::NDCG] is NaN when every weight is zero. *)
Lemma RankingGroupsIndices_NDCG_zero_weights
    (index : RankingGroupsIndices spec_float) predictions weights truncation :
  Forall is_zero weights ->
  RankingGroupsIndices_NDCG index predictions weights truncation = S754_nan.
Proof.
  intros Hall. unfold RankingGroupsIndices_NDCG.
  match goal with
  | |- context [foldl ?f ?a ?l] =>
      pose proof (foldl_invariant
                    (fun st => zero_or_nan st.1 /\ is_zero st.2) f l a) as Hinv
  end.
  destruct (foldl _ _ _) as [sum_weighted_ndcg sum_weights].
  destruct Hinv as [Hn Hw].
  - split; exact I.
  - intros [a b] group [Ha Hb]. cbn [fst snd] in *. split.
    + apply add_mul_zero_or_nan; [assumption | apply lookup_total_is_zero, Hall].
    + apply add_cast_zero; [assumption | apply lookup_total_is_zero, Hall].
  - apply div_by_zero_is_nan; assumption.
Qed.

Lemma Binomial_Loss_zero_weights dataset label_col_idx labels
    predictions weights ranking_index loss_value secondary_metric :
  Forall is_zero weights ->
  ColumnWithCast_CategoricalColumn dataset label_col_idx = Returns labels ->
  BinomialLogLikelihoodLoss_Loss dataset label_col_idx predictions weights
    ranking_index loss_value secondary_metric =
  Returns (OkStatus, S754_nan,
           <[0 := S754_nan]> (Resize 1 (of_int binary32 0) secondary_metric)).
Proof.
  intros Hall Hlabels. unfold BinomialLogLikelihoodLoss_Loss.
  rewrite Hlabels. cbn [mbind outcome_bind].
  match goal with
  | |- context [foldl ?f ?a ?l] =>
      pose proof (foldl_invariant (fun st => is_zero st.2) f l a) as Hinv
  end.
  destruct (foldl _ _ _) as [[sum_loss count] sum_weights].
  rewrite zero_not_positive; [reflexivity|].
  apply Hinv; [exact I|].
  intros [[a b] c] i Hc. cbn [fst snd] in *.
  apply add_cast_zero; [assumption | apply lookup_total_is_zero, Hall].
Qed.

Lemma Multinomial_Loss_zero_weights dimension_ dataset label_col_idx labels
    predictions weights ranking_index loss_value secondary_metric :
  Forall is_zero weights ->
  ColumnWithCast_CategoricalColumn dataset label_col_idx = Returns labels ->
  MultinomialLogLikelihoodLoss_Loss dimension_ dataset label_col_idx
    predictions weights ranking_index loss_value secondary_metric =
  Returns (OkStatus, S754_nan,
           <[0 := S754_nan]> (Resize 1 (of_int binary32 0) secondary_metric)).
Proof.
  intros Hall Hlabels. unfold MultinomialLogLikelihoodLoss_Loss.
  rewrite Hlabels. cbn [mbind outcome_bind].
  match goal with
  | |- context [foldl ?f ?a (seq 0 (nrow dataset))] =>
      pose proof (foldl_invariant (fun st => is_zero st.2) f
                    (seq 0 (nrow dataset)) a) as Hinv
  end.
  destruct (foldl _ _ (seq 0 (nrow dataset))) as [[sum_loss count] sum_weights].
  rewrite zero_not_positive; [reflexivity|].
  apply Hinv; [exact I|].
  intros [[a b] c] i Hc. cbn [fst snd] in *.
  destruct (foldl _ _ _) as [[? ?] ?]. cbn [snd].
  apply add_cast_zero; [assumption | apply lookup_total_is_zero, Hall].
Qed.

(** The two sums of [RMSE] on weights that are all zero: the weighted
    squared errors add up to a zero or a NaN, the weights to a zero, and the
    square root of their quotient is a NaN. *)
Lemma add_cast_mul_zero_or_nan (s w x : spec_float) :
  zero_or_nan s -> is_zero w ->
  zero_or_nan (fadd binary64 s (cast binary64 (fmul binary32 w x))).
Proof.
  destruct s as [[]| | |], w as [[]| | |], x as [[]|[]| |[]]; cbn; tauto.
Qed.

Lemma RMSE_zero_weights (labels predictions weights : list spec_float) :
  Forall is_zero weights ->
  isnan (RMSE labels predictions weights) = true.
Proof.
  intros Hall. unfold RMSE.
  match goal with
  | |- context [foldl ?f ?a ?l] =>
      pose proof (foldl_invariant
                    (fun st => zero_or_nan st.1 /\ is_zero st.2) f l a) as Hinv
  end.
  destruct (foldl _ _ _) as [sum_loss sum_weights].
  destruct Hinv as [Hloss Hweights].
  - split; exact I.
  - intros [a b] i [Ha Hb]. cbn [fst snd] in *. split.
    + apply add_cast_mul_zero_or_nan;
        [assumption | apply lookup_total_is_zero, Hall].
    + apply add_cast_zero; [assumption | apply lookup_total_is_zero, Hall].
  - rewrite div_by_zero_is_nan by assumption. reflexivity.
Qed.

(** C7.  For each of the five losses, on weights that are all zero (in
    particular on an empty dataset) and called as the trainer calls it (a
    label column of the type the loss reads, the ranking index for a loss
    that ranks), [Loss] returns [OkStatus], a NaN loss and a NaN for each of
    its secondary metrics.  For the squared error the value is the one of
    [metric::RMSE], the quotient of two sums that are zero or NaN. *)
Theorem Loss_on_zero_weights_is_NaN
    (loss : LossImp) (dataset : VerticalDataset spec_float) (label_col_idx : nat)
    (predictions weights : list spec_float)
    (ranking_index : option (RankingGroupsIndices spec_float))
    (loss_value : spec_float) (secondary_metric : list spec_float) :
  Forall is_zero weights ->
  label_column_readable loss dataset label_col_idx ->
  (uses_ranking_index loss -> is_Some ranking_index) ->
  exists loss_after secondary_after,
    AbstractLoss_Loss loss dataset label_col_idx predictions weights
      ranking_index loss_value secondary_metric =
      Returns (OkStatus, loss_after, secondary_after) /\
    isnan loss_after = true /\
    forall i, i < length (AbstractLoss_SecondaryMetricNames loss) ->
      exists v, secondary_after !! i = Some v /\ isnan v = true.
Proof.
  intros Hall Hcol Hindex.
  destruct loss as [|task_|dimension_| |];
    cbn [AbstractLoss_Loss AbstractLoss_SecondaryMetricNames
         label_column_readable uses_ranking_index] in *.
  - destruct Hcol as [labels Hlabels].
    rewrite (Binomial_Loss_zero_weights _ _ labels) by assumption.
    eexists _, _. split; [reflexivity|]. split; [reflexivity|].
    intros [|i] Hi; [|cbn in Hi; lia].
    exists S754_nan. split; [|reflexivity].
    destruct secondary_metric; reflexivity.
  - destruct Hcol as [labels Hlabels].
    pose proof (RMSE_zero_weights labels predictions weights Hall) as Hrmse.
    unfold MeanSquaredErrorLoss_Loss, MeanSquaredErrorLoss_SecondaryMetricNames.
    rewrite Hlabels. cbn [mbind outcome_bind].
    destruct (decide (task_ = RANKING)) as [-> | Hother].
    + destruct (Hindex I) as [index ->].
      rewrite RankingGroupsIndices_NDCG_zero_weights by assumption.
      eexists _, _. split; [reflexivity|]. split; [assumption|].
      intros i Hi.
      destruct secondary_metric as [|a [|b rest]];
        destruct i as [|[|i]]; cbn in Hi; try lia; cbn; eauto.
    + eexists _, _. split; [reflexivity|]. split; [assumption|].
      intros [|i] Hi; [|cbn in Hi; lia].
      destruct secondary_metric; cbn; eauto.
  - destruct Hcol as [labels Hlabels].
    rewrite (Multinomial_Loss_zero_weights _ _ _ labels) by assumption.
    eexists _, _. split; [reflexivity|]. split; [reflexivity|].
    intros [|i] Hi; [|cbn in Hi; lia].
    exists S754_nan. split; [|reflexivity].
    destruct secondary_metric; reflexivity.
  - destruct (Hindex I) as [index ->]. unfold NDCGLoss_Loss.
    rewrite RankingGroupsIndices_NDCG_zero_weights by assumption.
    eexists _, _. split; [reflexivity|]. split; [reflexivity|].
    intros [|i] Hi; [|cbn in Hi; lia].
    exists S754_nan. split; [|reflexivity].
    destruct secondary_metric; reflexivity.
  - destruct (Hindex I) as [index ->]. unfold CrossEntropyNDCGLoss_Loss.
    rewrite RankingGroupsIndices_NDCG_zero_weights by assumption.
    eexists _, _. split; [reflexivity|]. split; [reflexivity|].
    intros i Hi. cbn in Hi. lia.
Qed.

End ZeroWeightIEEE.

(** ** The multinomial distribution on equal logits *)

Section MapInPlace.
Context {A : Type} `{Inhabited A}.

Lemma map_cells_length (g : nat -> A -> A) start n cells :
  length (map_cells g start n cells) = length cells.
Proof.
  unfold map_cells. revert start cells.
  induction n as [|n IH]; intros start cells; cbn; [reflexivity|].
  rewrite IH, length_insert. reflexivity.
Qed.

Lemma map_cells_below (g : nat -> A -> A) start n cells j :
  j <= start -> map_cells g start n cells !! j = cells !! j.
Proof.
  unfold map_cells. revert start cells.
  induction n as [|n IH]; intros start cells Hj; cbn; [reflexivity|].
  rewrite IH by lia. apply list_lookup_insert_ne. lia.
Qed.

Lemma map_cells_lookup (g : nat -> A -> A) start n cells k :
  start <= k < start + n -> k + 1 < length cells ->
  map_cells g start n cells !! (k + 1) = Some (g k (cells !!! (k + 1))).
Proof.
  unfold map_cells. revert start cells.
  induction n as [|n IH]; intros start cells Hk Hlen; cbn; [lia|].
  destruct (decide (k = start)) as [-> | Hne].
  - fold (map_cells g (S start) n
            (<[start + 1 := g start (cells !!! (start + 1))]> cells)).
    rewrite map_cells_below by lia.
    apply list_lookup_insert_eq. assumption.
  - rewrite IH by (rewrite ?length_insert; lia).
    rewrite !list_lookup_total_alt, list_lookup_insert_ne by lia.
    reflexivity.
Qed.

End MapInPlace.

Section SoftmaxLoops.
Context {F : Type} `{Arith F}.

Lemma exp_loop_unfold (accumulator : list F) n sum_exp (cells : list F) :
  exp_loop accumulator n (sum_exp, cells) =
  (foldl (fun s i => fadd binary32 s (f_exp binary32 (accumulator !!! i)))
         sum_exp (seq 0 n),
   map_cells (fun i _ => f_exp binary32 (accumulator !!! i)) 0 n cells).
Proof.
  unfold exp_loop, map_cells.
  generalize (seq 0 n) as l. intros l. revert sum_exp cells.
  induction l as [|i l IH]; intros sum_exp cells; cbn; [reflexivity | apply IH].
Qed.

Lemma normalize_loop_counts normalization n st :
  (normalize_loop normalization n st).2 =
  map_cells (fun _ value => fmul binary32 value normalization) 0 n st.2.
Proof.
  unfold normalize_loop, map_cells.
  generalize (seq 0 n) as l. intros l. revert st.
  induction l as [|i l IH]; intros [[hv hi] cells]; cbn [foldl]; [reflexivity|].
  rewrite IH. cbn [snd]. destruct (fgt _ _); reflexivity.
Qed.

End SoftmaxLoops.

Section SoftmaxExact.

Local Open Scope R_scope.

Lemma sum_of_equal_exps (c : R) (K n : nat) (s : R) :
  (n <= K)%nat ->
  foldl (fun s i => fadd binary32 s (f_exp binary32 (replicate K c !!! i)))
        s (seq 0 n) = s + INR n * exp c.
Proof.
  intros Hn. induction n as [|n IH].
  - cbn. lra.
  - rewrite seq_S, foldl_app, IH by lia. cbn [foldl plus].
    rewrite lookup_total_replicate_2 by lia.
    rewrite S_INR. cbn. lra.
Qed.

(** Under exact arithmetic nothing is rounded and nothing overflows: if the
    accumulator of the multinomial case is [c, ..., c], prediction on a row
    of a dataset returns a classification whose counts of the classes
    [1..K] are all [1/K], for every real [c]. *)
Theorem Predict_multinomial_equal_logits_exact
    (model : GradientBoostedTreesModel R) (dataset : VerticalDataset R)
    (row_idx : nat) (prediction : Prediction R) (c : R) :
  loss_ model = MULTINOMIAL_LOG_LIKELIHOOD ->
  (multinomial_accumulator model dataset row_idx).1 =
    replicate (num_trees_per_iter_ model) c ->
  multinomial_distribution_is_uniform model dataset row_idx prediction.
Proof.
  intros Hloss Hacc. unfold multinomial_distribution_is_uniform, Predict.
  rewrite Hloss.
  destruct (multinomial_accumulator model dataset row_idx)
    as [accumulator cell] eqn:Hwalk.
  cbn [fst] in Hacc. subst accumulator.
  set (K := num_trees_per_iter_ model).
  set (cells := Resize (K + 1) (of_int binary32 0)
                  (counts (distribution (mutable_classification prediction)))).
  assert (Hcells : length cells = (K + 1)%nat) by apply length_Resize.
  rewrite exp_loop_unfold, sum_of_equal_exps by lia.
  set (cells1 := map_cells _ 0 K cells).
  set (normalization := if fgt _ _ then _ else _).
  pose proof (normalize_loop_counts normalization K
                (of_int binary32 0, 0%nat, cells1)) as Hnorm.
  destruct (normalize_loop _ _ _) as [[hv hi] cells2]. cbn [snd] in Hnorm.
  eexists. split; [reflexivity|]. cbn [counts distribution].
  intros k Hk. subst cells2.
  assert (Hlen1 : length cells1 = (K + 1)%nat).
  { subst cells1. rewrite map_cells_length. assumption. }
  rewrite map_cells_lookup by lia. f_equal.
  rewrite list_lookup_total_alt. subst cells1.
  rewrite map_cells_lookup by lia. cbn [default].
  rewrite lookup_total_replicate_2 by lia.
  assert (HK : 1 <= INR K).
  { change 1 with (INR 1). apply le_INR. lia. }
  pose proof (exp_pos c) as Hexp.
  assert (Hsum : 0 < INR K * exp c) by nra.
  subst normalization. unfold fgt. cbn.
  rewrite <- INR_IZR_INZ.
  destruct (Rlt_dec 0 (0 + INR K * exp c)) as [_ | Hno]; [|lra].
  field. split; lra.
Qed.

(** The entry point on an [Example] normalizes by [1.f / sum_exp] without a
    test; under exact arithmetic it gives the same distribution. *)
Lemma Predict_Example_multinomial_equal_logits_exact
    (model : GradientBoostedTreesModel R) (example : Example R)
    (prediction : Prediction R) (c : R) :
  loss_ model = MULTINOMIAL_LOG_LIKELIHOOD ->
  multinomial_accumulator_Example model example =
    (replicate (num_trees_per_iter_ model) c, 0%nat) ->
  exists classes,
    Predict_Example model example prediction = Returns (classification classes) /\
    forall k, (k < num_trees_per_iter_ model)%nat ->
      counts (distribution classes) !! (k + 1)%nat =
      Some (1 / INR (num_trees_per_iter_ model)).
Proof.
  intros Hloss Hacc. unfold Predict_Example. rewrite Hloss, Hacc.
  set (K := num_trees_per_iter_ model).
  destruct (decide (0%nat = 0%nat)) as [_|]; [|congruence].
  set (cells := Resize (K + 1) (of_int binary32 0)
                  (counts (distribution (mutable_classification prediction)))).
  assert (Hcells : length cells = (K + 1)%nat) by apply length_Resize.
  rewrite exp_loop_unfold, sum_of_equal_exps by lia.
  set (cells1 := map_cells _ 0 K cells).
  set (normalization := fdiv binary32 _ _).
  pose proof (normalize_loop_counts normalization K
                (of_int binary32 0, 0%nat, cells1)) as Hnorm.
  destruct (normalize_loop _ _ _) as [[hv hi] cells2]. cbn [snd] in Hnorm.
  eexists. split; [reflexivity|]. cbn [counts distribution].
  intros k Hk. subst cells2.
  assert (Hlen1 : length cells1 = (K + 1)%nat).
  { subst cells1. rewrite map_cells_length. assumption. }
  rewrite map_cells_lookup by lia. f_equal.
  rewrite list_lookup_total_alt. subst cells1.
  rewrite map_cells_lookup by lia. cbn [default].
  rewrite lookup_total_replicate_2 by lia.
  assert (HK : 1 <= INR K).
  { change 1 with (INR 1). apply le_INR. lia. }
  pose proof (exp_pos c) as Hexp.
  subst normalization. cbn. field. split; lra.
Qed.

End SoftmaxExact.

(** ** The rounding of the binary32 operations *)

Section Binary32Rounding.
Local Open Scope Z_scope.

(** The number of binary digits of a mantissa. *)
Lemma digits2_pos_log2 (m : positive) :
  Z.pos (digits2_pos m) = Z.log2 (Z.pos m) + 1.
Proof.
  induction m as [m IH | m IH |]; cbn [digits2_pos]; [| |reflexivity].
  - rewrite Pos2Z.inj_succ, IH.
    change (Z.pos m~1) with (2 * Z.pos m + 1). rewrite Z.log2_succ_double by lia. lia.
  - rewrite Pos2Z.inj_succ, IH.
    change (Z.pos m~0) with (2 * Z.pos m). rewrite Z.log2_double by lia. lia.
Qed.

Lemma digits2_pos_bounds (m : positive) :
  2 ^ (Z.pos (digits2_pos m) - 1) <= Z.pos m < 2 ^ Z.pos (digits2_pos m).
Proof.
  rewrite digits2_pos_log2.
  pose proof (Z.log2_spec (Z.pos m) ltac:(lia)) as Hspec.
  replace (Z.log2 (Z.pos m) + 1 - 1) with (Z.log2 (Z.pos m)) by lia.
  replace (Z.log2 (Z.pos m) + 1) with (Z.succ (Z.log2 (Z.pos m))) by lia.
  exact Hspec.
Qed.

Lemma digits2_pos_unique (m : positive) (d : Z) :
  0 < d -> 2 ^ (d - 1) <= Z.pos m < 2 ^ d -> Z.pos (digits2_pos m) = d.
Proof.
  intros Hd Hm. rewrite digits2_pos_log2.
  rewrite (Z.log2_unique (Z.pos m) (d - 1)); [lia | lia |].
  replace (Z.succ (d - 1)) with d by lia. exact Hm.
Qed.

(** Shifting a mantissa to the right divides it. *)
Lemma shr_m_shr_1 (mrs : shr_record) :
  0 <= shr_m mrs -> shr_m (shr_1 mrs) = shr_m mrs / 2.
Proof.
  destruct mrs as [m r s]. cbn [shr_m]. intros Hm.
  destruct m as [|[p|p|]|p]; cbn [shr_1 shr_m]; try lia.
  - reflexivity.
  - change (Z.pos p~1) with (2 * Z.pos p + 1).
    apply Z.div_unique with 1; lia.
  - change (Z.pos p~0) with (2 * Z.pos p).
    apply Z.div_unique with 0; lia.
  - reflexivity.
Qed.

Lemma shr_m_iter_pos (p : positive) (mrs : shr_record) :
  0 <= shr_m mrs -> shr_m (SpecFloat.iter_pos shr_1 p mrs) = shr_m mrs / 2 ^ Z.pos p.
Proof.
  revert mrs. induction p as [p IH | p IH |]; intros mrs Hm; cbn [SpecFloat.iter_pos].
  - assert (H1 : 0 <= shr_m (shr_1 mrs))
      by (rewrite shr_m_shr_1 by lia; apply Z.div_pos; lia).
    assert (H2 : 0 <= shr_m (SpecFloat.iter_pos shr_1 p (shr_1 mrs)))
      by (rewrite IH by lia; apply Z.div_pos; lia).
    rewrite IH, IH, shr_m_shr_1 by lia.
    rewrite !Z.div_div by lia. f_equal.
    replace (Z.pos p~1) with (1 + Z.pos p + Z.pos p) by lia.
    rewrite !Z.pow_add_r by lia. change (2 ^ 1) with 2. ring.
  - assert (H2 : 0 <= shr_m (SpecFloat.iter_pos shr_1 p mrs))
      by (rewrite IH by lia; apply Z.div_pos; lia).
    rewrite IH, IH by lia. rewrite Z.div_div by lia. f_equal.
    replace (Z.pos p~0) with (Z.pos p + Z.pos p) by lia.
    rewrite Z.pow_add_r by lia. ring.
  - rewrite shr_m_shr_1 by lia. reflexivity.
Qed.

Lemma round_nearest_even_cases (m : Z) (l : location) :
  round_nearest_even m l = m \/ round_nearest_even m l = m + 1.
Proof. destruct l as [|[]]; cbn; [| destruct (Z.even m) | |]; auto. Qed.

End Binary32Rounding.

Section Binary32RoundingAux.
Local Open Scope Z_scope.

Lemma shr_m_shr_record_of_loc (m : Z) (l : location) :
  shr_m (shr_record_of_loc m l) = m.
Proof. destruct l as [|[]]; reflexivity. Qed.

(** Shifting by [n >= 0]. *)
Lemma shr_nonneg (mrs : shr_record) (e n : Z) :
  0 <= shr_m mrs -> 0 <= n ->
  exists mrs', shr mrs e n = (mrs', e + n) /\ shr_m mrs' = shr_m mrs / 2 ^ n.
Proof.
  intros Hm Hn. destruct n as [|p|p]; [| |lia].
  - exists mrs. cbn [shr]. rewrite Z.add_0_r, Z.pow_0_r, Z.div_1_r. auto.
  - eexists. cbn [shr]. split; [reflexivity|]. apply shr_m_iter_pos, Hm.
Qed.

(** [binary_round_aux] on a mantissa of at least 24 digits whose value is
    in the range of the normal numbers: the result is one of the two
    neighbours, on the grid of 24 digits, of the number it is given. *)
Lemma binary_round_aux_normal (mx : positive) (ex : Z) (lx : location) :
  let d := Z.pos (digits2_pos mx) in
  24 <= d -> -149 <= d + ex - 24 -> d + ex <= 127 ->
  exists (m2 : positive) (e2 m1 : Z),
    binary_round_aux 24 128 false (Z.pos mx) ex lx = S754_finite false m2 e2 /\
    Z.pos (digits2_pos m2) = 24 /\ -149 <= e2 <= 104 /\
    ex + (d - 24) <= e2 /\
    (m1 = Z.pos mx / 2 ^ (d - 24) \/ m1 = Z.pos mx / 2 ^ (d - 24) + 1) /\
    Z.pos m2 * 2 ^ (e2 - (ex + (d - 24))) = m1.
Proof.
  intros d Hd Hlow Hhigh.
  pose proof (digits2_pos_bounds mx) as Hmx. fold d in Hmx.
  set (n := d - 24). set (m' := Z.pos mx / 2 ^ n).
  assert (Hpow : 0 < 2 ^ n) by (apply Z.pow_pos_nonneg; lia).
  assert (Hm' : 2 ^ 23 <= m' < 2 ^ 24).
  { unfold m'. split.
    - apply Z.div_le_lower_bound; [lia|].
      rewrite <- Z.pow_add_r by lia. replace (n + 23) with (d - 1) by lia. lia.
    - apply Z.div_lt_upper_bound; [lia|].
      rewrite <- Z.pow_add_r by lia. replace (n + 24) with d by lia. lia. }
  unfold binary_round_aux, shr_fexp. cbn [Zdigits2]. fold d.
  replace (fexp 24 128 (d + ex) - ex) with n by (unfold fexp, emin; lia).
  destruct (shr_nonneg (shr_record_of_loc (Z.pos mx) lx) ex n)
    as (mrs' & -> & Hmrs'); [rewrite shr_m_shr_record_of_loc; lia | lia |].
  rewrite shr_m_shr_record_of_loc in Hmrs'. fold m' in Hmrs'. rewrite Hmrs'.
  set (m1 := round_nearest_even m' (loc_of_shr_record mrs')).
  assert (Hm1 : m1 = m' \/ m1 = m' + 1) by apply round_nearest_even_cases.
  clearbody m1.
  destruct (Z.eq_dec m1 (2 ^ 24)) as [Hfull | Hnotfull].
  - (* the mantissa was rounded up to [2^24] *)
    subst m1. change (2 ^ 24) with 16777216 in *.
    change (Zdigits2 16777216) with 25.
    replace (fexp 24 128 (25 + (ex + n)) - (ex + n)) with 1
      by (unfold fexp, emin; lia).
    cbn [shr shr_record_of_loc SpecFloat.iter_pos shr_1 shr_m].
    replace (ex + n + 1 <=? 128 - 24) with true by (symmetry; apply Z.leb_le; lia).
    exists 8388608%positive, (ex + n + 1), 16777216.
    split; [reflexivity|]. split; [reflexivity|]. split; [lia|]. split; [lia|].
    split; [exact Hm1|].
    replace (ex + n + 1 - (ex + n)) with 1 by lia. reflexivity.
  - assert (Hrange : 2 ^ 23 <= m1 < 2 ^ 24) by lia.
    destruct m1 as [|q|q]; [change (2 ^ 23) with 8388608 in Hrange; lia| |lia].
    assert (Hq : Z.pos (digits2_pos q) = 24)
      by (apply digits2_pos_unique; [lia | exact Hrange]).
    cbn [Zdigits2]. rewrite Hq.
    replace (fexp 24 128 (24 + (ex + n)) - (ex + n)) with 0
      by (unfold fexp, emin; lia).
    cbn [shr shr_record_of_loc shr_m].
    replace (ex + n <=? 128 - 24) with true by (symmetry; apply Z.leb_le; lia).
    exists q, (ex + n), (Z.pos q).
    split; [reflexivity|]. split; [exact Hq|]. split; [lia|]. split; [lia|].
    split; [exact Hm1|].
    replace (ex + n - (ex + n)) with 0 by lia. rewrite Z.pow_0_r. lia.
Qed.

End Binary32RoundingAux.

Section PowersOfTwo.
Local Open Scope R_scope.

Lemma powerRZ2_pos (e : Z) : 0 < powerRZ 2 e.
Proof. apply powerRZ_lt. lra. Qed.

Lemma powerRZ2_add (a b : Z) : powerRZ 2 (a + b) = powerRZ 2 a * powerRZ 2 b.
Proof. apply powerRZ_add. lra. Qed.

Lemma powerRZ2_IZR (n : Z) : (0 <= n)%Z -> powerRZ 2 n = IZR (2 ^ n).
Proof.
  intros Hn. destruct n as [|p|p]; [reflexivity| |lia].
  symmetry. apply (Zpower_pos_powerRZ 2 p).
Qed.

Lemma powerRZ2_ge_1 (n : Z) : (0 <= n)%Z -> 1 <= powerRZ 2 n.
Proof.
  intros Hn. rewrite powerRZ2_IZR by exact Hn.
  apply IZR_le. pose proof (Z.pow_pos_nonneg 2 n ltac:(lia) Hn). lia.
Qed.

Lemma powerRZ2_le (a b : Z) : (a <= b)%Z -> powerRZ 2 a <= powerRZ 2 b.
Proof.
  intros Hab. replace b with (a + (b - a))%Z by lia. rewrite powerRZ2_add.
  pose proof (powerRZ2_pos a). pose proof (powerRZ2_ge_1 (b - a) ltac:(lia)).
  nra.
Qed.

Lemma powerRZ2_lt (a b : Z) : (a < b)%Z -> powerRZ 2 a < powerRZ 2 b.
Proof.
  intros Hab. replace b with (a + (b - a))%Z by lia. rewrite powerRZ2_add.
  pose proof (powerRZ2_pos a).
  assert (2 <= powerRZ 2 (b - a)).
  { rewrite powerRZ2_IZR by lia. apply IZR_le.
    change 2%Z with (2 ^ 1)%Z at 1. apply Z.pow_le_mono_r; lia. }
  nra.
Qed.

Lemma powerRZ2_lt_inv (a b : Z) : powerRZ 2 a < powerRZ 2 b -> (a < b)%Z.
Proof.
  intros Hlt. destruct (Z_lt_le_dec a b) as [Hab | Hba]; [exact Hab|].
  pose proof (powerRZ2_le b a Hba). lra.
Qed.

Lemma powerRZ2_le_inv (a b : Z) : powerRZ 2 a <= powerRZ 2 b -> (a <= b)%Z.
Proof.
  intros Hle. destruct (Z_le_gt_dec a b) as [Hab | Hba]; [exact Hab|].
  pose proof (powerRZ2_lt b a ltac:(lia)). lra.
Qed.

End PowersOfTwo.

Section Binary32RoundingError.
Local Open Scope R_scope.

Lemma SF2R_positive (m : positive) (e : Z) :
  SF2R (S754_finite false m e) = IZR (Z.pos m) * powerRZ 2 e.
Proof. reflexivity. Qed.

(** The value of a normal number. *)
Lemma normal32_bounds (m : positive) (e : Z) :
  Z.pos (digits2_pos m) = 24%Z ->
  powerRZ 2 (e + 23) <= SF2R (S754_finite false m e) < powerRZ 2 (e + 24).
Proof.
  intros Hd. pose proof (digits2_pos_bounds m) as Hm. rewrite Hd in Hm.
  rewrite SF2R_positive, !powerRZ2_add.
  pose proof (powerRZ2_pos e) as He.
  rewrite (powerRZ2_IZR 23), (powerRZ2_IZR 24) by lia.
  destruct Hm as [Hlo Hhi]. apply IZR_le in Hlo. apply IZR_lt in Hhi.
  change (24 - 1)%Z with 23%Z in Hlo.
  split; nra.
Qed.

(** The relative error of [binary_round_aux] in the range of the normal
    numbers: at most [2^-23], whatever the location says. *)
Lemma binary_round_aux_error (mx : positive) (ex : Z) (lx : location) (X : R) :
  let d := Z.pos (digits2_pos mx) in
  (24 <= d)%Z -> (-149 <= d + ex - 24)%Z -> (d + ex <= 127)%Z ->
  IZR (Z.pos mx) * powerRZ 2 ex <= X <= IZR (Z.pos mx + 1) * powerRZ 2 ex ->
  let r := binary_round_aux 24 128 false (Z.pos mx) ex lx in
  normal32 r /\
  (1 - / 8388608) * X <= SF2R r <= (1 + / 8388608) * X.
Proof.
  intros d Hd Hlow Hhigh HX r.
  destruct (binary_round_aux_normal mx ex lx Hd Hlow Hhigh)
    as (m2 & e2 & m1 & Hr & Hdigits & He2 & Hgrid & Hm1 & Hvalue).
  fold d in Hgrid, Hm1, Hvalue. unfold r. rewrite Hr.
  split; [exists m2, e2; auto|].
  set (n := (d - 24)%Z) in *. set (m' := (Z.pos mx / 2 ^ n)%Z) in *.
  assert (Hpow : (0 < 2 ^ n)%Z) by (apply Z.pow_pos_nonneg; lia).
  pose proof (digits2_pos_bounds mx) as Hmx. fold d in Hmx.
  assert (Hm' : (2 ^ 23 <= m')%Z).
  { unfold m'. apply Z.div_le_lower_bound; [lia|].
    rewrite <- Z.pow_add_r by lia. replace (n + 23)%Z with (d - 1)%Z by lia. lia. }
  assert (Hfloor : (2 ^ n * m' <= Z.pos mx)%Z)
    by (unfold m'; apply Z.mul_div_le; lia).
  assert (Hceil : (Z.pos mx + 1 <= 2 ^ n * (m' + 1))%Z).
  { pose proof (Z.mul_succ_div_gt (Z.pos mx) (2 ^ n) Hpow) as Hgt.
    fold m' in Hgt. lia. }
  (* the result is [m1 * 2^E] *)
  assert (Hresult : SF2R (S754_finite false m2 e2) =
                    IZR m1 * powerRZ 2 (ex + n)).
  { rewrite SF2R_positive.
    replace e2 with ((ex + n) + (e2 - (ex + n)))%Z at 1 by lia.
    rewrite powerRZ2_add, (powerRZ2_IZR (e2 - (ex + n))) by lia.
    rewrite <- Hvalue, mult_IZR. ring. }
  rewrite Hresult. rewrite powerRZ2_add in *.
  rewrite (powerRZ2_IZR n) in * by lia.
  pose proof (powerRZ2_pos ex) as Hex.
  apply IZR_le in Hm', Hfloor, Hceil.
  rewrite mult_IZR in Hfloor, Hceil. rewrite !plus_IZR in Hceil.
  rewrite plus_IZR in HX.
  change (IZR (2 ^ 23)) with 8388608 in Hm'.
  assert (Hn : 0 < IZR (2 ^ n)) by (apply IZR_lt; lia).
  set (P := powerRZ 2 ex) in *. set (N := IZR (2 ^ n)) in *.
  set (A := IZR m') in *. set (M := IZR (Z.pos mx)) in *.
  assert (HNP : 0 < N * P) by nra.
  assert (Hlo : A * (N * P) <= X) by nra.
  assert (Hhi : X <= (A + 1) * (N * P)) by nra.
  assert (Hulp : N * P <= X / 8388608).
  { apply Rmult_le_reg_r with 8388608; [lra|].
    replace (X / 8388608 * 8388608) with X by field. nra. }
  assert (HR : IZR m1 = A \/ IZR m1 = A + 1).
  { destruct Hm1 as [-> | ->]; [left; reflexivity|].
    right. rewrite plus_IZR. reflexivity. }
  replace (IZR m1 * (P * N)) with (IZR m1 * (N * P)) by ring.
  set (Q := N * P) in *.
  destruct HR as [-> | ->]; split; nra.
Qed.

End Binary32RoundingError.

Section Binary32Operations.
Local Open Scope R_scope.

(** The value of a mantissa and an exponent, between two powers of two. *)
Lemma mantissa_bounds (m : positive) (e : Z) :
  let d := Z.pos (digits2_pos m) in
  powerRZ 2 (d - 1 + e) <= IZR (Z.pos m) * powerRZ 2 e < powerRZ 2 (d + e).
Proof.
  intros d. pose proof (digits2_pos_bounds m) as Hm. fold d in Hm.
  assert (Hd : (0 < d)%Z) by (unfold d; lia).
  rewrite !powerRZ2_add. pose proof (powerRZ2_pos e) as He.
  rewrite (powerRZ2_IZR (d - 1)), (powerRZ2_IZR d) by lia.
  destruct Hm as [Hlo Hhi]. apply IZR_le in Hlo. apply IZR_lt in Hhi.
  split; nra.
Qed.

Lemma mantissa_above (m : positive) (e a : Z) :
  powerRZ 2 a <= IZR (Z.pos m) * powerRZ 2 e ->
  (a < Z.pos (digits2_pos m) + e)%Z.
Proof.
  intros Ha. apply powerRZ2_lt_inv.
  pose proof (mantissa_bounds m e) as [_ Hhi]. cbv zeta in Hhi. lra.
Qed.

Lemma mantissa_below (m : positive) (e b : Z) :
  IZR (Z.pos m) * powerRZ 2 e < powerRZ 2 b ->
  (Z.pos (digits2_pos m) - 1 + e < b)%Z.
Proof.
  intros Hb. apply powerRZ2_lt_inv.
  pose proof (mantissa_bounds m e) as [Hlo _]. cbv zeta in Hlo. lra.
Qed.

(** Multiplication. *)
Lemma SFmul_error (x y : spec_float) :
  normal32 x -> normal32 y ->
  powerRZ 2 (-126) <= SF2R x * SF2R y < powerRZ 2 127 ->
  normal32 (SFmul 24 128 x y) /\
  (1 - / 8388608) * (SF2R x * SF2R y) <= SF2R (SFmul 24 128 x y)
    <= (1 + / 8388608) * (SF2R x * SF2R y).
Proof.
  intros (mx & ex & -> & Hdx & Hex) (my & ey & -> & Hdy & Hey) Hrange.
  assert (Hproduct : SF2R (S754_finite false mx ex) * SF2R (S754_finite false my ey) =
                     IZR (Z.pos (mx * my)) * powerRZ 2 (ex + ey)).
  { rewrite !SF2R_positive, Pos2Z.inj_mul, mult_IZR, powerRZ2_add. ring. }
  rewrite Hproduct in *. cbn [SFmul xorb].
  apply binary_round_aux_error.
  - pose proof (digits2_pos_bounds mx) as Hmx. rewrite Hdx in Hmx.
    pose proof (digits2_pos_bounds my) as Hmy. rewrite Hdy in Hmy.
    pose proof (digits2_pos_bounds (mx * my)) as Hm.
    change (2 ^ (24 - 1))%Z with 8388608%Z in *.
    assert (Hlt : (2 ^ 23 < 2 ^ Z.pos (digits2_pos (mx * my)))%Z).
    { change (2 ^ 23)%Z with 8388608%Z. nia. }
    apply Z.pow_lt_mono_r_iff in Hlt; lia.
  - pose proof (mantissa_above _ _ _ (proj1 Hrange)). lia.
  - pose proof (mantissa_below _ _ _ (proj2 Hrange)). lia.
  - rewrite plus_IZR. pose proof (powerRZ2_pos (ex + ey)). split; nra.
Qed.

(** Alignment of a mantissa on a smaller exponent. *)
Lemma iter_xO_value (m d : positive) :
  Z.pos (Pos.iter xO m d) = (Z.pos m * 2 ^ Z.pos d)%Z.
Proof.
  induction d as [|d IH] using Pos.peano_ind.
  - cbn. lia.
  - rewrite Pos.iter_succ, Pos2Z.inj_succ, Z.pow_succ_r by lia.
    change (Z.pos (Pos.iter xO m d)~0) with (2 * Z.pos (Pos.iter xO m d))%Z.
    rewrite IH. ring.
Qed.

Lemma shl_align_value (m : positive) (e e' : Z) :
  (e' <= e)%Z ->
  Z.pos (shl_align m e e').1 = (Z.pos m * 2 ^ (e - e'))%Z.
Proof.
  intros He. unfold shl_align.
  destruct (e' - e)%Z as [|d|d] eqn:Hd; cbn [fst]; [| lia |].
  - replace (e - e')%Z with 0%Z by lia. lia.
  - rewrite iter_xO_value. f_equal. f_equal. lia.
Qed.

Lemma shl_align_same (m : positive) (e e' : Z) :
  (e <= e')%Z -> shl_align m e e' = (m, e).
Proof.
  intros He. unfold shl_align.
  destruct (e' - e)%Z as [|d|d] eqn:Hd; [reflexivity | reflexivity | lia].
Qed.

(** Addition. *)
Lemma SFadd_error (x y : spec_float) :
  normal32 x -> normal32 y ->
  SF2R x + SF2R y < powerRZ 2 127 ->
  normal32 (SFadd 24 128 x y) /\
  (1 - / 8388608) * (SF2R x + SF2R y) <= SF2R (SFadd 24 128 x y)
    <= (1 + / 8388608) * (SF2R x + SF2R y).
Proof.
  intros (mx & ex & -> & Hdx & Hex) (my & ey & -> & Hdy & Hey) Hrange.
  cbn [SFadd cond_Zopp].
  set (ez := Z.min ex ey).
  pose proof (shl_align_value mx ex ez ltac:(lia)) as Hx.
  pose proof (shl_align_value my ey ez ltac:(lia)) as Hy.
  set (a := (shl_align mx ex ez).1) in *. set (b := (shl_align my ey ez).1) in *.
  change (Z.pos a + Z.pos b)%Z with (Z.pos (a + b)).
  cbn [binary_normalize]. unfold binary_round.
  pose proof (digits2_pos_bounds mx) as Hmx. rewrite Hdx in Hmx.
  pose proof (digits2_pos_bounds my) as Hmy. rewrite Hdy in Hmy.
  change (2 ^ (24 - 1))%Z with 8388608%Z in *.
  assert (Hpx : (1 <= 2 ^ (ex - ez))%Z)
    by (pose proof (Z.pow_pos_nonneg 2 (ex - ez) ltac:(lia) ltac:(lia)); lia).
  assert (Hpy : (1 <= 2 ^ (ey - ez))%Z)
    by (pose proof (Z.pow_pos_nonneg 2 (ey - ez) ltac:(lia) ltac:(lia)); lia).
  assert (Hdigits : (24 <= Z.pos (digits2_pos (a + b)))%Z).
  { pose proof (digits2_pos_bounds (a + b)) as Hm.
    assert (Hlt : (2 ^ 23 < 2 ^ Z.pos (digits2_pos (a + b)))%Z).
    { change (2 ^ 23)%Z with 8388608%Z. rewrite Pos2Z.inj_add in Hm. nia. }
    apply Z.pow_lt_mono_r_iff in Hlt; lia. }
  rewrite shl_align_same by (unfold fexp, emin; lia).
  assert (Hsum : SF2R (S754_finite false mx ex) + SF2R (S754_finite false my ey) =
                 IZR (Z.pos (a + b)) * powerRZ 2 ez).
  { rewrite !SF2R_positive, Pos2Z.inj_add, plus_IZR, Hx, Hy, !mult_IZR.
    rewrite <- !powerRZ2_IZR by lia.
    rewrite Rmult_plus_distr_r, !Rmult_assoc, <- !powerRZ2_add.
    replace (ex - ez + ez)%Z with ex by lia.
    replace (ey - ez + ez)%Z with ey by lia. reflexivity. }
  rewrite Hsum in *.
  apply binary_round_aux_error.
  - exact Hdigits.
  - lia.
  - pose proof (mantissa_below _ _ _ Hrange). lia.
  - rewrite plus_IZR. pose proof (powerRZ2_pos ez). split; nra.
Qed.

End Binary32Operations.

Section Binary32Division.
Local Open Scope R_scope.

(** The inverse: [1.f / y]. *)
Lemma SFdiv_one_error (y : spec_float) :
  normal32 y -> SF2R y <= powerRZ 2 125 ->
  let r := SFdiv 24 128 (S754_finite false 8388608 (-23)) y in
  normal32 r /\
  (1 - / 8388608) * / SF2R y <= SF2R r <= (1 + / 8388608) * / SF2R y.
Proof.
  intros (my & ey & -> & Hdy & Hey) Hrange r.
  pose proof (normal32_bounds my ey Hdy) as [Hlow _].
  assert (Hey' : (ey <= 102)%Z).
  { assert (Hle : powerRZ 2 (ey + 23) <= powerRZ 2 125) by lra.
    apply powerRZ2_le_inv in Hle. lia. }
  pose proof (digits2_pos_bounds my) as Hmy. rewrite Hdy in Hmy.
  change (2 ^ (24 - 1))%Z with 8388608%Z in Hmy.
  change (2 ^ 24)%Z with 16777216%Z in Hmy.
  unfold r. cbn [SFdiv xorb]. unfold SFdiv_core_binary.
  cbn [Zdigits2]. rewrite Hdy.
  change (Z.pos (digits2_pos 8388608)) with 24%Z.
  replace (Z.min (fexp 24 128 (24 + -23 - (24 + ey))) (-23 - ey))
    with (-47 - ey)%Z by (unfold fexp, emin; lia).
  replace (-23 - ey - (-47 - ey))%Z with 24%Z by lia.
  change (Z.shiftl 8388608 24) with 140737488355328%Z.
  pose proof (Z_div_mod 140737488355328 (Z.pos my) ltac:(lia)) as Hdiv.
  destruct (Z.div_eucl 140737488355328 (Z.pos my)) as [q rem].
  destruct Hdiv as [Hq Hrem].
  assert (Hqlow : (8388608 <= q)%Z) by nia.
  assert (Hqhigh : (q <= 16777216)%Z) by nia.
  destruct q as [|q|q]; [lia| |lia].
  assert (Hdq : (24 <= Z.pos (digits2_pos q) <= 25)%Z).
  { pose proof (digits2_pos_bounds q) as Hb. split.
    - assert (Hlt : (2 ^ 23 < 2 ^ Z.pos (digits2_pos q))%Z)
        by (change (2 ^ 23)%Z with 8388608%Z; lia).
      apply Z.pow_lt_mono_r_iff in Hlt; lia.
    - assert (Hlt : (2 ^ (Z.pos (digits2_pos q) - 1) < 2 ^ 25)%Z)
        by (change (2 ^ 25)%Z with 33554432%Z; lia).
      apply Z.pow_lt_mono_r_iff in Hlt; lia. }
  apply binary_round_aux_error; [lia | lia | lia |].
  rewrite SF2R_positive, plus_IZR.
  replace (-47 - ey)%Z with (-47 + - ey)%Z by lia.
  rewrite powerRZ2_add, powerRZ_neg'.
  pose proof (powerRZ2_pos ey) as Hpey.
  assert (Hmy' : 0 < IZR (Z.pos my)) by (apply IZR_lt; lia).
  assert (H47 : powerRZ 2 (-47) = / 140737488355328).
  { change (-47)%Z with (Z.opp 47). rewrite powerRZ_neg'. f_equal.
    rewrite (powerRZ2_IZR 47) by lia. reflexivity. }
  rewrite H47.
  assert (Hq' : IZR (Z.pos q) * IZR (Z.pos my) <= 140737488355328).
  { rewrite <- mult_IZR. apply IZR_le. lia. }
  assert (Hq'' : 140737488355328 <= (IZR (Z.pos q) + 1) * IZR (Z.pos my)).
  { rewrite <- (plus_IZR _ 1), <- mult_IZR. apply IZR_le. lia. }
  set (Q := IZR (Z.pos q)) in *. set (M := IZR (Z.pos my)) in *.
  set (P := powerRZ 2 ey) in *.
  replace (/ (M * P)) with (/ M * / P) by (field; split; lra).
  assert (HiP : 0 < / P) by (apply Rinv_0_lt_compat; exact Hpey).
  assert (HiM : 0 < / M) by (apply Rinv_0_lt_compat; exact Hmy').
  assert (Hlo : Q * / 140737488355328 <= / M).
  { apply Rmult_le_reg_r with (M * 140737488355328); [nra|].
    replace (Q * / 140737488355328 * (M * 140737488355328)) with (Q * M) by field.
    replace (/ M * (M * 140737488355328)) with 140737488355328 by (field; lra).
    exact Hq'. }
  assert (Hhi : / M <= (Q + 1) * / 140737488355328).
  { apply Rmult_le_reg_r with (M * 140737488355328); [nra|].
    replace ((Q + 1) * / 140737488355328 * (M * 140737488355328))
      with ((Q + 1) * M) by field.
    replace (/ M * (M * 140737488355328)) with 140737488355328 by (field; lra).
    exact Hq''. }
  split; nra.
Qed.

End Binary32Division.

Section RoundingBounds.
Local Open Scope R_scope.

(** One more rounded addition of [E] to a rounded sum of [J] of them. *)
Lemma sum_step_bound (J E S S' u : R) :
  0 < u -> 1 <= J -> 2 * (J + 1) * u <= 1 -> 0 < E ->
  J * E * (1 - J * u) <= S <= J * E * (1 + 2 * J * u) ->
  (1 - u) * (S + E) <= S' <= (1 + u) * (S + E) ->
  (J + 1) * E * (1 - (J + 1) * u) <= S' <= (J + 1) * E * (1 + 2 * (J + 1) * u).
Proof.
  intros Hu HJ HJu HE [HSlo HShi] [HS'lo HS'hi].
  assert (Hu1 : u <= / 4) by nra.
  split.
  - apply Rle_trans with ((1 - u) * (J * E * (1 - J * u) + E)).
    + assert (Hslack : 0 <= E * u * (J * u * J + J)).
      { apply Rmult_le_pos; [apply Rmult_le_pos; lra|].
        apply Rplus_le_le_0_compat; [|lra].
        apply Rmult_le_pos; [apply Rmult_le_pos; lra | lra]. }
      lra.
    + apply Rle_trans with ((1 - u) * (S + E)); [|lra].
      apply Rmult_le_compat_l; lra.
  - apply Rle_trans with ((1 + u) * (J * E * (1 + 2 * J * u) + E)).
    + apply Rle_trans with ((1 + u) * (S + E)); [lra|].
      apply Rmult_le_compat_l; lra.
    + assert (Hslack : 0 <= E * u * (3 * J + 1 - 2 * J * u * J)).
      { apply Rmult_le_pos; [apply Rmult_le_pos; lra|].
        assert (2 * J * u * J <= 1 * J) by (apply Rmult_le_compat_r; lra).
        lra. }
      lra.
Qed.

(** The product of a term by the rounded inverse of the rounded sum of [K]
    of them, rounded. *)
Lemma softmax_rounding_bound (K E S N V u : R) :
  0 < u -> 1 <= K -> 2 * K * u <= 1 -> 0 < E ->
  K * E * (1 - K * u) <= S <= K * E * (1 + 2 * K * u) ->
  (1 - u) * / S <= N <= (1 + u) * / S ->
  (1 - u) * (E * N) <= V <= (1 + u) * (E * N) ->
  Rabs (K * V - 1) <= 4 * (K + 1) * u.
Proof.
  intros Hu HK HKu HE [HSlo HShi] [HNlo HNhi] [HVlo HVhi].
  assert (Hu1 : u <= / 2) by nra.
  assert (HKE : 0 < K * E) by (apply Rmult_lt_0_compat; lra).
  assert (HS : 0 < S).
  { apply Rlt_le_trans with (K * E * (1 - K * u)); [|lra].
    apply Rmult_lt_0_compat; lra. }
  assert (HiS : / S * S = 1) by (field; lra).
  assert (HNS : 1 - u <= N * S <= 1 + u).
  { split.
    - replace (1 - u) with ((1 - u) * / S * S) by (rewrite Rmult_assoc, HiS; ring).
      apply Rmult_le_compat_r; lra.
    - replace (1 + u) with ((1 + u) * / S * S) by (rewrite Rmult_assoc, HiS; ring).
      apply Rmult_le_compat_r; lra. }
  assert (HVS : (1 - u) * (1 - u) * E <= V * S <= (1 + u) * (1 + u) * E).
  { split.
    - apply Rle_trans with ((1 - u) * (E * N) * S).
      + replace ((1 - u) * (E * N) * S) with ((1 - u) * E * (N * S)) by ring.
        replace ((1 - u) * (1 - u) * E) with ((1 - u) * E * (1 - u)) by ring.
        apply Rmult_le_compat_l; [nra | lra].
      + apply Rmult_le_compat_r; lra.
    - apply Rle_trans with ((1 + u) * (E * N) * S).
      + apply Rmult_le_compat_r; lra.
      + replace ((1 + u) * (E * N) * S) with ((1 + u) * E * (N * S)) by ring.
        replace ((1 + u) * (1 + u) * E) with ((1 + u) * E * (1 + u)) by ring.
        apply Rmult_le_compat_l; [nra | lra]. }
  assert (HV : 0 <= V).
  { assert (0 <= V * S) by nra. 
    destruct (Rle_lt_dec 0 V) as [Hle | Hlt]; [exact Hle|]. nra. }
  set (W := K * V).
  assert (HW : 0 <= W) by (unfold W; nra).
  assert (Hup : W * (1 - K * u) <= (1 + u) * (1 + u)).
  { apply Rmult_le_reg_r with (K * E); [nra|].
    apply Rle_trans with (K * (V * S)).
    - replace (W * (1 - K * u) * (K * E)) with (W * (K * E * (1 - K * u))) by ring.
      replace (K * (V * S)) with (W * S) by (unfold W; ring).
      apply Rmult_le_compat_l; lra.
    - replace ((1 + u) * (1 + u) * (K * E)) with (K * ((1 + u) * (1 + u) * E)) by ring.
      apply Rmult_le_compat_l; lra. }
  assert (Hdown : (1 - u) * (1 - u) <= W * (1 + 2 * K * u)).
  { apply Rmult_le_reg_r with (K * E); [nra|].
    apply Rle_trans with (K * (V * S)).
    - replace ((1 - u) * (1 - u) * (K * E)) with (K * ((1 - u) * (1 - u) * E)) by ring.
      apply Rmult_le_compat_l; lra.
    - replace (W * (1 + 2 * K * u) * (K * E)) with (W * (K * E * (1 + 2 * K * u))) by ring.
      replace (K * (V * S)) with (W * S) by (unfold W; ring).
      apply Rmult_le_compat_l; lra. }
  apply Rabs_le. split.
  - apply Rmult_le_reg_r with (1 + 2 * K * u); [nra|].
    apply Rle_trans with ((1 - u) * (1 - u) - 1 * (1 + 2 * K * u)); [|nra].
    assert (0 <= u * (K * u * (8 * K + 8))) by nra.
    nra.
  - apply Rmult_le_reg_r with (1 - K * u); [nra|].
    apply Rle_trans with ((1 + u) * (1 + u) - 1 * (1 - K * u)); [nra|].
    assert (Hslack : 0 <= u * (3 * K + 2 - u - 2 * (2 * K * u) * (K + 1))).
    { apply Rmult_le_pos; [lra|]. nra. }
    nra.
Qed.

End RoundingBounds.

(** ** The multinomial distribution on equal logits, on binary32 *)

Section SoftmaxEqualLogits.
Context {F : Type} `{Arith F}.

(** On an accumulator [c, ..., c] every class gets the same count: the
    product of [exp(c)] by the normalization. *)
Lemma Predict_multinomial_equal_logits_counts
    (model : GradientBoostedTreesModel F) (dataset : VerticalDataset F)
    (row_idx : nat) (prediction : Prediction F) (c : F) :
  loss_ model = MULTINOMIAL_LOG_LIKELIHOOD ->
  (multinomial_accumulator model dataset row_idx).1 =
    replicate (num_trees_per_iter_ model) c ->
  exists classes,
    Predict model dataset row_idx prediction = Returns (classification classes) /\
    forall k, k < num_trees_per_iter_ model ->
      counts (distribution classes) !! (k + 1) =
      Some (fmul binary32 (f_exp binary32 c)
              (let sum_exp :=
                 foldl (fun s i =>
                          fadd binary32 s
                            (f_exp binary32
                               (replicate (num_trees_per_iter_ model) c !!! i)))
                       (of_int binary32 0) (seq 0 (num_trees_per_iter_ model)) in
               if fgt sum_exp (of_int binary32 0)
               then fdiv binary32 (of_int binary32 1) sum_exp
               else of_int binary32 0)).
Proof.
  intros Hloss Hacc. unfold Predict. rewrite Hloss.
  destruct (multinomial_accumulator model dataset row_idx)
    as [accumulator cell] eqn:Hwalk.
  cbn [fst] in Hacc. subst accumulator.
  set (K := num_trees_per_iter_ model) in *.
  set (cells := Resize (K + 1) (of_int binary32 0)
                  (counts (distribution (mutable_classification prediction)))).
  assert (Hcells : length cells = K + 1) by apply length_Resize.
  rewrite exp_loop_unfold.
  set (cells1 := map_cells _ 0 K cells).
  set (normalization := if fgt _ _ then _ else _).
  pose proof (normalize_loop_counts normalization K
                (of_int binary32 0, 0, cells1)) as Hnorm.
  destruct (normalize_loop _ _ _) as [[hv hi] cells2]. cbn [snd] in Hnorm.
  eexists. split; [reflexivity|]. cbn [counts distribution].
  intros k Hk. subst cells2.
  assert (Hlen1 : length cells1 = K + 1).
  { subst cells1. rewrite map_cells_length. assumption. }
  rewrite map_cells_lookup by lia. f_equal.
  rewrite list_lookup_total_alt. subst cells1.
  rewrite map_cells_lookup by lia. cbn [default].
  rewrite lookup_total_replicate_2 by lia. reflexivity.
Qed.

End SoftmaxEqualLogits.

Section SoftmaxBinary32.
Context `{IEEE.Libm}.
Local Open Scope R_scope.

(** The sum of [n] equal terms, accumulated in binary32. *)
Lemma sum_of_equal_exps_binary32 (c : spec_float) (K n : nat) :
  normal32 (f_exp binary32 c) ->
  (1 <= n <= K)%nat -> (Z.of_nat K <= 4194304)%Z ->
  INR K * SF2R (f_exp binary32 c) <= powerRZ 2 124 ->
  let s := foldl (fun s i => fadd binary32 s (f_exp binary32 (replicate K c !!! i)))
                 (of_int binary32 0) (seq 0 n) in
  normal32 s /\
  INR n * SF2R (f_exp binary32 c) * (1 - INR n * / 8388608) <= SF2R s
    <= INR n * SF2R (f_exp binary32 c) * (1 + 2 * INR n * / 8388608).
Proof.
  intros He Hn HK Hrange. cbv zeta.
  set (e := f_exp binary32 c) in *.
  assert (HE : 0 < SF2R e).
  { destruct He as (m & ex & -> & _ & _). rewrite SF2R_positive.
    apply Rmult_lt_0_compat; [apply IZR_lt; lia | apply powerRZ2_pos]. }
  assert (HKr : INR K <= 4194304).
  { rewrite INR_IZR_INZ. apply IZR_le. exact HK. }
  destruct n as [|n]; [lia|].
  induction n as [|n IH].
  - cbn [seq foldl]. rewrite lookup_total_replicate_2 by lia. fold e.
    replace (fadd binary32 (of_int binary32 0) e) with e
      by (destruct He as (m & ex & -> & _ & _); reflexivity).
    split; [exact He|]. cbn [INR]. split; nra.
  - rewrite seq_S, foldl_app. cbn [foldl plus].
    rewrite lookup_total_replicate_2 by lia. fold e.
    destruct IH as [Hnormal Hbounds]; [lia|].
    set (s := foldl _ _ (seq 0 (S n))) in *.
    assert (HJ : 1 <= INR (S n)).
    { change 1 with (INR 1). apply le_INR. lia. }
    assert (HJK : INR (S n) + 1 <= INR K).
    { rewrite <- S_INR. apply le_INR. lia. }
    assert (HJE : INR (S n) * SF2R e <= INR K * SF2R e).
    { apply Rmult_le_compat_r; lra. }
    assert (H125 : powerRZ 2 125 = 2 * powerRZ 2 124).
    { replace 125%Z with (1 + 124)%Z by lia. rewrite powerRZ2_add.
      rewrite (powerRZ2_IZR 1) by lia. reflexivity. }
    assert (H127 : powerRZ 2 127 = 8 * powerRZ 2 124).
    { replace 127%Z with (3 + 124)%Z by lia. rewrite powerRZ2_add.
      rewrite (powerRZ2_IZR 3) by lia. reflexivity. }
    assert (Hs2 : SF2R s <= 2 * (INR (S n) * SF2R e)).
    { apply Rle_trans with (INR (S n) * SF2R e * (1 + 2 * INR (S n) * / 8388608));
        [lra|].
      rewrite (Rmult_comm 2 (INR (S n) * SF2R e)).
      apply Rmult_le_compat_l; [nra | lra]. }
    destruct (SFadd_error s e Hnormal He) as [Hnormal' Herr].
    { pose proof (powerRZ2_pos 124).
      assert (HEK : 1 * SF2R e <= INR K * SF2R e)
        by (apply Rmult_le_compat_r; lra).
      lra. }
    split; [exact Hnormal'|].
    change (fadd binary32 s e) with (SFadd 24 128 s e).
    rewrite (S_INR (S n)).
    apply sum_step_bound with (S := SF2R s); lra.
Qed.

(** C3.  On binary32, let the accumulator of the multinomial case be
    [c, ..., c] for [K] classes, with [K] at most [2^22], the computed
    [exp(c)] a positive normal number and [K * exp(c)] at most [2^124], so
    that neither [exp] nor the sum overflows or underflows.  Then prediction
    on a row of a dataset returns a classification whose counts of the
    classes [1..K] are all the same number [v], and [v] is [1/K] up to
    rounding: [|K * v - 1| <= (K + 1) / 2^21]. *)
Theorem Predict_multinomial_equal_logits_binary32
    (model : GradientBoostedTreesModel spec_float)
    (dataset : VerticalDataset spec_float) (row_idx : nat)
    (prediction : Prediction spec_float) (c : spec_float) :
  loss_ model = MULTINOMIAL_LOG_LIKELIHOOD ->
  (multinomial_accumulator model dataset row_idx).1 =
    replicate (num_trees_per_iter_ model) c ->
  (Z.of_nat (num_trees_per_iter_ model) <= 4194304)%Z ->
  normal32 (f_exp binary32 c) ->
  INR (num_trees_per_iter_ model) * SF2R (f_exp binary32 c) <= powerRZ 2 124 ->
  exists classes v,
    Predict model dataset row_idx prediction = Returns (classification classes) /\
    forall k, (k < num_trees_per_iter_ model)%nat ->
      counts (distribution classes) !! (k + 1)%nat = Some v /\
      Rabs (INR (num_trees_per_iter_ model) * SF2R v - 1) <=
        (INR (num_trees_per_iter_ model) + 1) / 2097152.
Proof.
  intros Hloss Hacc HK He Hrange.
  destruct (Predict_multinomial_equal_logits_counts model dataset row_idx
              prediction c Hloss Hacc) as (classes & Hpredict & Hcounts).
  set (K := num_trees_per_iter_ model) in *. cbv zeta in Hcounts.
  set (s := foldl _ (of_int binary32 0) (seq 0 K)) in Hcounts.
  set (normalization := if fgt _ _ then _ else _) in Hcounts.
  exists classes, (fmul binary32 (f_exp binary32 c) normalization).
  split; [exact Hpredict|].
  intros k Hk. split; [apply Hcounts; exact Hk|].
  destruct (sum_of_equal_exps_binary32 c K K He ltac:(lia) HK Hrange)
    as [Hnormal Hsum].
  fold s in Hnormal, Hsum.
  set (e := f_exp binary32 c) in *.
  assert (HE : 0 < SF2R e).
  { destruct He as (m & ex & -> & _ & _). rewrite SF2R_positive.
    apply Rmult_lt_0_compat; [apply IZR_lt; lia | apply powerRZ2_pos]. }
  assert (HKr : 1 <= INR K <= 4194304).
  { split.
    - change 1 with (INR 1). apply le_INR. lia.
    - rewrite INR_IZR_INZ. apply IZR_le. exact HK. }
  assert (Hnormalization : normalization = SFdiv 24 128 (S754_finite false 8388608 (-23)) s).
  { subst normalization. destruct Hnormal as (m & ex & -> & _ & _). reflexivity. }
  rewrite Hnormalization.
  assert (H125 : powerRZ 2 125 = 2 * powerRZ 2 124).
  { replace 125%Z with (1 + 124)%Z by lia. rewrite powerRZ2_add.
      rewrite (powerRZ2_IZR 1) by lia. reflexivity. }
  assert (HS : 0 < SF2R s).
  { apply Rlt_le_trans with (INR K * SF2R e * (1 - INR K * / 8388608)); [|lra].
    apply Rmult_lt_0_compat; [apply Rmult_lt_0_compat; lra | lra]. }
  assert (Hs2 : SF2R s <= 2 * (INR K * SF2R e)).
  { apply Rle_trans with (INR K * SF2R e * (1 + 2 * INR K * / 8388608)); [lra|].
    rewrite (Rmult_comm 2 (INR K * SF2R e)).
    apply Rmult_le_compat_l; [nra | lra]. }
  destruct (SFdiv_one_error s Hnormal ltac:(lra)) as [Hnormal_n Hinverse].
  set (n := SFdiv 24 128 (S754_finite false 8388608 (-23)) s) in *.
  assert (HiS : / SF2R s * SF2R s = 1) by (field; lra).
  assert (HiS0 : 0 < / SF2R s) by (apply Rinv_0_lt_compat; exact HS).
  assert (Hproduct : / (2 * INR K) <= SF2R e * / SF2R s <= 2 * / INR K).
  { assert (HiK : / INR K * INR K = 1) by (field; lra).
    assert (HiK0 : 0 < / INR K) by (apply Rinv_0_lt_compat; lra).
    split.
    - apply Rmult_le_reg_r with (2 * INR K * SF2R s); [nra|].
      replace (/ (2 * INR K) * (2 * INR K * SF2R s)) with (SF2R s) by (field; lra).
      replace (SF2R e * / SF2R s * (2 * INR K * SF2R s))
        with (2 * (INR K * SF2R e)) by (field; lra).
      exact Hs2.
    - apply Rmult_le_reg_r with (INR K * SF2R s); [nra|].
      replace (SF2R e * / SF2R s * (INR K * SF2R s))
        with (INR K * SF2R e) by (field; lra).
      replace (2 * / INR K * (INR K * SF2R s)) with (2 * SF2R s) by (field; lra).
      apply Rle_trans with (2 * (INR K * SF2R e * (1 - INR K * / 8388608))); [|lra].
      assert (INR K * SF2R e * (INR K * / 8388608) <= INR K * SF2R e * / 2).
      { apply Rmult_le_compat_l; [nra | lra]. }
      lra. }
  destruct (SFmul_error e n He Hnormal_n) as [_ Hmul].
  { assert (Hlow : powerRZ 2 (-126) <= / 16777216).
    { replace (/ 16777216) with (powerRZ 2 (-24)).
      - apply powerRZ2_le. lia.
      - change (-24)%Z with (Z.opp 24). rewrite powerRZ_neg'. f_equal.
        rewrite (powerRZ2_IZR 24) by lia. reflexivity. }
    assert (Hhigh : 4 <= powerRZ 2 127).
    { replace 4 with (powerRZ 2 2) by (rewrite (powerRZ2_IZR 2) by lia; reflexivity).
      apply powerRZ2_le. lia. }
    assert (HiK : / 8388608 <= / (2 * INR K)).
    { apply Rinv_le_contravar; lra. }
    assert (HiK1 : / INR K <= 1).
    { rewrite <- Rinv_1. apply Rinv_le_contravar; lra. }
    assert (Hen_lo : (1 - / 8388608) * (SF2R e * / SF2R s) <= SF2R e * SF2R n).
    { replace ((1 - / 8388608) * (SF2R e * / SF2R s))
        with (SF2R e * ((1 - / 8388608) * / SF2R s)) by ring.
      apply Rmult_le_compat_l; lra. }
    assert (Hen_hi : SF2R e * SF2R n <= (1 + / 8388608) * (SF2R e * / SF2R s)).
    { replace ((1 + / 8388608) * (SF2R e * / SF2R s))
        with (SF2R e * ((1 + / 8388608) * / SF2R s)) by ring.
      apply Rmult_le_compat_l; lra. }
    assert (Hlo2 : (1 - / 8388608) * / (2 * INR K) <= (1 - / 8388608) * (SF2R e * / SF2R s)).
    { apply Rmult_le_compat_l; lra. }
    assert (Hhi2 : (1 + / 8388608) * (SF2R e * / SF2R s) <= (1 + / 8388608) * (2 * / INR K)).
    { apply Rmult_le_compat_l; lra. }
    split; [|nra].
    apply Rle_trans with ((1 - / 8388608) * / 8388608); [lra|].
    apply Rle_trans with ((1 - / 8388608) * / (2 * INR K)); [|lra].
    apply Rmult_le_compat_l; lra. }
  change (fmul binary32 e n) with (SFmul 24 128 e n).
  replace ((INR K + 1) / 2097152) with (4 * (INR K + 1) * / 8388608) by field.
  apply softmax_rounding_bound with (E := SF2R e) (S := SF2R s) (N := SF2R n);
    try lra.
Qed.

End SoftmaxBinary32.

Section SoftmaxIEEE.

(** C3 as stated, on binary32.  With two classes and two trees whose
    leaves are [100], the accumulator is [100, 100]; [exp] overflows, the sum
    is infinite, the normalization is [0] and both counts are [inf * 0], a
    NaN, whatever the C library computes inside the range. *)
Lemma Predict_multinomial_equal_logits_overflow :
  ~ exists lm : IEEE.Libm,
      forall (model : GradientBoostedTreesModel spec_float) dataset row_idx
             prediction c,
        is_finite c ->
        loss_ model = MULTINOMIAL_LOG_LIKELIHOOD ->
        (multinomial_accumulator model dataset row_idx).1 =
          replicate (num_trees_per_iter_ model) c ->
        multinomial_distribution_is_uniform model dataset row_idx prediction.
Proof.
  intros [lm Hclaim].
  pose (hundred := IEEE.sf_of_int binary32 100).
  pose (model :=
          {| task := CLASSIFICATION; loss_ := MULTINOMIAL_LOG_LIKELIHOOD;
             initial_predictions_ := [S754_zero false; S754_zero false];
             num_trees_per_iter_ := 2;
             decision_trees_ := [Fixture.stump hundred; Fixture.stump hundred] |}).
  destruct (Hclaim model {| nrow := 1; columns := [] |} 0 type_not_set hundred)
    as (c & Hpredict & Hcounts); [exact I | reflexivity | reflexivity |].
  specialize (Hcounts 0 ltac:(cbn; lia)).
  vm_compute in Hpredict. injection Hpredict as <-.
  vm_compute in Hcounts. discriminate Hcounts.
Qed.

(** When [exp] underflows, the two entry points differ: on a row of a
    dataset the test [sum_exp > 0] makes every count [0], on an [Example]
    every count is [0 * (1 / 0)], a NaN. *)
Example Predict_multinomial_underflow `{IEEE.Libm} :
  let low := IEEE.sf_of_int binary32 (-200) in
  let model :=
    {| task := CLASSIFICATION; loss_ := MULTINOMIAL_LOG_LIKELIHOOD;
       initial_predictions_ := [S754_zero false; S754_zero false];
       num_trees_per_iter_ := 2;
       decision_trees_ := [Fixture.stump low; Fixture.stump low] |} in
  (exists classes,
     Predict model {| nrow := 1; columns := [] |} 0 type_not_set =
       Returns (classification classes) /\
     counts (distribution classes) =
       [S754_zero false; S754_zero false; S754_zero false]) /\
  (exists classes,
     Predict_Example model [] type_not_set = Returns (classification classes) /\
     counts (distribution classes) = [S754_zero false; S754_nan; S754_nan]).
Proof. split; eexists; split; reflexivity. Qed.

End SoftmaxIEEE.

Section SoftmaxRounding.

(** Inside the range the counts are not exactly [1.f / K]: with three
    classes, an accumulator of [2, 2, 2] and a C library whose [expf(2)] is
    the binary32 number nearest to the real one, [0x40ec7326], every count
    is [0x3eaaaaac], and [1.f / 3] is [0x3eaaaaab]. *)
Lemma Predict_multinomial_equal_logits_rounding (lm : IEEE.Libm) :
  IEEE.libm_exp binary32 (IEEE.sf_of_int binary32 2) =
    S754_finite false 15495974 (-21) ->
  ~ multinomial_distribution_is_uniform
      (Samples.equal_leaves_model 3 (IEEE.sf_of_int binary32 2))
      {| nrow := 1; columns := [] |} 0 type_not_set.
Proof.
  intros Hexp (classes & Hpredict & Hcounts).
  destruct (Predict_multinomial_equal_logits_counts
              (Samples.equal_leaves_model 3 (IEEE.sf_of_int binary32 2))
              {| nrow := 1; columns := [] |} 0 type_not_set
              (IEEE.sf_of_int binary32 2))
    as (classes' & Hpredict' & Hcounts'); [reflexivity | reflexivity |].
  rewrite Hpredict in Hpredict'. injection Hpredict' as <-.
  specialize (Hcounts 0 ltac:(cbn; lia)).
  specialize (Hcounts' 0 ltac:(cbn; lia)).
  rewrite Hcounts in Hcounts'. clear Hcounts Hpredict.
  cbn [Samples.equal_leaves_model num_trees_per_iter_ seq foldl] in Hcounts'.
  rewrite !lookup_total_replicate_2 in Hcounts' by lia.
  change (f_exp binary32 (IEEE.sf_of_int binary32 2))
    with (IEEE.libm_exp binary32 (IEEE.sf_of_int binary32 2)) in Hcounts'.
  rewrite Hexp in Hcounts'.
  vm_compute in Hcounts'. discriminate Hcounts'.
Qed.

End SoftmaxRounding.

(** ** The leaf value of the binomial loss *)

Section BinomialLeafExact.
Context `{Externals R}.
Local Open Scope R_scope.

Lemma foldl_three_sums (f g h : nat -> R) (l : list nat) (a b c : R) :
  foldl (fun '(x, y, z) i => (x + f i, y + g i, z + h i)) (a, b, c) l =
  (a + Rsum f l, b + Rsum g l, c + Rsum h l).
Proof.
  revert a b c. induction l as [|i l IH]; intros a b c; cbn [foldl].
  - unfold Rsum. cbn. f_equal; [f_equal|]; lra.
  - rewrite IH. unfold Rsum. cbn [foldr]. f_equal; [f_equal|]; lra.
Qed.

Lemma l1_threshold_exact (x t : R) : l1_threshold x t = soft_threshold x t.
Proof.
  unfold l1_threshold, soft_threshold, Rsign, Rmax, fgt. cbn.
  destruct (Rlt_dec 0 x), (Rlt_dec x 0),
           (Rlt_dec (Rabs x - t) 0), (Rle_dec (Rabs x - t) 0); lra.
Qed.

Lemma clamp_exact (v c : R) :
  0 <= c -> clamp v (- c) c = Rmax (- c) (Rmin v c).
Proof.
  intros Hc. unfold clamp, Rmax, Rmin. cbn.
  destruct (Rlt_dec v (- c)), (Rlt_dec c v), (Rle_dec v c);
    destruct (Rle_dec (- c) v), (Rle_dec (- c) c); lra.
Qed.

Lemma newton_denominator_exact (D : R) :
  (if fle D (cast binary64 kMinHessianForNewtonStep)
   then cast binary64 kMinHessianForNewtonStep else D) = Rmax D (1 / 1000).
Proof.
  unfold Rmax, kMinHessianForNewtonStep, literal. cbn.
  destruct (Rle_dec D (1 / 1000)); reflexivity.
Qed.

(** The formula of the specification on one example of label 2, weight 1
    and prediction 110. *)
Lemma binomial_leaf_value_at_110 :
  0 < binomial_leaf_value Samples.exact_plain_config [2%Z] [1] [110] [0%nat].
Proof.
  unfold binomial_leaf_value, Rsum, soft_threshold, Rsign. cbn.
  destruct (decide (2%Z = 2%Z)) as [_ | Hne]; [|congruence].
  pose proof (exp_pos (- (110))) as He. revert He.
  generalize (exp (- (110))). intros e He.
  set (p := 1 / (1 + e)).
  assert (Hp : 0 < 1 - p).
  { unfold p. apply Rmult_lt_reg_r with (1 + e); [lra|]. field_simplify; lra. }
  assert (Hp1 : 0 < p) by (unfold p; apply Rdiv_lt_0_compat; lra).
  replace (1 * (1 - p) + 0) with (1 - p) by ring.
  replace (1 * p * (1 - p) + 0) with (p * (1 - p)) by ring.
  destruct (Rlt_dec 0 (1 - p)) as [_ | Hn]; [|contradiction].
  rewrite Rminus_0_r, (Rabs_pos_eq (1 - p)) by lra.
  rewrite (Rmax_left (1 - p) 0) by lra.
  assert (HD : 0 < Rmax (p * (1 - p)) (1 / 1000) + 0).
  { pose proof (Rmax_r (p * (1 - p)) (1 / 1000)). lra. }
  set (D := Rmax (p * (1 - p)) (1 / 1000) + 0) in *.
  assert (Hleaf : 0 < 1 * (1 * (1 - p) / D)).
  { rewrite !Rmult_1_l. apply Rdiv_lt_0_compat; assumption. }
  set (leaf := 1 * (1 * (1 - p) / D)) in *.
  eapply Rlt_le_trans; [|apply Rmax_r]. apply Rmin_glb_lt; lra.
Qed.

(** What the code writes on that example, on the floats of the code: the
    leaf value [0], for every C library and all collaborators. *)
Lemma BinomialLogLikelihoodLoss_SetLeaf_at_110
    (lm : IEEE.Libm) (collaborators : Externals spec_float) :
  exists leaf,
    BinomialLogLikelihoodLoss_SetLeaf Samples.plain_config
      Samples.one_positive_row [0%nat] [Examples.one]
      [IEEE.sf_of_int binary32 110] 0
      {| regressor := {| top_value := Examples.zero; sum_gradients := None;
                         sum_hessians := None; sum_weights := None |} |} =
      Returns leaf /\
    top_value (regressor leaf) = S754_zero false.
Proof. eexists. split; [vm_compute; reflexivity | reflexivity]. Qed.

(** C2 as stated, on the floats of the code.  One example of label 2,
    weight 1 and prediction 110, a shrinkage of 1 and no regularization:
    [exp (-110)] underflows to [0] in [float], so [p] is [1], the gradient
    [y - p] is [0] and the leaf written is [0], whatever the C library
    computes inside the range and whatever the collaborators do; the formula
    gives [(1 - p) / 0.001] for [p = 1 / (1 + exp (-110)) < 1], which is not
    [0]. *)
Lemma BinomialLogLikelihoodLoss_SetLeaf_value_binary32 :
  ~ exists (lm : IEEE.Libm) (collaborators : Externals spec_float)
           (leaf : Node spec_float),
      BinomialLogLikelihoodLoss_SetLeaf Samples.plain_config
        Samples.one_positive_row [0%nat] [Examples.one]
        [IEEE.sf_of_int binary32 110] 0
        {| regressor := {| top_value := Examples.zero; sum_gradients := None;
                           sum_hessians := None; sum_weights := None |} |} =
        Returns leaf /\
      SF2R (top_value (regressor leaf)) =
        binomial_leaf_value Samples.exact_plain_config [2%Z] [1] [110] [0%nat].
Proof.
  intros (lm & collaborators & leaf & Hleaf & Hvalue).
  vm_compute in Hleaf. injection Hleaf as <-. cbn [SF2R top_value regressor] in Hvalue.
  pose proof binomial_leaf_value_at_110 as Hpositive.
  rewrite <- Hvalue in Hpositive. exact (Rlt_irrefl 0 Hpositive).
Qed.

(** C2.  Under exact arithmetic, for every set of selected examples,
    weights and predictions, [SetLeaf] of the binomial loss writes as the
    leaf's value [shrinkage * soft_threshold(N, L1) / (D + L2)] clamped to
    [[-clamp_leaf_logit, clamp_leaf_logit]], with [N] the sum of
    [w_i (y_i - p_i)], [D] the larger of the sum of [w_i p_i (1 - p_i)] and
    [0.001], and [p_i = 1 / (1 + exp (- prediction_i))]. *)
Theorem BinomialLogLikelihoodLoss_SetLeaf_value
    (gbt_config_ : GradientBoostedTreesTrainingConfig R)
    (train_dataset : VerticalDataset R) (selected_examples : list nat)
    (weights predictions : list R) (label_col_idx : nat) (labels : list Z)
    (node : Node R) :
  ColumnWithCast_CategoricalColumn train_dataset label_col_idx = Returns labels ->
  0 <= clamp_leaf_logit gbt_config_ ->
  exists leaf,
    BinomialLogLikelihoodLoss_SetLeaf gbt_config_ train_dataset
      selected_examples weights predictions label_col_idx node = Returns leaf /\
    top_value (regressor leaf) =
      binomial_leaf_value gbt_config_ labels weights predictions selected_examples.
Proof.
  intros Hlabels Hclamp. unfold BinomialLogLikelihoodLoss_SetLeaf.
  rewrite Hlabels. cbn [mbind outcome_bind].
  set (y := fun i : nat => if decide (labels !!! i = 2%Z) then 1 else 0).
  set (p := fun i : nat => 1 / (1 + exp (- (predictions !!! i)))).
  set (w := fun i : nat => weights !!! i).
  pose proof (foldl_three_sums
                (fun i => w i * (y i - p i))
                (fun i => w i * p i * (1 - p i))
                w selected_examples 0 0 0) as Hsums.
  match goal with
  | |- context [foldl ?body ?init selected_examples] =>
      replace (foldl body init selected_examples)
        with (0 + Rsum (fun i => w i * (y i - p i)) selected_examples,
              0 + Rsum (fun i => w i * p i * (1 - p i)) selected_examples,
              0 + Rsum w selected_examples)
  end.
  2:{ rewrite <- Hsums. apply foldl_ext. intros [[a b] c] i.
      unfold y, p, w, of_bool. cbn.
      destruct (decide (labels !!! i = 2%Z)) as [Heq | Hne].
      - rewrite bool_decide_eq_true_2 by assumption. reflexivity.
      - rewrite bool_decide_eq_false_2 by assumption. reflexivity. }
  eexists. split; [reflexivity|].
  unfold binomial_leaf_value. fold y p w.
  set (N := Rsum (fun i => w i * (y i - p i)) selected_examples).
  set (D := Rsum (fun i => w i * p i * (1 - p i)) selected_examples).
  rewrite !Rplus_0_l, newton_denominator_exact.
  destruct (use_hessian_gain gbt_config_); cbn [negb];
    cbn [top_value regressor set_top_value set_sums];
    rewrite clamp_exact by assumption;
    rewrite l1_threshold_exact; reflexivity.
Qed.

End BinomialLeafExact.

(** ** The gradients of LambdaMART sum to zero on every group *)

Lemma foldl_invariant_elem {A B} (P : A -> Prop) (f : A -> B -> A)
    (l : list B) (a : A) :
  P a -> (forall a x, x ∈ l -> P a -> P (f a x)) -> P (foldl f a l).
Proof.
  revert a. induction l as [|x l IH]; intros a Ha Hstep; cbn; [assumption|].
  apply IH.
  - apply Hstep; [left | assumption].
  - intros a' y Hy. apply Hstep. right. assumption.
Qed.

Lemma sort_insert_Permutation {A} (comp : A -> A -> bool) x l :
  sort_insert comp x l ≡ₚ x :: l.
Proof.
  induction l as [|y l IH]; cbn; [reflexivity|].
  destruct (comp y x); [|reflexivity].
  rewrite IH. apply perm_swap.
Qed.

Lemma std_sort_Permutation {A} (comp : A -> A -> bool) l :
  std_sort comp l ≡ₚ l.
Proof.
  unfold std_sort. induction l as [|x l IH]; cbn; [reflexivity|].
  rewrite sort_insert_Permutation, IH. reflexivity.
Qed.

Section GradientSum.
Local Open Scope R_scope.

Lemma gradient_sum_insert_outside (g : list R) (examples : list nat) e v :
  e ∉ examples -> gradient_sum (<[e := v]> g) examples = gradient_sum g examples.
Proof.
  unfold gradient_sum, Rsum.
  induction examples as [|a examples IH]; intros He; cbn; [reflexivity|].
  rewrite not_elem_of_cons in He. destruct He as [Hne He].
  rewrite IH by assumption.
  rewrite list_lookup_total_insert_ne by congruence. reflexivity.
Qed.

Lemma gradient_sum_insert_inside (g : list R) (examples : list nat) e v :
  NoDup examples -> e ∈ examples -> (e < length g)%nat ->
  gradient_sum (<[e := v]> g) examples =
  gradient_sum g examples + (v - g !!! e).
Proof.
  intros Hnodup He Hlen. induction examples as [|a examples IH].
  - inversion He.
  - apply NoDup_cons in Hnodup as [Ha Hnodup].
    unfold gradient_sum, Rsum in *. cbn [foldr].
    destruct (decide (e = a)) as [-> | Hne].
    + rewrite list_lookup_total_insert_eq by assumption.
      pose proof (gradient_sum_insert_outside g examples a v Ha) as Hout.
      unfold gradient_sum, Rsum in Hout. rewrite Hout. lra.
    + rewrite list_lookup_total_insert_ne by congruence.
      apply elem_of_cons in He as [He | He]; [congruence|].
      rewrite IH by assumption. lra.
Qed.

(** Adding [u] at one example and subtracting it at another leaves the sum
    over a list of examples that has both, or neither. *)
Lemma gradient_sum_pair (g : list R) (examples : list nat) e1 e2 u :
  NoDup examples -> Forall (fun e => (e < length g)%nat) examples ->
  (e1 ∈ examples <-> e2 ∈ examples) ->
  gradient_sum
    (<[e2 := (<[e1 := g !!! e1 + u]> g) !!! e2 - u]> (<[e1 := g !!! e1 + u]> g))
    examples = gradient_sum g examples.
Proof.
  intros Hnodup Hrange Hboth.
  destruct (decide (e1 ∈ examples)) as [H1 | H1].
  - assert (H2 : e2 ∈ examples) by tauto.
    rewrite Forall_forall in Hrange.
    rewrite gradient_sum_insert_inside
      by (rewrite ?length_insert; auto).
    rewrite gradient_sum_insert_inside by auto. lra.
  - assert (H2 : e2 ∉ examples) by tauto.
    rewrite !gradient_sum_insert_outside by assumption. reflexivity.
Qed.

Context `{Externals R}.

Lemma pair_force_gradient_sum (examples : list nat)
    lambda_loss lambda_loss_squared utility_norm_factor
    (group : Group R) (pred_and_in_ground_idx : list (R * nat))
    item_1_idx item_2_idx (g h : list R) :
  NoDup examples -> Forall (fun e => (e < length g)%nat) examples ->
  (example_idx (items group !!! (pred_and_in_ground_idx !!! item_1_idx).2)
     ∈ examples <->
   example_idx (items group !!! (pred_and_in_ground_idx !!! item_2_idx).2)
     ∈ examples) ->
  let g' :=
    (pair_force lambda_loss lambda_loss_squared utility_norm_factor group
       pred_and_in_ground_idx item_1_idx item_2_idx (g, h)).1 in
  gradient_sum g' examples = gradient_sum g examples /\ length g' = length g.
Proof.
  intros Hnodup Hrange Hboth. unfold pair_force.
  destruct (feq _ _); cbn [fst]; [split; reflexivity|].
  split.
  - apply gradient_sum_pair; assumption.
  - rewrite !length_insert. reflexivity.
Qed.

End GradientSum.

Lemma NoDup_mjoin_elem {A} (ls : list (list A)) (l : list A) :
  NoDup (mjoin ls) -> l ∈ ls -> NoDup l.
Proof.
  induction ls as [|l' ls IH]; intros Hnodup Hl; [inversion Hl|].
  cbn in Hnodup. apply NoDup_app in Hnodup as (Hl' & _ & Hrest).
  apply elem_of_cons in Hl as [-> | Hl]; [assumption | auto].
Qed.

Lemma NoDup_mjoin_inside_or_outside {A} (ls : list (list A)) (l1 l2 : list A) :
  NoDup (mjoin ls) -> l1 ∈ ls -> l2 ∈ ls ->
  (forall e, e ∈ l1 -> e ∈ l2) \/ (forall e, e ∈ l1 -> e ∉ l2).
Proof.
  induction ls as [|l ls IH]; intros Hnodup H1 H2; [inversion H1|].
  cbn in Hnodup. apply NoDup_app in Hnodup as (_ & Hdisjoint & Hrest).
  apply elem_of_cons in H1 as [-> | H1]; apply elem_of_cons in H2 as [-> | H2].
  - left. auto.
  - right. intros e He Hin. apply (Hdisjoint e He).
    apply list_elem_of_join. eauto.
  - right. intros e He Hin. apply (Hdisjoint e Hin).
    apply list_elem_of_join. eauto.
  - auto.
Qed.

Section GradientSumGroups.
Context `{Externals R}.
Local Open Scope R_scope.

Lemma gradient_sum_zeros (n : nat) (examples : list nat) :
  gradient_sum (replicate n (of_int binary32 0)) examples = 0.
Proof.
  unfold gradient_sum, Rsum.
  induction examples as [|e examples IH]; cbn [foldr]; [reflexivity|].
  rewrite IH, list_lookup_total_alt.
  destruct (replicate n (of_int binary32 0) !! e) as [x|] eqn:Hx; cbn.
  - apply lookup_replicate in Hx as [-> _]. cbn. lra.
  - lra.
Qed.

Lemma in_ground_idx_in_range (predictions : list R) (group : Group R)
    (l : list (R * nat)) (i : nat) :
  l ≡ₚ imap (fun item_idx item => (predictions !!! example_idx item, item_idx))
            (items group) ->
  (i < length l)%nat ->
  ((l !!! i).2 < length (items group))%nat.
Proof.
  intros Hperm Hi.
  assert (Hin : l !!! i ∈ l) by (apply list_elem_of_lookup_total_2; assumption).
  remember (l !!! i) as x eqn:Hx. clear Hx.
  rewrite Hperm in Hin.
  apply list_elem_of_lookup in Hin as [j Hj].
  rewrite list_lookup_imap in Hj.
  destruct (items group !! j) as [item|] eqn:Hitem; [|discriminate].
  cbn in Hj. injection Hj as <-. cbn.
  apply lookup_lt_is_Some. eauto.
Qed.

Lemma group_forces_gradient_sum (examples : list nat)
    (gbt_config_ : GradientBoostedTreesTrainingConfig R)
    (predictions g h : list R) (random : RandomEngine) (group : Group R) :
  NoDup examples -> Forall (fun e => (e < length g)%nat) examples ->
  (forall e, e ∈ example_indices group -> e ∈ examples) \/
  (forall e, e ∈ example_indices group -> e ∉ examples) ->
  let g' := (group_forces gbt_config_ predictions (g, h, random) group).1.1 in
  gradient_sum g' examples = gradient_sum g examples /\ length g' = length g.
Proof.
  intros Hnodup Hrange Hgroup. unfold group_forces.
  destruct (shuffle _ random) as [shuffled random'] eqn:Hshuffle.
  set (sorted := std_sort _ shuffled).
  assert (Hperm : sorted ≡ₚ
            imap (fun item_idx item => (predictions !!! example_idx item, item_idx))
                 (items group)).
  { subst sorted. rewrite std_sort_Permutation.
    pose proof (shuffle_Permutation _
                  (imap (fun item_idx item =>
                           (predictions !!! example_idx item, item_idx))
                        (items group)) random) as Hs.
    rewrite Hshuffle in Hs. exact Hs. }
  assert (Hexample : forall i, (i < length sorted)%nat ->
            example_idx (items group !!! (sorted !!! i).2) ∈ example_indices group).
  { intros i Hi. unfold example_indices.
    apply list_elem_of_fmap_2, list_elem_of_lookup_total_2.
    eapply in_ground_idx_in_range; eassumption. }
  match goal with
  | |- context [foldl ?f ?a (seq 0 (length sorted))] =>
      pose proof (foldl_invariant_elem
        (fun st : list R * list R =>
           gradient_sum st.1 examples = gradient_sum g examples /\
           length st.1 = length g)
        f (seq 0 (length sorted)) a) as Houter
  end.
  destruct (foldl _ _ (seq 0 (length sorted))) as [g' h']. cbn [fst].
  apply Houter; [split; reflexivity|].
  intros st item_1_idx H1 Hst. apply elem_of_seq in H1.
  apply foldl_invariant_elem; [assumption|].
  intros [g2 h2] item_2_idx H2 [Hsum Hlen]. apply elem_of_seq in H2.
  cbn [fst] in *.
  pose proof (pair_force_gradient_sum examples
                (lambda_loss gbt_config_)
                (fmul binary32 (lambda_loss gbt_config_) (lambda_loss gbt_config_))) as Hpair.
  match goal with
  | |- context [pair_force ?a ?b ?c ?d ?e ?i ?j (g2, h2)] =>
      specialize (Hpair c d e i j g2 h2 Hnodup)
  end.
  cbn zeta in Hpair. rewrite <- Hsum, <- Hlen. apply Hpair.
  - rewrite Hlen. assumption.
  - pose proof (Hexample item_1_idx ltac:(lia)) as He1.
    pose proof (Hexample item_2_idx ltac:(lia)) as He2.
    destruct Hgroup as [Hin | Hout].
    + split; intros _; auto.
    + split; intros Hx; [destruct (Hout _ He1 Hx) | destruct (Hout _ He2 Hx)].
Qed.

(** C9.  Under exact arithmetic, on an index whose groups hold distinct
    examples, each with a cell in the vector of gradients,
    [NDCGLoss::UpdateGradients] succeeds and leaves, for every group, gradient
    entries that sum to zero over the examples of the group. *)
Theorem NDCGLoss_UpdateGradients_group_sum_zero
    (gbt_config_ : GradientBoostedTreesTrainingConfig R)
    (predictions : list R) (ranking_index : RankingGroupsIndices R)
    (gradients : list (GradientData R)) (random : RandomEngine) :
  NoDup (all_example_indices ranking_index) ->
  Forall (fun e => (e < length (gradient (gradients !!! 0%nat)))%nat)
         (all_example_indices ranking_index) ->
  let '(status, gradients_after, _) :=
    NDCGLoss_UpdateGradients gbt_config_ predictions ranking_index
      gradients random in
  status = OkStatus /\
  forall group, group ∈ groups_ ranking_index ->
    gradient_sum (gradient (gradients_after !!! 0%nat)) (example_indices group) = 0.
Proof.
  intros Hnodup Hrange. unfold NDCGLoss_UpdateGradients.
  set (n := length (gradient (gradients !!! 0%nat))) in *.
  match goal with
  | |- context [foldl ?f ?a (groups_ ranking_index)] =>
      pose proof (fun examples =>
        foldl_invariant_elem
          (fun st : list R * list R * RandomEngine =>
             gradient_sum st.1.1 examples = 0 /\ length st.1.1 = n)
          f (groups_ ranking_index) a) as Hloop
  end.
  destruct (foldl _ _ (groups_ ranking_index)) as [[g' h'] random'].
  split; [reflexivity|].
  intros target Htarget.
  destruct gradients as [|first rest]; cbn.
  { exact (gradient_sum_zeros 0 (example_indices target)). }
  assert (Hin : example_indices target ∈ example_indices <$> groups_ ranking_index)
    by (apply list_elem_of_fmap_2; assumption).
  assert (Hnodup_target : NoDup (example_indices target))
    by (eapply NoDup_mjoin_elem; eassumption).
  assert (Hrange_target :
            Forall (fun e => (e < n)%nat) (example_indices target)).
  { rewrite Forall_forall in Hrange |- *. intros e He. apply Hrange.
    apply list_elem_of_join. eauto. }
  apply (Hloop (example_indices target)).
  - cbn [fst]. split; [apply gradient_sum_zeros | apply length_replicate].
  - intros [[g h] r] group Hgroup [Hsum Hlen]. cbn [fst] in *.
    pose proof (group_forces_gradient_sum (example_indices target)
                  gbt_config_ predictions g h r group Hnodup_target) as Hstep.
    cbn zeta in Hstep. rewrite <- Hsum, <- Hlen. apply Hstep.
    + rewrite Hlen. assumption.
    + eapply NoDup_mjoin_inside_or_outside; [eassumption| |eassumption].
      apply list_elem_of_fmap_2. assumption.
Qed.

End GradientSumGroups.

(** ** The ranking group index *)

Lemma foldlM_Returns {A B} (body : B -> A -> outcome B) (f : B -> A -> B)
    (l : list A) (st : B) :
  (forall st x, x ∈ l -> body st x = Returns (f st x)) ->
  foldlM body st l = Returns (foldl f st l).
Proof.
  revert st. induction l as [|x l IH]; intros st Hbody; cbn; [reflexivity|].
  rewrite Hbody by left. cbn. apply IH.
  intros st' y Hy. apply Hbody. right. assumption.
Qed.

Lemma foldlM_Fatal {A B} (body : B -> A -> outcome B) (l : list A) (x : A) :
  x ∈ l -> (forall st, exists message, body st x = Fatal message) ->
  forall st, exists message, foldlM body st l = Fatal message.
Proof.
  intros Hx Hbody. induction l as [|y l IH]; intros st; [inversion Hx|].
  cbn. apply elem_of_cons in Hx as [<- | Hx].
  - destruct (Hbody st) as [message ->]. cbn. eauto.
  - destruct (body st y) as [st'|message]; cbn; [apply IH; assumption | eauto].
Qed.

Lemma sort_insert_StronglySorted {A} (comp : A -> A -> bool) (x : A) (l : list A) :
  (forall y, y ∈ l -> comp y x = true \/ comp x y = true) ->
  (forall y z, y ∈ l -> z ∈ l -> comp x y = true -> comp y z = true ->
               comp x z = true) ->
  StronglySorted (fun a b => comp a b = true) l ->
  StronglySorted (fun a b => comp a b = true) (sort_insert comp x l).
Proof.
  intros Htotal Htrans Hsorted.
  induction Hsorted as [|y l Hsorted IH Hy]; cbn.
  - repeat constructor.
  - destruct (comp y x) eqn:Hyx.
    + constructor.
      * apply IH.
        -- intros z Hz. apply Htotal. right. assumption.
        -- intros z1 z2 H1 H2. apply Htrans; right; assumption.
      * rewrite sort_insert_Permutation. constructor; assumption.
    + assert (Hxy : comp x y = true).
      { destruct (Htotal y ltac:(left)) as [Hc | Hc]; congruence. }
      constructor; [constructor; assumption|].
      constructor; [assumption|].
      rewrite Forall_forall in Hy |- *. intros z Hz.
      apply (Htrans y z); [left | right; assumption | assumption | auto].
Qed.

(** [std_sort] sorts: where the comparison is total and transitive on the
    distinct elements of the sequence, every element is before the ones it
    precedes in the comparison. *)
Lemma std_sort_StronglySorted {A} (comp : A -> A -> bool) (l : list A) :
  NoDup l ->
  (forall x y, x ∈ l -> y ∈ l -> x <> y -> comp x y = true \/ comp y x = true) ->
  (forall x y z, x ∈ l -> y ∈ l -> z ∈ l ->
                 comp x y = true -> comp y z = true -> comp x z = true) ->
  StronglySorted (fun a b => comp a b = true) (std_sort comp l).
Proof.
  intros Hnodup Htotal Htrans.
  induction l as [|x l IH]; cbn; [constructor|].
  apply NoDup_cons in Hnodup as [Hx Hnodup].
  fold (std_sort comp l).
  apply sort_insert_StronglySorted.
  - intros y Hy. rewrite std_sort_Permutation in Hy.
    destruct (Htotal y x) as [Hc | Hc]; auto; [right | left | ]; auto.
    intros ->. contradiction.
  - intros y z Hy Hz. rewrite std_sort_Permutation in Hy, Hz.
    apply Htrans; [left | right | right]; assumption.
  - apply IH; [assumption | |].
    + intros y z Hy Hz. apply Htotal; right; assumption.
    + intros y z w Hy Hz Hw. apply Htrans; right; assumption.
Qed.

Section FillGroups.
Context {F : Type} `{Arith F}.

Lemma push_back_item_lookup group_value (item : Item F) tmp_groups g :
  default [] (push_back_item group_value item tmp_groups !! g) =
  default [] (tmp_groups !! g) ++ (if decide (group_value = g) then [item] else []).
Proof.
  unfold push_back_item. rewrite lookup_insert.
  destruct (decide (group_value = g)) as [-> | Hne]; cbn; [reflexivity|].
  rewrite app_nil_r. reflexivity.
Qed.

(** After the first loop a group holds its rows, in the order of the rows. *)
Lemma fill_groups_lookup (group_of : nat -> Z) (label_values : list F) n g :
  default [] (fill_groups group_of label_values n !! g) =
  (fun i => {| relevance := label_values !!! i; example_idx := i |}) <$>
    filter (fun i => group_of i = g) (seq 0 n).
Proof.
  unfold fill_groups. induction n as [|n IH]; [reflexivity|].
  rewrite seq_S, foldl_app, filter_app, fmap_app. cbn [foldl].
  rewrite push_back_item_lookup, IH. f_equal.
  rewrite filter_cons, filter_nil. cbn [plus].
  destruct (decide (group_of n = g)); reflexivity.
Qed.

Lemma push_back_item_nonempty group_value (item : Item F) tmp_groups :
  map_Forall (fun _ l => l <> []) tmp_groups ->
  map_Forall (fun _ l => l <> []) (push_back_item group_value item tmp_groups).
Proof.
  intros Hall. unfold push_back_item. apply map_Forall_insert_2; [|assumption].
  destruct (default [] _); discriminate.
Qed.

Lemma fill_groups_nonempty (group_of : nat -> Z) (label_values : list F) n :
  map_Forall (fun _ l => l <> []) (fill_groups group_of label_values n).
Proof.
  unfold fill_groups. apply foldl_invariant.
  - apply map_Forall_empty.
  - intros tmp i Htmp. apply push_back_item_nonempty. assumption.
Qed.

Lemma push_back_item_total group_value (item : Item F) tmp_groups :
  sum_list_with (fun entry => length entry.2)
    (map_to_list (push_back_item group_value item tmp_groups)) =
  S (sum_list_with (fun entry : Z * list (Item F) => length entry.2)
       (map_to_list tmp_groups)).
Proof.
  unfold push_back_item.
  destruct (tmp_groups !! group_value) as [l|] eqn:Hl; cbn [default].
  - rewrite <- insert_delete_eq.
    rewrite map_to_list_insert by apply lookup_delete_eq.
    rewrite <- (map_to_list_delete tmp_groups group_value l Hl).
    cbn. rewrite length_app. cbn. lia.
  - rewrite map_to_list_insert by assumption. cbn. reflexivity.
Qed.

Lemma fill_groups_total (group_of : nat -> Z) (label_values : list F) n :
  sum_list_with (fun entry => length entry.2)
    (map_to_list (fill_groups group_of label_values n)) = n.
Proof.
  unfold fill_groups. induction n as [|n IH].
  - cbn. rewrite map_to_list_empty. reflexivity.
  - rewrite seq_S, foldl_app. cbn [foldl].
    rewrite push_back_item_total, IH. reflexivity.
Qed.

(** The first loop either ends the process or computes [fill_groups]. *)
Lemma fill_index_Returns label_values categorical hash n tmp_groups :
  fill_index label_values categorical hash n = Returns tmp_groups ->
  exists group_of,
    tmp_groups = fill_groups group_of label_values n /\
    forall i, (i < n)%nat ->
      group_value_of categorical hash i = Returns (group_of i).
Proof.
  intros Hfill.
  exists (fun i => match group_value_of categorical hash i with
                   | Returns g => g
                   | Fatal _ => 0%Z
                   end).
  destruct categorical as [cv|]; [|destruct hash as [hv|]].
  - split; [|reflexivity].
    unfold fill_index in Hfill. erewrite foldlM_Returns in Hfill.
    + injection Hfill as <-. reflexivity.
    + reflexivity.
  - split; [|reflexivity].
    unfold fill_index in Hfill. erewrite foldlM_Returns in Hfill.
    + injection Hfill as <-. reflexivity.
    + reflexivity.
  - destruct n; [|discriminate].
    cbn in Hfill. injection Hfill as <-.
    split; [reflexivity | lia].
Qed.

Lemma sort_groups_items_Returns (tmp_groups : list (Z * list (Item F)))
    groups acc :
  foldlM (fun groups '(group_first, group_second) =>
            let group_second := std_sort item_comp group_second in
            if decide (kMaximumItemsInRankingGroup < length group_second)
            then Fatal "The number of items in the group is greater than kMaximumItemsInRankingGroup"
            else Returns (groups ++ [{| group_idx := group_first;
                                        items := group_second |}]))
         acc tmp_groups = Returns groups ->
  groups = acc ++ (make_group <$> tmp_groups) /\
  Forall (fun entry => length entry.2 <= kMaximumItemsInRankingGroup) tmp_groups.
Proof.
  revert acc. induction tmp_groups as [|[g l] tmp IH]; intros acc; cbn.
  - intros [= <-]. rewrite app_nil_r. split; constructor.
  - destruct (decide _) as [Hbig | Hsmall]; [discriminate|]. cbn.
    intros Hrest. apply IH in Hrest as [-> Hall].
    rewrite <- app_assoc. split; [reflexivity|].
    constructor; [|assumption]. cbn.
    rewrite <- (Permutation_length (std_sort_Permutation item_comp l)). lia.
Qed.

Lemma sort_groups_items_Fatal (tmp_groups : list (Z * list (Item F))) g l :
  (g, l) ∈ tmp_groups -> kMaximumItemsInRankingGroup < length l ->
  exists message, sort_groups_items tmp_groups = Fatal message.
Proof.
  intros Hin Hbig. unfold sort_groups_items.
  eapply foldlM_Fatal; [exact Hin|].
  intros st. cbn.
  rewrite (Permutation_length (std_sort_Permutation item_comp l)).
  destruct (decide _); [eauto | lia].
Qed.

End FillGroups.

Lemma mjoin_fmap_Permutation {A B} (f g : A -> list B) (l : list A) :
  (forall x, x ∈ l -> f x ≡ₚ g x) -> mjoin (f <$> l) ≡ₚ mjoin (g <$> l).
Proof.
  induction l as [|x l IH]; intros Hfg; cbn; [reflexivity|].
  rewrite (Hfg x) by left.
  rewrite IH by (intros y Hy; apply Hfg; right; assumption).
  reflexivity.
Qed.

Section InitializeRows.
Context {F : Type} `{Arith F}.

Lemma push_back_item_rows group_value (item : Item F) tmp_groups :
  rows_of (push_back_item group_value item tmp_groups) ≡ₚ
  example_idx item :: rows_of tmp_groups.
Proof.
  unfold rows_of, push_back_item.
  destruct (tmp_groups !! group_value) as [l|] eqn:Hl; cbn [default from_option].
  - rewrite <- insert_delete_eq.
    rewrite map_to_list_insert by apply lookup_delete_eq.
    rewrite <- (map_to_list_delete tmp_groups group_value l Hl).
    cbn. rewrite fmap_app. cbn.
    rewrite <- app_assoc. cbn. symmetry. apply Permutation_middle.
  - rewrite map_to_list_insert by assumption. reflexivity.
Qed.

Lemma fill_groups_rows (group_of : nat -> Z) (label_values : list F) n :
  rows_of (fill_groups group_of label_values n) ≡ₚ seq 0 n.
Proof.
  unfold fill_groups. induction n as [|n IH].
  - unfold rows_of. cbn. rewrite map_to_list_empty. reflexivity.
  - rewrite seq_S, foldl_app. cbn [foldl].
    rewrite push_back_item_rows, IH. cbn [example_idx plus].
    apply Permutation_cons_append.
Qed.

(** When [Initialize] completes, every row of the dataset is an item of
    exactly one group. *)
Lemma Initialize_example_indices (dataset : VerticalDataset F)
    label_col_idx group_col_idx index :
  RankingGroupsIndices_Initialize dataset label_col_idx group_col_idx =
    Returns index ->
  all_example_indices index ≡ₚ seq 0 (nrow dataset).
Proof.
  intros Hinit. unfold RankingGroupsIndices_Initialize in Hinit.
  destruct (ColumnWithCast_NumericalColumn _ _) as [label_values|];
    [|discriminate].
  cbn [mbind outcome_bind] in Hinit.
  destruct (fill_index _ _ _ _) as [tmp_groups|] eqn:Hfill; [|discriminate].
  cbn [mbind outcome_bind] in Hinit.
  destruct (sort_groups_items _) as [groups|] eqn:Hsort; [|discriminate].
  cbn [mbind outcome_bind mret outcome_ret] in Hinit. injection Hinit as <-.
  apply fill_index_Returns in Hfill as (group_of & -> & _).
  apply sort_groups_items_Returns in Hsort as [-> _]. cbn [app].
  unfold all_example_indices. cbn [groups_].
  rewrite std_sort_Permutation, <- list_fmap_compose.
  rewrite <- (fill_groups_rows group_of label_values (nrow dataset)).
  unfold rows_of. apply mjoin_fmap_Permutation.
  intros [g l] _.
  change (example_idx <$> std_sort item_comp l ≡ₚ example_idx <$> l).
  rewrite std_sort_Permutation. reflexivity.
Qed.

(** So the index [Initialize] builds is one [UpdateGradients] is proved
    on, with a vector of gradients of one cell per row. *)
Lemma Initialize_index_well_formed (dataset : VerticalDataset F)
    label_col_idx group_col_idx index :
  RankingGroupsIndices_Initialize dataset label_col_idx group_col_idx =
    Returns index ->
  NoDup (all_example_indices index) /\
  Forall (fun e => e < nrow dataset) (all_example_indices index).
Proof.
  intros Hinit. apply Initialize_example_indices in Hinit.
  split.
  - rewrite Hinit. apply NoDup_seq.
  - rewrite Hinit. apply Forall_forall. intros e He.
    apply elem_of_seq in He. lia.
Qed.

End InitializeRows.

Lemma filter_ext_elem {A} (P Q : A -> Prop)
    `{forall x, Decision (P x)} `{forall x, Decision (Q x)} (l : list A) :
  (forall x, x ∈ l -> (P x <-> Q x)) -> filter P l = filter Q l.
Proof.
  induction l as [|x l IH]; intros Hiff; [reflexivity|].
  rewrite !filter_cons.
  pose proof (Hiff x ltac:(left)) as Hx.
  rewrite IH by (intros y Hy; apply Hiff; right; assumption).
  destruct (decide (P x)), (decide (Q x)); tauto.
Qed.

Section InitializeFatal.
Context {F : Type} `{Arith F}.

Lemma Initialize_Fatal_of_large_group (dataset : VerticalDataset F)
    label_col_idx group_col_idx group_value :
  kMaximumItemsInRankingGroup <
    ranking_group_size dataset group_col_idx group_value ->
  exists message,
    RankingGroupsIndices_Initialize dataset label_col_idx group_col_idx =
    Fatal message.
Proof.
  intros Hbig. unfold RankingGroupsIndices_Initialize.
  destruct (ColumnWithCast_NumericalColumn dataset label_col_idx)
    as [label_values|message]; cbn [mbind outcome_bind]; [|eauto].
  destruct (fill_index _ _ _ _) as [tmp_groups|message] eqn:Hfill;
    cbn [mbind outcome_bind]; [|eauto].
  apply fill_index_Returns in Hfill as (group_of & -> & Hgroup_of).
  pose proof (fill_groups_lookup group_of label_values (nrow dataset) group_value)
    as Hlookup.
  assert (Hsize :
    length (filter (fun i => group_of i = group_value) (seq 0 (nrow dataset))) =
    ranking_group_size dataset group_col_idx group_value).
  { unfold ranking_group_size. f_equal. apply filter_ext_elem.
    intros i Hi. apply elem_of_seq in Hi. unfold row_group.
    rewrite Hgroup_of by lia. split; congruence. }
  destruct (fill_groups group_of label_values (nrow dataset) !! group_value)
    as [l|] eqn:Hl.
  - change (l = (fun i => {| relevance := label_values !!! i; example_idx := i |}) <$>
                 filter (fun i => group_of i = group_value) (seq 0 (nrow dataset)))
      in Hlookup.
    destruct (sort_groups_items_Fatal
                (map_to_list (fill_groups group_of label_values (nrow dataset)))
                group_value l) as [message ->].
    + apply elem_of_map_to_list. assumption.
    + rewrite Hlookup, length_fmap, Hsize. assumption.
    + cbn. eauto.
  - apply (f_equal length) in Hlookup.
    rewrite length_fmap, Hsize in Hlookup. cbn in Hlookup.
    unfold kMaximumItemsInRankingGroup in Hbig. lia.
Qed.

(** C6, as the code has it.  For every dataset with a ranking group of more
    than 2000 rows, [Initialize] ends the process with [LOG(FATAL)]; it
    returns nothing, and no error value. *)
Theorem Initialize_large_group_is_fatal (dataset : VerticalDataset F)
    (label_col_idx group_col_idx : nat) (group_value : Z) :
  2000 < ranking_group_size dataset group_col_idx group_value ->
  (exists message,
     RankingGroupsIndices_Initialize dataset label_col_idx group_col_idx =
     Fatal message) /\
  (forall index,
     RankingGroupsIndices_Initialize dataset label_col_idx group_col_idx <>
     Returns index).
Proof.
  intros Hbig.
  destruct (Initialize_Fatal_of_large_group dataset label_col_idx group_col_idx
              group_value Hbig) as [message Hfatal].
  split; [eauto|]. intros index. rewrite Hfatal. discriminate.
Qed.

End InitializeFatal.

Lemma dataset_of_2001_rows_group_size :
  2000 < ranking_group_size Examples.dataset_of_2001_rows 1 7%Z.
Proof. apply Nat.ltb_lt. vm_compute. reflexivity. Qed.

(** C6 as stated.  On 2001 rows of one group, whatever the C library, the
    call does not return: there is no result value that could carry an
    error. *)
Lemma Initialize_2001_items_does_not_return :
  ~ exists (lm : IEEE.Libm) (index : RankingGroupsIndices spec_float),
      RankingGroupsIndices_Initialize Examples.dataset_of_2001_rows 0 1 = Returns index.
Proof.
  intros (lm & index & Hreturns).
  destruct (Initialize_Fatal_of_large_group Examples.dataset_of_2001_rows 0 1 7%Z
              dataset_of_2001_rows_group_size) as [message Hfatal].
  congruence.
Qed.

(** *** The order of binary floating-point numbers that are not NaN *)

Ltac compare_cases :=
  repeat match goal with
  | H : context [match Z.compare ?a ?b with _ => _ end] |- _ =>
      destruct (Z.compare_spec a b)
  | |- context [match Z.compare ?a ?b with _ => _ end] =>
      destruct (Z.compare_spec a b)
  | H : context [Pos.compare_cont Eq ?a ?b] |- _ =>
      change (Pos.compare_cont Eq a b) with (Pos.compare a b) in H;
      destruct (Pos.compare_spec a b)
  | |- context [Pos.compare_cont Eq ?a ?b] =>
      change (Pos.compare_cont Eq a b) with (Pos.compare a b);
      destruct (Pos.compare_spec a b)
  end.

Lemma SFcompare_antisym (x y : spec_float) :
  SFcompare y x = option_map CompOpp (SFcompare x y).
Proof.
  destruct x as [[]|[]| |[] mx ex], y as [[]|[]| |[] my ey];
    cbn; try reflexivity; compare_cases; cbn; try reflexivity; lia.
Qed.

Lemma SFcompare_trans (c : comparison) (x y z : spec_float) :
  SFcompare x y = Some c -> SFcompare y z = Some c -> SFcompare x z = Some c.
Proof.
  destruct x as [[]|[]| |[] mx ex], y as [[]|[]| |[] my ey],
           z as [[]|[]| |[] mz ez];
    cbn; try congruence; intros H1 H2;
    compare_cases; cbn in *; try congruence; lia.
Qed.

Lemma SFcompare_Eq_l (x y z : spec_float) :
  SFcompare x y = Some Eq -> SFcompare x z = SFcompare y z.
Proof.
  destruct x as [[]|[]| |[] mx ex], y as [[]|[]| |[] my ey],
           z as [[]|[]| |[] mz ez];
    cbn; try congruence; intros H1;
    compare_cases; cbn in *; try congruence; lia.
Qed.

Lemma SFcompare_Eq_r (x y z : spec_float) :
  SFcompare y z = Some Eq -> SFcompare x y = SFcompare x z.
Proof.
  intros Hyz.
  rewrite (SFcompare_antisym y x), (SFcompare_antisym z x).
  f_equal. symmetry. apply SFcompare_Eq_l.
  rewrite SFcompare_antisym, Hyz. reflexivity.
Qed.

Lemma SFcompare_not_nan (x y : spec_float) :
  IEEE.isnan x = false -> IEEE.isnan y = false ->
  exists c, SFcompare x y = Some c.
Proof.
  destruct x as [[]|[]| |[] mx ex], y as [[]|[]| |[] my ey];
    cbn; try discriminate; eauto.
Qed.

Section ItemOrder.
Context `{IEEE.Libm}.

Lemma item_comp_compare (a b : Item spec_float) :
  item_comp a b =
  match SFcompare (relevance a) (relevance b) with
  | Some Eq => bool_decide (example_idx b < example_idx a)
  | Some Gt => true
  | _ => false
  end.
Proof.
  unfold item_comp, fgt. cbn [feq flt IEEE.arith]. unfold SFeqb, SFltb.
  rewrite (SFcompare_antisym (relevance a) (relevance b)).
  destruct (SFcompare (relevance a) (relevance b)) as [[]|]; reflexivity.
Qed.

Lemma item_comp_total (a b : Item spec_float) :
  IEEE.isnan (relevance a) = false -> IEEE.isnan (relevance b) = false ->
  example_idx a <> example_idx b ->
  item_comp a b = true \/ item_comp b a = true.
Proof.
  intros Ha Hb Hne. rewrite !item_comp_compare.
  rewrite (SFcompare_antisym (relevance a) (relevance b)).
  destruct (SFcompare_not_nan _ _ Ha Hb) as [[] ->]; cbn; auto.
  destruct (decide (example_idx b < example_idx a)).
  - left. apply bool_decide_eq_true_2. assumption.
  - right. apply bool_decide_eq_true_2. lia.
Qed.

Lemma item_comp_trans (a b c : Item spec_float) :
  item_comp a b = true -> item_comp b c = true -> item_comp a c = true.
Proof.
  rewrite !item_comp_compare.
  destruct (SFcompare (relevance a) (relevance b)) as [[]|] eqn:Hab;
    try discriminate;
    destruct (SFcompare (relevance b) (relevance c)) as [[]|] eqn:Hbc;
    try discriminate; intros H1 H2.
  - rewrite (SFcompare_trans Eq _ _ _ Hab Hbc).
    apply bool_decide_eq_true in H1, H2. apply bool_decide_eq_true_2. lia.
  - rewrite (SFcompare_Eq_l _ _ _ Hab), Hbc. reflexivity.
  - rewrite <- (SFcompare_Eq_r _ _ _ Hbc), Hab. reflexivity.
  - rewrite (SFcompare_trans Gt _ _ _ Hab Hbc). reflexivity.
Qed.

Lemma item_comp_precedes (a b : Item spec_float) :
  item_comp a b = true -> item_precedes a b.
Proof.
  rewrite item_comp_compare. unfold item_precedes, fgt.
  cbn [feq flt IEEE.arith]. unfold SFeqb, SFltb.
  rewrite (SFcompare_antisym (relevance a) (relevance b)).
  destruct (SFcompare (relevance a) (relevance b)) as [[]|]; cbn;
    try discriminate; auto.
  intros Hidx. apply bool_decide_eq_true in Hidx. auto.
Qed.

End ItemOrder.

Section GroupOrder.
Context {F : Type} `{Arith F}.

Lemma group_comp_spec (a b : Group F) :
  group_comp a b = true <-> group_precedes a b.
Proof.
  unfold group_comp, group_precedes.
  destruct (decide _) as [Heq | Hne].
  - rewrite bool_decide_eq_true. split; [auto | intros [|[]]; [lia | assumption]].
  - rewrite bool_decide_eq_true. split; [auto | intros [|[]]; [assumption | lia]].
Qed.

Lemma group_comp_total (a b : Group F) :
  group_idx a <> group_idx b -> group_comp a b = true \/ group_comp b a = true.
Proof.
  intros Hne. rewrite !group_comp_spec. unfold group_precedes.
  destruct (lt_eq_lt_dec (example_idx (items a !!! 0))
                         (example_idx (items b !!! 0))) as [[Hlt | Heq] | Hgt];
    [auto | | auto].
  destruct (Z.lt_trichotomy (group_idx a) (group_idx b)) as [Hz | [Hz | Hz]];
    [left | contradiction | right]; right; split; auto.
Qed.

Lemma group_comp_trans (a b c : Group F) :
  group_comp a b = true -> group_comp b c = true -> group_comp a c = true.
Proof. rewrite !group_comp_spec. unfold group_precedes. lia. Qed.

End GroupOrder.

Lemma StronglySorted_impl {A} (R1 R2 : A -> A -> Prop) (l : list A) :
  (forall a b, R1 a b -> R2 a b) -> StronglySorted R1 l -> StronglySorted R2 l.
Proof.
  intros Himpl Hsorted. induction Hsorted as [|x l Hsorted IH Hx]; constructor.
  - assumption.
  - eapply Forall_impl; [exact Hx | auto].
Qed.

Lemma sum_list_with_fmap_compose {A B} (f : B -> nat) (g : A -> B) (l : list A) :
  sum_list_with f (g <$> l) = sum_list_with (fun x => f (g x)) l.
Proof. induction l as [|x l IH]; cbn; [reflexivity | rewrite IH; reflexivity]. Qed.

Lemma sum_list_with_pointwise {A} (f g : A -> nat) (l : list A) :
  (forall x, f x = g x) -> sum_list_with f l = sum_list_with g l.
Proof.
  intros Hfg. induction l as [|x l IH]; cbn; [reflexivity|].
  rewrite Hfg, IH. reflexivity.
Qed.

Lemma NoDup_fmap_eq {A B} (f : A -> B) (l : list A) (x y : A) :
  NoDup (f <$> l) -> x ∈ l -> y ∈ l -> f x = f y -> x = y.
Proof.
  induction l as [|z l IH]; intros Hnodup Hx Hy Hxy; [inversion Hx|].
  cbn in Hnodup. apply NoDup_cons in Hnodup as [Hz Hnodup].
  apply elem_of_cons in Hx as [-> | Hx]; apply elem_of_cons in Hy as [-> | Hy].
  - reflexivity.
  - contradict Hz. rewrite Hxy. apply list_elem_of_fmap_2. assumption.
  - contradict Hz. rewrite <- Hxy. apply list_elem_of_fmap_2. assumption.
  - auto.
Qed.

Section InitializeSorted.
Context `{IEEE.Libm}.

Lemma lookup_total_not_nan (label_values : list spec_float) (i : nat) :
  Forall (fun x => IEEE.isnan x = false) label_values ->
  IEEE.isnan (label_values !!! i) = false.
Proof.
  intros Hall. rewrite list_lookup_total_alt.
  destruct (label_values !! i) as [x|] eqn:Hx; cbn; [|reflexivity].
  exact (proj1 (Forall_lookup _ _) Hall i x Hx).
Qed.

(** The items of a group, once sorted, are in the order of the
    specification. *)
Lemma group_items_sorted (group_of : nat -> Z) (label_values : list spec_float)
    (n : nat) (g : Z) :
  Forall (fun x => IEEE.isnan x = false) label_values ->
  StronglySorted item_precedes
    (std_sort item_comp
       ((fun i => {| relevance := label_values !!! i; example_idx := i |}) <$>
          filter (fun i => group_of i = g) (seq 0 n))).
Proof.
  intros Hall.
  set (item := fun i : nat =>
                 {| relevance := label_values !!! i; example_idx := i |}).
  set (rows := filter (fun i => group_of i = g) (seq 0 n)).
  assert (Hrows : NoDup rows) by (apply NoDup_filter, NoDup_seq).
  apply (StronglySorted_impl (fun a b => item_comp a b = true));
    [apply item_comp_precedes|].
  apply std_sort_StronglySorted.
  - apply NoDup_fmap_2_strong; [|assumption].
    intros i j _ _ Hij. exact (f_equal example_idx Hij).
  - intros x y Hx Hy Hne.
    apply list_elem_of_fmap in Hx as (i & -> & Hi).
    apply list_elem_of_fmap in Hy as (j & -> & Hj).
    apply item_comp_total; cbn.
    + apply lookup_total_not_nan, Hall.
    + apply lookup_total_not_nan, Hall.
    + intros ->. contradiction.
  - intros x y z _ _ _. apply item_comp_trans.
Qed.

(** C5.  When [Initialize] completes on a dataset whose labels are not NaN:
    every group has items, sorted by descending relevance and then by
    descending example index; the groups are sorted by the ascending example
    index of their first item and then by ascending group identifier; and the
    groups hold [num_items_] items in all, the number of rows of the
    dataset. *)
Theorem RankingGroupsIndices_Initialize_sorted
    (dataset : VerticalDataset spec_float) (label_col_idx group_col_idx : nat)
    (label_values : list spec_float) (index : RankingGroupsIndices spec_float) :
  ColumnWithCast_NumericalColumn dataset label_col_idx = Returns label_values ->
  Forall (fun x => IEEE.isnan x = false) label_values ->
  RankingGroupsIndices_Initialize dataset label_col_idx group_col_idx =
    Returns index ->
  (forall group, group ∈ groups_ index ->
     items group <> [] /\ StronglySorted item_precedes (items group)) /\
  StronglySorted group_precedes (groups_ index) /\
  total_items (groups_ index) = num_items_ index /\
  num_items_ index = nrow dataset.
Proof.
  intros Hlabels Hall Hinit. unfold RankingGroupsIndices_Initialize in Hinit.
  rewrite Hlabels in Hinit. cbn [mbind outcome_bind] in Hinit.
  destruct (fill_index _ _ _ _) as [tmp_groups|] eqn:Hfill; [|discriminate].
  cbn [mbind outcome_bind] in Hinit.
  destruct (sort_groups_items _) as [groups|] eqn:Hsort; [|discriminate].
  cbn [mbind outcome_bind mret outcome_ret] in Hinit. injection Hinit as <-.
  cbn [groups_ num_items_].
  apply fill_index_Returns in Hfill as (group_of & -> & _).
  apply sort_groups_items_Returns in Hsort as [Hgroups _].
  cbn [app] in Hgroups. subst groups.
  set (tmp := fill_groups group_of label_values (nrow dataset)).
  assert (Hentry : forall g l, (g, l) ∈ map_to_list tmp ->
            l <> [] /\
            l = (fun i => {| relevance := label_values !!! i; example_idx := i |})
                  <$> filter (fun i => group_of i = g) (seq 0 (nrow dataset))).
  { intros g l Hgl. apply elem_of_map_to_list in Hgl. split.
    - exact (fill_groups_nonempty group_of label_values (nrow dataset) g l Hgl).
    - pose proof (fill_groups_lookup group_of label_values (nrow dataset) g) as Hl.
      fold tmp in Hl. rewrite Hgl in Hl. exact Hl. }
  split; [|split; [|split; [|reflexivity]]].
  - intros group Hgroup. rewrite std_sort_Permutation in Hgroup.
    apply list_elem_of_fmap in Hgroup as ([g l] & -> & Hgl).
    destruct (Hentry g l Hgl) as [Hne ->]. unfold make_group. cbn [items snd].
    split.
    + intros Hnil. apply Hne.
      apply (f_equal length) in Hnil.
      rewrite (Permutation_length (std_sort_Permutation _ _)) in Hnil.
      apply length_zero_iff_nil. exact Hnil.
    + apply group_items_sorted. assumption.
  - apply (StronglySorted_impl (fun a b => group_comp a b = true));
      [intros a b; apply group_comp_spec|].
    assert (Hkeys : NoDup (group_idx <$> (make_group <$> map_to_list tmp))).
    { rewrite <- list_fmap_compose.
      exact (NoDup_fst_map_to_list tmp). }
    apply std_sort_StronglySorted.
    + eapply NoDup_fmap_1. exact Hkeys.
    + intros a b Ha Hb Hne. apply group_comp_total.
      intros Heq. apply Hne. eapply NoDup_fmap_eq; eassumption.
    + intros a b c _ _ _. apply group_comp_trans.
  - unfold total_items. rewrite std_sort_Permutation.
    rewrite sum_list_with_fmap_compose.
    rewrite <- (fill_groups_total group_of label_values (nrow dataset)).
    fold tmp. apply sum_list_with_pointwise.
    intros [g l]. unfold make_group. cbn [items snd].
    apply Permutation_length, std_sort_Permutation.
Qed.

End InitializeSorted.

(** ** The embedding on the scenarios of the specification *)

Section Scenarios.
Context `{IEEE.Libm} `{Externals spec_float}.

Import Examples (one, zero).

(** S1: labels [1, 2, 2, 1], weights 1: the initial prediction is
    [log (0.5 / 0.5) = 0]. *)
Example S1_initial_predictions :
  BinomialLogLikelihoodLoss_InitialPredictions
    {| nrow := 4; columns := [CategoricalColumn [1; 2; 2; 1]%Z] |} 0
    [one; one; one; one] = Returns (Value [zero]).
Proof. reflexivity. Qed.

(** The boundaries: no positive label, only positive labels. *)
Example initial_predictions_no_positive :
  BinomialLogLikelihoodLoss_InitialPredictions
    {| nrow := 2; columns := [CategoricalColumn [1; 1]%Z] |} 0 [one; one] =
  Returns (Value [S754_finite true 16777215 104]).
Proof. reflexivity. Qed.

Example initial_predictions_all_positive :
  BinomialLogLikelihoodLoss_InitialPredictions
    {| nrow := 2; columns := [CategoricalColumn [2; 2]%Z] |} 0 [one; one] =
  Returns (Value [S754_finite false 16777215 104]).
Proof. reflexivity. Qed.

(** S1: the leaf of a tree with a single leaf is [0 / 1 = 0]. *)
Example S1_leaf (node : Node spec_float) :
  exists leaf,
    BinomialLogLikelihoodLoss_SetLeaf
      {| shrinkage := one; l1_regularization := zero;
         l2_regularization := zero;
         clamp_leaf_logit := IEEE.sf_of_int binary32 5;
         use_hessian_gain := false; lambda_loss := one;
         gradient_use_non_normalized_dcg := false |}
      {| nrow := 4; columns := [CategoricalColumn [1; 2; 2; 1]%Z] |}
      [0; 1; 2; 3] [one; one; one; one] [zero; zero; zero; zero] 0 node =
      Returns leaf /\
    top_value (regressor leaf) = zero.
Proof. eexists. split; reflexivity. Qed.

(** S2: labels [1, 2, 3], weights 1: the initial prediction of the squared
    error is [2]. *)
Example S2_initial_predictions :
  MeanSquaredErrorLoss_InitialPredictions
    {| nrow := 3;
       columns := [NumericalColumn [one; IEEE.sf_of_int binary32 2;
                                    IEEE.sf_of_int binary32 3]] |} 0
    [one; one; one] = Returns (Value [IEEE.sf_of_int binary32 2]).
Proof. reflexivity. Qed.

(** S2: labels [1, 2, 3], predictions [2, 2, 2], weights 1: the RMSE is
    the binary32 number nearest to [sqrt (2 / 3)], [0x3f5105ec]. *)
Example S2_rmse :
  RMSE [one; IEEE.sf_of_int binary32 2; IEEE.sf_of_int binary32 3]
    [IEEE.sf_of_int binary32 2; IEEE.sf_of_int binary32 2;
     IEEE.sf_of_int binary32 2] [one; one; one] =
  S754_finite false 13698540 (-24).
Proof. vm_compute. reflexivity. Qed.

(** Binomial inference on an accumulator of [0]: both classes have
    probability [0.5] and the class [1] is predicted. *)
Example binomial_inference_at_zero :
  Predict
    {| task := CLASSIFICATION; loss_ := BINOMIAL_LOG_LIKELIHOOD;
       initial_predictions_ := [zero]; num_trees_per_iter_ := 1;
       decision_trees_ := [Fixture.stump zero] |}
    {| nrow := 1; columns := [] |} 0 type_not_set =
  Returns (classification
             {| value := 1;
                distribution :=
                  {| counts := [zero; literal binary32 1 2; literal binary32 1 2];
                     sum := one |} |}).
Proof. reflexivity. Qed.

(** A tree whose leaves are [0] leaves the predictions as they are. *)
Example update_predictions_zero_leaf :
  BinomialLogLikelihoodLoss_UpdatePredictions [Fixture.stump zero]
    {| nrow := 2; columns := [] |} [one; IEEE.sf_of_int binary32 2] None =
  (OkStatus, [one; IEEE.sf_of_int binary32 2], None).
Proof. reflexivity. Qed.

End Scenarios.

(** S2 under exact arithmetic: the RMSE is [sqrt (2 / 3)]. *)
Example S2_rmse_exact :
  RMSE [1; 2; 3]%R [2; 2; 2]%R [1; 1; 1]%R = sqrt (2 / 3).
Proof. unfold RMSE. cbn. f_equal. lra. Qed.

(** ** The theorems on small inputs *)

Lemma BinomialLogLikelihoodLoss_SetLeaf_value_example :
  ColumnWithCast_CategoricalColumn Examples.exact_binary_dataset 0 =
    Returns [1; 2]%Z /\
  (0 <= clamp_leaf_logit Examples.exact_config)%R /\
  exists leaf,
    BinomialLogLikelihoodLoss_SetLeaf (H0 := Fixture.externals)
      Examples.exact_config Examples.exact_binary_dataset [0; 1]
      [1; 1]%R [0; 0]%R 0
      {| regressor := {| top_value := 0%R; sum_gradients := None;
                         sum_hessians := None; sum_weights := None |} |} =
      Returns leaf /\
    top_value (regressor leaf) =
      binomial_leaf_value Examples.exact_config [1; 2]%Z [1; 1]%R [0; 0]%R [0; 1].
Proof.
  split; [reflexivity|]. split; [cbn; lra|].
  apply (BinomialLogLikelihoodLoss_SetLeaf_value (H := Fixture.externals)).
  - reflexivity.
  - cbn. lra.
Defined.

Lemma Predict_multinomial_equal_logits_exact_example :
  loss_ Examples.exact_multinomial_model = MULTINOMIAL_LOG_LIKELIHOOD /\
  (multinomial_accumulator Examples.exact_multinomial_model
     {| nrow := 1; columns := [] |} 0).1 = replicate 2 3%R /\
  multinomial_distribution_is_uniform Examples.exact_multinomial_model
    {| nrow := 1; columns := [] |} 0 type_not_set.
Proof.
  assert (Hacc : (multinomial_accumulator Examples.exact_multinomial_model
                    {| nrow := 1; columns := [] |} 0).1 = replicate 2 3%R).
  { cbn. rewrite !Rplus_0_l. reflexivity. }
  split; [reflexivity|]. split; [exact Hacc|].
  apply (Predict_multinomial_equal_logits_exact
           Examples.exact_multinomial_model _ 0 type_not_set 3%R).
  - reflexivity.
  - exact Hacc.
Defined.

Lemma Predict_multinomial_equal_logits_binary32_example :
  normal32 (f_exp (Arith := IEEE.arith (H := Fixture.libm)) binary32 (S754_zero false)) /\
  (INR 2 * SF2R (f_exp (Arith := IEEE.arith (H := Fixture.libm)) binary32 (S754_zero false))
     <= powerRZ 2 124)%R /\
  exists classes v,
    Predict (H := IEEE.arith (H := Fixture.libm))
      (Samples.equal_leaves_model 2 (S754_zero false))
      {| nrow := 1; columns := [] |} 0 type_not_set =
      Returns (classification classes) /\
    forall k, k < 2 ->
      counts (distribution classes) !! (k + 1) = Some v /\
      (Rabs (INR 2 * SF2R v - 1) <= (INR 2 + 1) / 2097152)%R.
Proof.
  assert (Hnormal : normal32 (S754_finite false 8388608 (-23))).
  { exists 8388608%positive, (-23)%Z. repeat split; (reflexivity || lia). }
  assert (Hrange : (INR 2 * SF2R (S754_finite false 8388608 (-23))
                      <= powerRZ 2 124)%R).
  { rewrite SF2R_positive. change (-23)%Z with (Z.opp 23).
    rewrite powerRZ_neg', (powerRZ2_IZR 23) by lia.
    change (IZR (2 ^ 23)) with 8388608%R.
    pose proof (powerRZ2_le 1 124 ltac:(lia)) as Hle.
    rewrite (powerRZ2_IZR 1) in Hle by lia.
    change (IZR (2 ^ 1)) with 2%R in Hle. change (INR 2) with (1 + 1)%R.
    lra. }
  split; [exact Hnormal|]. split; [exact Hrange|].
  apply (Predict_multinomial_equal_logits_binary32 (H := Fixture.libm)
           (Samples.equal_leaves_model 2 (S754_zero false))
           {| nrow := 1; columns := [] |} 0 type_not_set (S754_zero false)).
  - reflexivity.
  - reflexivity.
  - cbn. lia.
  - exact Hnormal.
  - exact Hrange.
Defined.

Lemma RankingGroupsIndices_Initialize_sorted_example :
  let index := Examples.ranking_index in
  ColumnWithCast_NumericalColumn Examples.ranking_dataset 0 =
    Returns [IEEE.sf_of_int binary32 1; IEEE.sf_of_int binary32 2;
             IEEE.sf_of_int binary32 2; IEEE.sf_of_int binary32 0] /\
  Forall (fun x => IEEE.isnan x = false)
    [IEEE.sf_of_int binary32 1; IEEE.sf_of_int binary32 2;
     IEEE.sf_of_int binary32 2; IEEE.sf_of_int binary32 0] /\
  RankingGroupsIndices_Initialize (H := IEEE.arith (H := Fixture.libm))
    Examples.ranking_dataset 0 1 = Returns index /\
  (forall group, group ∈ groups_ index ->
     items group <> [] /\
     StronglySorted (item_precedes (H := IEEE.arith (H := Fixture.libm)))
       (items group)) /\
  StronglySorted (group_precedes (H := IEEE.arith (H := Fixture.libm)))
    (groups_ index) /\
  total_items (groups_ index) = num_items_ index /\
  num_items_ index = nrow Examples.ranking_dataset.
Proof.
  cbn zeta.
  assert (Hvalues : Forall (fun x => IEEE.isnan x = false)
            [IEEE.sf_of_int binary32 1; IEEE.sf_of_int binary32 2;
             IEEE.sf_of_int binary32 2; IEEE.sf_of_int binary32 0])
    by (repeat constructor).
  assert (Hinit : RankingGroupsIndices_Initialize
                    (H := IEEE.arith (H := Fixture.libm))
                    Examples.ranking_dataset 0 1 =
                  Returns Examples.ranking_index)
    by (vm_compute; reflexivity).
  split; [reflexivity|]. split; [exact Hvalues|]. split; [exact Hinit|].
  exact (RankingGroupsIndices_Initialize_sorted (H := Fixture.libm)
           Examples.ranking_dataset 0 1 _ Examples.ranking_index
           eq_refl Hvalues Hinit).
Defined.

Lemma Initialize_large_group_is_fatal_example :
  2000 < ranking_group_size Examples.dataset_of_2001_rows 1 7%Z /\
  (exists message,
     RankingGroupsIndices_Initialize (H := IEEE.arith (H := Fixture.libm))
       Examples.dataset_of_2001_rows 0 1 = Fatal message) /\
  (forall index,
     RankingGroupsIndices_Initialize (H := IEEE.arith (H := Fixture.libm))
       Examples.dataset_of_2001_rows 0 1 <> Returns index).
Proof.
  assert (Hsize : 2000 < ranking_group_size Examples.dataset_of_2001_rows 1 7%Z)
    by (apply Nat.ltb_lt; vm_compute; reflexivity).
  split; [exact Hsize|].
  exact (Initialize_large_group_is_fatal (H := IEEE.arith (H := Fixture.libm))
           Examples.dataset_of_2001_rows 0 1 7%Z Hsize).
Defined.

Lemma Loss_on_zero_weights_is_NaN_example :
  let loss := MeanSquaredErrorLoss RANKING in
  let predictions := replicate 4 (IEEE.sf_of_int binary32 1) in
  Forall is_zero Examples.zero_weights /\
  label_column_readable loss Examples.ranking_dataset 0 /\
  (uses_ranking_index loss -> is_Some (Some Examples.ranking_index)) /\
  exists loss_after secondary_after,
    AbstractLoss_Loss (H := IEEE.arith (H := Fixture.libm))
      (H0 := Fixture.externals (H := IEEE.arith (H := Fixture.libm)))
      loss Examples.ranking_dataset 0 predictions Examples.zero_weights
      (Some Examples.ranking_index) (S754_zero false) [] =
      Returns (OkStatus, loss_after, secondary_after) /\
    isnan loss_after = true /\
    forall i, i < length (AbstractLoss_SecondaryMetricNames loss) ->
      exists v, secondary_after !! i = Some v /\ isnan v = true.
Proof.
  cbn zeta.
  assert (Hweights : Forall is_zero Examples.zero_weights)
    by (repeat constructor).
  assert (Hcolumn : label_column_readable (MeanSquaredErrorLoss RANKING)
                      Examples.ranking_dataset 0)
    by (eexists; reflexivity).
  assert (Hindex : uses_ranking_index (MeanSquaredErrorLoss RANKING) ->
                   is_Some (Some Examples.ranking_index))
    by (intros _; eexists; reflexivity).
  split; [exact Hweights|]. split; [exact Hcolumn|]. split; [exact Hindex|].
  exact (Loss_on_zero_weights_is_NaN (H := Fixture.libm)
           (H0 := Fixture.externals (H := IEEE.arith (H := Fixture.libm)))
           (MeanSquaredErrorLoss RANKING) Examples.ranking_dataset 0
           (replicate 4 (IEEE.sf_of_int binary32 1)) Examples.zero_weights
           (Some Examples.ranking_index) (S754_zero false) []
           Hweights Hcolumn Hindex).
Defined.

Lemma NDCGLoss_UpdateGradients_group_sum_zero_example :
  NoDup (all_example_indices Examples.exact_ranking_index) /\
  Forall (fun e => e < length (gradient (Examples.exact_gradients !!! 0)))
         (all_example_indices Examples.exact_ranking_index) /\
  let '(status, gradients_after, _) :=
    NDCGLoss_UpdateGradients (H0 := Fixture.externals)
      Examples.exact_config [3; 1; 2; 0]%R Examples.exact_ranking_index
      Examples.exact_gradients tt in
  status = OkStatus /\
  forall group, group ∈ groups_ Examples.exact_ranking_index ->
    gradient_sum (gradient (gradients_after !!! 0)) (example_indices group) = 0%R.
Proof.
  assert (Hnodup : NoDup (all_example_indices Examples.exact_ranking_index)).
  { apply (bool_decide_unpack _). vm_compute. exact I. }
  assert (Hrange :
    Forall (fun e => e < length (gradient (Examples.exact_gradients !!! 0)))
           (all_example_indices Examples.exact_ranking_index)).
  { cbn. repeat constructor. }
  split; [exact Hnodup|]. split; [exact Hrange|].
  exact (NDCGLoss_UpdateGradients_group_sum_zero (H := Fixture.externals)
           Examples.exact_config [3; 1; 2; 0]%R Examples.exact_ranking_index
           Examples.exact_gradients tt Hnodup Hrange).
Defined.

(** * Further properties of the code *)

(** ** [CreateLoss] *)

(** X1.  [CreateLoss] returns a loss in exactly five situations: the
    binomial loss for a classification with three unique label values, the
    squared error for a regression or a ranking, the multinomial loss for a
    classification (its dimension is the number of unique values minus one),
    and the two NDCG losses for a ranking. *)
Theorem CreateLoss_returns_a_loss_iff (loss : Loss) (task : Task)
    (label_column : proto_Column) (loss_imp : LossImp) :
  CreateLoss loss task label_column = Returns (Value loss_imp) <->
  (loss = BINOMIAL_LOG_LIKELIHOOD /\ task = CLASSIFICATION /\
   number_of_unique_values label_column = 3%Z /\
   loss_imp = BinomialLogLikelihoodLoss) \/
  (loss = SQUARED_ERROR /\ (task = REGRESSION \/ task = RANKING) /\
   loss_imp = MeanSquaredErrorLoss task) \/
  (loss = MULTINOMIAL_LOG_LIKELIHOOD /\ task = CLASSIFICATION /\
   loss_imp = MultinomialLogLikelihoodLoss
                (static_cast_int (number_of_unique_values label_column - 1))) \/
  (loss = LAMBDA_MART_NDCG5 /\ task = RANKING /\ loss_imp = NDCGLoss) \/
  (loss = XE_NDCG_MART /\ task = RANKING /\ loss_imp = CrossEntropyNDCGLoss).
Proof.
  unfold CreateLoss, BinomialLogLikelihoodLoss_Status,
    MeanSquaredErrorLoss_Status, MultinomialLogLikelihoodLoss_Status,
    NDCGLoss_Status, CrossEntropyNDCGLoss_Status, MeanSquaredErrorLoss_new,
    MultinomialLogLikelihoodLoss_new.
  destruct loss, task; cbn;
    repeat case_decide; cbn; split; intros Hcase;
    repeat match goal with
           | H : _ \/ _ |- _ => destruct H
           | H : _ /\ _ |- _ => destruct H
           end;
    try discriminate; try congruence; try tauto;
    try (inversion Hcase; subst; tauto).
  all: try (inversion Hcase; subst;
            first [ left; tauto
                  | right; left; tauto
                  | right; right; left; tauto
                  | right; right; right; left; tauto
                  | right; right; right; right; tauto ]).
Qed.

(** X2.  Every loss but the squared error answers an incompatible task with
    a status; [CreateLoss] for the squared error never returns an error
    status: on a task that is neither a regression nor a ranking the
    constructor ends the process before [Status] is asked. *)
Theorem CreateLoss_SquaredError_is_fatal_not_failed (loss : Loss) (task : Task)
    (label_column : proto_Column) :
  (loss <> SQUARED_ERROR ->
   exists result, CreateLoss loss task label_column = Returns result) /\
  (loss = SQUARED_ERROR ->
   (forall status, CreateLoss loss task label_column <> Returns (Failed status)) /\
   ((exists message, CreateLoss loss task label_column = Fatal message) <->
    task <> REGRESSION /\ task <> RANKING)).
Proof.
  split.
  - intros Hloss. destruct loss; try congruence; cbn; eexists; reflexivity.
  - intros ->. unfold CreateLoss, MeanSquaredErrorLoss_new, MeanSquaredErrorLoss_Status.
    destruct task; cbn; (split; [intros status; discriminate|]);
      split; try (intros [message Hm]; discriminate);
      try (intros [H1 H2]; congruence);
      try (intros _; split; discriminate);
      try (intros _; eexists; reflexivity).
Qed.

(** ** The initial predictions and the trees of an iteration *)

(** X3.  Whatever loss it is, the vector [InitialPredictions] returns has
    one entry for each tree that [UpdatePredictions] of the same loss expects
    in an iteration. *)
Theorem InitialPredictions_one_per_tree {F : Type} `{Arith F}
    (loss : LossImp) (dataset : VerticalDataset F) (label_col_idx : nat)
    (weights initial_predictions : list F) :
  AbstractLoss_InitialPredictions loss dataset label_col_idx weights =
    Returns (Value initial_predictions) ->
  Z.of_nat (length initial_predictions) = expected_number_of_trees loss.
Proof.
  destruct loss as [|task_|dimension_| |]; cbn.
  - unfold BinomialLogLikelihoodLoss_InitialPredictions.
    destruct (ColumnWithCast_CategoricalColumn dataset label_col_idx);
      cbn; [|discriminate].
    destruct (foldl _ _ _) as [positive total].
    repeat case_match; intros [= <-]; reflexivity.
  - unfold MeanSquaredErrorLoss_InitialPredictions.
    destruct (ColumnWithCast_NumericalColumn dataset label_col_idx);
      cbn; [|discriminate].
    destruct (foldl _ _ _) as [values total].
    case_match; [discriminate|]. intros [= <-]. reflexivity.
  - unfold MultinomialLogLikelihoodLoss_InitialPredictions.
    case_decide; [discriminate|]. intros [= <-].
    rewrite length_replicate. lia.
  - intros [= <-]. reflexivity.
  - intros [= <-]. reflexivity.
Qed.

(** ** [Validate] *)

Section ValidateProperties.
Context {F : Type} `{Arith F}.

Lemma RETURN_IF_ERROR_ok (status rest : Status) :
  RETURN_IF_ERROR status rest = OkStatus <-> status = OkStatus /\ rest = OkStatus.
Proof. destruct status; cbn; split; intros; try tauto; try discriminate. all: tauto. Qed.

Lemma trees_status_ok (DecisionTree_Validate : DecisionTree F -> Status) trees :
  foldr (fun tree rest => RETURN_IF_ERROR (DecisionTree_Validate tree) rest)
        OkStatus trees = OkStatus <->
  Forall (fun tree => DecisionTree_Validate tree = OkStatus) trees.
Proof.
  induction trees as [|tree trees IH]; cbn.
  - split; [constructor|reflexivity].
  - rewrite RETURN_IF_ERROR_ok, IH, Forall_cons. reflexivity.
Qed.

(** What [Validate] has checked when it answers [OkStatus]. *)
Lemma Validate_OkStatus_inv
    (AbstractModel_Validate : Status)
    (DecisionTree_Validate : DecisionTree F -> Status)
    (abstract_model : AbstractModelData)
    (model : GradientBoostedTreesModel F) :
  GradientBoostedTreesModel_Validate AbstractModel_Validate
    DecisionTree_Validate abstract_model model = Returns OkStatus ->
  AbstractModel_Validate = OkStatus /\
  Forall (fun tree => DecisionTree_Validate tree = OkStatus)
         (decision_trees_ model) /\
  num_trees_per_iter_ model <> 0 /\
  length (decision_trees_ model) `mod` num_trees_per_iter_ model = 0 /\
  length (initial_predictions_ model) = num_trees_per_iter_ model /\
  match task model with
  | CLASSIFICATION =>
      (loss_ model = BINOMIAL_LOG_LIKELIHOOD /\ num_trees_per_iter_ model = 1) \/
      (loss_ model = MULTINOMIAL_LOG_LIKELIHOOD /\
       Z.of_nat (num_trees_per_iter_ model) =
       static_cast_int
         (number_of_unique_values (label_col_spec abstract_model) - 1))
  | REGRESSION => num_trees_per_iter_ model = 1
  | RANKING =>
      num_trees_per_iter_ model = 1 /\
      ranking_group_col_idx abstract_model <> (-1)%Z
  | UNDEFINED => False
  end.
Proof.
  unfold GradientBoostedTreesModel_Validate.
  rewrite <- trees_status_ok.
  destruct (RETURN_IF_ERROR _ _) eqn:Hfirst; [|discriminate].
  apply RETURN_IF_ERROR_ok in Hfirst as [Ha Ht].
  case_decide as HK; [discriminate|].
  case_decide as Hmod; [discriminate|].
  assert (Hmod' : length (decision_trees_ model) `mod` num_trees_per_iter_ model = 0)
    by (destruct (decide (length (decision_trees_ model)
                            `mod` num_trees_per_iter_ model = 0)); tauto).
  destruct (task model), (loss_ model); cbn;
    repeat case_decide; try discriminate; intros _;
    repeat split; auto; try lia;
    solve [left; split; auto; lia | right; split; auto; lia].
Qed.

(** X4.  [Validate] accepts a model exactly when the two outside
    validations pass, the number of trees is a multiple of the (non-zero)
    number of trees of an iteration, there are as many initial predictions as
    trees in an iteration, and this number is the one of the task: one for a
    regression, one for a ranking that has a group column, one for a
    classification with the binomial loss, and the number of label values
    minus one for a classification with the multinomial loss.  The loss of a
    regression or of a ranking is not looked at. *)
Theorem Validate_accepts_iff
    (AbstractModel_Validate : Status)
    (DecisionTree_Validate : DecisionTree F -> Status)
    (abstract_model : AbstractModelData)
    (model : GradientBoostedTreesModel F) :
  GradientBoostedTreesModel_Validate AbstractModel_Validate
    DecisionTree_Validate abstract_model model = Returns OkStatus <->
  AbstractModel_Validate = OkStatus /\
  Forall (fun tree => DecisionTree_Validate tree = OkStatus)
         (decision_trees_ model) /\
  num_trees_per_iter_ model <> 0 /\
  length (decision_trees_ model) `mod` num_trees_per_iter_ model = 0 /\
  length (initial_predictions_ model) = num_trees_per_iter_ model /\
  match task model with
  | CLASSIFICATION =>
      (loss_ model = BINOMIAL_LOG_LIKELIHOOD /\ num_trees_per_iter_ model = 1) \/
      (loss_ model = MULTINOMIAL_LOG_LIKELIHOOD /\
       Z.of_nat (num_trees_per_iter_ model) =
       static_cast_int
         (number_of_unique_values (label_col_spec abstract_model) - 1))
  | REGRESSION => num_trees_per_iter_ model = 1
  | RANKING =>
      num_trees_per_iter_ model = 1 /\
      ranking_group_col_idx abstract_model <> (-1)%Z
  | UNDEFINED => False
  end.
Proof.
  split; [apply Validate_OkStatus_inv|].
  intros (Ha & Ht & HK & Hmod & Hlen & Htask).
  unfold GradientBoostedTreesModel_Validate.
  apply trees_status_ok in Ht. rewrite Ha, Ht. cbn [RETURN_IF_ERROR].
  rewrite decide_False by exact HK.
  rewrite decide_False by (intros Hne; apply Hne, Hmod).
  destruct (task model), (loss_ model); cbn; try tauto;
    repeat match goal with
           | H : _ \/ _ |- _ => destruct H
           | H : _ /\ _ |- _ => destruct H
           end; try discriminate;
    repeat case_decide; try reflexivity; try congruence; lia.
Qed.

(** After the trees of whole iterations the multinomial accumulator is
    back on its first cell. *)
Lemma add_top_value_to_cell_idx (K : nat) (leaf : DecisionTree F -> Node F)
    (trees : list (DecisionTree F)) (accumulator : list F) (idx : nat) :
  0 < K -> idx < K ->
  (foldl (fun st tree => add_top_value_to_cell K (leaf tree) st)
         (accumulator, idx) trees).2 = (idx + length trees) `mod` K.
Proof.
  intros HK. revert accumulator idx.
  induction trees as [|tree trees IH]; intros accumulator idx Hidx; cbn [foldl length].
  - cbn. rewrite Nat.add_0_r, Nat.mod_small; auto.
  - unfold add_top_value_to_cell at 2. case_decide as Hlast.
    + rewrite IH by lia. replace (idx + S (length trees)) with (length trees + 1 * K) by lia.
      rewrite Nat.Div0.mod_add. reflexivity.
    + rewrite IH by lia. f_equal. lia.
Qed.

(** X5.  On a model that [Validate] accepts and whose loss is set, neither
    [Predict] on a row of a dataset nor [Predict] on an example ends the
    process: the task of a squared error model is a regression or a ranking,
    and the check on the cell of the multinomial accumulator passes. *)
Theorem Validated_model_Predict_returns
    (AbstractModel_Validate : Status)
    (DecisionTree_Validate : DecisionTree F -> Status)
    (abstract_model : AbstractModelData)
    (model : GradientBoostedTreesModel F)
    (dataset : VerticalDataset F) (row_idx : nat) (example : Example F)
    (prediction : Prediction F) :
  GradientBoostedTreesModel_Validate AbstractModel_Validate
    DecisionTree_Validate abstract_model model = Returns OkStatus ->
  loss_ model <> DEFAULT ->
  (exists result, Predict model dataset row_idx prediction = Returns result) /\
  (exists result, Predict_Example model example prediction = Returns result).
Proof.
  intros Hvalid Hloss.
  apply Validate_OkStatus_inv in Hvalid as (_ & _ & HK & Hmod & _ & Htask).
  unfold Predict, Predict_Example.
  destruct (loss_ model) eqn:Hl; try congruence.
  - split; eexists; reflexivity.
  - split; [|eexists; reflexivity].
    destruct (task model); try tauto;
      repeat case_decide; try congruence; try (eexists; reflexivity).
    destruct Htask as [[? _]|[? _]]; discriminate.
  - split.
    + destruct (multinomial_accumulator model dataset row_idx) as [accumulator idx].
      destruct (exp_loop _ _ _) as [sum_exp cells].
      destruct (normalize_loop _ _ _) as [[highest idx'] cells'].
      eexists; reflexivity.
    + pose proof (add_top_value_to_cell_idx (num_trees_per_iter_ model)
                    (fun tree => GetLeaf_Example tree example)
                    (decision_trees_ model)
                    (replicate (num_trees_per_iter_ model) (of_int binary32 0)) 0
                    ltac:(lia) ltac:(lia)) as Hidx.
      unfold multinomial_accumulator_Example, CallOnAllLeafs_Example.
      destruct (foldl _ _ _) as [accumulator idx]. cbn in Hidx.
      rewrite Hmod in Hidx. subst idx.
      rewrite decide_True by reflexivity.
      destruct (exp_loop _ _ _) as [sum_exp cells].
      destruct (normalize_loop _ _ _) as [[highest idx'] cells'].
      eexists; reflexivity.
  - split; eexists; reflexivity.
  - split; eexists; reflexivity.
Qed.

End ValidateProperties.

(** ** Inference: the two entry points, the binomial and the multinomial case *)

Lemma foldl_ext_Forall {A B} (f g : A -> B -> A) (l : list B) (a : A) :
  Forall (fun x => forall a, f a x = g a x) l -> foldl f a l = foldl g a l.
Proof.
  intros Hl. revert a. induction Hl as [|x l Hx _ IH]; intros a; cbn;
    [reflexivity|]. rewrite Hx. apply IH.
Qed.

Section InferenceEntryPoints.
Context {F : Type} `{Arith F}.

Lemma CallOnAllLeafs_agree {S} (model : GradientBoostedTreesModel F)
    dataset row_idx example (callback : Node F -> S -> S) (captured : S) :
  Forall (fun tree => GetLeaf tree dataset row_idx = GetLeaf_Example tree example)
         (decision_trees_ model) ->
  CallOnAllLeafs model dataset row_idx callback captured =
  CallOnAllLeafs_Example model example callback captured.
Proof.
  intros Hleaves. unfold CallOnAllLeafs, CallOnAllLeafs_Example.
  apply foldl_ext_Forall. eapply Forall_impl; [exact Hleaves|].
  cbn. intros tree -> st. reflexivity.
Qed.

(** X6.  When every tree routes the row of the dataset and the example to
    the same leaf, the two overloads of [Predict] return the same prediction
    for the binomial loss, the two NDCG losses, an unset loss (both end the
    process) and the squared error of a regression. *)
Theorem Predict_overloads_agree (model : GradientBoostedTreesModel F)
    (dataset : VerticalDataset F) (row_idx : nat) (example : Example F)
    (prediction : Prediction F) :
  Forall (fun tree => GetLeaf tree dataset row_idx = GetLeaf_Example tree example)
         (decision_trees_ model) ->
  loss_ model <> MULTINOMIAL_LOG_LIKELIHOOD ->
  (loss_ model = SQUARED_ERROR -> task model = REGRESSION) ->
  Predict model dataset row_idx prediction =
  Predict_Example model example prediction.
Proof.
  intros Hleaves Hloss Htask. unfold Predict, Predict_Example.
  assert (Hsum : sum_of_leaves model dataset row_idx =
                 sum_of_leaves_Example model example)
    by (apply CallOnAllLeafs_agree; assumption).
  destruct (loss_ model); try congruence; rewrite ?Hsum; try reflexivity.
  rewrite Htask by reflexivity. reflexivity.
Qed.

End InferenceEntryPoints.

Section HighestCell.
Context {F : Type} `{Arith F}.

(** The second loop of the multinomial case reads a cell before it
    overwrites it: the highest cell it finds is the highest cell of the
    counts it was given. *)
Lemma normalize_loop_highest_from (normalization : F) (start n : nat)
    (highest_cell_value : F) (highest_cell_idx : nat) (cells orig : list F) :
  (forall i, start <= i -> cells !!! (i + 1) = orig !!! (i + 1)) ->
  (foldl (fun '(highest_cell_value, highest_cell_idx, counts) accumulator_idx =>
            let value := counts !!! (accumulator_idx + 1) in
            let '(highest_cell_value, highest_cell_idx) :=
              if fgt value highest_cell_value then (value, accumulator_idx)
              else (highest_cell_value, highest_cell_idx) in
            (highest_cell_value, highest_cell_idx,
             <[accumulator_idx + 1 := fmul binary32 value normalization]> counts))
         (highest_cell_value, highest_cell_idx, cells) (seq start n)).1 =
  foldl (fun '(highest_cell_value, highest_cell_idx) accumulator_idx =>
           if fgt (orig !!! (accumulator_idx + 1)) highest_cell_value
           then (orig !!! (accumulator_idx + 1), accumulator_idx)
           else (highest_cell_value, highest_cell_idx))
        (highest_cell_value, highest_cell_idx) (seq start n).
Proof.
  revert start highest_cell_value highest_cell_idx cells.
  induction n as [|n IH]; intros start hv hi cells Hcells; cbn [seq foldl];
    [reflexivity|].
  rewrite (Hcells start) by lia.
  destruct (fgt (orig !!! (start + 1)) hv); apply IH; intros i Hi;
    (rewrite list_lookup_total_insert_ne by lia; apply Hcells; lia).
Qed.

Lemma normalize_loop_highest (normalization : F) (n : nat)
    (highest_cell_value : F) (highest_cell_idx : nat) (cells : list F) :
  (normalize_loop normalization n (highest_cell_value, highest_cell_idx, cells)).1 =
  foldl (fun '(highest_cell_value, highest_cell_idx) accumulator_idx =>
           if fgt (cells !!! (accumulator_idx + 1)) highest_cell_value
           then (cells !!! (accumulator_idx + 1), accumulator_idx)
           else (highest_cell_value, highest_cell_idx))
        (highest_cell_value, highest_cell_idx) (seq 0 n).
Proof. apply normalize_loop_highest_from. reflexivity. Qed.

End HighestCell.

Section InferenceExact.
Local Open Scope R_scope.

Lemma foldl_Rsum (f : nat -> R) (l : list nat) (s : R) :
  foldl (fun s i => s + f i) s l = s + Rsum f l.
Proof.
  revert s. induction l as [|i l IH]; intros s; cbn.
  - lra.
  - rewrite IH. unfold Rsum. cbn. lra.
Qed.

Lemma Rsum_ext_elem (f g : nat -> R) (l : list nat) :
  (forall i, i ∈ l -> f i = g i) -> Rsum f l = Rsum g l.
Proof.
  induction l as [|i l IH]; intros Hfg; [reflexivity|].
  unfold Rsum in *. cbn. rewrite Hfg by left. rewrite IH; [reflexivity|].
  intros j Hj. apply Hfg. right. exact Hj.
Qed.

Lemma Rsum_scale (f : nat -> R) (c : R) (l : list nat) :
  Rsum (fun i => f i * c) l = Rsum f l * c.
Proof.
  induction l as [|i l IH]; unfold Rsum in *; cbn; [lra|]. rewrite IH. lra.
Qed.

Lemma Rsum_pos (f : nat -> R) (l : list nat) :
  l <> [] -> (forall i, 0 < f i) -> 0 < Rsum f l.
Proof.
  intros Hl Hf. destruct l as [|i l]; [congruence|]. clear Hl.
  revert i. induction l as [|j l IH]; intros i; unfold Rsum in *; cbn.
  - specialize (Hf i). lra.
  - specialize (IH j). specialize (Hf i). cbn in IH. lra.
Qed.

(** What [Predict] computes in the multinomial case, under exact
    arithmetic. *)
Lemma Predict_multinomial_exact_counts
    (model : GradientBoostedTreesModel R) (dataset : VerticalDataset R)
    (row_idx : nat) (prediction : Prediction R) :
  loss_ model = MULTINOMIAL_LOG_LIKELIHOOD ->
  let K := num_trees_per_iter_ model in
  let accumulator := (multinomial_accumulator model dataset row_idx).1 in
  let total := Rsum (fun j => exp (accumulator !!! j)) (seq 0 K) in
  exists highest_cell_idx cells,
    Predict model dataset row_idx prediction =
      Returns (classification
                 {| value := Z.of_nat highest_cell_idx + 1;
                    distribution := {| counts := cells; sum := 1 |} |}) /\
    length cells = (K + 1)%nat /\
    (forall k, (k < K)%nat ->
       cells !! (k + 1)%nat = Some (exp (accumulator !!! k) / total)) /\
    highest_cell_idx =
      (foldl (fun '(highest_cell_value, highest_cell_idx) k =>
                if Rlt_dec highest_cell_value (exp (accumulator !!! k))
                then (exp (accumulator !!! k), k)
                else (highest_cell_value, highest_cell_idx))
             (0, 0%nat) (seq 0 K)).2.
Proof.
  intros Hloss K accumulator total. unfold Predict. rewrite Hloss.
  subst accumulator.
  destruct (multinomial_accumulator model dataset row_idx)
    as [accumulator cell] eqn:Hwalk.
  cbn [fst] in total. fold K.
  set (cells := Resize (K + 1) (of_int binary32 0)
                  (counts (distribution (mutable_classification prediction)))).
  assert (Hcells : length cells = (K + 1)%nat) by apply length_Resize.
  rewrite exp_loop_unfold.
  change (foldl (fun s i => fadd binary32 s (f_exp binary32 (accumulator !!! i)))
                (of_int binary32 0) (seq 0 K))
    with (foldl (fun s i => s + exp (accumulator !!! i)) 0 (seq 0 K)).
  rewrite foldl_Rsum, Rplus_0_l. fold total.
  set (cells1 := map_cells _ 0 K cells).
  assert (Hlen1 : length cells1 = (K + 1)%nat).
  { subst cells1. rewrite map_cells_length. assumption. }
  assert (Hcells1 : forall k, (k < K)%nat ->
            cells1 !!! (k + 1)%nat = exp (accumulator !!! k)).
  { intros k Hk. rewrite list_lookup_total_alt. subst cells1.
    rewrite map_cells_lookup by lia. reflexivity. }
  set (normalization := if fgt _ _ then _ else _).
  pose proof (normalize_loop_counts normalization K
                (of_int binary32 0, 0%nat, cells1)) as Hnorm.
  pose proof (normalize_loop_highest normalization K
                (of_int binary32 0) 0%nat cells1) as Hhigh.
  destruct (normalize_loop _ _ _) as [[hv hi] cells2].
  cbn [fst snd] in Hnorm, Hhigh.
  exists hi, cells2. split; [reflexivity|].
  split; [subst cells2; rewrite map_cells_length; assumption|].
  split.
  - intros k Hk. subst cells2. rewrite map_cells_lookup by lia. f_equal.
    rewrite Hcells1 by assumption.
    assert (Htotal : 0 < total).
    { apply Rsum_pos; [|intros; apply exp_pos].
      destruct K; [lia|]. rewrite seq_S. intros Hnil.
      apply app_eq_nil in Hnil as [_ ?]. discriminate. }
    subst normalization. unfold fgt. cbn.
    destruct (Rlt_dec 0 total) as [_|]; [|lra].
    field. lra.
  - transitivity
      (foldl (fun '(hv, hi) k =>
                if fgt (cells1 !!! (k + 1)%nat) hv
                then (cells1 !!! (k + 1)%nat, k) else (hv, hi))
             (of_int binary32 0, 0%nat) (seq 0 K)).2;
      [rewrite <- Hhigh; reflexivity|].
    f_equal. apply foldl_ext_Forall. apply Forall_forall.
    intros k Hk [hv' hi']. apply elem_of_seq in Hk.
    rewrite Hcells1 by lia. unfold fgt. cbn.
    destruct (Rlt_dec hv' (exp (accumulator !!! k))); reflexivity.
Qed.

(** X7.  Under exact arithmetic [Predict] with the multinomial loss returns
    the softmax of the accumulated logits: the count of the class [k + 1] is
    [exp (acc k)] over the sum of the [exp (acc j)], the counts have one more
    cell than there are classes, and the counts of the classes add up to the
    [sum] field, which is [1]. *)
Theorem Predict_multinomial_is_softmax
    (model : GradientBoostedTreesModel R) (dataset : VerticalDataset R)
    (row_idx : nat) (prediction : Prediction R) :
  loss_ model = MULTINOMIAL_LOG_LIKELIHOOD ->
  let K := num_trees_per_iter_ model in
  let accumulator := (multinomial_accumulator model dataset row_idx).1 in
  let total := Rsum (fun j => exp (accumulator !!! j)) (seq 0 K) in
  exists classes,
    Predict model dataset row_idx prediction = Returns (classification classes) /\
    length (counts (distribution classes)) = (K + 1)%nat /\
    (forall k, (k < K)%nat ->
       counts (distribution classes) !! (k + 1)%nat =
       Some (exp (accumulator !!! k) / total)) /\
    sum (distribution classes) = 1 /\
    ((0 < K)%nat ->
     Rsum (fun k => counts (distribution classes) !!! (k + 1)%nat) (seq 0 K) =
     sum (distribution classes)).
Proof.
  intros Hloss K accumulator total.
  destruct (Predict_multinomial_exact_counts model dataset row_idx prediction Hloss)
    as (hi & cells & Hpredict & Hlen & Hcells & _).
  fold K accumulator total in Hcells, Hlen.
  eexists. split; [exact Hpredict|]. cbn [counts distribution sum].
  split; [exact Hlen|]. split; [exact Hcells|]. split; [reflexivity|].
  intros HK.
  assert (Htotal : 0 < total).
  { apply Rsum_pos; [|intros; apply exp_pos].
    destruct K; [lia|]. rewrite seq_S. intros Hnil.
    apply app_eq_nil in Hnil as [_ ?]. discriminate. }
  rewrite (Rsum_ext_elem _ (fun k => exp (accumulator !!! k) * / total)).
  - rewrite Rsum_scale. fold total. field. lra.
  - intros k Hk. apply elem_of_seq in Hk.
    rewrite list_lookup_total_alt, Hcells by lia. reflexivity.
Qed.

(** The first index at which a positive function is the highest. *)
Lemma first_highest (f : nat -> R) (n : nat) :
  (forall i, 0 < f i) ->
  let '(highest_cell_value, highest_cell_idx) :=
    foldl (fun '(highest_cell_value, highest_cell_idx) k =>
             if Rlt_dec highest_cell_value (f k) then (f k, k)
             else (highest_cell_value, highest_cell_idx))
          (0, 0%nat) (seq 0 n) in
  (n = 0%nat -> highest_cell_value = 0 /\ highest_cell_idx = 0%nat) /\
  ((0 < n)%nat ->
   (highest_cell_idx < n)%nat /\ highest_cell_value = f highest_cell_idx /\
   (forall i, (i < n)%nat -> f i <= f highest_cell_idx) /\
   (forall i, (i < highest_cell_idx)%nat -> f i < f highest_cell_idx)).
Proof.
  intros Hf. induction n as [|n IH].
  - cbn. split; [tauto|lia].
  - rewrite seq_S, foldl_app. cbn [foldl plus].
    destruct (foldl _ _ (seq 0 n)) as [hv hi].
    destruct IH as [Hzero Hmore].
    destruct (Nat.eq_dec n 0%nat) as [-> | Hn].
    + destruct (Hzero eq_refl) as [-> ->].
      pose proof (Hf 0%nat) as Hpos.
      destruct (Rlt_dec 0 (f 0%nat)) as [_|]; [|lra].
      split; [lia|]. intros _. repeat split; [lia| |lia].
      intros i Hi. replace i with 0%nat by lia. lra.
    + destruct (Hmore ltac:(lia)) as (Hhi & Hhv & Hmax & Hfirst).
      destruct (Rlt_dec hv (f n)) as [Hlt|Hge];
        (split; [lia|]); intros _.
      * repeat split; [lia| |].
        -- intros i Hi. destruct (decide (i = n)) as [->|]; [lra|].
           specialize (Hmax i ltac:(lia)). lra.
        -- intros i Hi. specialize (Hmax i ltac:(lia)). lra.
      * repeat split; [lia|assumption| |assumption].
        intros i Hi. destruct (decide (i = n)) as [->|]; [lra|].
        apply Hmax. lia.
Qed.

(** X8.  Under exact arithmetic the class [Predict] returns with the
    multinomial loss is the first class with the highest accumulated logit:
    no class has a higher logit, and every class before it has a lower
    one. *)
Theorem Predict_multinomial_class_is_first_argmax
    (model : GradientBoostedTreesModel R) (dataset : VerticalDataset R)
    (row_idx : nat) (prediction : Prediction R) :
  loss_ model = MULTINOMIAL_LOG_LIKELIHOOD ->
  (0 < num_trees_per_iter_ model)%nat ->
  let accumulator := (multinomial_accumulator model dataset row_idx).1 in
  exists classes k,
    Predict model dataset row_idx prediction = Returns (classification classes) /\
    value classes = (Z.of_nat k + 1)%Z /\
    (k < num_trees_per_iter_ model)%nat /\
    (forall j, (j < num_trees_per_iter_ model)%nat ->
       accumulator !!! j <= accumulator !!! k) /\
    (forall j, (j < k)%nat -> accumulator !!! j < accumulator !!! k).
Proof.
  intros Hloss HK accumulator.
  destruct (Predict_multinomial_exact_counts model dataset row_idx prediction Hloss)
    as (hi & cells & Hpredict & _ & _ & Hhi).
  fold accumulator in Hhi.
  pose proof (first_highest (fun k => exp (accumulator !!! k))
                (num_trees_per_iter_ model) ltac:(intros; apply exp_pos)) as Hfirst.
  destruct (foldl _ _ _) as [hv hi']. cbn [snd] in Hhi. subst hi'.
  destruct Hfirst as [_ Hfirst].
  destruct (Hfirst HK) as (Hlt & _ & Hmax & Hbefore).
  eexists _, hi. split; [exact Hpredict|]. cbn [value].
  split; [reflexivity|]. split; [exact Hlt|]. split.
  - intros j Hj. specialize (Hmax j Hj).
    destruct (Rle_dec (accumulator !!! j) (accumulator !!! hi)) as [|Hgt];
      [assumption|].
    apply Rnot_le_lt, exp_increasing in Hgt. lra.
  - intros j Hj. apply exp_lt_inv, Hbefore, Hj.
Qed.

(** X9.  Under exact arithmetic [Predict] with the binomial loss returns
    the class 2 exactly when the sum of the initial prediction and of the
    leaves is positive (the class 1 at zero), with the distribution
    [[., 1 - p, p]] for [p = 1 / (1 + exp (- sum))], whose two counts are
    positive and add up to the [sum] field. *)
Theorem Predict_binomial_exact
    (model : GradientBoostedTreesModel R) (dataset : VerticalDataset R)
    (row_idx : nat) (prediction : Prediction R) :
  loss_ model = BINOMIAL_LOG_LIKELIHOOD ->
  let accumulator := sum_of_leaves model dataset row_idx in
  let p := 1 / (1 + exp (- accumulator)) in
  exists classes,
    Predict model dataset row_idx prediction = Returns (classification classes) /\
    (value classes = 2%Z <-> 0 < accumulator) /\
    (value classes = 1%Z <-> accumulator <= 0) /\
    length (counts (distribution classes)) = 3%nat /\
    counts (distribution classes) !! 1%nat = Some (1 - p) /\
    counts (distribution classes) !! 2%nat = Some p /\
    0 < p < 1 /\
    sum (distribution classes) = (1 - p) + p.
Proof.
  intros Hloss accumulator p. unfold Predict. rewrite Hloss.
  fold accumulator. unfold binomial_prediction.
  eexists. split; [reflexivity|]. cbn [value counts distribution sum].
  change (cast binary32
            (fdiv binary64 (of_int binary64 1)
               (fadd binary64 (of_int binary64 1)
                  (f_exp binary64 (fneg accumulator))))) with p.
  pose proof (exp_pos (- accumulator)) as Hexp.
  assert (Hp : 0 < p < 1).
  { subst p. split.
    - apply Rdiv_lt_0_compat; lra.
    - apply (Rmult_lt_reg_r (1 + exp (- accumulator))); [lra|].
      field_simplify; lra. }
  assert (Hhalf : 1 / 2 < p <-> 0 < accumulator).
  { subst p. split.
    - intros Hlt.
      assert (exp (- accumulator) < 1).
      { apply (Rmult_lt_compat_r (1 + exp (- accumulator))) in Hlt; [|lra].
        field_simplify in Hlt; lra. }
      destruct (Rlt_dec 0 accumulator) as [|Hno]; [assumption|].
      apply Rnot_lt_le in Hno.
      destruct (Req_dec accumulator 0) as [->|Hne].
      + rewrite Ropp_0, exp_0 in *. lra.
      + assert (exp 0 < exp (- accumulator)) by (apply exp_increasing; lra).
        rewrite exp_0 in *. lra.
    - intros Hpos.
      assert (exp (- accumulator) < exp 0) by (apply exp_increasing; lra).
      rewrite exp_0 in *.
      apply (Rmult_lt_reg_r (1 + exp (- accumulator))); [lra|].
      field_simplify; lra. }
  assert (Hlen : length (Resize 3 (of_int binary32 0)
                           (counts (distribution (mutable_classification prediction))))
                 = 3%nat) by apply length_Resize.
  unfold fgt, literal. cbn. cbn in Hlen.
  assert (Hclass : forall q : R,
            length (<[2%nat := q]>
                      (<[1%nat := 1 - q]>
                         (Resize 3 0
                            (counts (distribution (mutable_classification prediction))))))
              = 3%nat /\
            <[2%nat := q]>
              (<[1%nat := 1 - q]>
                 (Resize 3 0
                    (counts (distribution (mutable_classification prediction)))))
              !! 1%nat = Some (1 - q) /\
            <[2%nat := q]>
              (<[1%nat := 1 - q]>
                 (Resize 3 0
                    (counts (distribution (mutable_classification prediction)))))
              !! 2%nat = Some q).
  { intros q. split; [rewrite !length_insert; assumption|]. split.
    - rewrite list_lookup_insert_ne by lia.
      apply list_lookup_insert_eq. lia.
    - apply list_lookup_insert_eq. rewrite length_insert. lia. }
  destruct (Hclass p) as (Hl & H1 & H2).
  destruct (Rlt_dec (1 / 2) p) as [Hgt|Hle].
  - split; [tauto|].
    split; [split; [discriminate | intros Hacc; apply Hhalf in Hgt; lra]|].
    repeat split; try assumption; try lra.
  - split; [split; [discriminate | intros Hacc; apply Hhalf in Hacc; lra]|].
    split.
    + split; [|reflexivity].
      intros _. destruct (Rle_dec accumulator 0); [assumption|].
      exfalso. apply Hle, Hhalf. lra.
    + repeat split; try assumption; try lra.
Qed.

(** X10.  Under exact arithmetic the two overloads of [Predict] agree on
    the multinomial loss too, as soon as the model holds whole iterations of
    trees (the overload on an example ends the process otherwise) and the
    trees route the row and the example to the same leaves. *)
Theorem Predict_overloads_agree_multinomial_exact
    (model : GradientBoostedTreesModel R) (dataset : VerticalDataset R)
    (row_idx : nat) (example : Example R) (prediction : Prediction R) :
  Forall (fun tree => GetLeaf tree dataset row_idx = GetLeaf_Example tree example)
         (decision_trees_ model) ->
  loss_ model = MULTINOMIAL_LOG_LIKELIHOOD ->
  (0 < num_trees_per_iter_ model)%nat ->
  (length (decision_trees_ model) `mod` num_trees_per_iter_ model = 0)%nat ->
  Predict model dataset row_idx prediction =
  Predict_Example model example prediction /\
  exists classes,
    Predict_Example model example prediction = Returns (classification classes).
Proof.
  intros Hleaves Hloss HK Hmod.
  assert (Hacc : multinomial_accumulator model dataset row_idx =
                 multinomial_accumulator_Example model example)
    by (apply CallOnAllLeafs_agree; assumption).
  pose proof (add_top_value_to_cell_idx (num_trees_per_iter_ model)
                (fun tree => GetLeaf_Example tree example)
                (decision_trees_ model)
                (replicate (num_trees_per_iter_ model) (of_int binary32 0)) 0
                HK HK) as Hidx.
  unfold Predict, Predict_Example. rewrite Hloss, Hacc.
  unfold multinomial_accumulator_Example, CallOnAllLeafs_Example in *.
  destruct (foldl _ _ _) as [accumulator idx]. cbn [snd plus] in Hidx.
  rewrite Hmod in Hidx. subst idx.
  rewrite decide_True by reflexivity.
  rewrite exp_loop_unfold.
  change (foldl (fun s i => fadd binary32 s (f_exp binary32 (accumulator !!! i)))
                (of_int binary32 0) (seq 0 (num_trees_per_iter_ model)))
    with (foldl (fun s i => s + exp (accumulator !!! i)) 0
                (seq 0 (num_trees_per_iter_ model))).
  rewrite foldl_Rsum, Rplus_0_l.
  assert (Htotal : 0 < Rsum (fun i => exp (accumulator !!! i))
                             (seq 0 (num_trees_per_iter_ model))).
  { apply Rsum_pos; [|intros; apply exp_pos].
    destruct (num_trees_per_iter_ model); [lia|]. rewrite seq_S. intros Hnil.
    apply app_eq_nil in Hnil as [_ ?]. discriminate. }
  unfold fgt. cbn.
  destruct (Rlt_dec 0 _) as [_|]; [|lra].
  destruct (normalize_loop _ _ _) as [[hv hi] cells].
  split; [reflexivity|]. eexists. reflexivity.
Qed.

End InferenceExact.

(** ** The predictions of the training are the logits of the inference *)

Section UpdateCells.
Context {A : Type} `{Inhabited A}.

(** A loop that rewrites the cells [start .. start+n-1] of a vector, each
    from its index and its content. *)
Lemma foldl_update_cells (g : nat -> A -> A) (start n : nat) (l : list A) :
  let l' := foldl (fun l k => <[k := g k (l !!! k)]> l) l (seq start n) in
  length l' = length l /\
  forall k, l' !!! k =
    if decide (start <= k < start + n /\ k < length l)
    then g k (l !!! k) else l !!! k.
Proof.
  revert start l. induction n as [|n IH]; intros start l; cbn [seq foldl].
  - split; [reflexivity|]. intros k. rewrite decide_False by lia. reflexivity.
  - destruct (IH (S start) (<[start := g start (l !!! start)]> l)) as [Hlen Hget].
    rewrite length_insert in Hlen. split; [exact Hlen|].
    intros k. rewrite Hget, length_insert.
    destruct (decide (k = start)) as [-> | Hne].
    + rewrite decide_False by lia.
      destruct (decide (start < length l)) as [Hin | Hout].
      * rewrite decide_True by lia. apply list_lookup_total_insert_eq. exact Hin.
      * rewrite decide_False by lia. rewrite list_insert_ge by lia. reflexivity.
    + rewrite list_lookup_total_insert_ne by lia.
      repeat case_decide; try reflexivity; lia.
Qed.

End UpdateCells.

Lemma foldl_seq_shift {A} (f : A -> nat -> A) (a : A) (s n : nat) :
  foldl (fun a k => f a (k + s)) a (seq 0 n) = foldl f a (seq s n).
Proof.
  revert a s. induction n as [|n IH]; intros a s; cbn [seq foldl]; [reflexivity|].
  rewrite <- (IH (f a s) (S s)). cbn [plus].
  rewrite <- seq_shift, foldl_fmap.
  apply foldl_ext_Forall, Forall_forall. intros k _ a'. f_equal. lia.
Qed.

Section TrainingPredictions.
Context {F : Type} `{Arith F}.

Lemma UpdatePredictionWithSingleUnivariateTree_cells
    (dataset : VerticalDataset F) (tree : DecisionTree F)
    (predictions : list F) (mean_abs_prediction : option F) :
  (UpdatePredictionWithSingleUnivariateTree dataset tree predictions
     mean_abs_prediction).1 =
  foldl (fun predictions example_idx =>
           <[example_idx :=
               fadd binary32 (predictions !!! example_idx)
                 (top_value (regressor (GetLeaf tree dataset example_idx)))]>
             predictions)
        predictions (seq 0 (nrow dataset)).
Proof.
  unfold UpdatePredictionWithSingleUnivariateTree.
  generalize (of_int binary64 0) as sum_abs. generalize (seq 0 (nrow dataset)) as l.
  intros l. revert predictions.
  induction l as [|i l IH]; intros predictions sum_abs; cbn [foldl]; [reflexivity|].
  specialize (IH (<[i := fadd binary32 (predictions !!! i)
                           (top_value (regressor (GetLeaf tree dataset i)))]>
                    predictions)
                 (fadd binary64 sum_abs
                    (cast binary64
                       (fabs (top_value (regressor (GetLeaf tree dataset i))))))).
  destruct (foldl _ _ l) as [p s] eqn:Hfold in IH |- *.
  exact IH.
Qed.

(** The predictions after [UpdatePredictionWithSingleUnivariateTree],
    cell by cell. *)
Lemma UpdatePredictionWithSingleUnivariateTree_lookup
    (dataset : VerticalDataset F) (tree : DecisionTree F)
    (predictions : list F) (mean_abs_prediction : option F) :
  let predictions_after :=
    (UpdatePredictionWithSingleUnivariateTree dataset tree predictions
       mean_abs_prediction).1 in
  length predictions_after = length predictions /\
  forall example_idx,
    predictions_after !!! example_idx =
    if decide (example_idx < nrow dataset /\ example_idx < length predictions)
    then fadd binary32 (predictions !!! example_idx)
           (top_value (regressor (GetLeaf tree dataset example_idx)))
    else predictions !!! example_idx.
Proof.
  cbv zeta. rewrite UpdatePredictionWithSingleUnivariateTree_cells.
  destruct (foldl_update_cells
              (fun i v => fadd binary32 v
                            (top_value (regressor (GetLeaf tree dataset i))))
              0 (nrow dataset) predictions) as [Hlen Hget].
  split; [exact Hlen|].
  intros i. rewrite Hget.
  repeat case_decide; try reflexivity; lia.
Qed.

(** X11.  [UpdatePredictions] of a loss with one tree per iteration,
    called with one tree, succeeds, keeps the length of the predictions, adds
    to the prediction of every row of the dataset the value of the leaf the
    tree routes the row to, and leaves the cells past the rows untouched. *)
Theorem univariate_UpdatePredictions_adds_the_leaf
    (tree : DecisionTree F) (dataset : VerticalDataset F)
    (predictions : list F) (mean_abs_prediction : option F) :
  let '(status, predictions_after, _) :=
    univariate_UpdatePredictions [tree] dataset predictions
      mean_abs_prediction in
  status = OkStatus /\
  length predictions_after = length predictions /\
  forall example_idx,
    predictions_after !!! example_idx =
    if decide (example_idx < nrow dataset /\ example_idx < length predictions)
    then fadd binary32 (predictions !!! example_idx)
           (top_value (regressor (GetLeaf tree dataset example_idx)))
    else predictions !!! example_idx.
Proof.
  unfold univariate_UpdatePredictions.
  pose proof (UpdatePredictionWithSingleUnivariateTree_lookup dataset tree
                predictions mean_abs_prediction) as Hcells.
  destruct (UpdatePredictionWithSingleUnivariateTree _ _ _ _) as [after mean].
  split; [reflexivity | exact Hcells].
Qed.

Lemma UpdatePredictionWithMultipleUnivariateTrees_cells
    (dataset : VerticalDataset F) (trees : list (DecisionTree F))
    (predictions : list F) (mean_abs_prediction : option F) :
  (UpdatePredictionWithMultipleUnivariateTrees dataset trees predictions
     mean_abs_prediction).1 =
  foldl (fun predictions example_idx =>
           foldl (fun predictions grad_idx =>
                    match trees !! grad_idx with
                    | Some tree =>
                        <[grad_idx + example_idx * length trees :=
                            fadd binary32
                              (predictions !!! (grad_idx + example_idx * length trees))
                              (top_value (regressor (GetLeaf tree dataset example_idx)))]>
                          predictions
                    | None => predictions
                    end)
                 predictions (seq 0 (length trees)))
        predictions (seq 0 (nrow dataset)).
Proof.
  unfold UpdatePredictionWithMultipleUnivariateTrees. cbv zeta.
  generalize (of_int binary64 0) as sum_abs. generalize (seq 0 (nrow dataset)) as l.
  intros l. revert predictions.
  induction l as [|i l IH]; intros predictions sum_abs; cbn [foldl]; [reflexivity|].
  assert (Hinner : forall (ks : list nat) (p : list F) (s : F),
    exists s',
      foldl (fun '(predictions, sum_abs_predictions) grad_idx =>
               match trees !! grad_idx with
               | Some tree =>
                   (<[grad_idx + i * length trees :=
                        fadd binary32 (predictions !!! (grad_idx + i * length trees))
                          (top_value (regressor (GetLeaf tree dataset i)))]>
                      predictions,
                    fadd binary64 sum_abs_predictions
                      (cast binary64
                         (fabs (top_value (regressor (GetLeaf tree dataset i))))))
               | None => (predictions, sum_abs_predictions)
               end) (p, s) ks =
      (foldl (fun predictions grad_idx =>
                match trees !! grad_idx with
                | Some tree =>
                    <[grad_idx + i * length trees :=
                        fadd binary32 (predictions !!! (grad_idx + i * length trees))
                          (top_value (regressor (GetLeaf tree dataset i)))]>
                      predictions
                | None => predictions
                end) p ks, s')).
  { induction ks as [|k ks IHk]; intros p s; cbn [foldl]; [eexists; reflexivity|].
    destruct (trees !! k); apply IHk. }
  destruct (Hinner (seq 0 (length trees)) predictions sum_abs) as [s' ->].
  specialize (IH (foldl (fun predictions grad_idx =>
                match trees !! grad_idx with
                | Some tree =>
                    <[grad_idx + i * length trees :=
                        fadd binary32 (predictions !!! (grad_idx + i * length trees))
                          (top_value (regressor (GetLeaf tree dataset i)))]>
                      predictions
                | None => predictions
                end) predictions (seq 0 (length trees))) s').
  destruct (foldl _ _ l) as [p s] eqn:Hfold in IH |- *.
  exact IH.
Qed.

(** The value the trees of an iteration add to the cell [cell] of the
    predictions. *)
Lemma UpdatePredictionWithMultipleUnivariateTrees_lookup
    (dataset : VerticalDataset F) (trees : list (DecisionTree F))
    (predictions : list F) (mean_abs_prediction : option F) :
  0 < length trees ->
  let predictions_after :=
    (UpdatePredictionWithMultipleUnivariateTrees dataset trees predictions
       mean_abs_prediction).1 in
  length predictions_after = length predictions /\
  forall example_idx grad_idx tree,
    example_idx < nrow dataset -> trees !! grad_idx = Some tree ->
    grad_idx + example_idx * length trees < length predictions ->
    predictions_after !!! (grad_idx + example_idx * length trees) =
    fadd binary32 (predictions !!! (grad_idx + example_idx * length trees))
      (top_value (regressor (GetLeaf tree dataset example_idx))).
Proof.
  intros HK. cbn zeta.
  rewrite UpdatePredictionWithMultipleUnivariateTrees_cells.
  set (K := length trees) in *.
  set (g := fun (cell : nat) (v : F) =>
              match trees !! (cell `mod` K) with
              | Some tree =>
                  fadd binary32 v
                    (top_value (regressor (GetLeaf tree dataset (cell `div` K))))
              | None => v
              end).
  assert (Hrows : forall m,
    foldl (fun predictions example_idx =>
             foldl (fun predictions grad_idx =>
                      match trees !! grad_idx with
                      | Some tree =>
                          <[grad_idx + example_idx * K :=
                              fadd binary32
                                (predictions !!! (grad_idx + example_idx * K))
                                (top_value (regressor (GetLeaf tree dataset example_idx)))]>
                            predictions
                      | None => predictions
                      end)
                   predictions (seq 0 K))
          predictions (seq 0 m) =
    foldl (fun l cell => <[cell := g cell (l !!! cell)]> l) predictions
          (seq 0 (m * K))).
  { induction m as [|m IHm]; [reflexivity|].
    rewrite seq_S, foldl_app, IHm. cbn [foldl plus].
    replace (S m * K) with (m * K + K) by lia.
    rewrite seq_app, foldl_app. cbn [plus].
    generalize (foldl (fun l cell => <[cell := g cell (l !!! cell)]> l)
                      predictions (seq 0 (m * K))) as p.
    intros p.
    rewrite <- (foldl_seq_shift
                  (fun l cell => <[cell := g cell (l !!! cell)]> l) p (m * K) K).
    apply foldl_ext_Forall, Forall_forall. intros k Hk p'.
    apply elem_of_seq in Hk. subst g. cbn beta.
    replace ((k + m * K) `mod` K) with k
      by (rewrite Nat.Div0.mod_add, Nat.mod_small; lia).
    replace ((k + m * K) `div` K) with m
      by (rewrite Nat.div_add, Nat.div_small; lia).
    destruct (lookup_lt_is_Some_2 trees k ltac:(fold K; lia)) as [tree ->].
    reflexivity. }
  rewrite Hrows.
  destruct (foldl_update_cells g 0 (nrow dataset * K) predictions) as [Hlen Hget].
  split; [exact Hlen|].
  intros i k tree Hi Hk Hcell. rewrite Hget.
  assert (k < K) by (apply lookup_lt_Some in Hk; exact Hk).
  rewrite decide_True by nia.
  subst g. cbn beta.
  replace ((k + i * K) `mod` K) with k
    by (rewrite Nat.Div0.mod_add, Nat.mod_small; lia).
  replace ((k + i * K) `div` K) with i
    by (rewrite Nat.div_add, Nat.div_small; lia).
  rewrite Hk. reflexivity.
Qed.

(** The accumulator of the inference after the trees of one iteration. *)
Lemma add_top_value_to_cell_iteration (K : nat) (leaf : DecisionTree F -> Node F)
    (trees : list (DecisionTree F)) (accumulator : list F) :
  length trees = K -> length accumulator = K ->
  let accumulator_after :=
    (foldl (fun st tree => add_top_value_to_cell K (leaf tree) st)
           (accumulator, 0) trees).1 in
  length accumulator_after = K /\
  forall k tree, trees !! k = Some tree ->
    accumulator_after !!! k =
    fadd binary32 (accumulator !!! k) (top_value (regressor (leaf tree))).
Proof.
  intros Htrees Hacc. cbn zeta.
  assert (Hstep : forall n, n <= K ->
    let st := foldl (fun st tree => add_top_value_to_cell K (leaf tree) st)
                    (accumulator, 0) (take n trees) in
    length st.1 = K /\
    st.2 = (if decide (n = K) then 0 else n) /\
    forall k tree, trees !! k = Some tree ->
      st.1 !!! k =
      if decide (k < n)
      then fadd binary32 (accumulator !!! k) (top_value (regressor (leaf tree)))
      else accumulator !!! k).
  { induction n as [|n IHn]; intros Hn; cbn zeta.
    - cbn [take foldl fst snd]. split; [exact Hacc|].
      split; [destruct (decide (0 = K)); reflexivity|].
      intros k tree _. rewrite decide_False by lia. reflexivity.
    - destruct (lookup_lt_is_Some_2 trees n ltac:(lia)) as [tree_n Htree_n].
      rewrite (take_S_r _ _ _ Htree_n), foldl_app. cbn [foldl].
      destruct (IHn ltac:(lia)) as (Hlen & Hidx & Hget).
      destruct (foldl _ _ (take n trees)) as [acc idx]. cbn [fst snd] in *.
      rewrite decide_False in Hidx by lia. subst idx.
      unfold add_top_value_to_cell. cbn [fst snd].
      split; [rewrite length_insert; exact Hlen|].
      split; [repeat case_decide; lia|].
      intros k tree Hk.
      destruct (decide (k = n)) as [-> | Hne].
      + rewrite decide_True by lia.
        rewrite list_lookup_total_insert_eq by lia.
        rewrite (Hget n tree Hk), decide_False by lia.
        congruence.
      + rewrite list_lookup_total_insert_ne by lia.
        rewrite (Hget k tree Hk).
        repeat case_decide; try reflexivity; lia. }
  specialize (Hstep K (le_n K)). cbn zeta in Hstep.
  rewrite take_ge in Hstep by lia.
  destruct Hstep as (Hlen & _ & Hget).
  split; [exact Hlen|].
  intros k tree Hk. rewrite (Hget k tree Hk).
  apply lookup_lt_Some in Hk. rewrite decide_True by lia. reflexivity.
Qed.

Lemma multinomial_training_matches_inference_from (K : nat)
    (dataset : VerticalDataset F) (iterations : list (list (DecisionTree F)))
    (example_idx : nat) :
  0 < K -> Forall (fun trees => length trees = K) iterations ->
  example_idx < nrow dataset ->
  forall (predictions accumulator : list F),
    length predictions = nrow dataset * K -> length accumulator = K ->
    (forall k, k < K ->
       predictions !!! (k + example_idx * K) = accumulator !!! k) ->
    forall k, k < K ->
      successive_UpdatePredictions (MultinomialLogLikelihoodLoss (Z.of_nat K))
        iterations dataset predictions !!! (k + example_idx * K) =
      (foldl (fun st tree =>
                add_top_value_to_cell K (GetLeaf tree dataset example_idx) st)
             (accumulator, 0) (mjoin iterations)).1 !!! k.
Proof.
  intros HK Hiterations Hrow.
  induction Hiterations as [|trees iterations Htrees _ IH];
    intros predictions accumulator Hlen Hacc Hsame k Hk.
  - cbn. apply Hsame, Hk.
  - change (mjoin (trees :: iterations)) with (trees ++ mjoin iterations).
    unfold successive_UpdatePredictions in *.
    cbn [foldl AbstractLoss_UpdatePredictions].
    unfold MultinomialLogLikelihoodLoss_UpdatePredictions at 2.
    rewrite decide_False by lia.
    destruct (UpdatePredictionWithMultipleUnivariateTrees_lookup dataset trees
                predictions None ltac:(lia)) as [Hlen1 Hget1].
    destruct (UpdatePredictionWithMultipleUnivariateTrees dataset trees
                predictions None) as [predictions1 mean]. cbn [fst snd] in *.
    rewrite foldl_app.
    pose proof (add_top_value_to_cell_idx K
                  (fun tree => GetLeaf tree dataset example_idx) trees
                  accumulator 0 HK HK) as Hidx.
    destruct (add_top_value_to_cell_iteration K
                (fun tree => GetLeaf tree dataset example_idx) trees
                accumulator Htrees Hacc) as [Hacc1 Hget].
    destruct (foldl _ (accumulator, 0) trees) as [accumulator1 idx].
    cbn [fst snd plus] in *.
    rewrite Htrees, Nat.Div0.mod_same in Hidx. subst idx.
    apply IH; [lia|exact Hacc1| |exact Hk].
    intros j Hj.
    destruct (lookup_lt_is_Some_2 trees j ltac:(lia)) as [tree Htree].
    rewrite (Hget j tree Htree), <- Hsame by exact Hj.
    rewrite <- Htrees. apply Hget1; [exact Hrow|exact Htree|].
    rewrite Htrees. nia.
Qed.

(** X12.  The multinomial predictions of the training are the logits of
    the inference, bit for bit: after [UpdatePredictions] has been called on
    the trees of every iteration, from predictions that are all zero, the
    cell [k + example_idx * K] of the predictions is the cell [k] of the
    accumulator that [Predict] computes for the row [example_idx] on the
    model made of these trees. *)
Theorem multinomial_training_matches_inference (K : nat)
    (dataset : VerticalDataset F) (iterations : list (list (DecisionTree F)))
    (model : GradientBoostedTreesModel F) (example_idx k : nat) :
  0 < K -> Forall (fun trees => length trees = K) iterations ->
  num_trees_per_iter_ model = K ->
  decision_trees_ model = mjoin iterations ->
  example_idx < nrow dataset -> k < K ->
  successive_UpdatePredictions (MultinomialLogLikelihoodLoss (Z.of_nat K))
    iterations dataset
    (replicate (nrow dataset * K) (of_int binary32 0)) !!! (k + example_idx * K) =
  (multinomial_accumulator model dataset example_idx).1 !!! k.
Proof.
  intros HK Hiterations Hper Htrees Hrow Hk.
  unfold multinomial_accumulator, CallOnAllLeafs. rewrite Hper, Htrees.
  apply multinomial_training_matches_inference_from; auto.
  - apply length_replicate.
  - apply length_replicate.
  - intros j Hj. rewrite !lookup_total_replicate_2 by nia. reflexivity.
Qed.

End TrainingPredictions.

Section TrainingPredictionsExact.
Local Open Scope R_scope.

(** X13.  Under exact arithmetic the predictions of a training with one
    tree per iteration are the sums of the inference: after
    [UpdatePredictions] of a loss other than the multinomial one has been
    called on each tree in turn, from predictions that all are the initial
    prediction, the prediction of a row is the sum [Predict] accumulates for
    this row on the model made of these trees.  (In floating point the
    training adds in [float] and the inference in [double].) *)
Theorem univariate_training_matches_inference (loss : LossImp)
    (model : GradientBoostedTreesModel R) (dataset : VerticalDataset R)
    (example_idx : nat) :
  (forall dimension_, loss <> MultinomialLogLikelihoodLoss dimension_) ->
  (example_idx < nrow dataset)%nat ->
  successive_UpdatePredictions loss
    ((fun tree => [tree]) <$> decision_trees_ model) dataset
    (replicate (nrow dataset) (initial_predictions_ model !!! 0%nat))
    !!! example_idx =
  sum_of_leaves model dataset example_idx.
Proof.
  intros Hloss Hrow.
  unfold sum_of_leaves, CallOnAllLeafs, successive_UpdatePredictions.
  cbn [cast Exact.arith].
  assert (Hone : forall new_trees predictions,
            AbstractLoss_UpdatePredictions loss new_trees dataset predictions None =
            univariate_UpdatePredictions new_trees dataset predictions None).
  { intros new_trees predictions.
    destruct loss as [|task_|dimension_| |]; try reflexivity.
    destruct (Hloss dimension_). reflexivity. }
  assert (Hgen : forall (trees : list (DecisionTree R)) (predictions : list R),
    length predictions = nrow dataset ->
    foldl (fun predictions new_trees =>
             (AbstractLoss_UpdatePredictions loss new_trees
                dataset predictions None).1.2)
          predictions ((fun tree => [tree]) <$> trees) !!! example_idx =
    foldl (fun st tree => add_top_value (GetLeaf tree dataset example_idx) st)
          (predictions !!! example_idx) trees).
  { induction trees as [|tree trees IH]; intros predictions Hlen; [reflexivity|].
    cbn [fmap list_fmap foldl]. rewrite Hone.
    pose proof (UpdatePredictionWithSingleUnivariateTree_lookup dataset tree
                  predictions None) as Hstep.
    unfold univariate_UpdatePredictions.
    destruct (UpdatePredictionWithSingleUnivariateTree dataset tree predictions None)
      as [after mean].
    destruct Hstep as (Hlen1 & Hget). cbn [fst snd] in *.
    change (list_fmap _ _ (fun tree => [tree]) trees)
      with ((fun tree => [tree]) <$> trees).
    rewrite IH by lia. rewrite Hget, decide_True by lia. reflexivity. }
  rewrite Hgen by apply length_replicate.
  rewrite lookup_total_replicate_2 by lia. reflexivity.
Qed.

End TrainingPredictionsExact.

(** ** The leaves of the NDCG, multinomial and squared error losses *)

Section LeavesExact.
Context `{Externals R}.
Local Open Scope R_scope.

Lemma soft_threshold_dead_zone (x t : R) : Rabs x <= t -> soft_threshold x t = 0.
Proof.
  intros Hx. unfold soft_threshold, Rmax.
  destruct (Rle_dec (Rabs x - t) 0); [ring|lra].
Qed.

(** X14.  Under exact arithmetic [NDCGLoss::SetLeafStatic], the leaf setter
    of the two NDCG losses, writes the Newton step
    [shrinkage * soft_threshold(G, L1) / (max(H, 0.001) + L2)] of the weighted
    sums [G] of the gradients and [H] of the hessians of the selected
    examples, without clamping it; the value is [0] as soon as [|G| <= L1];
    with [use_hessian_gain] the node records [G], [max(H, 0.001)] and the sum
    of the weights. *)
Theorem NDCGLoss_SetLeafStatic_value
    (train_dataset : VerticalDataset R) (selected_examples : list nat)
    (weights : list R) (gbt_config : GradientBoostedTreesTrainingConfig R)
    (gradients : list (GradientData R)) (node : Node R) :
  let G := Rsum (fun i => weights !!! i * gradient (gradients !!! 0%nat) !!! i)
                selected_examples in
  let H := Rsum (fun i => weights !!! i * hessian (gradients !!! 0%nat) !!! i)
                selected_examples in
  let W := Rsum (fun i => weights !!! i) selected_examples in
  let leaf := NDCGLoss_SetLeafStatic train_dataset selected_examples weights
                gbt_config gradients node in
  top_value (regressor leaf) =
    shrinkage gbt_config * soft_threshold G (l1_regularization gbt_config) /
    (Rmax H (1 / 1000) + l2_regularization gbt_config) /\
  (Rabs G <= l1_regularization gbt_config -> top_value (regressor leaf) = 0) /\
  (use_hessian_gain gbt_config = true ->
   sum_gradients (regressor leaf) = Some G /\
   sum_hessians (regressor leaf) = Some (Rmax H (1 / 1000)) /\
   sum_weights (regressor leaf) = Some W).
Proof.
  intros G Hs W leaf. subst leaf. unfold NDCGLoss_SetLeafStatic.
  set (g := fun i : nat => weights !!! i * gradient (gradients !!! 0%nat) !!! i).
  set (h := fun i : nat => weights !!! i * hessian (gradients !!! 0%nat) !!! i).
  set (w := fun i : nat => weights !!! i).
  pose proof (foldl_three_sums g h w selected_examples 0 0 0) as Hsums.
  match goal with
  | |- context [foldl ?body ?init selected_examples] =>
      replace (foldl body init selected_examples)
        with (0 + Rsum g selected_examples, 0 + Rsum h selected_examples,
              0 + Rsum w selected_examples)
  end.
  rewrite !Rplus_0_l, newton_denominator_exact.
  change (Rsum g selected_examples) with G.
  change (Rsum h selected_examples) with Hs.
  change (Rsum w selected_examples) with W.
  assert (Hvalue :
    cast binary32
      (fdiv binary64
         (fmul binary64 (cast binary64 (shrinkage gbt_config))
            (l1_threshold G (cast binary64 (l1_regularization gbt_config))))
         (fadd binary64 (Rmax Hs (1 / 1000))
            (cast binary64 (l2_regularization gbt_config)))) =
    shrinkage gbt_config * soft_threshold G (l1_regularization gbt_config) /
    (Rmax Hs (1 / 1000) + l2_regularization gbt_config)).
  { rewrite l1_threshold_exact. reflexivity. }
  destruct (use_hessian_gain gbt_config); cbn [negb];
    cbn [top_value regressor set_top_value set_sums sum_gradients
         sum_hessians sum_weights];
    rewrite Hvalue.
  - split; [reflexivity|]. split; [|auto].
    intros Hdead. rewrite soft_threshold_dead_zone by exact Hdead.
    unfold Rdiv. rewrite Rmult_0_r, Rmult_0_l. reflexivity.
  - split; [reflexivity|]. split; [|discriminate].
    intros Hdead. rewrite soft_threshold_dead_zone by exact Hdead.
    unfold Rdiv. rewrite Rmult_0_r, Rmult_0_l. reflexivity.
Qed.

(** X15.  Under exact arithmetic [SetLeaf] of the multinomial loss writes
    [shrinkage * soft_threshold((K - 1) N, L1) / (K max(D, 0.001) + L2)]
    clamped to [[-clamp_leaf_logit, clamp_leaf_logit]], for [K] the dimension
    of the loss and [N], [D] the weighted sums of [g_i] and of
    [|g_i| (1 - |g_i|)] over the selected examples, [g] being the label
    column of the tree; with [use_hessian_gain] the node records the sums
    before they are scaled by [K - 1] and [K]. *)
Theorem MultinomialLogLikelihoodLoss_SetLeaf_value (dimension_ : Z)
    (gbt_config_ : GradientBoostedTreesTrainingConfig R)
    (train_dataset : VerticalDataset R) (selected_examples : list nat)
    (weights : list R) (config_link_label : nat) (grad : list R)
    (node : Node R) :
  ColumnWithCast_NumericalColumn train_dataset config_link_label = Returns grad ->
  0 <= clamp_leaf_logit gbt_config_ ->
  let N := Rsum (fun i => weights !!! i * grad !!! i) selected_examples in
  let D := Rmax (Rsum (fun i => weights !!! i * Rabs (grad !!! i) *
                                (1 - Rabs (grad !!! i))) selected_examples)
                (1 / 1000) in
  let W := Rsum (fun i => weights !!! i) selected_examples in
  exists leaf,
    MultinomialLogLikelihoodLoss_SetLeaf dimension_ gbt_config_ train_dataset
      selected_examples weights config_link_label node = Returns leaf /\
    top_value (regressor leaf) =
      Rmax (- clamp_leaf_logit gbt_config_)
        (Rmin (shrinkage gbt_config_ *
               (soft_threshold (N * IZR (dimension_ - 1))
                  (l1_regularization gbt_config_) /
                (D * IZR dimension_ + l2_regularization gbt_config_)))
              (clamp_leaf_logit gbt_config_)) /\
    - clamp_leaf_logit gbt_config_ <= top_value (regressor leaf)
      <= clamp_leaf_logit gbt_config_ /\
    (use_hessian_gain gbt_config_ = true ->
     sum_gradients (regressor leaf) = Some N /\
     sum_hessians (regressor leaf) = Some D /\
     sum_weights (regressor leaf) = Some W).
Proof.
  intros Hgrad Hclamp N D W. unfold MultinomialLogLikelihoodLoss_SetLeaf.
  rewrite Hgrad. cbn [mbind outcome_bind].
  set (g := fun i : nat => weights !!! i * grad !!! i).
  set (h := fun i : nat => weights !!! i * Rabs (grad !!! i) *
                           (1 - Rabs (grad !!! i))).
  set (w := fun i : nat => weights !!! i).
  pose proof (foldl_three_sums g h w selected_examples 0 0 0) as Hsums.
  match goal with
  | |- context [foldl ?body ?init selected_examples] =>
      replace (foldl body init selected_examples)
        with (0 + Rsum g selected_examples, 0 + Rsum h selected_examples,
              0 + Rsum w selected_examples)
  end.
  rewrite !Rplus_0_l, newton_denominator_exact.
  change (Rsum g selected_examples) with N.
  change (Rsum w selected_examples) with W.
  change (Rmax (Rsum h selected_examples) (1 / 1000)) with D.
  eexists. split; [reflexivity|].
  assert (Hbounds : forall v c : R, 0 <= c ->
            - c <= Rmax (- c) (Rmin v c) <= c).
  { intros v c Hc. unfold Rmax, Rmin.
    destruct (Rle_dec v c), (Rle_dec (- c) v), (Rle_dec (- c) c); lra. }
  destruct (use_hessian_gain gbt_config_); cbn [negb];
    cbn [top_value regressor set_top_value set_sums sum_gradients
         sum_hessians sum_weights];
    rewrite clamp_exact by assumption; rewrite l1_threshold_exact.
  - split; [reflexivity|]. split; [apply Hbounds; assumption|]. auto.
  - split; [reflexivity|]. split; [apply Hbounds; assumption|]. discriminate.
Qed.

Lemma foldl_two_sums (f g : nat -> R) (l : list nat) (a b : R) :
  foldl (fun '(x, y) i => (x + f i, y + g i)) (a, b) l =
  (a + Rsum f l, b + Rsum g l).
Proof.
  revert a b. induction l as [|i l IH]; intros a b; cbn [foldl].
  - unfold Rsum. cbn. f_equal; lra.
  - rewrite IH. unfold Rsum. cbn [foldr]. f_equal; lra.
Qed.

Lemma Rsum_plus (f g : nat -> R) (l : list nat) :
  Rsum (fun i => f i + g i) l = Rsum f l + Rsum g l.
Proof.
  induction l as [|i l IH]; unfold Rsum in *; cbn; [lra|]. rewrite IH. lra.
Qed.

Lemma MeanSquaredErrorLoss_UpdateGradients_cells
    (dataset : VerticalDataset R) (label_col_idx : nat) (labels : list R)
    (predictions : list R) (g : GradientData R) :
  ColumnWithCast_NumericalColumn dataset label_col_idx = Returns labels ->
  exists gradient_after,
    MeanSquaredErrorLoss_UpdateGradients dataset label_col_idx predictions [g] =
      Returns (OkStatus, [{| gradient := gradient_after; hessian := hessian g |}]) /\
    length gradient_after = length (gradient g) /\
    forall i, gradient_after !!! i =
      if decide ((i < nrow dataset)%nat /\ (i < length (gradient g))%nat)
      then labels !!! i - predictions !!! i else gradient g !!! i.
Proof.
  intros Hlabels. unfold MeanSquaredErrorLoss_UpdateGradients.
  rewrite decide_False by (cbn; lia). rewrite Hlabels. cbn [mbind outcome_bind].
  destruct (foldl_update_cells
              (fun i (_ : R) => labels !!! i - predictions !!! i)
              0 (nrow dataset) (gradient g)) as [Hlen Hget].
  eexists. split; [reflexivity|]. split; [exact Hlen|].
  intros i. rewrite Hget. repeat case_decide; try reflexivity; lia.
Qed.

(** X16.  Under exact arithmetic the leaf of the squared error is the
    weighted mean of the gradients: for the gradients [UpdateGradients] wrote
    (the residuals [label - prediction]) and a leaf whose examples are rows
    of the dataset, the value [SetLeaf] writes times [W + L2 / 2] is the
    shrinkage times the sum of [w_i g_i]; and with a shrinkage of 1 and no
    regularization, adding this value to the predictions of the examples of
    the leaf makes their weighted residuals sum to zero. *)
Theorem MeanSquaredErrorLoss_leaf_is_mean_gradient
    (gbt_config_ : GradientBoostedTreesTrainingConfig R)
    (train_dataset : VerticalDataset R) (selected_examples : list nat)
    (weights predictions : list R) (label_col_idx : nat) (labels : list R)
    (g : GradientData R) (node : Node R) :
  ColumnWithCast_NumericalColumn train_dataset label_col_idx = Returns labels ->
  Forall (fun i => (i < nrow train_dataset)%nat /\ (i < length (gradient g))%nat)
         selected_examples ->
  let W := Rsum (fun i => weights !!! i) selected_examples in
  W + l2_regularization gbt_config_ / 2 <> 0 ->
  exists g' leaf,
    MeanSquaredErrorLoss_UpdateGradients train_dataset label_col_idx
      predictions [g] = Returns (OkStatus, [g']) /\
    MeanSquaredErrorLoss_SetLeaf gbt_config_ train_dataset selected_examples
      weights predictions label_col_idx node = Returns leaf /\
    top_value (regressor leaf) * (W + l2_regularization gbt_config_ / 2) =
      shrinkage gbt_config_ *
      Rsum (fun i => weights !!! i * gradient g' !!! i) selected_examples /\
    (shrinkage gbt_config_ = 1 -> l2_regularization gbt_config_ = 0 ->
     Rsum (fun i => weights !!! i *
                    (labels !!! i - (predictions !!! i + top_value (regressor leaf))))
          selected_examples = 0).
Proof.
  intros Hlabels Hrows W Hden.
  destruct (MeanSquaredErrorLoss_UpdateGradients_cells train_dataset
              label_col_idx labels predictions g Hlabels)
    as (gradient_after & Hupdate & _ & Hget).
  unfold MeanSquaredErrorLoss_SetLeaf. rewrite Hlabels.
  cbn [mbind outcome_bind].
  set (r := fun i : nat => weights !!! i * (labels !!! i - predictions !!! i)).
  set (w := fun i : nat => weights !!! i).
  pose proof (foldl_two_sums r w selected_examples 0 0) as Hsums.
  match goal with
  | |- context [foldl ?body ?init selected_examples] =>
      replace (foldl body init selected_examples)
        with (0 + Rsum r selected_examples, 0 + Rsum w selected_examples)
  end.
  rewrite !Rplus_0_l. change (Rsum w selected_examples) with W.
  eexists _, _. split; [exact Hupdate|]. split; [reflexivity|].
  cbn [top_value regressor set_top_value gradient].
  assert (Hgradients :
    Rsum (fun i => weights !!! i * gradient_after !!! i) selected_examples =
    Rsum r selected_examples).
  { apply Rsum_ext_elem. intros i Hi.
    rewrite Forall_forall in Hrows. destruct (Hrows i Hi).
    rewrite Hget, decide_True by tauto. reflexivity. }
  rewrite Hgradients.
  set (S := Rsum r selected_examples).
  change (cast binary32
            (fdiv binary64 (fmul binary64 (cast binary64 (shrinkage gbt_config_)) S)
               (fadd binary64 W
                  (cast binary64
                     (fdiv binary32 (l2_regularization gbt_config_)
                        (of_int binary32 2))))))
    with (shrinkage gbt_config_ * S / (W + l2_regularization gbt_config_ / 2)).
  split.
  - field. lra.
  - intros Hshrinkage Hl2. rewrite Hshrinkage, Hl2 in *.
    assert (HW : W <> 0) by lra.
    rewrite (Rsum_ext_elem _ (fun i => r i + w i * (- (1 * S / (W + 0 / 2))))).
    + rewrite Rsum_plus, Rsum_scale.
      change (Rsum r selected_examples) with S.
      change (Rsum w selected_examples) with W. field. lra.
    + intros i _. unfold r, w. lra.
Qed.

End LeavesExact.

(** ** The gradients of the binomial and multinomial losses *)

Section GradientShape.
Context {F : Type} `{Arith F}.

(** X17.  [UpdateGradients] of the binomial loss and of the squared error
    check the shape of the gradients before anything else: with a number of
    gradient vectors other than one they return an internal error and the
    gradients untouched, whatever the label column is; with one vector, what
    they return is a success that holds one vector. *)
Theorem UpdateGradients_wrong_gradient_shape
    (gbt_config_ : GradientBoostedTreesTrainingConfig F)
    (dataset : VerticalDataset F) (label_col_idx : nat)
    (predictions : list F) (gradients : list (GradientData F)) :
  let binomial :=
    BinomialLogLikelihoodLoss_UpdateGradients gbt_config_ dataset
      label_col_idx predictions gradients in
  let squared_error :=
    MeanSquaredErrorLoss_UpdateGradients dataset label_col_idx predictions
      gradients in
  (length gradients <> 1 ->
   binomial = Returns (InternalError "Wrong gradient shape", gradients) /\
   squared_error = Returns (InternalError "Wrong gradient shape", gradients)) /\
  (length gradients = 1 ->
   forall status gradients_after,
     binomial = Returns (status, gradients_after) \/
     squared_error = Returns (status, gradients_after) ->
     status = OkStatus /\ length gradients_after = 1).
Proof.
  cbn zeta. unfold BinomialLogLikelihoodLoss_UpdateGradients,
    MeanSquaredErrorLoss_UpdateGradients.
  split.
  - intros Hshape. rewrite !decide_True by exact Hshape. split; reflexivity.
  - intros Hshape status gradients_after.
    rewrite !decide_False by lia.
    destruct (ColumnWithCast_CategoricalColumn dataset label_col_idx),
             (ColumnWithCast_NumericalColumn dataset label_col_idx);
      cbn [mbind outcome_bind];
      try destruct (foldl _ (gradient (gradients !!! 0), _) _) as [g h];
      intros [Hreturn | Hreturn]; try discriminate;
      injection Hreturn as <- <-; rewrite length_insert; auto.
Qed.

End GradientShape.

Section GradientsExact.
Local Open Scope R_scope.

Lemma binomial_gradient_loop (grad hess : nat -> R) (l : list nat)
    (gradient_data : list R) (hessian_data : option (list R)) :
  foldl (fun '(gradient_data, hessian_data) example_idx =>
           (<[example_idx := grad example_idx]> gradient_data,
            match hessian_data with
            | Some hessian_data =>
                Some (<[example_idx := hess example_idx]> hessian_data)
            | None => None
            end))
        (gradient_data, hessian_data) l =
  (foldl (fun gradient_data example_idx =>
            <[example_idx := grad example_idx]> gradient_data) gradient_data l,
   (fun hessian_data =>
      foldl (fun hessian_data example_idx =>
               <[example_idx := hess example_idx]> hessian_data) hessian_data l)
   <$> hessian_data).
Proof.
  revert gradient_data hessian_data.
  induction l as [|i l IH]; intros gradient_data hessian_data; cbn [foldl].
  - destruct hessian_data; reflexivity.
  - rewrite IH. destruct hessian_data; reflexivity.
Qed.

(** X18.  Under exact arithmetic the binomial gradient of a row is
    [y - p], for [y] in [{0, 1}] the label and [p = 1 / (1 + exp (-
    prediction))], strictly between [-1] and [1]; with [use_hessian_gain] the
    hessian of the row is [p (1 - p)], in [(0, 1/4]], and without it the
    hessian vector is not written. *)
Theorem BinomialLogLikelihoodLoss_UpdateGradients_exact
    (gbt_config_ : GradientBoostedTreesTrainingConfig R)
    (dataset : VerticalDataset R) (label_col_idx : nat) (labels : list Z)
    (predictions : list R) (g : GradientData R) (example_idx : nat) :
  ColumnWithCast_CategoricalColumn dataset label_col_idx = Returns labels ->
  (example_idx < nrow dataset)%nat ->
  (example_idx < length (gradient g))%nat ->
  (example_idx < length (hessian g))%nat ->
  let y := if decide (labels !!! example_idx = 2%Z) then 1 else 0 in
  let p := 1 / (1 + exp (- predictions !!! example_idx)) in
  exists g',
    BinomialLogLikelihoodLoss_UpdateGradients gbt_config_ dataset
      label_col_idx predictions [g] = Returns (OkStatus, [g']) /\
    gradient g' !!! example_idx = y - p /\
    -1 < gradient g' !!! example_idx < 1 /\
    (if use_hessian_gain gbt_config_
     then hessian g' !!! example_idx = p * (1 - p) /\
          0 < hessian g' !!! example_idx <= 1 / 4
     else hessian g' = hessian g).
Proof.
  intros Hlabels Hrow Hgradient Hhessian y p.
  unfold BinomialLogLikelihoodLoss_UpdateGradients.
  rewrite decide_False by (cbn; lia). rewrite Hlabels.
  cbn [mbind outcome_bind].
  set (grad := fun i : nat =>
         (if bool_decide (labels !!! i = 2%Z) then 1 else 0) -
         1 / (1 + exp (- predictions !!! i))).
  set (hess := fun i : nat =>
         1 / (1 + exp (- predictions !!! i)) *
         (1 - 1 / (1 + exp (- predictions !!! i)))).
  pose proof (binomial_gradient_loop grad hess (seq 0 (nrow dataset))
                (gradient g)
                (if use_hessian_gain gbt_config_ then Some (hessian g) else None))
    as Hloop.
  match goal with
  | |- context [foldl ?body ?init (seq 0 (nrow dataset))] =>
      change (foldl body init (seq 0 (nrow dataset)))
        with (foldl (fun '(gradient_data, hessian_data) example_idx =>
                       (<[example_idx := grad example_idx]> gradient_data,
                        match hessian_data with
                        | Some hessian_data =>
                            Some (<[example_idx := hess example_idx]> hessian_data)
                        | None => None
                        end))
                    (gradient g,
                     if use_hessian_gain gbt_config_
                     then Some (hessian g) else None)
                    (seq 0 (nrow dataset)))
  end.
  rewrite Hloop. clear Hloop.
  destruct (foldl_update_cells (fun i (_ : R) => grad i) 0 (nrow dataset)
              (gradient g)) as [_ Hget_g].
  destruct (foldl_update_cells (fun i (_ : R) => hess i) 0 (nrow dataset)
              (hessian g)) as [_ Hget_h].
  pose proof (exp_pos (- predictions !!! example_idx)) as Hexp.
  assert (Hp : 0 < p < 1).
  { subst p. split.
    - apply Rdiv_lt_0_compat; lra.
    - apply (Rmult_lt_reg_r (1 + exp (- predictions !!! example_idx))); [lra|].
      field_simplify; lra. }
  assert (Hgrad : grad example_idx = y - p).
  { subst grad y p. cbn beta.
    destruct (decide (labels !!! example_idx = 2%Z)).
    - rewrite bool_decide_eq_true_2 by assumption. reflexivity.
    - rewrite bool_decide_eq_false_2 by assumption. reflexivity. }
  eexists. split; [reflexivity|]. cbn [gradient hessian].
  rewrite Hget_g, decide_True by lia. rewrite Hgrad.
  split; [reflexivity|]. split.
  - subst y. destruct (decide (labels !!! example_idx = 2%Z)); lra.
  - destruct (use_hessian_gain gbt_config_); cbn [fmap option_fmap option_map default].
    + rewrite Hget_h, decide_True by lia.
      change (hess example_idx) with (p * (1 - p)).
      split; [reflexivity|].
      pose proof (Rle_0_sqr (p - 1 / 2)) as Hsquare. unfold Rsqr in Hsquare.
      clearbody p. split; nra.
    + reflexivity.
Qed.

Lemma Rsum_app (f : nat -> R) (l1 l2 : list nat) :
  Rsum f (l1 ++ l2) = Rsum f l1 + Rsum f l2.
Proof.
  induction l1 as [|i l1 IH]; unfold Rsum in *; cbn; [lra|]. rewrite IH. lra.
Qed.

Lemma Rsum_indicator (label_cat : Z) (K : nat) :
  Rsum (fun k => if decide (label_cat = Z.of_nat k + 1)%Z then 1 else 0) (seq 0 K) =
  if decide (1 <= label_cat <= Z.of_nat K)%Z then 1 else 0.
Proof.
  induction K as [|K IH].
  - cbn. rewrite decide_False by lia. reflexivity.
  - rewrite seq_S, Rsum_app, IH. unfold Rsum. cbn [foldr plus].
    repeat case_decide; try lra; lia.
Qed.

Lemma multinomial_exp_accumulator_exact (predictions : list R)
    (K example_idx : nat) (accumulator : list R) :
  length accumulator = K ->
  let '(accumulator_after, sum_exp) :=
    multinomial_exp_accumulator predictions K example_idx accumulator in
  length accumulator_after = K /\
  (forall k, (k < K)%nat ->
     accumulator_after !!! k = exp (predictions !!! (k + example_idx * K)%nat)) /\
  sum_exp = Rsum (fun k => exp (predictions !!! (k + example_idx * K)%nat)) (seq 0 K).
Proof.
  intros Hlen. unfold multinomial_exp_accumulator.
  pose proof (foldl_pair
                (fun (accumulator : list R) k =>
                   <[k := exp (predictions !!! (k + example_idx * K)%nat)]> accumulator)
                (fun (s : R) k => s + exp (predictions !!! (k + example_idx * K)%nat))
                (seq 0 K) accumulator 0) as Hpair.
  match goal with
  | |- context [foldl ?body ?init (seq 0 K)] =>
      change (foldl body init (seq 0 K))
        with (foldl (fun '(x, y) i =>
                       (<[i := exp (predictions !!! (i + example_idx * K)%nat)]> x,
                        y + exp (predictions !!! (i + example_idx * K)%nat)))
                    (accumulator, 0) (seq 0 K))
  end.
  rewrite Hpair. clear Hpair.
  destruct (foldl_update_cells
              (fun k (_ : R) => exp (predictions !!! (k + example_idx * K)%nat))
              0 K accumulator) as [Hlen' Hget].
  split; [lia|]. split.
  - intros k Hk. rewrite Hget, decide_True by lia. reflexivity.
  - rewrite foldl_Rsum. lra.
Qed.

Lemma multinomial_write_gradients_cells (use_hessian_gain : bool)
    (accumulator : list R) (normalization : R) (label_cat : Z)
    (example_idx : nat) (gradients : list (GradientData R)) :
  let gradients_after :=
    multinomial_write_gradients use_hessian_gain accumulator normalization
      label_cat example_idx gradients in
  length gradients_after = length gradients /\
  forall k, (k < length gradients)%nat ->
    gradient (gradients_after !!! k) =
    <[example_idx :=
        (if decide (label_cat = Z.of_nat k + 1)%Z then 1 else 0) -
        accumulator !!! k * normalization]> (gradient (gradients !!! k)).
Proof.
  cbn zeta. unfold multinomial_write_gradients.
  destruct (foldl_update_cells
              (fun k (cell : GradientData R) =>
                 {| gradient :=
                      <[example_idx :=
                          (if decide (label_cat = Z.of_nat k + 1)%Z then 1 else 0) -
                          accumulator !!! k * normalization]> (gradient cell);
                    hessian :=
                      if use_hessian_gain
                      then <[example_idx :=
                               Rabs ((if decide (label_cat = Z.of_nat k + 1)%Z
                                      then 1 else 0) -
                                     accumulator !!! k * normalization) *
                               (1 - Rabs ((if decide (label_cat = Z.of_nat k + 1)%Z
                                           then 1 else 0) -
                                          accumulator !!! k * normalization))]>
                             (hessian cell)
                      else hessian cell |})
              0 (length gradients) gradients) as [Hlen Hget].
  split; [exact Hlen|].
  intros k Hk. rewrite Hget, decide_True by lia. reflexivity.
Qed.

(** X19.  Under exact arithmetic the multinomial gradients of a row add up
    to zero over the classes: [UpdateGradients] writes for the class [k + 1]
    the difference of the indicator of the label and of the softmax of the
    predictions of the row, and both add up to one when the label is one of
    the classes. *)
Theorem MultinomialLogLikelihoodLoss_UpdateGradients_sum_zero
    (gbt_config_ : GradientBoostedTreesTrainingConfig R)
    (dataset : VerticalDataset R) (label_col_idx : nat) (labels : list Z)
    (predictions : list R) (gradients : list (GradientData R))
    (example_idx : nat) :
  ColumnWithCast_CategoricalColumn dataset label_col_idx = Returns labels ->
  (example_idx < nrow dataset)%nat ->
  Forall (fun g => (example_idx < length (gradient g))%nat) gradients ->
  (1 <= labels !!! example_idx <= Z.of_nat (length gradients))%Z ->
  exists gradients_after,
    MultinomialLogLikelihoodLoss_UpdateGradients gbt_config_ dataset
      label_col_idx predictions gradients = Returns (OkStatus, gradients_after) /\
    length gradients_after = length gradients /\
    Rsum (fun k => gradient (gradients_after !!! k) !!! example_idx)
         (seq 0 (length gradients)) = 0.
Proof.
  intros Hlabels Hrow Hcells Hlabel.
  unfold MultinomialLogLikelihoodLoss_UpdateGradients. rewrite Hlabels.
  cbn [mbind outcome_bind]. cbv zeta.
  set (K := length gradients) in *.
  set (total := fun i : nat =>
         Rsum (fun k => exp (predictions !!! (k + i * K)%nat)) (seq 0 K)).
  set (grad := fun (k i : nat) =>
         (if decide (labels !!! i = Z.of_nat k + 1)%Z then 1 else 0) -
         exp (predictions !!! (k + i * K)%nat) * (1 / total i)).
  assert (Hloop : forall m, (m <= nrow dataset)%nat ->
    let st :=
      foldl (fun '(gradients, accumulator) example_idx =>
               let '(accumulator, sum_exp) :=
                 multinomial_exp_accumulator predictions K example_idx accumulator in
               (multinomial_write_gradients (use_hessian_gain gbt_config_)
                  accumulator (fdiv binary32 (of_int binary32 1) sum_exp)
                  (labels !!! example_idx) example_idx gradients,
                accumulator))
            (gradients, replicate K (of_int binary32 0)) (seq 0 m) in
    length st.1 = K /\ length st.2 = K /\
    forall k, (k < K)%nat ->
      length (gradient (st.1 !!! k)) = length (gradient (gradients !!! k)) /\
      forall i, gradient (st.1 !!! k) !!! i =
        if decide ((i < m)%nat /\ (i < length (gradient (gradients !!! k)))%nat)
        then grad k i else gradient (gradients !!! k) !!! i).
  { induction m as [|m IHm]; intros Hm; cbn zeta.
    - cbn [seq foldl fst snd]. split; [reflexivity|].
      split; [apply length_replicate|].
      intros k Hk. split; [reflexivity|]. intros i.
      rewrite decide_False by lia. reflexivity.
    - rewrite seq_S, foldl_app. cbn [foldl plus].
      destruct (IHm ltac:(lia)) as (Hlen_g & Hlen_a & Hget).
      destruct (foldl _ _ (seq 0 m)) as [gradients_m accumulator_m].
      cbn [fst snd] in *.
      pose proof (multinomial_exp_accumulator_exact predictions K m
                    accumulator_m Hlen_a) as Hexp.
      destruct (multinomial_exp_accumulator predictions K m accumulator_m)
        as [accumulator' sum_exp].
      destruct Hexp as (Hlen_a' & Hget_a & Hsum).
      destruct (multinomial_write_gradients_cells (use_hessian_gain gbt_config_)
                  accumulator' (fdiv binary32 (of_int binary32 1) sum_exp)
                  (labels !!! m) m gradients_m) as [Hlen_g' Hget_g].
      cbn [fst snd].
      split; [lia|]. split; [exact Hlen_a'|].
      intros k Hk. destruct (Hget k Hk) as [Hlen_k Hget_k].
      rewrite Hget_g by lia.
      split; [rewrite length_insert; exact Hlen_k|].
      intros i. destruct (decide (i = m)) as [-> | Hne].
      + destruct (decide (m < length (gradient (gradients !!! k)))%nat).
        * rewrite list_lookup_total_insert_eq by lia.
          destruct (decide ((m < S m)%nat /\ _)) as [_|Hno]; [|exfalso; lia].
          rewrite Hget_a, Hsum by exact Hk. reflexivity.
        * rewrite list_insert_ge by lia.
          rewrite Hget_k.
          destruct (decide ((m < m)%nat /\ _)) as [?|_]; [exfalso; lia|].
          destruct (decide ((m < S m)%nat /\ _)) as [?|_]; [exfalso; lia|].
          reflexivity.
      + rewrite list_lookup_total_insert_ne by lia. rewrite Hget_k.
        repeat case_decide; try reflexivity; lia. }
  specialize (Hloop (nrow dataset) (le_n _)). cbn zeta in Hloop.
  destruct (foldl _ _ (seq 0 (nrow dataset))) as [gradients_after accumulator].
  cbn [fst snd] in Hloop. destruct Hloop as (Hlen & _ & Hget).
  eexists. split; [reflexivity|]. split; [exact Hlen|].
  rewrite (Rsum_ext_elem _ (fun k => grad k example_idx)).
  2:{ intros k Hk. apply elem_of_seq in Hk.
      destruct (Hget k ltac:(lia)) as [_ Hget_k]. rewrite Hget_k.
      rewrite decide_True; [reflexivity|]. split; [exact Hrow|].
      rewrite Forall_forall in Hcells. apply Hcells.
      apply list_elem_of_lookup_total_2. fold K. lia. }
  unfold grad.
  rewrite (Rsum_ext_elem _
             (fun k => (if decide (labels !!! example_idx = Z.of_nat k + 1)%Z
                        then 1 else 0) +
                       exp (predictions !!! (k + example_idx * K)%nat) *
                       (- (1 / total example_idx)))) by (intros; lra).
  rewrite Rsum_plus, Rsum_scale, Rsum_indicator.
  rewrite decide_True by (fold K in Hlabel; lia).
  change (Rsum (fun k => exp (predictions !!! (k + example_idx * K)%nat)) (seq 0 K))
    with (total example_idx).
  assert (Htotal : 0 < total example_idx).
  { apply Rsum_pos; [|intros; apply exp_pos].
    destruct K; [lia|]. rewrite seq_S. intros Hnil.
    apply app_eq_nil in Hnil as [_ ?]. discriminate. }
  field. lra.
Qed.

End GradientsExact.

(** ** More on the ranking group index *)

Section InitializeGroups.
Context {F : Type} `{Arith F}.

Lemma Initialize_Returns_inv (dataset : VerticalDataset F)
    label_col_idx group_col_idx index :
  RankingGroupsIndices_Initialize dataset label_col_idx group_col_idx =
    Returns index ->
  exists label_values group_of,
    ColumnWithCast_NumericalColumn dataset label_col_idx = Returns label_values /\
    (forall i, i < nrow dataset ->
       row_group dataset group_col_idx i = Some (group_of i)) /\
    Forall (fun entry : Z * list (Item F) =>
              length entry.2 <= kMaximumItemsInRankingGroup)
           (map_to_list (fill_groups group_of label_values (nrow dataset))) /\
    groups_ index ≡ₚ
      make_group <$> map_to_list (fill_groups group_of label_values (nrow dataset)) /\
    num_items_ index = nrow dataset.
Proof.
  intros Hinit. unfold RankingGroupsIndices_Initialize in Hinit.
  destruct (ColumnWithCast_NumericalColumn _ _) as [label_values|];
    [|discriminate].
  cbn [mbind outcome_bind] in Hinit.
  destruct (fill_index _ _ _ _) as [tmp_groups|] eqn:Hfill; [|discriminate].
  cbn [mbind outcome_bind] in Hinit.
  destruct (sort_groups_items _) as [groups|] eqn:Hsort; [|discriminate].
  cbn [mbind outcome_bind mret outcome_ret] in Hinit. injection Hinit as <-.
  apply fill_index_Returns in Hfill as (group_of & -> & Hgroup_of).
  apply sort_groups_items_Returns in Hsort as [-> Hsmall]. cbn [app].
  exists label_values, group_of. split; [reflexivity|].
  split; [|split; [exact Hsmall|split; [apply std_sort_Permutation|reflexivity]]].
  intros i Hi. unfold row_group. rewrite Hgroup_of by exact Hi. reflexivity.
Qed.

(** X20.  When [Initialize] returns, the index groups the rows by the
    value of the group column: every row of the dataset is an item of exactly
    one group, the examples of a group are the rows whose group value is the
    identifier of the group, no two groups have the same identifier, and a
    group has at least one and at most 2000 items. *)
Theorem RankingGroupsIndices_Initialize_groups_rows_by_value
    (dataset : VerticalDataset F) (label_col_idx group_col_idx : nat)
    (index : RankingGroupsIndices F) :
  RankingGroupsIndices_Initialize dataset label_col_idx group_col_idx =
    Returns index ->
  all_example_indices index ≡ₚ seq 0 (nrow dataset) /\
  NoDup (group_idx <$> groups_ index) /\
  forall group, group ∈ groups_ index ->
    0 < length (items group) <= kMaximumItemsInRankingGroup /\
    forall i, i ∈ example_indices group <->
      i < nrow dataset /\
      row_group dataset group_col_idx i = Some (group_idx group).
Proof.
  intros Hinit.
  split; [exact (Initialize_example_indices _ _ _ _ Hinit)|].
  destruct (Initialize_Returns_inv _ _ _ _ Hinit)
    as (label_values & group_of & _ & Hrow_group & Hsmall & Hgroups & _).
  set (tmp_groups := fill_groups group_of label_values (nrow dataset)) in *.
  split.
  - rewrite Hgroups, <- list_fmap_compose.
    apply (NoDup_fst_map_to_list tmp_groups).
  - intros group Hgroup. rewrite Hgroups in Hgroup.
    apply list_elem_of_fmap in Hgroup as ([g l] & -> & Hentry).
    unfold example_indices, make_group. cbn [items group_idx fst snd].
    rewrite Forall_forall in Hsmall. pose proof (Hsmall _ Hentry) as Hlength.
    cbn [snd] in Hlength.
    apply elem_of_map_to_list in Hentry.
    pose proof (fill_groups_nonempty group_of label_values (nrow dataset)
                  g l Hentry) as Hnonempty. cbn in Hnonempty.
    pose proof (fill_groups_lookup group_of label_values (nrow dataset) g)
      as Hlookup.
    fold tmp_groups in Hlookup. rewrite Hentry in Hlookup.
    cbn [default from_option] in Hlookup. unfold Datatypes.id in Hlookup.
    rewrite (Permutation_length (std_sort_Permutation item_comp l)).
    split; [destruct l; [congruence|cbn in *; lia]|].
    intros i. rewrite (std_sort_Permutation item_comp l), Hlookup.
    assert (Hrows : forall rows : list nat,
              example_idx <$>
                ((fun i => {| relevance := label_values !!! i; example_idx := i |})
                   <$> rows) = rows).
    { induction rows as [|j rows IH]; cbn; [reflexivity|]. f_equal. exact IH. }
    rewrite Hrows, list_elem_of_filter, elem_of_seq.
    split.
    + intros [Hvalue Hi]. split; [lia|].
      rewrite Hrow_group by lia. congruence.
    + intros [Hi Hvalue]. rewrite Hrow_group in Hvalue by lia.
      split; [congruence|lia].
Qed.

Lemma sort_groups_items_small (tmp_groups : list (Z * list (Item F))) :
  Forall (fun entry => length entry.2 <= kMaximumItemsInRankingGroup) tmp_groups ->
  exists groups, sort_groups_items tmp_groups = Returns groups.
Proof.
  intros Hsmall. unfold sort_groups_items.
  erewrite (foldlM_Returns _
              (fun groups (entry : Z * list (Item F)) =>
                 groups ++ [make_group entry])).
  - eexists. reflexivity.
  - intros st [g l] Hentry. rewrite Forall_forall in Hsmall.
    specialize (Hsmall _ Hentry). cbn [snd] in Hsmall. cbn zeta.
    rewrite decide_False; [reflexivity|].
    rewrite (Permutation_length (std_sort_Permutation item_comp l)). lia.
Qed.

(** X21.  [Initialize] returns an index exactly when the label column is
    numerical, the group column is categorical or hashed (or the dataset has
    no row: the type of the group column is looked at row by row), and no
    group value is carried by more than 2000 rows; in every other case it
    ends the process. *)
Theorem RankingGroupsIndices_Initialize_returns_iff
    (dataset : VerticalDataset F) (label_col_idx group_col_idx : nat) :
  (exists index,
     RankingGroupsIndices_Initialize dataset label_col_idx group_col_idx =
     Returns index) <->
  (exists label_values,
     ColumnWithCast_NumericalColumn dataset label_col_idx = Returns label_values) /\
  (nrow dataset = 0 \/
   is_Some (ColumnWithCastOrNull_CategoricalColumn dataset group_col_idx) \/
   is_Some (ColumnWithCastOrNull_HashColumn dataset group_col_idx)) /\
  (forall group_value,
     ranking_group_size dataset group_col_idx group_value <=
     kMaximumItemsInRankingGroup).
Proof.
  split.
  - intros [index Hinit].
    destruct (Initialize_Returns_inv _ _ _ _ Hinit)
      as (label_values & group_of & Hlabels & Hrow_group & _).
    split; [eauto|]. split.
    + destruct (nrow dataset) as [|n] eqn:Hn; [left; reflexivity|right].
      specialize (Hrow_group 0 ltac:(lia)). unfold row_group, group_value_of in Hrow_group.
      destruct (ColumnWithCastOrNull_CategoricalColumn dataset group_col_idx);
        [left; eauto|].
      destruct (ColumnWithCastOrNull_HashColumn dataset group_col_idx);
        [right; eauto|discriminate].
    + intros group_value.
      destruct (decide (ranking_group_size dataset group_col_idx group_value <=
                        kMaximumItemsInRankingGroup)) as [|Hbig]; [assumption|].
      destruct (Initialize_Fatal_of_large_group dataset label_col_idx
                  group_col_idx group_value ltac:(lia)) as [message Hfatal].
      congruence.
  - intros ([label_values Hlabels] & Hcolumn & Hsmall).
    unfold RankingGroupsIndices_Initialize. rewrite Hlabels.
    cbn [mbind outcome_bind].
    assert (Hfill : exists tmp_groups,
              fill_index label_values
                (ColumnWithCastOrNull_CategoricalColumn dataset group_col_idx)
                (ColumnWithCastOrNull_HashColumn dataset group_col_idx)
                (nrow dataset) = Returns tmp_groups).
    { unfold fill_index.
      destruct Hcolumn as [-> | [[values Hvalues] | [values Hvalues]]].
      - eexists. reflexivity.
      - rewrite Hvalues. erewrite foldlM_Returns; [eexists; reflexivity|].
        reflexivity.
      - rewrite Hvalues.
        destruct (ColumnWithCastOrNull_CategoricalColumn dataset group_col_idx);
          (erewrite foldlM_Returns; [eexists; reflexivity|]); reflexivity. }
    destruct Hfill as [tmp_groups Hfill]. rewrite Hfill.
    cbn [mbind outcome_bind].
    apply fill_index_Returns in Hfill as (group_of & -> & Hgroup_of).
    destruct (sort_groups_items_small
                (map_to_list (fill_groups group_of label_values (nrow dataset))))
      as [groups ->].
    + apply Forall_forall. intros [g l] Hentry. cbn [snd].
      apply elem_of_map_to_list in Hentry.
      pose proof (fill_groups_lookup group_of label_values (nrow dataset) g)
        as Hlookup.
      rewrite Hentry in Hlookup. cbn [default from_option] in Hlookup.
      unfold Datatypes.id in Hlookup.
      rewrite Hlookup, length_fmap.
      replace (length (filter (fun i => group_of i = g) (seq 0 (nrow dataset))))
        with (ranking_group_size dataset group_col_idx g); [apply Hsmall|].
      unfold ranking_group_size. f_equal. apply filter_ext_elem.
      intros i Hi. apply elem_of_seq in Hi. unfold row_group.
      rewrite Hgroup_of by lia. split; congruence.
    + cbn. eexists. reflexivity.
Qed.

End InitializeGroups.

(** ** LambdaMART on groups of equal relevance *)

Section EqualRelevance.
Context {F : Type} `{Arith F} `{Externals F}.

Lemma shuffled_in_ground_idx_in_range (predictions : list F) (group : Group F)
    (l : list (F * nat)) (i : nat) :
  l ≡ₚ imap (fun item_idx item => (predictions !!! example_idx item, item_idx))
            (items group) ->
  i < length l ->
  (l !!! i).2 < length (items group).
Proof.
  intros Hperm Hi.
  assert (Hin : l !!! i ∈ l) by (apply list_elem_of_lookup_total_2; assumption).
  remember (l !!! i) as x eqn:Hx. clear Hx.
  rewrite Hperm in Hin.
  apply list_elem_of_lookup in Hin as [j Hj].
  rewrite list_lookup_imap in Hj.
  destruct (items group !! j) as [item|] eqn:Hitem; [|discriminate].
  cbn in Hj. injection Hj as <-. cbn.
  apply lookup_lt_is_Some. eauto.
Qed.

Lemma group_forces_equal_relevances
    (gbt_config_ : GradientBoostedTreesTrainingConfig F)
    (predictions g h : list F) (random : RandomEngine) (group : Group F) :
  (forall a b, a ∈ items group -> b ∈ items group ->
     feq (relevance a) (relevance b) = true) ->
  (group_forces gbt_config_ predictions (g, h, random) group).1 = (g, h).
Proof.
  intros Hequal. unfold group_forces.
  destruct (shuffle _ random) as [shuffled random'] eqn:Hshuffle.
  set (sorted := std_sort _ shuffled).
  assert (Hperm : sorted ≡ₚ
            imap (fun item_idx item => (predictions !!! example_idx item, item_idx))
                 (items group)).
  { subst sorted. rewrite std_sort_Permutation.
    pose proof (shuffle_Permutation _
                  (imap (fun item_idx item =>
                           (predictions !!! example_idx item, item_idx))
                        (items group)) random) as Hs.
    rewrite Hshuffle in Hs. exact Hs. }
  assert (Hitem : forall i, i < length sorted ->
            items group !!! (sorted !!! i).2 ∈ items group).
  { intros i Hi. apply list_elem_of_lookup_total_2.
    eapply shuffled_in_ground_idx_in_range; eassumption. }
  match goal with
  | |- context [foldl ?f ?a (seq 0 (length sorted))] =>
      pose proof (foldl_invariant_elem
        (fun st : list F * list F => st = (g, h))
        f (seq 0 (length sorted)) a) as Houter
  end.
  destruct (foldl _ _ (seq 0 (length sorted))) as [g' h']. cbn [fst].
  apply Houter; [reflexivity|].
  intros st item_1_idx H1 ->. apply elem_of_seq in H1.
  apply foldl_invariant_elem; [reflexivity|].
  intros st item_2_idx H2 ->. apply elem_of_seq in H2.
  unfold pair_force.
  rewrite (Hequal _ _ (Hitem item_1_idx ltac:(lia)) (Hitem item_2_idx ltac:(lia))).
  reflexivity.
Qed.

(** X22.  When the items of every group have equal relevances,
    [NDCGLoss::UpdateGradients] leaves every gradient and every hessian at
    zero: a pair of items of the same relevance exerts no force. *)
Theorem NDCGLoss_UpdateGradients_equal_relevances
    (gbt_config_ : GradientBoostedTreesTrainingConfig F)
    (predictions : list F) (ranking_index : RankingGroupsIndices F)
    (gradients : list (GradientData F)) (random : RandomEngine) :
  (forall group a b,
     group ∈ groups_ ranking_index -> a ∈ items group -> b ∈ items group ->
     feq (relevance a) (relevance b) = true) ->
  let '(status, gradients_after, _) :=
    NDCGLoss_UpdateGradients gbt_config_ predictions ranking_index
      gradients random in
  status = OkStatus /\
  gradient (gradients_after !!! 0) =
    replicate (length (gradient (gradients !!! 0))) (of_int binary32 0) /\
  hessian (gradients_after !!! 0) =
    replicate (length (hessian (gradients !!! 0))) (of_int binary32 0).
Proof.
  intros Hequal. unfold NDCGLoss_UpdateGradients.
  match goal with
  | |- context [foldl ?f ?a (groups_ ranking_index)] =>
      pose proof (foldl_invariant_elem
          (fun st : list F * list F * RandomEngine =>
             st.1 = (replicate (length (gradient (gradients !!! 0)))
                       (of_int binary32 0),
                     replicate (length (hessian (gradients !!! 0)))
                       (of_int binary32 0)))
          f (groups_ ranking_index) a) as Hloop
  end.
  destruct (foldl _ _ (groups_ ranking_index)) as [[g' h'] random'].
  cbn [fst] in Hloop.
  assert (Hst : (g', h') =
                (replicate (length (gradient (gradients !!! 0))) (of_int binary32 0),
                 replicate (length (hessian (gradients !!! 0))) (of_int binary32 0))).
  { apply Hloop; [reflexivity|].
    intros [[g h] r] group Hgroup Hst. cbn [fst] in Hst. injection Hst as -> ->.
    apply group_forces_equal_relevances. intros a b. apply Hequal, Hgroup. }
  injection Hst as -> ->.
  split; [reflexivity|].
  destruct gradients as [|first rest]; cbn; split; reflexivity.
Qed.

End EqualRelevance.

(** ** The values of the evaluation, under exact arithmetic *)

Section LossExact.
Context `{Externals R} `{HasNaN R}.
Local Open Scope R_scope.

Lemma Resize_one_insert (v x : R) (l : list R) : <[0%nat := x]> (Resize 1 v l) = [x].
Proof.
  pose proof (length_Resize 1 v l) as Hlen.
  destruct (Resize 1 v l) as [|y [|z rest]]; cbn in *; try discriminate.
  reflexivity.
Qed.

Lemma log_loss_positive (y : bool) (prediction : R) :
  0 < ln (1 + exp prediction) - IZR (if y then 1 else 0) * prediction.
Proof.
  pose proof (exp_pos prediction) as Hexp.
  destruct y.
  - assert (ln (exp prediction) < ln (1 + exp prediction))
      by (apply ln_increasing; lra).
    rewrite ln_exp in *. lra.
  - assert (ln 1 < ln (1 + exp prediction)) by (apply ln_increasing; lra).
    rewrite ln_1 in *. lra.
Qed.

(** X23.  Under exact arithmetic, on weights that are not negative and not
    all zero, [Loss] of the binomial loss returns a positive loss and, as
    its one secondary metric, an accuracy between 0 and 1. *)
Theorem BinomialLogLikelihoodLoss_Loss_exact_bounds
    (dataset : VerticalDataset R) (label_col_idx : nat) (labels : list Z)
    (predictions weights : list R)
    (ranking_index : option (RankingGroupsIndices R))
    (loss_value : R) (secondary_metric : list R) :
  ColumnWithCast_CategoricalColumn dataset label_col_idx = Returns labels ->
  (forall i, (i < nrow dataset)%nat -> 0 <= weights !!! i) ->
  0 < Rsum (fun i => weights !!! i) (seq 0 (nrow dataset)) ->
  exists loss accuracy,
    BinomialLogLikelihoodLoss_Loss dataset label_col_idx predictions weights
      ranking_index loss_value secondary_metric =
      Returns (OkStatus, loss, [accuracy]) /\
    0 < loss /\ 0 <= accuracy <= 1.
Proof.
  intros Hlabels Hweights Htotal. unfold BinomialLogLikelihoodLoss_Loss.
  rewrite Hlabels. cbn [mbind outcome_bind].
  match goal with
  | |- context [foldl ?body ?init (seq 0 (nrow dataset))] =>
      assert (Hloop : forall n, (n <= nrow dataset)%nat ->
        let '(sum_loss, count_correct_predictions, sum_weights) :=
          foldl body init (seq 0 n) in
        sum_weights = Rsum (fun i => weights !!! i) (seq 0 n) /\
        0 <= count_correct_predictions <= sum_weights /\
        0 <= sum_loss /\ (0 < sum_weights -> 0 < sum_loss))
  end.
  { induction n as [|n IH]; intros Hn.
    - cbn. unfold Rsum. cbn. repeat split; lra.
    - rewrite seq_S, foldl_app, Rsum_app. cbn [foldl plus].
      specialize (IH ltac:(lia)).
      destruct (foldl _ _ (seq 0 n)) as [[sum_loss count] sum_weights].
      destruct IH as (Hsum & Hcount & Hloss & Hpositive).
      pose proof (Hweights n ltac:(lia)) as Hw.
      pose proof (log_loss_positive (bool_decide (labels !!! n = 2%Z))
                    (predictions !!! n)) as Hterm.
      unfold of_bool. cbn [of_int cast fadd fsub fmul f_exp f_log Exact.arith].
      set (term := ln (1 + exp (predictions !!! n)) -
                   IZR (if bool_decide (labels !!! n = 2%Z) then 1 else 0) *
                   predictions !!! n) in *.
      replace (sum_loss -
               2 * weights !!! n *
               (IZR (if bool_decide (labels !!! n = 2%Z) then 1 else 0) *
                predictions !!! n - ln (1 + exp (predictions !!! n))))
        with (sum_loss + 2 * weights !!! n * term) by (subst term; ring).
      assert (Hproduct : 0 <= weights !!! n * term) by nra.
      assert (Hstrict : 0 < weights !!! n -> 0 < weights !!! n * term) by nra.
      unfold Rsum at 2. cbn [foldr].
      split; [lra|].
      split; [destruct (decide _); lra|].
      split; [lra|].
      intros Hsw. destruct (Rlt_dec 0 sum_weights) as [Hold|Hnew].
      + specialize (Hpositive Hold). lra.
      + assert (0 < weights !!! n) by lra. specialize (Hstrict ltac:(lra)). lra. }
  specialize (Hloop (nrow dataset) (le_n _)).
  destruct (foldl _ _ (seq 0 (nrow dataset))) as [[sum_loss count] sum_weights].
  destruct Hloop as (Hsum & Hcount & Hloss & Hpositive).
  rewrite <- Hsum in Htotal. specialize (Hpositive Htotal).
  unfold fgt. cbn [flt of_int Exact.arith].
  destruct (Rlt_dec 0 sum_weights) as [_|]; [|lra].
  rewrite Resize_one_insert.
  eexists _, _. split; [reflexivity|].
  cbn [cast fdiv Exact.arith].
  split; [apply Rdiv_lt_0_compat; lra|].
  split.
  - apply Rmult_le_pos; [lra|]. apply Rlt_le, Rinv_0_lt_compat. lra.
  - apply (Rmult_le_reg_r sum_weights); [lra|]. field_simplify; lra.
Qed.

Lemma NDCG_fold_bounds (index_groups : list (Group R))
    (predictions weights : list R) (truncation : nat) (lo hi a b : R) :
  (forall group, group ∈ index_groups ->
     0 <= weights !!! example_idx (items group !!! 0%nat) /\
     lo <= NDCGCalculator_NDCG truncation
             (ExtractPredAndLabelRelevance (items group) predictions) <= hi) ->
  let '(sum_weighted_ndcg, sum_weights) :=
    foldl (fun '(sum_weighted_ndcg, sum_weights) group =>
             let weight := weights !!! example_idx (items group !!! 0%nat) in
             let pred_and_label_relevance :=
               ExtractPredAndLabelRelevance (items group) predictions in
             (fadd binary64 sum_weighted_ndcg
                (fmul binary64 (cast binary64 weight)
                   (NDCGCalculator_NDCG truncation pred_and_label_relevance)),
              fadd binary64 sum_weights (cast binary64 weight)))
          (a, b) index_groups in
  b <= sum_weights /\
  lo * (sum_weights - b) <= sum_weighted_ndcg - a <= hi * (sum_weights - b) /\
  ((exists group, group ∈ index_groups /\
      0 < weights !!! example_idx (items group !!! 0%nat)) ->
   b < sum_weights).
Proof.
  revert a b. induction index_groups as [|group groups IH]; intros a b Hgroups.
  - cbn. split; [lra|]. split; [lra|].
    intros (group & Hgroup & _). apply elem_of_nil in Hgroup. contradiction.
  - cbn [foldl].
    destruct (Hgroups group ltac:(left)) as [Hweight Hndcg].
    specialize (IH (fadd binary64 a
                      (fmul binary64
                         (cast binary64
                            (weights !!! example_idx (items group !!! 0%nat)))
                         (NDCGCalculator_NDCG truncation
                            (ExtractPredAndLabelRelevance (items group) predictions))))
                   (fadd binary64 b
                      (cast binary64
                         (weights !!! example_idx (items group !!! 0%nat))))
                   ltac:(intros g Hg; apply Hgroups; right; exact Hg)).
    destruct (foldl _ _ groups) as [sum_weighted_ndcg sum_weights].
    cbn [fadd fmul cast Exact.arith] in IH.
    set (w := weights !!! example_idx (items group !!! 0%nat)) in *.
    set (n := NDCGCalculator_NDCG truncation
                (ExtractPredAndLabelRelevance (items group) predictions)) in *.
    destruct IH as (Hb & Hsum & Hpositive).
    split; [lra|]. split; [nra|].
    intros (g & Hg & Hpos). apply elem_of_cons in Hg as [-> | Hg].
    + fold w in Hpos. lra.
    + specialize (Hpositive ltac:(eauto)). lra.
Qed.

(** X24.  Under exact arithmetic the NDCG of an index is a weighted mean
    of the NDCG of its groups: when the weight of no group is negative, the
    weight of some group is positive and the NDCG of every group is between
    two bounds, [Loss] of the NDCG loss returns as secondary metric a value
    between these bounds, and its opposite as loss. *)
Theorem NDCGLoss_Loss_exact_bounds
    (dataset : VerticalDataset R) (label_col_idx : nat)
    (predictions weights : list R) (index : RankingGroupsIndices R)
    (loss_value : R) (secondary_metric : list R) (lo hi : R) :
  (forall group, group ∈ groups_ index ->
     0 <= weights !!! example_idx (items group !!! 0%nat) /\
     lo <= NDCGCalculator_NDCG kNDCG5Truncation
             (ExtractPredAndLabelRelevance (items group) predictions) <= hi) ->
  (exists group, group ∈ groups_ index /\
     0 < weights !!! example_idx (items group !!! 0%nat)) ->
  exists ndcg,
    NDCGLoss_Loss dataset label_col_idx predictions weights (Some index)
      loss_value secondary_metric = Returns (OkStatus, - ndcg, [ndcg]) /\
    lo <= ndcg <= hi.
Proof.
  intros Hgroups Hpositive. unfold NDCGLoss_Loss, RankingGroupsIndices_NDCG.
  pose proof (NDCG_fold_bounds (groups_ index) predictions weights
                kNDCG5Truncation lo hi 0 0 Hgroups) as Hfold.
  cbn [of_int Exact.arith].
  destruct (foldl _ _ (groups_ index)) as [sum_weighted_ndcg sum_weights].
  destruct Hfold as (_ & Hsum & Hweights). specialize (Hweights Hpositive).
  rewrite Resize_one_insert.
  eexists. split; [reflexivity|].
  cbn [cast fdiv Exact.arith].
  rewrite !Rminus_0_r in Hsum.
  split.
  - apply (Rmult_le_reg_r sum_weights); [lra|]. field_simplify; lra.
  - apply (Rmult_le_reg_r sum_weights); [lra|]. field_simplify; lra.
Qed.

End LossExact.

(** ** The export of a prediction: [PredictionToExample] *)

Section ExportGeneric.
Context {F : Type} `{Arith F}.

Lemma foldl_append_lookups {A B} `{Inhabited A} (f : A -> B) (l : list A)
    (s m : nat) (acc : list B) :
  s + m <= length l ->
  foldl (fun acc k => acc ++ [f (l !!! k)]) acc (seq s m) =
  acc ++ (f <$> take m (drop s l)).
Proof.
  revert s acc. induction m as [|m IH]; intros s acc Hlen; cbn [seq foldl].
  - rewrite take_0. cbn. rewrite app_nil_r. reflexivity.
  - destruct (lookup_lt_is_Some_2 l s ltac:(lia)) as [x Hx].
    rewrite IH by lia.
    rewrite (drop_S l x s Hx). cbn [take fmap list_fmap].
    rewrite (list_lookup_total_correct l s x Hx), <- app_assoc. reflexivity.
Qed.

(** The loop of [PredictionToExample] on the classes, from the second
    one. *)
Lemma PredictionToExample_probabilities (dist_counts : list F) (dist_sum : F) :
  foldl (fun prediction_as_example label_value =>
           let prediction_proba :=
             fdiv binary32 (dist_counts !!! label_value) dist_sum in
           prediction_as_example ++ [Numerical prediction_proba])
        [] (seq 1 (length dist_counts - 1)) =
  (fun count => Numerical (fdiv binary32 count dist_sum)) <$> drop 1 dist_counts.
Proof.
  destruct dist_counts as [|first rest]; [reflexivity|].
  cbn [length]. replace (S (length rest) - 1) with (length rest) by lia.
  rewrite (foldl_append_lookups
             (fun count => Numerical (fdiv binary32 count dist_sum))
             (first :: rest) 1 (length rest) []) by (cbn; lia).
  change (drop 1 (first :: rest)) with rest.
  rewrite take_ge by lia. reflexivity.
Qed.

(** X25.  For a classification [PredictionToExample] fails exactly when
    the number of counts of the predicted distribution is not the number of
    unique values of the label column; otherwise the example it returns
    holds, for every class but the first one (the value out of the
    dictionary), the count of the class divided by the sum of the
    distribution.  What the example held before is dropped in both cases. *)
Theorem PredictionToExample_classification (label_col : proto_Column)
    (prediction : Prediction F) (prediction_as_example : Example F) :
  let dist := distribution (mutable_classification prediction) in
  PredictionToExample CLASSIFICATION label_col prediction prediction_as_example =
  if decide (static_cast_int (number_of_unique_values label_col) =
             Z.of_nat (length (counts dist)))
  then (OkStatus,
        (fun count => Numerical (fdiv binary32 count (sum dist))) <$>
          drop 1 (counts dist))
  else (InvalidArgumentError "Wrong number of classes.", []).
Proof.
  cbn zeta. unfold PredictionToExample.
  set (dist := distribution (mutable_classification prediction)).
  destruct (decide (static_cast_int (number_of_unique_values label_col) =
                    Z.of_nat (length (counts dist)))) as [Hsize | Hsize].
  - rewrite decide_False by (intros Hne; apply Hne; exact Hsize).
    rewrite Hsize, Nat2Z.id. f_equal.
    apply PredictionToExample_probabilities.
  - rewrite decide_True by exact Hsize. reflexivity.
Qed.

(** X26.  A squared error model of a ranking exports its accumulated value
    when it predicts on a row of a dataset, and zero when it predicts on an
    example: this overload sets the regression value, and
    [PredictionToExample] reads the relevance of a ranking, which is not
    set. *)
Theorem PredictionToExample_of_SquaredError_ranking
    (initial_predictions : list F) (num_trees_per_iter : nat)
    (decision_trees : list (DecisionTree F))
    (dataset : VerticalDataset F) (row_idx : nat) (example : Example F)
    (prediction : Prediction F) (label_col : proto_Column)
    (prediction_as_example : Example F) :
  let model :=
    {| task := RANKING; loss_ := SQUARED_ERROR;
       initial_predictions_ := initial_predictions;
       num_trees_per_iter_ := num_trees_per_iter;
       decision_trees_ := decision_trees |} in
  (exists predicted,
     Predict model dataset row_idx prediction = Returns predicted /\
     PredictionToExample (task model) label_col predicted prediction_as_example =
     (OkStatus, [Numerical (cast binary32 (sum_of_leaves model dataset row_idx))])) /\
  (exists predicted,
     Predict_Example model example prediction = Returns predicted /\
     PredictionToExample (task model) label_col predicted prediction_as_example =
     (OkStatus, [Numerical (of_int binary32 0)])).
Proof. split; eexists; split; reflexivity. Qed.

End ExportGeneric.

Section ExportExact.
Local Open Scope R_scope.

(** X27.  Under exact arithmetic, what a multinomial model exports for a
    row: when the label column has one more unique value than the model has
    trees in an iteration, the softmax of the accumulated logits, one
    probability per class; an error otherwise. *)
Theorem PredictionToExample_of_multinomial_Predict
    (model : GradientBoostedTreesModel R) (dataset : VerticalDataset R)
    (row_idx : nat) (prediction : Prediction R) (label_col : proto_Column)
    (prediction_as_example : Example R) :
  loss_ model = MULTINOMIAL_LOG_LIKELIHOOD ->
  let K := num_trees_per_iter_ model in
  let accumulator := (multinomial_accumulator model dataset row_idx).1 in
  let total := Rsum (fun j => exp (accumulator !!! j)) (seq 0 K) in
  exists predicted,
    Predict model dataset row_idx prediction = Returns predicted /\
    PredictionToExample CLASSIFICATION label_col predicted prediction_as_example =
    if decide (static_cast_int (number_of_unique_values label_col) =
               Z.of_nat (K + 1))
    then (OkStatus,
          (fun k => Numerical (exp (accumulator !!! k) / total)) <$> seq 0 K)
    else (InvalidArgumentError "Wrong number of classes.", []).
Proof.
  intros Hloss K accumulator total.
  destruct (Predict_multinomial_exact_counts model dataset row_idx prediction Hloss)
    as (hi & cells & Hpredict & Hlen & Hcells & _).
  fold K accumulator total in Hcells, Hlen.
  eexists. split; [exact Hpredict|].
  unfold PredictionToExample.
  cbn [mutable_classification distribution counts sum]. rewrite Hlen.
  destruct (decide (static_cast_int (number_of_unique_values label_col) =
                    Z.of_nat (K + 1))) as [Hsize | Hsize];
    [rewrite decide_False by (intros Hne; apply Hne; exact Hsize)
    |rewrite decide_True by exact Hsize; reflexivity].
  rewrite Hsize, Nat2Z.id, <- Hlen. f_equal.
  rewrite PredictionToExample_probabilities.
  apply list_eq. intros k.
  rewrite !list_lookup_fmap, lookup_drop.
  destruct (decide (k < K)%nat) as [Hk | Hk].
  - replace (1 + k)%nat with (k + 1)%nat by lia.
    rewrite (Hcells k Hk), lookup_seq_lt by exact Hk. cbn.
    do 2 f_equal. field.
    apply Rgt_not_eq. apply Rsum_pos; [|intros; apply exp_pos].
    destruct K; [lia|]. rewrite seq_S. intros Hnil.
    apply app_eq_nil in Hnil as [_ ?]. discriminate.
  - rewrite (lookup_ge_None_2 cells) by lia.
    rewrite lookup_seq_ge by lia. reflexivity.
Qed.

End ExportExact.

(** ** The gradients of the cross-entropy NDCG loss *)

Section CrossEntropyNDCGGeneric.
Context {F : Type} `{Arith F} `{Externals F} `{!XeNdcgExternals F}.

Lemma xe_ndcg_group_ONE_random (predictions : list F)
    (st : list F * list F * RandomEngine) (group : Group F) :
  (xe_ndcg_group XeNdcg_ONE predictions st group).2 = st.2.
Proof.
  unfold xe_ndcg_group. destruct st as [[g h] random]. cbn [snd].
  case_decide; [reflexivity|]. cbn [xe_ndcg_params].
  destruct (foldl _ (_, of_int binary32 0) _) as [params1 inv_denominator].
  destruct (feq inv_denominator (of_int binary32 0)); [reflexivity|].
  destruct (foldl _ (g, params1, of_int binary32 0) _) as [[g1 params2] sum_l1].
  destruct (foldl _ (g1, params2, of_int binary32 0) _) as [[g2 params3] sum_l2].
  destruct (foldl _ (g2, h) _) as [g3 h3]. reflexivity.
Qed.

(** X28.  With [gamma] set to [ONE] the cross-entropy NDCG loss draws
    nothing from the random engine: [UpdateGradients] hands it back as it
    received it, on any predictions, groups and gradients. *)
Theorem CrossEntropyNDCGLoss_UpdateGradients_ONE_keeps_random
    (predictions : list F) (ranking_index : RankingGroupsIndices F)
    (gradients : list (GradientData F)) (random : RandomEngine) :
  (CrossEntropyNDCGLoss_UpdateGradients XeNdcg_ONE predictions ranking_index
     gradients random).2 = random.
Proof.
  unfold CrossEntropyNDCGLoss_UpdateGradients.
  match goal with
  | |- context [foldl ?f ?a ?l] =>
      pose proof (foldl_invariant
        (fun st : list F * list F * RandomEngine => st.2 = random) f l a) as Hinv
  end.
  destruct (foldl _ _ (groups_ ranking_index)) as [[g h] random']. cbn [snd] in *.
  apply Hinv; [reflexivity|].
  intros st group Hst. rewrite xe_ndcg_group_ONE_random. exact Hst.
Qed.

Lemma xe_ndcg_group_skips_small (gamma : XeNdcg_Gamma) (predictions : list F)
    (st : list F * list F * RandomEngine) (group : Group F) :
  length (items group) <= 1 ->
  xe_ndcg_group gamma predictions st group = st.
Proof.
  intros Hsmall. unfold xe_ndcg_group. destruct st as [[g h] random].
  rewrite decide_True by exact Hsmall. reflexivity.
Qed.

(** X29.  Groups of at most one item give the cross-entropy NDCG loss
    nothing to rank: when no group has two items, [UpdateGradients] leaves
    every gradient and every hessian of the first dimension at zero and the
    random engine untouched, whatever [gamma] is. *)
Theorem CrossEntropyNDCGLoss_UpdateGradients_without_pairs
    (gamma : XeNdcg_Gamma) (predictions : list F)
    (ranking_index : RankingGroupsIndices F)
    (gradients : list (GradientData F)) (random : RandomEngine) :
  Forall (fun group => length (items group) <= 1) (groups_ ranking_index) ->
  CrossEntropyNDCGLoss_UpdateGradients gamma predictions ranking_index
    gradients random =
  (OkStatus,
   <[0 := {| gradient :=
               replicate (length (gradient (gradients !!! 0))) (of_int binary32 0);
             hessian :=
               replicate (length (hessian (gradients !!! 0))) (of_int binary32 0) |}]>
     gradients,
   random).
Proof.
  intros Hsmall. unfold CrossEntropyNDCGLoss_UpdateGradients.
  match goal with
  | |- context [foldl ?f ?a ?l] =>
      assert (Hfold : foldl f a l = a)
  end.
  { apply foldl_invariant_elem; [reflexivity|].
    intros st group Hin ->. apply xe_ndcg_group_skips_small.
    rewrite Forall_forall in Hsmall. apply Hsmall, Hin. }
  rewrite Hfold. reflexivity.
Qed.

End CrossEntropyNDCGGeneric.

Section InsertAll.
Context {A : Type} `{Inhabited A}.

(** A loop that writes a cell per index: the cells it does not reach keep
    what they had. *)
Lemma foldl_insert_covering (Q : A -> Prop) (g : list A -> nat -> A)
    (idxs : list nat) (l : list A) :
  (forall l i, Q (g l i)) ->
  (forall j, j < length l -> j ∈ idxs \/ Q (l !!! j)) ->
  Forall Q (foldl (fun l i => <[i := g l i]> l) l idxs).
Proof.
  intros Hg. revert l. induction idxs as [|i idxs IH]; intros l Hcover; cbn [foldl].
  - apply Forall_lookup. intros j x Hx.
    destruct (Hcover j) as [Hin | HQ].
    + apply lookup_lt_is_Some. eauto.
    + apply elem_of_nil in Hin. contradiction.
    + rewrite (list_lookup_total_correct _ _ _ Hx) in HQ. exact HQ.
  - apply IH. intros j Hj. rewrite length_insert in Hj.
    destruct (decide (j = i)) as [-> | Hne].
    + right. rewrite list_lookup_total_insert_eq by exact Hj. apply Hg.
    + rewrite list_lookup_total_insert_ne by congruence.
      destruct (Hcover j Hj) as [Hin | HQ]; [|right; exact HQ].
      apply elem_of_cons in Hin as [-> | Hin]; [contradiction | left; exact Hin].
Qed.

End InsertAll.

Section CrossEntropyNDCGExact.
Context `{Externals R} `{!XeNdcgExternals R}.
Local Open Scope R_scope.

Lemma xe_ndcg_clamped_probability (v : R) :
  1 / 100000 <= clamp v xe_ndcg_min_probability xe_ndcg_max_probability
             <= 99999 / 100000.
Proof.
  unfold clamp, xe_ndcg_min_probability, xe_ndcg_max_probability, literal. cbn.
  destruct (Rlt_dec v (1 / 100000)), (Rlt_dec (99999 / 100000) v); lra.
Qed.

Lemma xe_ndcg_group_hessian_bounds (gamma : XeNdcg_Gamma) (predictions : list R)
    (st : list R * list R * RandomEngine) (group : Group R) (n : nat) :
  length st.1.2 = n /\ Forall (fun h => 0 <= h <= 1 / 4) st.1.2 ->
  let st' := xe_ndcg_group gamma predictions st group in
  length st'.1.2 = n /\ Forall (fun h => 0 <= h <= 1 / 4) st'.1.2.
Proof.
  destruct st as [[g h] random]. cbn [fst snd]. intros Hst.
  unfold xe_ndcg_group.
  case_decide as Hsize; [exact Hst|].
  destruct (xe_ndcg_params gamma _ random) as [params random'].
  set (preds0 := (fun item => predictions !!! example_idx item) <$> items group).
  set (max_pred := max_element preds0).
  match goal with
  | |- context [foldl ?f preds0 ?l] => set (preds := foldl f preds0 l)
  end.
  assert (Hpreds : Forall (fun p => 1 / 100000 <= p <= 99999 / 100000) preds).
  { subst preds.
    match goal with
    | |- context [fadd binary32 max_pred ?x] =>
        generalize (fadd binary32 max_pred x)
    end.
    intros log_sum_exp.
    apply (foldl_insert_covering
             (fun p => 1 / 100000 <= p <= 99999 / 100000)
             (fun preds idx =>
                clamp (f_exp binary32 (fsub binary32 (preds !!! idx) log_sum_exp))
                      xe_ndcg_min_probability xe_ndcg_max_probability)).
    - intros l i. apply xe_ndcg_clamped_probability.
    - intros j Hj. left. apply elem_of_seq.
      subst preds0. rewrite length_fmap in Hj. lia. }
  assert (Hlen : length preds = length (items group)).
  { subst preds. apply foldl_invariant.
    - subst preds0. apply length_fmap.
    - intros l i Hl. rewrite length_insert. exact Hl. }
  clearbody preds. clear preds0 max_pred.
  destruct (foldl _ (params, of_int binary32 0) _) as [params1 inv_denominator].
  destruct (feq inv_denominator (of_int binary32 0)); [exact Hst|].
  destruct (foldl _ (g, params1, of_int binary32 0) _) as [[g1 params2] sum_l1].
  destruct (foldl _ (g1, params2, of_int binary32 0) _) as [[g2 params3] sum_l2].
  match goal with
  | |- context [foldl ?f (g2, h) ?l] =>
      pose proof (foldl_invariant_elem
        (fun st : list R * list R =>
           length st.2 = n /\ Forall (fun h => 0 <= h <= 1 / 4) st.2)
        f l (g2, h)) as Hinv
  end.
  destruct (foldl _ (g2, h) _) as [g3 h3]. cbn [fst snd] in *.
  apply Hinv; [exact Hst|].
  intros [g' h'] idx Hidx [Hl Hall]. cbn [fst snd] in *.
  apply elem_of_seq in Hidx.
  split; [rewrite length_insert; exact Hl|].
  apply Forall_insert; [exact Hall|].
  assert (Hp : 1 / 100000 <= preds !!! idx <= 99999 / 100000).
  { rewrite Forall_lookup in Hpreds.
    apply (Hpreds idx). apply list_lookup_lookup_total_lt. lia. }
  cbn. pose proof (Rle_0_sqr (preds !!! idx - 1 / 2)) as Hsq.
  unfold Rsqr in Hsq. generalize dependent (preds !!! idx). intros p. intros.
  split; nra.
Qed.

(** X30.  In exact arithmetic the hessians the cross-entropy NDCG loss
    writes are variances of a clamped probability: after [UpdateGradients]
    the hessian vector has the length it had and every cell of it lies
    between 0 and 1/4, for any predictions, groups, [gamma] and random
    draws. *)
Theorem CrossEntropyNDCGLoss_UpdateGradients_hessian_exact_bounds
    (gamma : XeNdcg_Gamma) (predictions : list R)
    (ranking_index : RankingGroupsIndices R)
    (gradients : list (GradientData R)) (random : RandomEngine) :
  let '(status, gradients', _) :=
    CrossEntropyNDCGLoss_UpdateGradients gamma predictions ranking_index
      gradients random in
  status = OkStatus /\
  length (hessian (gradients' !!! 0%nat)) =
    length (hessian (gradients !!! 0%nat)) /\
  Forall (fun h => 0 <= h <= 1 / 4) (hessian (gradients' !!! 0%nat)).
Proof.
  unfold CrossEntropyNDCGLoss_UpdateGradients.
  match goal with
  | |- context [foldl ?f ?a ?l] =>
      pose proof (foldl_invariant
        (fun st : list R * list R * RandomEngine =>
           length st.1.2 = length (hessian (gradients !!! 0%nat)) /\
           Forall (fun h => 0 <= h <= 1 / 4) st.1.2) f l a) as Hinv
  end.
  destruct (foldl _ _ (groups_ ranking_index)) as [[g h] random'].
  cbn [fst snd] in Hinv.
  destruct Hinv as [Hlen Hall].
  - split; [apply length_replicate|].
    apply Forall_replicate. cbn. lra.
  - intros st group Hst. apply xe_ndcg_group_hessian_bounds. exact Hst.
  - split; [reflexivity|].
    destruct gradients as [|first rest]; cbn.
    + split; [reflexivity | constructor].
    + cbn in Hlen. split; assumption.
Qed.

End CrossEntropyNDCGExact.

(** ** The further properties on small inputs *)

Lemma InitialPredictions_one_per_tree_example :
  AbstractLoss_InitialPredictions (MultinomialLogLikelihoodLoss 2)
    Examples.exact_binary_dataset 0 [1; 1]%R = Returns (Value [0; 0]%R) /\
  Z.of_nat (length [0; 0]%R) =
    expected_number_of_trees (MultinomialLogLikelihoodLoss 2).
Proof.
  split; [reflexivity|].
  apply (InitialPredictions_one_per_tree (MultinomialLogLikelihoodLoss 2)
           Examples.exact_binary_dataset 0 [1; 1]%R [0; 0]%R).
  reflexivity.
Defined.

Lemma Validated_model_Predict_returns_example :
  GradientBoostedTreesModel_Validate OkStatus (fun _ => OkStatus)
    Samples.classification_model_data Examples.exact_multinomial_model =
    Returns OkStatus /\
  loss_ Examples.exact_multinomial_model <> DEFAULT /\
  (exists result,
     Predict Examples.exact_multinomial_model Samples.one_row 0 type_not_set =
     Returns result) /\
  (exists result,
     Predict_Example Examples.exact_multinomial_model [] type_not_set =
     Returns result).
Proof.
  assert (Hvalid : GradientBoostedTreesModel_Validate OkStatus (fun _ => OkStatus)
                     Samples.classification_model_data
                     Examples.exact_multinomial_model = Returns OkStatus)
    by reflexivity.
  assert (Hloss : loss_ Examples.exact_multinomial_model <> DEFAULT)
    by discriminate.
  split; [exact Hvalid|]. split; [exact Hloss|].
  exact (Validated_model_Predict_returns OkStatus (fun _ => OkStatus)
           Samples.classification_model_data Examples.exact_multinomial_model
           Samples.one_row 0 [] type_not_set Hvalid Hloss).
Defined.

Lemma Predict_overloads_agree_example :
  Forall (fun tree => GetLeaf tree Samples.one_row 0 = GetLeaf_Example tree [])
         (decision_trees_ Samples.exact_binomial_model) /\
  loss_ Samples.exact_binomial_model <> MULTINOMIAL_LOG_LIKELIHOOD /\
  (loss_ Samples.exact_binomial_model = SQUARED_ERROR ->
   task Samples.exact_binomial_model = REGRESSION) /\
  Predict Samples.exact_binomial_model Samples.one_row 0 type_not_set =
  Predict_Example Samples.exact_binomial_model [] type_not_set.
Proof.
  assert (Hleaves : Forall (fun tree => GetLeaf tree Samples.one_row 0 =
                                        GetLeaf_Example tree [])
                           (decision_trees_ Samples.exact_binomial_model))
    by (repeat constructor).
  assert (Hloss : loss_ Samples.exact_binomial_model <> MULTINOMIAL_LOG_LIKELIHOOD)
    by discriminate.
  assert (Htask : loss_ Samples.exact_binomial_model = SQUARED_ERROR ->
                  task Samples.exact_binomial_model = REGRESSION)
    by discriminate.
  split; [exact Hleaves|]. split; [exact Hloss|]. split; [exact Htask|].
  exact (Predict_overloads_agree Samples.exact_binomial_model Samples.one_row 0
           [] type_not_set Hleaves Hloss Htask).
Defined.

Lemma Predict_multinomial_is_softmax_example :
  loss_ Examples.exact_multinomial_model = MULTINOMIAL_LOG_LIKELIHOOD /\
  exists classes,
    Predict Examples.exact_multinomial_model Samples.one_row 0 type_not_set =
      Returns (classification classes) /\
    length (counts (distribution classes)) = 3 /\
    sum (distribution classes) = 1%R.
Proof.
  split; [reflexivity|].
  destruct (Predict_multinomial_is_softmax Examples.exact_multinomial_model
              Samples.one_row 0 type_not_set eq_refl)
    as (classes & Hpredict & Hlen & _ & Hsum & _).
  exists classes. split; [exact Hpredict|]. split; [exact Hlen | exact Hsum].
Defined.

Lemma Predict_multinomial_class_is_first_argmax_example :
  loss_ Examples.exact_multinomial_model = MULTINOMIAL_LOG_LIKELIHOOD /\
  0 < num_trees_per_iter_ Examples.exact_multinomial_model /\
  exists classes k,
    Predict Examples.exact_multinomial_model Samples.one_row 0 type_not_set =
      Returns (classification classes) /\
    value classes = (Z.of_nat k + 1)%Z /\
    k < num_trees_per_iter_ Examples.exact_multinomial_model.
Proof.
  assert (Hpositive : 0 < num_trees_per_iter_ Examples.exact_multinomial_model)
    by (cbn; lia).
  split; [reflexivity|]. split; [exact Hpositive|].
  destruct (Predict_multinomial_class_is_first_argmax
              Examples.exact_multinomial_model Samples.one_row 0 type_not_set
              eq_refl Hpositive)
    as (classes & k & Hpredict & Hvalue & Hk & _).
  exists classes, k. split; [exact Hpredict|]. split; [exact Hvalue | exact Hk].
Defined.

Lemma Predict_binomial_exact_example :
  loss_ Samples.exact_binomial_model = BINOMIAL_LOG_LIKELIHOOD /\
  exists classes,
    Predict Samples.exact_binomial_model Samples.one_row 0 type_not_set =
      Returns (classification classes) /\
    length (counts (distribution classes)) = 3.
Proof.
  split; [reflexivity|].
  destruct (Predict_binomial_exact Samples.exact_binomial_model
              Samples.one_row 0 type_not_set eq_refl)
    as (classes & Hpredict & _ & _ & Hlen & _).
  exists classes. split; [exact Hpredict | exact Hlen].
Defined.

Lemma Predict_overloads_agree_multinomial_exact_example :
  Forall (fun tree => GetLeaf tree Samples.one_row 0 = GetLeaf_Example tree [])
         (decision_trees_ Examples.exact_multinomial_model) /\
  loss_ Examples.exact_multinomial_model = MULTINOMIAL_LOG_LIKELIHOOD /\
  0 < num_trees_per_iter_ Examples.exact_multinomial_model /\
  length (decision_trees_ Examples.exact_multinomial_model)
    `mod` num_trees_per_iter_ Examples.exact_multinomial_model = 0 /\
  Predict Examples.exact_multinomial_model Samples.one_row 0 type_not_set =
  Predict_Example Examples.exact_multinomial_model [] type_not_set.
Proof.
  assert (Hleaves : Forall (fun tree => GetLeaf tree Samples.one_row 0 =
                                        GetLeaf_Example tree [])
                           (decision_trees_ Examples.exact_multinomial_model))
    by (repeat constructor).
  assert (Hpositive : 0 < num_trees_per_iter_ Examples.exact_multinomial_model)
    by (cbn; lia).
  split; [exact Hleaves|]. split; [reflexivity|]. split; [exact Hpositive|].
  split; [reflexivity|].
  exact (proj1 (Predict_overloads_agree_multinomial_exact
                  Examples.exact_multinomial_model Samples.one_row 0 []
                  type_not_set Hleaves eq_refl Hpositive eq_refl)).
Defined.

Lemma multinomial_training_matches_inference_example :
  let iterations := [[Fixture.stump 3%R; Fixture.stump 3%R]] in
  0 < 2 /\
  Forall (fun trees => length trees = 2) iterations /\
  num_trees_per_iter_ Examples.exact_multinomial_model = 2 /\
  decision_trees_ Examples.exact_multinomial_model = mjoin iterations /\
  0 < nrow Samples.one_row /\ 1 < 2 /\
  successive_UpdatePredictions (MultinomialLogLikelihoodLoss (Z.of_nat 2))
    iterations Samples.one_row
    (replicate (nrow Samples.one_row * 2) (of_int binary32 0)) !!! (1 + 0 * 2) =
  (multinomial_accumulator Examples.exact_multinomial_model Samples.one_row 0).1
    !!! 1.
Proof.
  cbv zeta.
  assert (Hlengths : Forall (fun trees : list (DecisionTree R) => length trees = 2)
                            [[Fixture.stump 3%R; Fixture.stump 3%R]])
    by (repeat constructor).
  split; [lia|]. split; [exact Hlengths|]. split; [reflexivity|].
  split; [reflexivity|]. split; [cbn; lia|]. split; [lia|].
  apply (multinomial_training_matches_inference 2 Samples.one_row
           [[Fixture.stump 3%R; Fixture.stump 3%R]]
           Examples.exact_multinomial_model 0 1);
    [lia | exact Hlengths | reflexivity | reflexivity | cbn; lia | lia].
Defined.

Lemma univariate_training_matches_inference_example :
  (forall dimension_, NDCGLoss <> MultinomialLogLikelihoodLoss dimension_) /\
  0 < nrow Samples.one_row /\
  successive_UpdatePredictions NDCGLoss
    ((fun tree => [tree]) <$> decision_trees_ Samples.exact_binomial_model)
    Samples.one_row
    (replicate (nrow Samples.one_row)
       (initial_predictions_ Samples.exact_binomial_model !!! 0)) !!! 0 =
  sum_of_leaves Samples.exact_binomial_model Samples.one_row 0.
Proof.
  assert (Hloss : forall dimension_,
            NDCGLoss <> MultinomialLogLikelihoodLoss dimension_)
    by discriminate.
  assert (Hrow : 0 < nrow Samples.one_row) by (cbn; lia).
  split; [exact Hloss|]. split; [exact Hrow|].
  exact (univariate_training_matches_inference NDCGLoss
           Samples.exact_binomial_model Samples.one_row 0 Hloss Hrow).
Defined.

Lemma MultinomialLogLikelihoodLoss_SetLeaf_value_example :
  let train_dataset : VerticalDataset R :=
    {| nrow := 2; columns := [NumericalColumn [1 / 2; - (1 / 2)]%R] |} in
  let node : Node R :=
    {| regressor := {| top_value := 0%R; sum_gradients := None;
                       sum_hessians := None; sum_weights := None |} |} in
  ColumnWithCast_NumericalColumn train_dataset 0 =
    Returns [1 / 2; - (1 / 2)]%R /\
  (0 <= clamp_leaf_logit Examples.exact_config)%R /\
  exists leaf,
    MultinomialLogLikelihoodLoss_SetLeaf (H0 := Fixture.externals) 2
      Examples.exact_config train_dataset [0; 1] [1; 1]%R 0 node = Returns leaf /\
    (- clamp_leaf_logit Examples.exact_config <= top_value (regressor leaf)
       <= clamp_leaf_logit Examples.exact_config)%R.
Proof.
  cbv zeta.
  assert (Hclamp : (0 <= clamp_leaf_logit Examples.exact_config)%R)
    by (cbn; lra).
  split; [reflexivity|]. split; [exact Hclamp|].
  destruct (MultinomialLogLikelihoodLoss_SetLeaf_value (H := Fixture.externals) 2
              Examples.exact_config
              {| nrow := 2; columns := [NumericalColumn [1 / 2; - (1 / 2)]%R] |}
              [0; 1] [1; 1]%R 0 [1 / 2; - (1 / 2)]%R
              {| regressor := {| top_value := 0%R; sum_gradients := None;
                                 sum_hessians := None; sum_weights := None |} |}
              eq_refl Hclamp)
    as (leaf & Hleaf & _ & Hbounds & _).
  exists leaf. split; [exact Hleaf | exact Hbounds].
Defined.

Lemma MeanSquaredErrorLoss_leaf_is_mean_gradient_example :
  let g : GradientData R := {| gradient := [0; 0]%R; hessian := [] |} in
  let node : Node R :=
    {| regressor := {| top_value := 0%R; sum_gradients := None;
                       sum_hessians := None; sum_weights := None |} |} in
  ColumnWithCast_NumericalColumn Samples.exact_regression_dataset 0 =
    Returns [1; 3]%R /\
  Forall (fun i => i < nrow Samples.exact_regression_dataset /\
                   i < length (gradient g)) [0; 1] /\
  (Rsum (fun i => [1; 1] !!! i) [0%nat; 1%nat] +
   l2_regularization Examples.exact_config / 2 <> 0)%R /\
  exists g' leaf,
    MeanSquaredErrorLoss_UpdateGradients Samples.exact_regression_dataset 0
      [0; 0]%R [g] = Returns (OkStatus, [g']) /\
    MeanSquaredErrorLoss_SetLeaf (H0 := Fixture.externals) Examples.exact_config
      Samples.exact_regression_dataset [0; 1] [1; 1]%R [0; 0]%R 0 node =
      Returns leaf.
Proof.
  cbv zeta.
  assert (Hrows : Forall (fun i => i < nrow Samples.exact_regression_dataset /\
                                   i < length [0; 0]%R) [0; 1])
    by (repeat constructor; cbn; lia).
  assert (Hweights : (Rsum (fun i => [1; 1] !!! i) [0%nat; 1%nat] +
                      l2_regularization Examples.exact_config / 2 <> 0)%R)
    by (unfold Rsum; cbn; lra).
  split; [reflexivity|]. split; [exact Hrows|]. split; [exact Hweights|].
  destruct (MeanSquaredErrorLoss_leaf_is_mean_gradient (H := Fixture.externals)
              Examples.exact_config Samples.exact_regression_dataset [0; 1]
              [1; 1]%R [0; 0]%R 0 [1; 3]%R
              {| gradient := [0; 0]%R; hessian := [] |}
              {| regressor := {| top_value := 0%R; sum_gradients := None;
                                 sum_hessians := None; sum_weights := None |} |}
              eq_refl Hrows Hweights)
    as (g' & leaf & Hgradients & Hleaf & _).
  exists g', leaf. split; [exact Hgradients | exact Hleaf].
Defined.

Lemma BinomialLogLikelihoodLoss_UpdateGradients_exact_example :
  let g : GradientData R := {| gradient := [0; 0]%R; hessian := [0; 0]%R |} in
  ColumnWithCast_CategoricalColumn Examples.exact_binary_dataset 0 =
    Returns [1; 2]%Z /\
  1 < nrow Examples.exact_binary_dataset /\
  1 < length (gradient g) /\ 1 < length (hessian g) /\
  exists g',
    BinomialLogLikelihoodLoss_UpdateGradients Examples.exact_config
      Examples.exact_binary_dataset 0 [0; 0]%R [g] = Returns (OkStatus, [g']) /\
    (-1 < gradient g' !!! 1%nat < 1)%R.
Proof.
  cbv zeta.
  split; [reflexivity|]. split; [cbn; lia|]. split; [cbn; lia|].
  split; [cbn; lia|].
  destruct (BinomialLogLikelihoodLoss_UpdateGradients_exact
              Examples.exact_config Examples.exact_binary_dataset 0 [1; 2]%Z
              [0; 0]%R {| gradient := [0; 0]%R; hessian := [0; 0]%R |} 1
              eq_refl ltac:(cbn; lia) ltac:(cbn; lia) ltac:(cbn; lia))
    as (g' & Hgradients & _ & Hbounds & _).
  exists g'. split; [exact Hgradients | exact Hbounds].
Defined.

Lemma MultinomialLogLikelihoodLoss_UpdateGradients_sum_zero_example :
  let gradients : list (GradientData R) :=
    [{| gradient := [0; 0]%R; hessian := [0; 0]%R |};
     {| gradient := [0; 0]%R; hessian := [0; 0]%R |}] in
  ColumnWithCast_CategoricalColumn Examples.exact_binary_dataset 0 =
    Returns [1; 2]%Z /\
  0 < nrow Examples.exact_binary_dataset /\
  Forall (fun g => 0 < length (gradient g)) gradients /\
  (1 <= [1; 2] !!! 0%nat <= Z.of_nat (length gradients))%Z /\
  exists gradients_after,
    MultinomialLogLikelihoodLoss_UpdateGradients Examples.exact_config
      Examples.exact_binary_dataset 0 [0; 0; 0; 0]%R gradients =
      Returns (OkStatus, gradients_after) /\
    Rsum (fun k => gradient (gradients_after !!! k) !!! 0)
         (seq 0 (length gradients)) = 0%R.
Proof.
  cbv zeta.
  assert (Hcells : Forall (fun g : GradientData R => 0 < length (gradient g))
            [{| gradient := [0; 0]%R; hessian := [0; 0]%R |};
             {| gradient := [0; 0]%R; hessian := [0; 0]%R |}])
    by (repeat constructor; cbn; lia).
  assert (Hlabel : (1 <= [1; 2] !!! 0%nat <=
                    Z.of_nat (length [{| gradient := [0; 0]%R; hessian := [0; 0]%R |};
                                      {| gradient := [0; 0]%R; hessian := [0; 0]%R |}]))%Z)
    by (cbn; lia).
  split; [reflexivity|]. split; [cbn; lia|]. split; [exact Hcells|].
  split; [exact Hlabel|].
  destruct (MultinomialLogLikelihoodLoss_UpdateGradients_sum_zero
              Examples.exact_config Examples.exact_binary_dataset 0 [1; 2]%Z
              [0; 0; 0; 0]%R
              [{| gradient := [0; 0]%R; hessian := [0; 0]%R |};
               {| gradient := [0; 0]%R; hessian := [0; 0]%R |}] 0
              eq_refl ltac:(cbn; lia) Hcells Hlabel)
    as (gradients_after & Hgradients & _ & Hsum).
  exists gradients_after. split; [exact Hgradients | exact Hsum].
Defined.

Lemma RankingGroupsIndices_Initialize_groups_rows_by_value_example :
  RankingGroupsIndices_Initialize (H := IEEE.arith (H := Fixture.libm))
    Examples.ranking_dataset 0 1 = Returns Examples.ranking_index /\
  all_example_indices Examples.ranking_index ≡ₚ
    seq 0 (nrow Examples.ranking_dataset) /\
  NoDup (group_idx <$> groups_ Examples.ranking_index).
Proof.
  assert (Hinit : RankingGroupsIndices_Initialize
                    (H := IEEE.arith (H := Fixture.libm))
                    Examples.ranking_dataset 0 1 =
                  Returns Examples.ranking_index)
    by (vm_compute; reflexivity).
  split; [exact Hinit|].
  destruct (RankingGroupsIndices_Initialize_groups_rows_by_value
              (H := IEEE.arith (H := Fixture.libm))
              Examples.ranking_dataset 0 1 Examples.ranking_index Hinit)
    as (Hrows & Hgroups & _).
  split; [exact Hrows | exact Hgroups].
Defined.

Lemma NDCGLoss_UpdateGradients_equal_relevances_example :
  (forall group a b,
     group ∈ groups_ Samples.tied_ranking_index ->
     a ∈ items group -> b ∈ items group ->
     feq (Arith := IEEE.arith (H := Fixture.libm))
       (relevance a) (relevance b) = true) /\
  let '(status, gradients_after, _) :=
    NDCGLoss_UpdateGradients (H := IEEE.arith (H := Fixture.libm))
      (H0 := Fixture.externals (H := IEEE.arith (H := Fixture.libm)))
      {| shrinkage := Examples.one; l1_regularization := Examples.zero;
         l2_regularization := Examples.zero; clamp_leaf_logit := Examples.one;
         use_hessian_gain := false; lambda_loss := Examples.one;
         gradient_use_non_normalized_dcg := false |}
      [Examples.one; Examples.zero] Samples.tied_ranking_index
      Samples.float_gradients tt in
  status = OkStatus /\
  gradient (gradients_after !!! 0) = [Examples.zero; Examples.zero].
Proof.
  assert (Htied : forall group a b,
            group ∈ groups_ Samples.tied_ranking_index ->
            a ∈ items group -> b ∈ items group ->
            feq (Arith := IEEE.arith (H := Fixture.libm))
              (relevance a) (relevance b) = true).
  { intros group a b Hgroup Ha Hb.
    apply list_elem_of_singleton in Hgroup. subst group.
    cbn [items Samples.tied_ranking_index] in Ha, Hb.
    apply elem_of_cons in Ha as [-> | Ha];
      [|apply list_elem_of_singleton in Ha; subst a];
      (apply elem_of_cons in Hb as [-> | Hb];
       [|apply list_elem_of_singleton in Hb; subst b]);
      vm_compute; reflexivity. }
  split; [exact Htied|].
  pose proof (NDCGLoss_UpdateGradients_equal_relevances
                (H := IEEE.arith (H := Fixture.libm))
                (H0 := Fixture.externals (H := IEEE.arith (H := Fixture.libm)))
                {| shrinkage := Examples.one; l1_regularization := Examples.zero;
                   l2_regularization := Examples.zero;
                   clamp_leaf_logit := Examples.one;
                   use_hessian_gain := false; lambda_loss := Examples.one;
                   gradient_use_non_normalized_dcg := false |}
                [Examples.one; Examples.zero] Samples.tied_ranking_index
                Samples.float_gradients tt Htied) as Hzero.
  destruct (NDCGLoss_UpdateGradients _ _ _ _ _) as [[status gradients_after] random].
  destruct Hzero as (Hstatus & Hgradient & _).
  split; [exact Hstatus | exact Hgradient].
Defined.

Lemma BinomialLogLikelihoodLoss_Loss_exact_bounds_example :
  ColumnWithCast_CategoricalColumn Examples.exact_binary_dataset 0 =
    Returns [1; 2]%Z /\
  (forall i, i < nrow Examples.exact_binary_dataset ->
     (0 <= [1; 1] !!! i)%R) /\
  (0 < Rsum (fun i => [1; 1] !!! i)
            (seq 0%nat (nrow Examples.exact_binary_dataset)))%R /\
  exists loss accuracy,
    BinomialLogLikelihoodLoss_Loss
      (H1 := {| quiet_NaN := 0%R; isnan := fun _ => false |})
      Examples.exact_binary_dataset 0 [0; 0]%R [1; 1]%R None 0%R [] =
      Returns (OkStatus, loss, [accuracy]) /\
    (0 < loss)%R /\ (0 <= accuracy <= 1)%R.
Proof.
  assert (Hweights : forall i, i < nrow Examples.exact_binary_dataset ->
                       (0 <= [1; 1] !!! i)%R).
  { intros [|[|i]] Hi; cbn in *; try lra. lia. }
  assert (Htotal : (0 < Rsum (fun i => [1; 1] !!! i)
                             (seq 0%nat (nrow Examples.exact_binary_dataset)))%R)
    by (unfold Rsum; cbn; lra).
  split; [reflexivity|]. split; [exact Hweights|]. split; [exact Htotal|].
  exact (BinomialLogLikelihoodLoss_Loss_exact_bounds
           (H0 := {| quiet_NaN := 0%R; isnan := fun _ => false |})
           Examples.exact_binary_dataset 0 [1; 2]%Z [0; 0]%R [1; 1]%R None 0%R []
           eq_refl Hweights Htotal).
Defined.

Lemma NDCGLoss_Loss_exact_bounds_example :
  let weights := [1; 1; 1; 1]%R in
  let predictions := [3; 1; 2; 0]%R in
  (forall group, group ∈ groups_ Examples.exact_ranking_index ->
     (0 <= weights !!! example_idx (items group !!! 0%nat))%R /\
     (1 <= NDCGCalculator_NDCG (Externals := Fixture.externals) kNDCG5Truncation
             (ExtractPredAndLabelRelevance (items group) predictions) <= 1)%R) /\
  (exists group, group ∈ groups_ Examples.exact_ranking_index /\
     (0 < weights !!! example_idx (items group !!! 0%nat))%R) /\
  exists ndcg,
    NDCGLoss_Loss (H0 := Fixture.externals)
      {| nrow := 4; columns := [] |} 0 predictions weights
      (Some Examples.exact_ranking_index) 0%R [] =
      Returns (OkStatus, (- ndcg)%R, [ndcg]) /\
    (1 <= ndcg <= 1)%R.
Proof.
  cbv zeta.
  assert (Hgroups : forall group, group ∈ groups_ Examples.exact_ranking_index ->
            (0 <= [1; 1; 1; 1] !!! example_idx (items group !!! 0%nat))%R /\
            (1 <= NDCGCalculator_NDCG (Externals := Fixture.externals)
                    kNDCG5Truncation
                    (ExtractPredAndLabelRelevance (items group) [3; 1; 2; 0]%R)
               <= 1)%R).
  { intros group Hgroup.
    apply elem_of_cons in Hgroup as [-> | Hgroup];
      [|apply list_elem_of_singleton in Hgroup; subst group]; cbn; lra. }
  assert (Hpositive : exists group, group ∈ groups_ Examples.exact_ranking_index /\
            (0 < [1; 1; 1; 1] !!! example_idx (items group !!! 0%nat))%R).
  { eexists. split; [left|]. cbn. lra. }
  split; [exact Hgroups|]. split; [exact Hpositive|].
  exact (NDCGLoss_Loss_exact_bounds (H := Fixture.externals)
           {| nrow := 4; columns := [] |} 0 [3; 1; 2; 0]%R [1; 1; 1; 1]%R
           Examples.exact_ranking_index 0%R [] 1%R 1%R Hgroups Hpositive).
Defined.

Lemma PredictionToExample_of_multinomial_Predict_example :
  loss_ Examples.exact_multinomial_model = MULTINOMIAL_LOG_LIKELIHOOD /\
  exists predicted exported,
    Predict Examples.exact_multinomial_model Samples.one_row 0 type_not_set =
      Returns predicted /\
    PredictionToExample CLASSIFICATION Samples.binary_label predicted [] =
      (OkStatus, exported) /\
    length exported = 2.
Proof.
  split; [reflexivity|].
  destruct (PredictionToExample_of_multinomial_Predict
              Examples.exact_multinomial_model Samples.one_row 0 type_not_set
              Samples.binary_label [] eq_refl)
    as (predicted & Hpredict & Hexport).
  exists predicted. eexists. split; [exact Hpredict|].
  split; [exact Hexport | reflexivity].
Defined.

Lemma CrossEntropyNDCGLoss_UpdateGradients_without_pairs_example :
  Forall (fun group : Group spec_float => length (items group) <= 1)
         (groups_ Samples.singleton_ranking_index) /\
  CrossEntropyNDCGLoss_UpdateGradients (H := IEEE.arith (H := Fixture.libm))
    (XeNdcgExternals0 :=
       Samples.xe_ndcg_externals (H := IEEE.arith (H := Fixture.libm)))
    XeNdcg_AUTO
    [Examples.one; Examples.zero] Samples.singleton_ranking_index
    Samples.float_gradients tt =
  (OkStatus,
   [{| gradient := [Examples.zero; Examples.zero];
       hessian := [Examples.zero; Examples.zero] |}],
   tt).
Proof.
  assert (Hsingle : Forall (fun group : Group spec_float =>
                              length (items group) <= 1)
                           (groups_ Samples.singleton_ranking_index))
    by (repeat constructor).
  split; [exact Hsingle|].
  exact (CrossEntropyNDCGLoss_UpdateGradients_without_pairs
           (H := IEEE.arith (H := Fixture.libm))
           (XeNdcgExternals0 :=
       Samples.xe_ndcg_externals (H := IEEE.arith (H := Fixture.libm)))
    XeNdcg_AUTO
           [Examples.one; Examples.zero] Samples.singleton_ranking_index
           Samples.float_gradients tt Hsingle).
Defined.
